(* ===== verification/_CoqProject ===== *)
-Q . S2P
Prelude.v
U256.v
Math.v
Params.v
Stack.v
Memory.v
OpCodes.v
Analysis.v
Rlp.v
RlpProofs.v
AccessList.v
Host.v
State.v
StateDB.v
StateProofs.v
VmErrors.v
Precompiles.v
Contract.v
Vm.v
Gas.v
Instr.v
JumpTable.v
Evm.v
Demo.v
VmLogic.v
InstrProofs.v
GasProofs.v
EvmProofs.v
Atomicity.v
Transition.v
TransitionProofs.v
StateProps.v
MachineProps.v
