(* ===== verification/Prelude.v ===== *)
(** * Verification of cardinal-evm

    cardinal-evm executes Ethereum messages against a read-only storage backend:
    a JSON-RPC server opens a storage transaction, builds a state database over
    it, and applies messages with an EVM.  This development models that core and
    proves what makes it correct.  It is a shallow embedding: Go functions are
    Rocq functions, mutable objects are explicit state, Go errors are values,
    and a Go panic is the outcome [Panic].

    ** How Go is modelled

    This file defines [result] (a value, a panic, or fuel used up) and the state
    monad [ST]; 64-bit integers are [Z] with [u64] written where the code wraps;
    byte slices are lists of [Z]; an index or slice expression out of range is
    [Panic] ([index], [slice], [set_index]).  Code outside the repository is a
    class of functions with the laws its documentation gives: holiman/uint256
    ([U256.Uint256], [Uint256Laws], instance [uint256_Z]); the Keccak sponge, the
    storage transaction and the hash type ([Host.Host]); hash, curve and KZG
    libraries behind the precompiles ([Precompiles.Crypto]); btcec's key
    recovery ([Transition.Secp256k1]).  Demo.v has concrete instances, on which
    witnesses are evaluated.

    ** Files and what they model

    - U256.v, Math.v, Params.v: uint256 interface; common/math/integer.go,
      common/bytes.go, common/types.go, vm/common.go; params/protocol_params.go
      and the fork rules of params/config.go.
    - Stack.v, Memory.v, OpCodes.v, Analysis.v: vm/stack.go, stack_table.go,
      memory_table.go, memory.go, opcodes.go, analysis.go.
    - Rlp.v, RlpProofs.v: rlp/raw.go, the encoding buffer of encbuffer.go and the
      decoding stream of decode.go, and the codecs of the types used here.
    - Host.v: the outside world, with crypto/crypto.go and schema/schema.go on it.
    - AccessList.v, State.v, StateDB.v: state/access_list.go, state_object.go,
      account.go, statedb.go.  The journal is a list of undo records
      ([journalEntry]) in place of closures; [revert_entry] is what each closure
      does.  Every operation, reads included, transforms the state, because
      reads load accounts, code and slots into the objects.
    - VmErrors.v, Contract.v, Precompiles.v: vm/errors.go; contract.go with
      types/tx_setcode.go; contracts.go.
    - Vm.v: the state of the machine: [evmS] (the changing fields of EVM and
      EVMInterpreter), [evmE] (the fixed ones), [frame] (one running contract).
      [e_abort] gives the value of the abort flag at each atomic read, so any
      interleaving with Cancel is covered.
    - Gas.v, Instr.v, JumpTable.v: gas.go, gas_table.go, operations_acl.go;
      instructions.go, eips.go; jump_table.go and the choice of a table in
      interpreter.go.  Function values are constructors interpreted by
      [execute_sem], [dynamicGas_sem] and [memorySize_sem].  The tables of the
      forks are package variables that every interpreter writes to: they are the
      state [Tables], which [NewEVMInterpreter] takes and returns, and
      [reachable_tables] are those that any sequence of interpreters leaves.
    - Evm.v: the interpreter loop and the calls of vm/evm.go, [NewEVM] included.
    - Transition.v: api/gaspool.go, api/state_transition.go.

    ** How the parts interact

    [Transition.ApplyMessage] runs [preCheck], [buyGas], the authorizations and
    then [Evm.Call] or [Evm.Create]; these take a snapshot of the state database,
    run the loop, and revert on error.  The loop runs handlers of Instr.v, which
    reach back into [Call] and the others through the record [Calls]; prices
    come from Gas.v, jump checks from Contract.v and Analysis.v.  Proofs follow
    the same lines: a property of the database ([StateProofs.ext],
    [StateProofs.cached]) or of the machine ([VmLogic.safe], [VmLogic.wp]) is
    stated once, shown for every operation and composed along the monad.

    ** What is proved

    - VmLogic.v, InstrProofs.v, GasProofs.v, EvmProofs.v: a program logic; every
      handler keeps the stack a stack of 256-bit words; what the gas functions
      charge; every iteration that goes on costs gas, so that execution
      terminates, for every table an interpreter can get ([reachable_tables]),
      under rules that do not have Berlin without EIP-150.
    - StateProofs.v: snapshots.  [sdb_read s] are the read methods whose answer
      in [s] does not depend on what is cached: all of them, except that
      GetCodeHash is included for accounts where the hash of the code and the
      hash in the account agree or one of them decides ([hash_settled]), Exist
      and Empty where the same holds of existence ([empty_settled]).
      StateProps.v shows that the exception is real: loading an account is not
      journalled, and changes these answers.
    - Atomicity.v: a failed call leaves no trace (by simulation between the state
      before, [cached], and the state extended by journalled operations, [ext]).
    - TransitionProofs.v: the gas of a message is accounted for, settling returns
      and pays what is due, prices are the sums of the EIPs, rejected messages
      leave no trace, a free call charges the coinbase.
    - Analysis.v, Contract.v: jump destinations; RlpProofs.v: round trips and
      canonicity; AccessList.v: refinement to a map; Precompiles.v, Params.v,
      Math.v, Memory.v, Stack.v: the laws of these parts.
    - StateProps.v: reads after writes; where the code hash of an account goes
      stale, and what that does to shared jump analyses.
    - MachineProps.v: what one iteration does, the frame of a handler, checks on
      created code, extra EIPs, disabled opcodes that leak into later
      interpreters, static calls of delegated accounts.

    ** Fuel

    The loop ([Evm.loop]) takes fuel; an iteration with fuel [S f] runs nested
    frames and remaining iterations with [f].  Fuel above the gas of the call is
    enough ([EVM_Call_terminates]), since every iteration costs at least one gas
    and a callee gets less than its caller had.  Other loops take a measure of
    their data (code length, bytes left) as fuel and are proved not to run out.

    ** Not modelled

    Tracers and logging (they observe only); String, JSON and hex conversions;
    a goroutine that writes to a shared table while another interpreter runs on
    it; reflection in rlp (typecache.go, encode.go's and decode.go's type
    dispatch) and the code generator rlp/rlpgen; the request handlers of api/
    around ApplyMessage; transactions and signers of types/; eips/eip4844; the
    concrete networks of params/config.go; elliptic curve, pairing and hash
    libraries under crypto/; the ABI package (client side); streams, engine,
    plugins, cmd (network plumbing).  Slice capacity is modelled only where the
    code reslices past a length ([Transition.code_prefix]); elsewhere slices do
    not alias. *)
From Stdlib Require Import ZArith Lia.
From stdpp Require Import base numbers list gmap.
Local Open Scope Z_scope.

(** * Outcomes of Go code

    A Go computation of this repository either returns, panics (an index out
    of range, a nil dereference, an explicit [panic]), or, in a model whose
    loop is cut off by fuel, has not returned yet.  Errors that the code
    returns as values are ordinary results. *)
Inductive result (A : Type) : Type :=
| Ok (a : A)
| Panic
| OutOfFuel.
Arguments Ok {A} a.
Arguments Panic {A}.
Arguments OutOfFuel {A}.

#[global] Instance result_ret : MRet result := fun _ a => Ok a.
#[global] Instance result_bind : MBind result := fun _ _ f m =>
  match m with Ok a => f a | Panic => Panic | OutOfFuel => OutOfFuel end.

(** Reading through a pointer or an index: [None] is a Go panic. *)
Definition from_option_panic {A} (o : option A) : result A :=
  match o with Some a => Ok a | None => Panic end.

(** ** State passing

    [ST S A] is a computation that reads and writes a state of type [S]. *)
Definition ST (S A : Type) : Type := S -> result (A * S).

#[global] Instance ST_ret S : MRet (ST S) := fun _ a s => Ok (a, s).
#[global] Instance ST_bind S : MBind (ST S) := fun _ _ f m s =>
  match m s with
  | Ok (a, s') => f a s'
  | Panic => Panic
  | OutOfFuel => OutOfFuel
  end.

Definition st_get {S} : ST S S := fun s => Ok (s, s).
Definition st_put {S} (s : S) : ST S unit := fun _ => Ok (tt, s).
Definition st_modify {S} (f : S -> S) : ST S unit := fun s => Ok (tt, f s).
Definition st_gets {S A} (f : S -> A) : ST S A := fun s => Ok (f s, s).
Definition st_lift {S A} (r : result A) : ST S A := fun s =>
  match r with Ok a => Ok (a, s) | Panic => Panic | OutOfFuel => OutOfFuel end.
Definition st_panic {S A} : ST S A := fun _ => Panic.

(** ** Reasoning about state passing

    [st_rel R m]: whenever [m] returns, the state before and the state after
    are related by [R].  For a preorder [R] the relation composes along
    [mbind], so that a whole handler inherits it from its calls. *)
Definition st_rel {S A} (R : S -> S -> Prop) (m : ST S A) : Prop :=
  forall s a s', m s = Ok (a, s') -> R s s'.

Section StRel.
Context {S : Type} (R : S -> S -> Prop) {HR : PreOrder R}.

Lemma st_rel_ret {A} (a : A) : st_rel R (mret a).
Proof. intros s b s' [= <- <-]. reflexivity. Qed.

Lemma st_rel_bind {A B} (m : ST S A) (f : A -> ST S B) :
  st_rel R m -> (forall a, st_rel R (f a)) -> st_rel R (m ≫= f).
Proof.
  intros Hm Hf s b s'. unfold mbind, ST_bind.
  destruct (m s) as [[a s1]| |] eqn:E; intros H; try discriminate.
  etransitivity; [eapply Hm, E | eapply Hf, H].
Qed.

Lemma st_rel_get : st_rel R st_get.
Proof. intros s b s' [= <- <-]. reflexivity. Qed.

Lemma st_rel_gets {A} (f : S -> A) : st_rel R (st_gets f).
Proof. intros s b s' [= <- <-]. reflexivity. Qed.

Lemma st_rel_lift {A} (r : result A) : st_rel R (st_lift r).
Proof. intros s b s'. destruct r; intros [=]; subst; reflexivity. Qed.

Lemma st_rel_panic {A} : st_rel R (@st_panic S A).
Proof. intros s b s' [=]. Qed.

Lemma st_rel_if {A} (b : bool) (m n : ST S A) :
  st_rel R m -> st_rel R n -> st_rel R (if b then m else n).
Proof. by destruct b. Qed.

Lemma st_rel_modify (f : S -> S) : (forall s, R s (f s)) -> st_rel R (st_modify f).
Proof. intros H s b s' [= <- <-]. apply H. Qed.
End StRel.

Create HintDb strel.

(** * Machine integers

    A [w]-bit unsigned integer is a [Z] in range; wrap-around is written out
    by [u64] and [u256]. *)
Definition MaxUint64 : Z := 18446744073709551615.
Definition u64 (z : Z) : Z := z mod 2 ^ 64.
Definition u256 (z : Z) : Z := z mod 2 ^ 256.
Definition is_u64 (z : Z) : Prop := 0 <= z < 2 ^ 64.
Definition is_u256 (z : Z) : Prop := 0 <= z < 2 ^ 256.

(** The conversion [int64(x)] of a [uint64]. *)
Definition int64_of (z : Z) : Z := if z <? 2 ^ 63 then z else z - 2 ^ 64.

Lemma u64_range z : is_u64 (u64 z).
Proof. apply Z.mod_pos_bound. lia. Qed.
Lemma u64_id z : is_u64 z -> u64 z = z.
Proof. apply Z.mod_small. Qed.
Lemma u256_range z : is_u256 (u256 z).
Proof. apply Z.mod_pos_bound. lia. Qed.
Lemma u256_id z : is_u256 z -> u256 z = z.
Proof. apply Z.mod_small. Qed.
Lemma int64_of_small z : 0 <= z < 2 ^ 63 -> int64_of z = z.
Proof. intros H. unfold int64_of. destruct (Z.ltb_spec z (2 ^ 63)); lia. Qed.

Create HintDb word.
Create Rewrite HintDb word.
#[export] Hint Resolve u64_range u256_range : word.
#[export] Hint Rewrite u64_id u256_id using (unfold is_u64, is_u256 in *; lia) : word.

(** * Bytes

    A byte is a [Z] in [0, 256), a Go byte slice a list of them. *)
Abbreviation bytes := (list Z).
Definition is_byte (b : Z) : Prop := 0 <= b < 256.
Definition wf_bytes (l : bytes) : Prop := Forall is_byte l.

(** The length of a slice, as the [Z] that [len] gives. *)
Definition zlen {A} (l : list A) : Z := Z.of_nat (length l).

(** The value of a big-endian byte string. *)
Definition be_val (l : bytes) : Z := fold_left (fun acc b => acc * 256 + b) l 0.

(** The [n] low bytes of [z], most significant first. *)
Fixpoint be_bytes (n : nat) (z : Z) : bytes :=
  match n with
  | O => []
  | S n' => be_bytes n' (z / 256) ++ [z mod 256]
  end.

(** Go's slice expression [b[i:j]]: a panic unless [0 <= i <= j <= len b].
    (Capacity beyond the length is not modelled.) *)
Definition slice {A} (l : list A) (i j : Z) : result (list A) :=
  if (0 <=? i) && (i <=? j) && (j <=? zlen l)
  then Ok (take (Z.to_nat (j - i)) (drop (Z.to_nat i) l))
  else Panic.

(** Go's index expression [b[i]]. *)
Definition index {A} (l : list A) (i : Z) : result A :=
  if (0 <=? i) && (i <? zlen l) then from_option_panic (l !! Z.to_nat i) else Panic.

(** Go's assignment [b[i] = x]. *)
Definition set_index {A} (l : list A) (i : Z) (x : A) : result (list A) :=
  if (0 <=? i) && (i <? zlen l) then Ok (<[Z.to_nat i := x]> l) else Panic.

(** Go's [copy(dst[i:], src)] as a new value of [dst]: it copies
    [min (len dst - i) (len src)] elements. *)
Definition copy_at {A} (dst : list A) (i : Z) (src : list A) : list A :=
  let i := Z.to_nat i in
  let n := Nat.min (length dst - i) (length src) in
  take i dst ++ take n src ++ drop (i + n) dst.

Definition zeros (n : Z) : bytes := replicate (Z.to_nat n) 0.

Lemma zlen_nonneg {A} (l : list A) : 0 <= zlen l.
Proof. unfold zlen. lia. Qed.
Lemma zlen_nil {A} : zlen (@nil A) = 0.
Proof. reflexivity. Qed.
Lemma zlen_cons {A} (x : A) l : zlen (x :: l) = zlen l + 1.
Proof. unfold zlen. simpl. lia. Qed.
Lemma zlen_app {A} (l k : list A) : zlen (l ++ k) = zlen l + zlen k.
Proof. unfold zlen. rewrite length_app. lia. Qed.
Lemma zlen_zeros n : 0 <= n -> zlen (zeros n) = n.
Proof. intros. unfold zlen, zeros. rewrite length_replicate. lia. Qed.
Lemma zlen_take {A} (l : list A) n : 0 <= n <= zlen l -> zlen (take (Z.to_nat n) l) = n.
Proof. unfold zlen. rewrite length_take. lia. Qed.
Lemma zlen_drop {A} (l : list A) n : 0 <= n <= zlen l -> zlen (drop (Z.to_nat n) l) = zlen l - n.
Proof. unfold zlen. rewrite length_drop. lia. Qed.

Lemma slice_ok {A} (l : list A) i j :
  0 <= i -> i <= j -> j <= zlen l ->
  slice l i j = Ok (take (Z.to_nat (j - i)) (drop (Z.to_nat i) l)).
Proof.
  intros. unfold slice.
  destruct (Z.leb_spec 0 i), (Z.leb_spec i j), (Z.leb_spec j (zlen l)); simpl; (lia || done).
Qed.

Lemma index_ok {A} (l : list A) i :
  0 <= i < zlen l -> exists x, index l i = Ok x /\ l !! Z.to_nat i = Some x.
Proof.
  intros [H0 H1]. unfold index.
  destruct (Z.leb_spec 0 i), (Z.ltb_spec i (zlen l)); simpl; try lia.
  destruct (lookup_lt_is_Some_2 l (Z.to_nat i)) as [x Hx]; [unfold zlen in *; lia|].
  exists x. by rewrite Hx.
Qed.

Lemma set_index_ok {A} (l : list A) i x :
  0 <= i < zlen l -> set_index l i x = Ok (<[Z.to_nat i := x]> l).
Proof.
  intros [H0 H1]. unfold set_index.
  destruct (Z.leb_spec 0 i), (Z.ltb_spec i (zlen l)); simpl; (lia || done).
Qed.

Lemma zlen_slice {A} (l : list A) i j r : slice l i j = Ok r -> zlen r = j - i.
Proof.
  unfold slice.
  destruct (Z.leb_spec 0 i), (Z.leb_spec i j), (Z.leb_spec j (zlen l)); simpl; intros [= <-].
  unfold zlen in *. rewrite length_take, length_drop. lia.
Qed.

Lemma length_copy_at {A} (dst : list A) i src :
  0 <= i <= zlen dst -> length (copy_at dst i src) = length dst.
Proof.
  unfold zlen, copy_at. intros. rewrite !length_app, !length_take, length_drop. lia.
Qed.

Lemma zlen_copy_at {A} (dst : list A) i src :
  0 <= i <= zlen dst -> zlen (copy_at dst i src) = zlen dst.
Proof. intros. unfold zlen at 1. by rewrite length_copy_at. Qed.

Lemma copy_at_full {A} (dst src : list A) : length dst = length src -> copy_at dst 0 src = src.
Proof.
  intros H. unfold copy_at. change (Z.to_nat 0) with O.
  rewrite Nat.sub_0_r, H, Nat.min_id, firstn_all, Nat.add_0_l, <- H, drop_all, app_nil_r. done.
Qed.

(** ** Big-endian values *)
Lemma be_val_snoc l b : be_val (l ++ [b]) = be_val l * 256 + b.
Proof. unfold be_val. by rewrite fold_left_app. Qed.

Lemma be_val_app l k : be_val (l ++ k) = be_val l * 256 ^ zlen k + be_val k.
Proof.
  induction k as [|b k IH] using rev_ind.
  - rewrite app_nil_r. unfold zlen, be_val; simpl. lia.
  - rewrite app_assoc, !be_val_snoc, IH, zlen_app, zlen_cons, zlen_nil.
    rewrite Z.pow_add_r by (pose proof (zlen_nonneg k); lia). lia.
Qed.

Lemma length_be_bytes n z : length (be_bytes n z) = n.
Proof. revert z; induction n; intros z; simpl; rewrite ?length_app, ?IHn; simpl; lia. Qed.

Lemma zlen_be_bytes n z : zlen (be_bytes n z) = Z.of_nat n.
Proof. unfold zlen. by rewrite length_be_bytes. Qed.

Lemma wf_be_bytes n z : wf_bytes (be_bytes n z).
Proof.
  revert z; induction n; intros z; simpl; [constructor|].
  apply Forall_app; split; [apply IHn|]. repeat constructor; apply Z.mod_pos_bound; lia.
Qed.

Lemma be_val_be_bytes n z : be_val (be_bytes n z) = z mod 256 ^ Z.of_nat n.
Proof.
  revert z; induction n as [|n IH]; intros z; cbn [be_bytes].
  - change (256 ^ Z.of_nat 0) with 1. by rewrite Z.mod_1_r.
  - rewrite be_val_snoc, IH, Nat2Z.inj_succ, Z.pow_succ_r by lia.
    rewrite (Z.rem_mul_r z 256 (256 ^ Z.of_nat n)) by (try apply Z.pow_nonzero; lia). lia.
Qed.

Lemma be_val_range l : wf_bytes l -> 0 <= be_val l < 256 ^ zlen l.
Proof.
  induction l as [|b l IH] using rev_ind; intros H.
  - unfold be_val, zlen; simpl. lia.
  - apply Forall_app in H as [Hl Hb]. inversion_clear Hb as [|? ? Hb' _].
    rewrite be_val_snoc, zlen_app. change (zlen [b]) with 1.
    rewrite Z.pow_add_r by (pose proof (zlen_nonneg l); lia).
    specialize (IH Hl). unfold is_byte in Hb'. lia.
Qed.

Lemma be_bytes_be_val l : wf_bytes l -> be_bytes (length l) (be_val l) = l.
Proof.
  induction l as [|b l IH] using rev_ind; intros H; [done|].
  apply Forall_app in H as [Hl Hb]. inversion_clear Hb as [|? ? Hb' _]. unfold is_byte in Hb'.
  rewrite length_app, be_val_snoc. simpl. rewrite Nat.add_1_r. cbn [be_bytes].
  rewrite Z.div_add_l, Z.div_small, Z.add_0_r, IH by (lia || done).
  rewrite Z.add_comm, Z.mod_add, (Z.mod_small b) by lia. done.
Qed.

(** * Tactics of the development *)

(** Linear arithmetic with [/] and [mod] by constants. *)
Ltac zmod := Z.to_euclidean_division_equations; lia.

(** Case analysis on every boolean comparison of [Z] in sight. *)
Ltac zcases :=
  repeat match goal with
  | |- context [Z.ltb ?a ?b] => destruct (Z.ltb_spec a b)
  | |- context [Z.leb ?a ?b] => destruct (Z.leb_spec a b)
  | |- context [Z.eqb ?a ?b] => destruct (Z.eqb_spec a b)
  | H : context [Z.ltb ?a ?b] |- _ => destruct (Z.ltb_spec a b)
  | H : context [Z.leb ?a ?b] |- _ => destruct (Z.leb_spec a b)
  | H : context [Z.eqb ?a ?b] |- _ => destruct (Z.eqb_spec a b)
  end; simpl in *.

(** Prove a [st_rel] goal by the structure of the computation. *)
Ltac strel_step :=
  lazymatch goal with
  | |- st_rel _ (mbind _ _) => apply st_rel_bind; [try tc_solve| |intros ?]
  | |- st_rel _ (mret _) => apply st_rel_ret; try tc_solve
  | |- st_rel _ (st_gets _) => apply st_rel_gets; try tc_solve
  | |- st_rel _ st_get => apply st_rel_get; try tc_solve
  | |- st_rel _ (st_lift _) => apply st_rel_lift; try tc_solve
  | |- st_rel _ st_panic => apply st_rel_panic
  | |- st_rel _ (if _ then _ else _) => apply st_rel_if
  | |- st_rel _ (match ?x with _ => _ end) => destruct x
  | |- st_rel _ _ => eauto with strel
  end.
