(* ===== verification/U256.v ===== *)
(** The interface to [github.com/holiman/uint256], the 256-bit integer package
    the EVM computes with.  The package is not part of this repository: the
    class [Uint256] names the functions the code calls, on words represented
    by their value in [Z]; the class [Uint256Laws] states their documented
    behaviour, and the instance [uint256_Z] shows that it can be met.  Every
    definition of the development that calls the package takes the class as
    an argument, and only theorems that need a law assume it. *)
From Stdlib Require Import ZArith Lia Zpow_facts.
From stdpp Require Import base numbers list.
From S2P Require Import Prelude.
Local Open Scope Z_scope.

Class Uint256 : Type := {
  u_Add : Z -> Z -> Z;
  u_Sub : Z -> Z -> Z;
  u_Mul : Z -> Z -> Z;
  u_Div : Z -> Z -> Z;
  u_SDiv : Z -> Z -> Z;
  u_Mod : Z -> Z -> Z;
  u_SMod : Z -> Z -> Z;
  u_Exp : Z -> Z -> Z;
  u_ExtendSign : Z -> Z -> Z;
  u_AddMod : Z -> Z -> Z -> Z;
  u_MulMod : Z -> Z -> Z -> Z;
  u_Not : Z -> Z;
  u_And : Z -> Z -> Z;
  u_Or : Z -> Z -> Z;
  u_Xor : Z -> Z -> Z;
  u_Byte : Z -> Z -> Z;
  u_Lsh : Z -> Z -> Z;
  u_Rsh : Z -> Z -> Z;
  u_SRsh : Z -> Z -> Z;
  u_Lt : Z -> Z -> bool;
  u_Gt : Z -> Z -> bool;
  u_Slt : Z -> Z -> bool;
  u_Sgt : Z -> Z -> bool;
  u_Eq : Z -> Z -> bool;
  u_IsZero : Z -> bool;
  u_LtUint64 : Z -> Z -> bool;
  u_GtUint64 : Z -> Z -> bool;
  u_Sign : Z -> Z;
  u_BitLen : Z -> Z;
  u_IsUint64 : Z -> bool;
  u_Uint64 : Z -> Z;
  u_Uint64WithOverflow : Z -> Z * bool;
  u_SetBytes : bytes -> Z;
  u_Bytes20 : Z -> Z;
  u_Bytes32 : Z -> Z;
  u_WriteToSlice : Z -> bytes -> bytes;
  u_FromBig : Z -> Z;
  u_ToBig : Z -> Z
}.

(** A word read as a two's complement number. *)
Definition s256 (x : Z) : Z := if x <? 2 ^ 255 then x else x - 2 ^ 256.

(** The result of sign-extending [x] from byte [b]. *)
Definition sign_extend (x b : Z) : Z :=
  if 31 <? b then x
  else let bit := 8 * b + 7 in
       if Z.testbit x bit
       then Z.lor x (2 ^ 256 - 2 ^ bit)
       else x mod 2 ^ bit.

Class Uint256Laws {U : Uint256} : Prop := {
  law_Add x y : is_u256 x -> is_u256 y -> u_Add x y = u256 (x + y);
  law_Sub x y : is_u256 x -> is_u256 y -> u_Sub x y = u256 (x - y);
  law_Mul x y : is_u256 x -> is_u256 y -> u_Mul x y = u256 (x * y);
  law_Div x y : is_u256 x -> is_u256 y -> u_Div x y = (if y =? 0 then 0 else x / y);
  law_SDiv x y : is_u256 x -> is_u256 y ->
    u_SDiv x y = (if y =? 0 then 0 else u256 (Z.quot (s256 x) (s256 y)));
  law_Mod x y : is_u256 x -> is_u256 y -> u_Mod x y = (if y =? 0 then 0 else x mod y);
  law_SMod x y : is_u256 x -> is_u256 y ->
    u_SMod x y = (if y =? 0 then 0 else u256 (Z.rem (s256 x) (s256 y)));
  law_Exp x y : is_u256 x -> is_u256 y -> u_Exp x y = u256 (x ^ y);
  law_ExtendSign x b : is_u256 x -> is_u256 b -> u_ExtendSign x b = sign_extend x b;
  law_AddMod x y m : is_u256 x -> is_u256 y -> is_u256 m ->
    u_AddMod x y m = (if m =? 0 then 0 else (x + y) mod m);
  law_MulMod x y m : is_u256 x -> is_u256 y -> is_u256 m ->
    u_MulMod x y m = (if m =? 0 then 0 else (x * y) mod m);
  law_Not x : is_u256 x -> u_Not x = 2 ^ 256 - 1 - x;
  law_And x y : is_u256 x -> is_u256 y -> u_And x y = Z.land x y;
  law_Or x y : is_u256 x -> is_u256 y -> u_Or x y = Z.lor x y;
  law_Xor x y : is_u256 x -> is_u256 y -> u_Xor x y = Z.lxor x y;
  law_Byte x n : is_u256 x -> is_u256 n ->
    u_Byte x n = (if n <? 32 then (x / 256 ^ (31 - n)) mod 256 else 0);
  law_Lsh x n : is_u256 x -> is_u64 n -> u_Lsh x n = u256 (Z.shiftl x n);
  law_Rsh x n : is_u256 x -> is_u64 n -> u_Rsh x n = Z.shiftr x n;
  law_SRsh x n : is_u256 x -> is_u64 n -> u_SRsh x n = u256 (Z.shiftr (s256 x) n);
  law_Lt x y : is_u256 x -> is_u256 y -> u_Lt x y = (x <? y);
  law_Gt x y : is_u256 x -> is_u256 y -> u_Gt x y = (y <? x);
  law_Slt x y : is_u256 x -> is_u256 y -> u_Slt x y = (s256 x <? s256 y);
  law_Sgt x y : is_u256 x -> is_u256 y -> u_Sgt x y = (s256 y <? s256 x);
  law_Eq x y : is_u256 x -> is_u256 y -> u_Eq x y = (x =? y);
  law_IsZero x : is_u256 x -> u_IsZero x = (x =? 0);
  law_LtUint64 x n : is_u256 x -> is_u64 n -> u_LtUint64 x n = (x <? n);
  law_GtUint64 x n : is_u256 x -> is_u64 n -> u_GtUint64 x n = (n <? x);
  law_Sign x : is_u256 x -> u_Sign x = Z.sgn (s256 x);
  law_BitLen x : is_u256 x -> u_BitLen x = (if x =? 0 then 0 else Z.log2 x + 1);
  law_IsUint64 x : is_u256 x -> u_IsUint64 x = (x <? 2 ^ 64);
  law_Uint64 x : is_u256 x -> u_Uint64 x = u64 x;
  law_Uint64WithOverflow x : is_u256 x ->
    u_Uint64WithOverflow x = (u64 x, negb (x <? 2 ^ 64));
  law_SetBytes b : wf_bytes b -> u_SetBytes b = u256 (be_val b);
  law_SetBytes_range b : is_u256 (u_SetBytes b);
  law_Bytes20 x : is_u256 x -> u_Bytes20 x = x mod 2 ^ 160;
  law_Bytes32 x : is_u256 x -> u_Bytes32 x = x;
  law_WriteToSlice x d : is_u256 x -> 32 <= zlen d ->
    u_WriteToSlice x d = copy_at d 0 (be_bytes 32 x);
  law_FromBig z : u_FromBig z = u256 z;
  law_ToBig x : is_u256 x -> u_ToBig x = x
}.

(** ** A model of the interface *)
#[export] Instance uint256_Z : Uint256 := {|
  u_Add x y := u256 (x + y);
  u_Sub x y := u256 (x - y);
  u_Mul x y := u256 (x * y);
  u_Div x y := if y =? 0 then 0 else x / y;
  u_SDiv x y := if y =? 0 then 0 else u256 (Z.quot (s256 x) (s256 y));
  u_Mod x y := if y =? 0 then 0 else x mod y;
  u_SMod x y := if y =? 0 then 0 else u256 (Z.rem (s256 x) (s256 y));
  u_Exp x y := Zpow_mod x y (2 ^ 256);
  u_ExtendSign x b := sign_extend x b;
  u_AddMod x y m := if m =? 0 then 0 else (x + y) mod m;
  u_MulMod x y m := if m =? 0 then 0 else (x * y) mod m;
  u_Not x := 2 ^ 256 - 1 - x;
  u_And := Z.land;
  u_Or := Z.lor;
  u_Xor := Z.lxor;
  u_Byte x n := if n <? 32 then (x / 256 ^ (31 - n)) mod 256 else 0;
  u_Lsh x n := u256 (Z.shiftl x n);
  u_Rsh x n := Z.shiftr x n;
  u_SRsh x n := u256 (Z.shiftr (s256 x) n);
  u_Lt x y := x <? y;
  u_Gt x y := y <? x;
  u_Slt x y := s256 x <? s256 y;
  u_Sgt x y := s256 y <? s256 x;
  u_Eq x y := x =? y;
  u_IsZero x := x =? 0;
  u_LtUint64 x n := x <? n;
  u_GtUint64 x n := n <? x;
  u_Sign x := Z.sgn (s256 x);
  u_BitLen x := if x =? 0 then 0 else Z.log2 x + 1;
  u_IsUint64 x := x <? 2 ^ 64;
  u_Uint64 := u64;
  u_Uint64WithOverflow x := (u64 x, negb (x <? 2 ^ 64));
  u_SetBytes b := u256 (be_val b);
  u_Bytes20 x := x mod 2 ^ 160;
  u_Bytes32 x := x;
  u_WriteToSlice x d := copy_at d 0 (be_bytes 32 x);
  u_FromBig := u256;
  u_ToBig x := x
|}.

#[export] Instance uint256_Z_laws : @Uint256Laws uint256_Z.
Proof.
  constructor; intros; try reflexivity; [|apply u256_range].
  cbn [u_Exp uint256_Z]. rewrite Zpow_mod_correct by lia. reflexivity.
Qed.

(** ** Consequences the components use *)
Section Laws.
Context {U : Uint256} {UL : Uint256Laws}.

(** Words on the stack stay in range under every operation of the package. *)
Lemma range_Add x y : is_u256 x -> is_u256 y -> is_u256 (u_Add x y).
Proof. intros. rewrite law_Add by done. apply u256_range. Qed.
Lemma range_Sub x y : is_u256 x -> is_u256 y -> is_u256 (u_Sub x y).
Proof. intros. rewrite law_Sub by done. apply u256_range. Qed.
Lemma range_Mul x y : is_u256 x -> is_u256 y -> is_u256 (u_Mul x y).
Proof. intros. rewrite law_Mul by done. apply u256_range. Qed.
Lemma is_u256_0 : is_u256 0.
Proof. unfold is_u256. lia. Qed.
Lemma is_u256_1 : is_u256 1.
Proof. unfold is_u256. lia. Qed.
Lemma is_u256_bool (b : bool) : is_u256 (if b then 1 else 0).
Proof. destruct b; unfold is_u256; lia. Qed.
Lemma is_u256_u64 x : is_u64 x -> is_u256 x.
Proof. unfold is_u64, is_u256. lia. Qed.
Lemma range_Div x y : is_u256 x -> is_u256 y -> is_u256 (u_Div x y).
Proof.
  intros. rewrite law_Div by done. unfold is_u256 in *. destruct (Z.eqb_spec y 0); [lia|].
  pose proof (Z.div_le_upper_bound x y x ltac:(lia) ltac:(nia)). pose proof (Z.div_pos x y). lia.
Qed.
Lemma range_SDiv x y : is_u256 x -> is_u256 y -> is_u256 (u_SDiv x y).
Proof. intros. rewrite law_SDiv by done. destruct (_ =? _); [apply is_u256_0|apply u256_range]. Qed.
Lemma range_mod z m : is_u256 m -> is_u256 (if m =? 0 then 0 else z mod m).
Proof.
  unfold is_u256. intros. destruct (Z.eqb_spec m 0); [lia|].
  pose proof (Z.mod_pos_bound z m ltac:(lia)). lia.
Qed.
Lemma range_Mod x y : is_u256 x -> is_u256 y -> is_u256 (u_Mod x y).
Proof. intros. rewrite law_Mod by done. by apply range_mod. Qed.
Lemma range_SMod x y : is_u256 x -> is_u256 y -> is_u256 (u_SMod x y).
Proof. intros. rewrite law_SMod by done. destruct (_ =? _); [apply is_u256_0|apply u256_range]. Qed.
Lemma range_Exp x y : is_u256 x -> is_u256 y -> is_u256 (u_Exp x y).
Proof. intros. rewrite law_Exp by done. apply u256_range. Qed.
Lemma range_AddMod x y m : is_u256 x -> is_u256 y -> is_u256 m -> is_u256 (u_AddMod x y m).
Proof. intros. rewrite law_AddMod by done. by apply range_mod. Qed.
Lemma range_MulMod x y m : is_u256 x -> is_u256 y -> is_u256 m -> is_u256 (u_MulMod x y m).
Proof. intros. rewrite law_MulMod by done. by apply range_mod. Qed.
Lemma range_Not x : is_u256 x -> is_u256 (u_Not x).
Proof. intros. rewrite law_Not by done. unfold is_u256 in *. lia. Qed.

(** A number is in range when it is non-negative with no bit above 255. *)
Lemma is_u256_bits z : 0 <= z -> (forall i, 256 <= i -> Z.testbit z i = false) -> is_u256 z.
Proof.
  intros H0 Hb. split; [done|]. destruct (Z.eq_dec z 0) as [->|]; [lia|].
  apply Z.log2_lt_pow2; [lia|]. destruct (Z.lt_ge_cases (Z.log2 z) 256) as [|Hg]; [done|].
  specialize (Hb _ Hg). rewrite Z.bit_log2 in Hb by lia. done.
Qed.
Lemma is_u256_testbit z i : is_u256 z -> 256 <= i -> Z.testbit z i = false.
Proof.
  intros [H0 H1] Hi. destruct (Z.eq_dec z 0) as [->|]; [apply Z.bits_0|].
  apply Z.bits_above_log2; [done|]. pose proof (Z.log2_lt_pow2 z 256 ltac:(lia)). lia.
Qed.
Lemma range_lor x y : is_u256 x -> is_u256 y -> is_u256 (Z.lor x y).
Proof.
  intros Hx Hy. apply is_u256_bits; [apply Z.lor_nonneg; split; [apply Hx|apply Hy]|].
  intros i Hi. by rewrite Z.lor_spec, !is_u256_testbit.
Qed.
Lemma range_And x y : is_u256 x -> is_u256 y -> is_u256 (u_And x y).
Proof.
  intros Hx Hy. rewrite law_And by done.
  apply is_u256_bits; [apply Z.land_nonneg; left; apply Hx|].
  intros i Hi. by rewrite Z.land_spec, !is_u256_testbit.
Qed.
Lemma range_Or x y : is_u256 x -> is_u256 y -> is_u256 (u_Or x y).
Proof. intros Hx Hy. rewrite law_Or by done. by apply range_lor. Qed.
Lemma range_Xor x y : is_u256 x -> is_u256 y -> is_u256 (u_Xor x y).
Proof.
  intros Hx Hy. rewrite law_Xor by done.
  apply is_u256_bits; [apply Z.lxor_nonneg; split; intros; [apply Hy|apply Hx]|].
  intros i Hi. by rewrite Z.lxor_spec, !is_u256_testbit.
Qed.
Lemma range_ExtendSign x b : is_u256 x -> is_u256 b -> is_u256 (u_ExtendSign x b).
Proof.
  intros Hx Hb. rewrite law_ExtendSign by done. unfold sign_extend.
  destruct (Z.ltb_spec 31 b); [done|]. unfold is_u256 in Hb.
  pose proof (Z.pow_pos_nonneg 2 (8 * b + 7) ltac:(lia) ltac:(lia)).
  pose proof (Z.pow_le_mono_r 2 (8 * b + 7) 256 ltac:(lia) ltac:(lia)).
  destruct (Z.testbit _ _); [apply range_lor; [done|unfold is_u256; lia]|].
  pose proof (Z.mod_pos_bound x (2 ^ (8 * b + 7)) ltac:(lia)). unfold is_u256. lia.
Qed.
Lemma range_Byte x n : is_u256 x -> is_u256 n -> is_u256 (u_Byte x n).
Proof.
  intros. rewrite law_Byte by done. destruct (_ <? _); [|apply is_u256_0].
  pose proof (Z.mod_pos_bound (x / 256 ^ (31 - n)) 256 ltac:(lia)). unfold is_u256. lia.
Qed.
Lemma range_Lsh x n : is_u256 x -> is_u64 n -> is_u256 (u_Lsh x n).
Proof. intros. rewrite law_Lsh by done. apply u256_range. Qed.
Lemma range_Rsh x n : is_u256 x -> is_u64 n -> is_u256 (u_Rsh x n).
Proof.
  intros Hx Hn. rewrite law_Rsh, Z.shiftr_div_pow2 by (done || apply Hn). unfold is_u256, is_u64 in *.
  pose proof (Z.pow_pos_nonneg 2 n ltac:(lia) ltac:(lia)).
  pose proof (Z.div_le_upper_bound x (2 ^ n) x ltac:(lia) ltac:(nia)).
  pose proof (Z.div_pos x (2 ^ n) ltac:(lia) ltac:(lia)). lia.
Qed.
Lemma range_SRsh x n : is_u256 x -> is_u64 n -> is_u256 (u_SRsh x n).
Proof. intros. rewrite law_SRsh by done. apply u256_range. Qed.
Lemma range_FromBig z : is_u256 (u_FromBig z).
Proof. rewrite law_FromBig. apply u256_range. Qed.
Lemma Sign_IsZero x : is_u256 x -> (u_Sign x =? 0) = u_IsZero x.
Proof.
  intros Hx. rewrite law_Sign, law_IsZero by done. unfold is_u256, s256 in *.
  destruct (Z.ltb_spec x (2 ^ 255)), (Z.eqb_spec x 0), (Z.eqb_spec (Z.sgn x) 0),
    (Z.eqb_spec (Z.sgn (x - 2 ^ 256)) 0); lia.
Qed.

Lemma u_Uint64_range x : is_u256 x -> is_u64 (u_Uint64 x).
Proof. intros. rewrite law_Uint64 by done. apply u64_range. Qed.

Lemma u_Uint64WithOverflow_false x v :
  is_u256 x -> u_Uint64WithOverflow x = (v, false) -> v = x /\ is_u64 v /\ u_Uint64 x = v.
Proof.
  intros Hx. rewrite law_Uint64WithOverflow, law_Uint64 by done. intros [= Hv Ho].
  apply negb_false_iff, Z.ltb_lt in Ho. unfold is_u256, is_u64 in *.
  rewrite u64_id in * by (unfold is_u64; lia). lia.
Qed.

Lemma u_IsUint64_true x : is_u256 x -> u_IsUint64 x = true -> is_u64 x /\ u_Uint64 x = x.
Proof.
  intros Hx. rewrite law_IsUint64, law_Uint64 by done. intros Ho%Z.ltb_lt.
  unfold is_u256, is_u64 in *. rewrite u64_id by (unfold is_u64; lia). lia.
Qed.
End Laws.
#[export] Hint Resolve range_Add range_Sub range_Mul range_Div range_SDiv range_Mod range_SMod range_Exp
  range_AddMod range_MulMod range_Not range_And range_Or range_Xor range_ExtendSign range_Byte range_Lsh
  range_Rsh range_SRsh range_FromBig law_SetBytes_range is_u256_0 is_u256_1 is_u256_bool u_Uint64_range
  : word.
