(* ===== verification/Math.v ===== *)
(** Integer and byte-slice helpers: [common/math/integer.go],
    [common/bytes.go], [common/types.go] and [vm/common.go]. *)
From Stdlib Require Import ZArith Lia.
From stdpp Require Import base numbers list.
From S2P Require Import Prelude U256.
Local Open Scope Z_scope.

(** ** [common/math/integer.go] *)

(** [bits.Sub64], [bits.Add64] and [bits.Mul64] of the standard library: the
    64-bit result and the borrow, the carry, the high word. *)
Definition Sub64 (x y : Z) : Z * Z := (u64 (x - y), if x <? y then 1 else 0).
Definition Add64 (x y : Z) : Z * Z := (u64 (x + y), (x + y) / 2 ^ 64).
Definition Mul64 (x y : Z) : Z * Z := ((x * y) / 2 ^ 64, u64 (x * y)).

Definition SafeSub (x y : Z) : Z * bool :=
  let '(diff, borrowOut) := Sub64 x y in (diff, negb (borrowOut =? 0)).
Definition SafeAdd (x y : Z) : Z * bool :=
  let '(sum, carryOut) := Add64 x y in (sum, negb (carryOut =? 0)).
Definition SafeMul (x y : Z) : Z * bool :=
  let '(hi, lo) := Mul64 x y in (lo, negb (hi =? 0)).

Lemma SafeSub_spec x y : is_u64 x -> is_u64 y ->
  SafeSub x y = if y <=? x then (x - y, false) else (x - y + 2 ^ 64, true).
Proof.
  unfold is_u64, SafeSub, Sub64, u64. intros. zcases; f_equal; try lia; zmod.
Qed.

Lemma SafeAdd_spec x y : is_u64 x -> is_u64 y ->
  SafeAdd x y = if x + y <? 2 ^ 64 then (x + y, false) else (x + y - 2 ^ 64, true).
Proof.
  unfold is_u64, SafeAdd, Add64, u64. intros. zcases; f_equal; try lia; zmod.
Qed.

Lemma SafeMul_spec x y : is_u64 x -> is_u64 y ->
  SafeMul x y = if x * y <? 2 ^ 64 then (x * y, false) else (u64 (x * y), true).
Proof.
  unfold is_u64, SafeMul, Mul64, u64. intros.
  assert (0 <= x * y) by nia. zcases; f_equal; try lia; zmod.
Qed.

Lemma SafeAdd_false x y s : is_u64 x -> is_u64 y ->
  SafeAdd x y = (s, false) -> s = x + y /\ x + y < 2 ^ 64.
Proof. intros. rewrite SafeAdd_spec in * by done. zcases; naive_solver lia. Qed.

Lemma SafeMul_false x y s : is_u64 x -> is_u64 y ->
  SafeMul x y = (s, false) -> s = x * y /\ x * y < 2 ^ 64.
Proof. intros. rewrite SafeMul_spec in * by done. zcases; naive_solver lia. Qed.

(** ** [common/bytes.go] *)
Definition RightPadBytes (s : bytes) (l : Z) : bytes :=
  if l <=? zlen s then s else copy_at (zeros l) 0 s.

Definition LeftPadBytes (s : bytes) (l : Z) : bytes :=
  if l <=? zlen s then s else copy_at (zeros l) (l - zlen s) s.

(** [TrimLeftZeroes] scans for the first nonzero byte. *)
Fixpoint TrimLeftZeroes (s : bytes) : bytes :=
  match s with
  | [] => []
  | b :: s' => if negb (b =? 0) then s else TrimLeftZeroes s'
  end.

(** [TrimRightZeroes] scans down from the end. *)
Definition TrimRightZeroes (s : bytes) : bytes := reverse (TrimLeftZeroes (reverse s)).

(** ** [common/types.go] *)
Definition AddressLength : Z := 20.

(** An address is its 20 bytes read as a number; [SetBytes] crops from the
    left and right-aligns. *)
Definition BytesToAddress (b : bytes) : Z :=
  let b := if AddressLength <? zlen b then drop (Z.to_nat (zlen b - AddressLength)) b else b in
  be_val (copy_at (zeros AddressLength) (AddressLength - zlen b) b).

Definition Address_Bytes (a : Z) : bytes := be_bytes 20 a.

(** ** [vm/common.go] *)
Section Common.
Context {U : Uint256}.

Definition calcMemSize64WithUint (off length64 : Z) : Z * bool :=
  if length64 =? 0 then (0, false)
  else
    let '(offset64, overflow) := u_Uint64WithOverflow off in
    if overflow then (0, true)
    else let val := u64 (offset64 + length64) in (val, val <? offset64).

Definition calcMemSize64 (off l : Z) : Z * bool :=
  if negb (u_IsUint64 l) then (0, true) else calcMemSize64WithUint off (u_Uint64 l).
End Common.

(** A wrapped [start + size] makes the slice expression panic. *)
Definition getData (data : bytes) (start size : Z) : result bytes :=
  let length := zlen data in
  let start := if length <? start then length else start in
  let end_ := u64 (start + size) in
  let end_ := if length <? end_ then length else end_ in
  s ← slice data start end_;
  Ok (RightPadBytes s (int64_of size)).

Definition toWordSize (size : Z) : Z :=
  if MaxUint64 - 31 <? size then MaxUint64 / 32 + 1 else u64 (size + 31) / 32.

Fixpoint allZero (b : bytes) : bool :=
  match b with [] => true | x :: b' => if negb (x =? 0) then false else allZero b' end.

(** ** Lemmas *)
Lemma RightPadBytes_spec s l : RightPadBytes s l = s ++ zeros (l - zlen s).
Proof.
  unfold RightPadBytes, copy_at, zeros, zlen. zcases.
  - replace (Z.to_nat (l - Z.of_nat (length s))) with O by lia. by rewrite app_nil_r.
  - rewrite length_replicate, drop_replicate, firstn_all2 by lia. f_equal. f_equal. lia.
Qed.

Lemma LeftPadBytes_spec s l : LeftPadBytes s l = zeros (l - zlen s) ++ s.
Proof.
  unfold LeftPadBytes, copy_at, zeros, zlen. zcases.
  - by replace (Z.to_nat (l - Z.of_nat (length s))) with O by lia.
  - rewrite length_replicate, take_replicate, drop_replicate, firstn_all2 by lia.
    replace (replicate (Z.to_nat l - _) 0) with (@nil Z); [rewrite app_nil_r; f_equal; f_equal; lia|].
    by replace (Z.to_nat l - _)%nat with O by lia.
Qed.

Lemma BytesToAddress_Bytes a : 0 <= a < 2 ^ 160 -> BytesToAddress (Address_Bytes a) = a.
Proof.
  intros Ha. unfold BytesToAddress, Address_Bytes, AddressLength.
  rewrite !zlen_be_bytes. change (20 <? Z.of_nat 20) with false. cbn match.
  rewrite copy_at_full by (rewrite length_be_bytes; done).
  rewrite be_val_be_bytes. apply Z.mod_small. exact Ha.
Qed.

Lemma toWordSize_spec size : is_u64 size -> toWordSize size = (size + 31) / 32.
Proof.
  unfold is_u64, toWordSize, u64, MaxUint64. intros. zcases; zmod.
Qed.

Lemma allZero_spec b : allZero b = true <-> Forall (fun x => x = 0) b.
Proof.
  induction b as [|x b IH]; simpl; [by split|]. destruct (Z.eqb_spec x 0); simpl.
  - rewrite IH, Forall_cons. tauto.
  - rewrite Forall_cons. split; [done|tauto].
Qed.

(** C28: [getData] is the window of [size] bytes at [start] of the data followed
    by zeros without end, as long as the size leaves room in the address space:
    it never panics there and pads whatever lies past the end. *)
Theorem getData_spec data start size :
  is_u64 start -> 0 <= size < 2 ^ 63 -> zlen data < 2 ^ 63 ->
  exists r, getData data start size = Ok r /\ zlen r = size /\
    forall i : nat, Z.of_nat i < size ->
      r !! i = Some (default 0 (data !! (Z.to_nat start + i)%nat)).
Proof.
  unfold is_u64. intros Hs Hsz Hd. pose proof (zlen_nonneg data) as Hn.
  unfold getData. set (st := if zlen data <? start then zlen data else start).
  assert (Hst : 0 <= st <= zlen data /\ st <= start /\ (st = start \/ st = zlen data))
    by (subst st; zcases; lia).
  set (en := if zlen data <? u64 (st + size) then zlen data else u64 (st + size)).
  assert (Hen : en = Z.min (zlen data) (st + size))
    by (subst en; rewrite u64_id by (unfold is_u64; lia); zcases; lia).
  rewrite slice_ok by lia. cbn -[int64_of]. rewrite int64_of_small, RightPadBytes_spec by lia.
  eexists; split; [reflexivity|].
  assert (Hl : zlen (take (Z.to_nat (en - st)) (drop (Z.to_nat st) data)) = en - st)
    by (unfold zlen in *; rewrite length_take, length_drop; lia).
  rewrite zlen_app, Hl, zlen_zeros by lia. split; [lia|]. intros i Hi.
  destruct (Z.lt_ge_cases (Z.of_nat i) (en - st)) as [Hlt|Hge].
  - rewrite lookup_app_l by (unfold zlen in Hl; lia).
    rewrite lookup_take_lt, lookup_drop by lia.
    replace (Z.to_nat start) with (Z.to_nat st) by (unfold zlen in *; lia).
    destruct (lookup_lt_is_Some_2 data (Z.to_nat st + i)) as [x Hx]; [unfold zlen in *; lia|].
    by rewrite Hx.
  - rewrite lookup_app_r by (unfold zlen in Hl; lia).
    unfold zeros. rewrite lookup_replicate_2 by (unfold zlen in Hl; lia).
    rewrite lookup_ge_None_2; [done|]. unfold zlen in *. lia.
Qed.

Lemma getData_spec_witness :
  exists r, getData [1; 2; 3] 2 4 = Ok r /\ zlen r = 4 /\
    forall i : nat, Z.of_nat i < 4 -> r !! i = Some (default 0 ([1; 2; 3] !! (Z.to_nat 2 + i)%nat)).
Proof. apply (getData_spec [1; 2; 3] 2 4); [unfold is_u64; lia|lia|reflexivity]. Defined.

(** A size that wraps the end around makes the slice expression panic. *)
Example getData_wraps : getData [7] 1 (2 ^ 64 - 1) = Panic.
Proof. reflexivity. Qed.
