(* ===== verification/Params.v ===== *)
(** Protocol parameters and fork rules: [params/protocol_params.go] and the
    fork predicates of [params/config.go]. *)
From Stdlib Require Import ZArith Lia.
From stdpp Require Import base numbers list.
From S2P Require Import Prelude.
Local Open Scope Z_scope.

(** ** [params/protocol_params.go] *)
Definition GasLimitBoundDivisor : Z := 1024.
Definition MinGasLimit : Z := 5000.
Definition GenesisGasLimit : Z := 4712388.
Definition MaxTxGas : Z := 16777216.
Definition MaximumExtraDataSize : Z := 32.
Definition ExpByteGas : Z := 10.
Definition SloadGas : Z := 50.
Definition CallValueTransferGas : Z := 9000.
Definition CallNewAccountGas : Z := 25000.
Definition TxGas : Z := 21000.
Definition TxGasContractCreation : Z := 53000.
Definition TxDataZeroGas : Z := 4.
Definition QuadCoeffDiv : Z := 512.
Definition LogDataGas : Z := 8.
Definition CallStipend : Z := 2300.
Definition Keccak256Gas : Z := 30.
Definition Keccak256WordGas : Z := 6.
Definition InitCodeWordGas : Z := 2.
Definition SstoreSetGas : Z := 20000.
Definition SstoreResetGas : Z := 5000.
Definition SstoreClearGas : Z := 5000.
Definition SstoreRefundGas : Z := 15000.
Definition NetSstoreNoopGas : Z := 200.
Definition NetSstoreInitGas : Z := 20000.
Definition NetSstoreCleanGas : Z := 5000.
Definition NetSstoreDirtyGas : Z := 200.
Definition NetSstoreClearRefund : Z := 15000.
Definition NetSstoreResetRefund : Z := 4800.
Definition NetSstoreResetClearRefund : Z := 19800.
Definition SstoreSentryGasEIP2200 : Z := 2300.
Definition SstoreSetGasEIP2200 : Z := 20000.
Definition SstoreResetGasEIP2200 : Z := 5000.
Definition SstoreClearsScheduleRefundEIP2200 : Z := 15000.
Definition ColdAccountAccessCostEIP2929 : Z := 2600.
Definition ColdSloadCostEIP2929 : Z := 2100.
Definition WarmStorageReadCostEIP2929 : Z := 100.
Definition JumpdestGas : Z := 1.
Definition EpochDuration : Z := 30000.
Definition CreateDataGas : Z := 200.
Definition CallCreateDepth : Z := 1024.
Definition ExpGas : Z := 10.
Definition LogGas : Z := 375.
Definition CopyGas : Z := 3.
Definition StackLimit : Z := 1024.
Definition TierStepGas : Z := 0.
Definition LogTopicGas : Z := 375.
Definition CreateGas : Z := 32000.
Definition Create2Gas : Z := 32000.
Definition SelfdestructRefundGas : Z := 24000.
Definition MemoryGas : Z := 3.
Definition TxDataNonZeroGasFrontier : Z := 68.
Definition TxDataNonZeroGasEIP2028 : Z := 16.
Definition TxTokenPerNonZeroByte : Z := 4.
Definition TxCostFloorPerToken : Z := 10.
Definition TxAccessListAddressGas : Z := 2400.
Definition TxAccessListStorageKeyGas : Z := 1900.
Definition SstoreClearsScheduleRefundEIP3529 : Z := SstoreResetGasEIP2200 - ColdSloadCostEIP2929 + TxAccessListStorageKeyGas.
Definition TxAuthTupleGas : Z := 12500.
Definition CallGasFrontier : Z := 40.
Definition CallGasEIP150 : Z := 700.
Definition BalanceGasFrontier : Z := 20.
Definition BalanceGasEIP150 : Z := 400.
Definition BalanceGasEIP1884 : Z := 700.
Definition ExtcodeSizeGasFrontier : Z := 20.
Definition ExtcodeSizeGasEIP150 : Z := 700.
Definition SloadGasFrontier : Z := 50.
Definition SloadGasEIP150 : Z := 200.
Definition SloadGasEIP1884 : Z := 800.
Definition SloadGasEIP2200 : Z := 800.
Definition ExtcodeHashGasConstantinople : Z := 400.
Definition ExtcodeHashGasEIP1884 : Z := 700.
Definition SelfdestructGasEIP150 : Z := 5000.
Definition ExpByteFrontier : Z := 10.
Definition ExpByteEIP158 : Z := 50.
Definition ExtcodeCopyBaseFrontier : Z := 20.
Definition ExtcodeCopyBaseEIP150 : Z := 700.
Definition CreateBySelfdestructGas : Z := 25000.
Definition BaseFeeChangeDenominator : Z := 8.
Definition ElasticityMultiplier : Z := 2.
Definition InitialBaseFee : Z := 1000000000.
Definition MaxCodeSize : Z := 24576.
Definition MaxCodeSizePIP30 : Z := 32768.
Definition MaxInitCodeSize : Z := 2 * MaxCodeSize.
Definition EcrecoverGas : Z := 3000.
Definition Sha256BaseGas : Z := 60.
Definition Sha256PerWordGas : Z := 12.
Definition Ripemd160BaseGas : Z := 600.
Definition Ripemd160PerWordGas : Z := 120.
Definition IdentityBaseGas : Z := 15.
Definition IdentityPerWordGas : Z := 3.
Definition Bn256AddGasByzantium : Z := 500.
Definition Bn256AddGasIstanbul : Z := 150.
Definition Bn256ScalarMulGasByzantium : Z := 40000.
Definition Bn256ScalarMulGasIstanbul : Z := 6000.
Definition Bn256PairingBaseGasByzantium : Z := 100000.
Definition Bn256PairingBaseGasIstanbul : Z := 45000.
Definition Bn256PairingPerPointGasByzantium : Z := 80000.
Definition Bn256PairingPerPointGasIstanbul : Z := 34000.
Definition Bls12381G1AddGas : Z := 375.
Definition Bls12381G1MulGas : Z := 12000.
Definition Bls12381G2AddGas : Z := 600.
Definition Bls12381G2MulGas : Z := 22500.
Definition Bls12381PairingBaseGas : Z := 37700.
Definition Bls12381PairingPerPairGas : Z := 32600.
Definition Bls12381MapG1Gas : Z := 5500.
Definition Bls12381MapG2Gas : Z := 23800.
Definition BlobTxHashVersion : Z := 1.
Definition BlobTxBlobGasPerBlob : Z := 131072.
Definition BlobTxMaxDataGasPerBlock : Z := 524288.
Definition BlobTxTargetDataGasPerBlock : Z := 262144.
Definition BlobTxDataGasPerBlob : Z := 131072.
Definition BlobTxMinDataGasprice : Z := 1.
Definition BlobTxDataGaspriceUpdateFraction : Z := 2225652.
Definition BlobTxPointEvaluationPrecompileGas : Z := 50000.
Definition BlobTxTargetBlobGasPerBlock : Z := 262144.
Definition BlobTxMinBlobGasprice : Z := 1.
Definition BlobTxBlobGaspriceUpdateFraction : Z := 2225652.
Definition RefundQuotient : Z := 2.
Definition RefundQuotientEIP3529 : Z := 5.
Definition BlobBaseCost : Z := 8192.
Definition Bls12381G1MultiExpDiscountTable : list Z :=
  [1000; 949; 848; 797; 764; 750; 738; 728; 719; 712; 705; 698; 692; 687; 682; 677; 673;
   669; 665; 661; 658; 654; 651; 648; 645; 642; 640; 637; 635; 632; 630; 627; 625; 623;
   621; 619; 617; 615; 613; 611; 609; 608; 606; 604; 603; 601; 599; 598; 596; 595; 593;
   592; 591; 589; 588; 586; 585; 584; 582; 581; 580; 579; 577; 576; 575; 574; 573; 572;
   570; 569; 568; 567; 566; 565; 564; 563; 562; 561; 560; 559; 558; 557; 556; 555; 554;
   553; 552; 551; 550; 549; 548; 547; 547; 546; 545; 544; 543; 542; 541; 540; 540; 539;
   538; 537; 536; 536; 535; 534; 533; 532; 532; 531; 530; 529; 528; 528; 527; 526; 525;
   525; 524; 523; 522; 522; 521; 520; 520; 519].
Definition Bls12381G2MultiExpDiscountTable : list Z :=
  [1000; 1000; 923; 884; 855; 832; 812; 796; 782; 770; 759; 749; 740; 732; 724; 717; 711;
   704; 699; 693; 688; 683; 679; 674; 670; 666; 663; 659; 655; 652; 649; 646; 643; 640;
   637; 634; 632; 629; 627; 624; 622; 620; 618; 615; 613; 611; 609; 607; 606; 604; 602;
   600; 598; 597; 595; 593; 592; 590; 589; 587; 586; 584; 583; 582; 580; 579; 578; 576;
   575; 574; 573; 571; 570; 569; 568; 567; 566; 565; 563; 562; 561; 560; 559; 558; 557;
   556; 555; 554; 553; 552; 552; 551; 550; 549; 548; 547; 546; 545; 545; 544; 543; 542;
   541; 541; 540; 539; 538; 537; 537; 536; 535; 535; 534; 533; 532; 532; 531; 530; 530;
   529; 528; 528; 527; 526; 526; 525; 524; 524].

(** ** [params/config.go]

    A [*big.Int] block number or timestamp is an option: [None] is nil. *)
Record ChainConfig := {
  cc_ChainID : option Z;
  HomesteadBlock : option Z;
  EIP150Block : option Z;
  EIP155Block : option Z;
  EIP158Block : option Z;
  ByzantiumBlock : option Z;
  ConstantinopleBlock : option Z;
  PetersburgBlock : option Z;
  IstanbulBlock : option Z;
  BerlinBlock : option Z;
  LondonBlock : option Z;
  ShanghaiBlock : option Z;
  CancunBlock : option Z;
  NapoliBlock : option Z;
  Pip30Block : option Z;
  PragueBlock : option Z;
  OsakaBlock : option Z;
  ShanghaiTime : option Z;
  CancunTime : option Z;
  PragueTime : option Z;
  OsakaTime : option Z;
  DisableOpcodes : list Z
}.

Definition isBlockForked (s head : option Z) : bool :=
  match s, head with
  | Some s, Some head => s <=? head
  | _, _ => false
  end.

Definition isTimestampForked (s head : option Z) : bool :=
  match s, head with
  | Some s, Some head => s <=? head
  | _, _ => false
  end.

Section Forks.
Variable c : ChainConfig.

Definition IsHomestead (num : option Z) : bool := isBlockForked (HomesteadBlock c) num.
Definition IsEIP150 (num : option Z) : bool := isBlockForked (EIP150Block c) num.
Definition IsEIP155 (num : option Z) : bool := isBlockForked (EIP155Block c) num.
Definition IsEIP158 (num : option Z) : bool := isBlockForked (EIP158Block c) num.
Definition IsByzantium (num : option Z) : bool := isBlockForked (ByzantiumBlock c) num.
Definition IsConstantinople (num : option Z) : bool := isBlockForked (ConstantinopleBlock c) num.
Definition IsPetersburg (num : option Z) : bool :=
  isBlockForked (PetersburgBlock c) num
  || (match PetersburgBlock c with None => true | Some _ => false end)
     && isBlockForked (ConstantinopleBlock c) num.
Definition IsIstanbul (num : option Z) : bool := isBlockForked (IstanbulBlock c) num.
Definition IsBerlin (num : option Z) : bool := isBlockForked (BerlinBlock c) num.
Definition IsLondon (num : option Z) : bool := isBlockForked (LondonBlock c) num.
Definition IsShanghai (time block : option Z) : bool :=
  match ShanghaiTime c with
  | Some t => isTimestampForked (Some t) time
  | None => isBlockForked (ShanghaiBlock c) block
  end.
Definition IsCancun (time block : option Z) : bool :=
  match CancunTime c with
  | Some t => isTimestampForked (Some t) time
  | None => isBlockForked (CancunBlock c) block
  end.
Definition IsNapoli (block : option Z) : bool := isBlockForked (NapoliBlock c) block.
Definition IsPip30 (block : option Z) : bool := isBlockForked (Pip30Block c) block.
Definition IsPrague (time block : option Z) : bool :=
  match PragueTime c with
  | Some t => isTimestampForked (Some t) time
  | None => isBlockForked (PragueBlock c) block
  end.
Definition IsOsaka (time block : option Z) : bool :=
  match OsakaTime c with
  | Some t => isTimestampForked (Some t) time
  | None => isBlockForked (OsakaBlock c) block
  end.
End Forks.

(** The fork flags at a block: [params.Rules]. *)
Record Rules := {
  r_ChainID : Z;
  r_IsHomestead : bool; r_IsEIP150 : bool; r_IsEIP155 : bool; r_IsEIP158 : bool;
  r_IsByzantium : bool; r_IsConstantinople : bool; r_IsPetersburg : bool; r_IsIstanbul : bool;
  r_IsBerlin : bool; r_IsLondon : bool;
  r_IsMerge : bool; r_IsShanghai : bool; r_IsCancun : bool; r_IsNapoli : bool; r_IsPip30 : bool;
  r_IsPrague : bool; r_IsOsaka : bool
}.

Definition ChainConfig_Rules (c : ChainConfig) (num : option Z) (isMerge : bool)
    (timestamp : option Z) : Rules := {|
  r_ChainID := default 0 (cc_ChainID c);
  r_IsHomestead := IsHomestead c num;
  r_IsEIP150 := IsEIP150 c num;
  r_IsEIP155 := IsEIP155 c num;
  r_IsEIP158 := IsEIP158 c num;
  r_IsByzantium := IsByzantium c num;
  r_IsConstantinople := IsConstantinople c num;
  r_IsPetersburg := IsPetersburg c num;
  r_IsIstanbul := IsIstanbul c num;
  r_IsBerlin := IsBerlin c num;
  r_IsLondon := IsLondon c num;
  r_IsMerge := isMerge;
  r_IsShanghai := IsShanghai c timestamp num;
  r_IsCancun := IsCancun c timestamp num;
  r_IsNapoli := IsNapoli c num;
  r_IsPip30 := IsPip30 c num;
  r_IsPrague := IsPrague c timestamp num;
  r_IsOsaka := IsOsaka c timestamp num
|}.

(** ** Monotonicity: a fork once active stays active. *)
Lemma isBlockForked_mono s n m :
  n <= m -> isBlockForked s (Some n) = true -> isBlockForked s (Some m) = true.
Proof. destruct s; simpl; [|done]. intros H. rewrite !Z.leb_le. lia. Qed.

(** Every fork flag of [r] is set in [r']. *)
Definition rules_le (r r' : Rules) : Prop :=
  Forall (fun f : Rules -> bool => f r = true -> f r' = true)
    [r_IsHomestead; r_IsEIP150; r_IsEIP155; r_IsEIP158; r_IsByzantium; r_IsConstantinople; r_IsPetersburg;
     r_IsIstanbul; r_IsBerlin; r_IsLondon; r_IsShanghai; r_IsCancun; r_IsNapoli; r_IsPip30; r_IsPrague; r_IsOsaka].

Lemma isTimestampForked_mono s n m :
  n <= m -> isTimestampForked s (Some n) = true -> isTimestampForked s (Some m) = true.
Proof. destruct s; simpl; [|done]. intros H. rewrite !Z.leb_le. lia. Qed.

(** C30: forks are not undone as the chain grows: on any chain configuration,
    every fork flag that holds at a block and time holds at any later block and
    time. *)
Theorem Rules_mono c n m merge t t' :
  n <= m -> t <= t' ->
  rules_le (ChainConfig_Rules c (Some n) merge (Some t)) (ChainConfig_Rules c (Some m) merge (Some t')).
Proof.
  intros Hn Ht. pose proof (fun s => isBlockForked_mono s n m Hn) as B.
  pose proof (fun s => isTimestampForked_mono s t t' Ht) as T.
  unfold rules_le. repeat apply Forall_cons_2; [..|apply Forall_nil_2]; simpl; try exact (B _);
    unfold IsShanghai, IsCancun, IsPrague, IsOsaka; try (case_match; [exact (T _)|exact (B _)]).
  unfold IsPetersburg. destruct (PetersburgBlock c); [|exact (B _)].
  rewrite !andb_false_l, !orb_false_r. exact (B _).
Qed.
Lemma Rules_mono_witness :
  let c := {| cc_ChainID := Some 1; HomesteadBlock := Some 5; EIP150Block := Some 6; EIP155Block := None;
    EIP158Block := None; ByzantiumBlock := None; ConstantinopleBlock := None; PetersburgBlock := None;
    IstanbulBlock := None; BerlinBlock := None; LondonBlock := None; ShanghaiBlock := None; CancunBlock := None;
    NapoliBlock := None; Pip30Block := None; PragueBlock := None; OsakaBlock := None; ShanghaiTime := Some 9;
    CancunTime := None; PragueTime := None; OsakaTime := None; DisableOpcodes := [] |} in
  rules_le (ChainConfig_Rules c (Some 5) true (Some 8)) (ChainConfig_Rules c (Some 7) true (Some 9)).
Proof. apply Rules_mono; lia. Defined.
