(* ===== verification/Stack.v ===== *)
(** The operand stack: [vm/stack.go], [vm/stack_table.go] and
    [vm/memory_table.go].

    [Stack.data] is read from its end: the head of the list is the top of the
    stack, so that [Back n] is the element of index [n]. *)
From Stdlib Require Import ZArith Lia.
From stdpp Require Import base numbers list.
From S2P Require Import Prelude U256 Math Params.
Local Open Scope Z_scope.

Abbreviation Stack := (list Z).

(** A pooled stack comes back with [data[:0]]. *)
Definition newstack : Stack := [].

Definition push (st : Stack) (d : Z) : Stack := d :: st.

Definition pop (st : Stack) : result (Z * Stack) :=
  match st with [] => Panic | x :: st' => Ok (x, st') end.

Definition stack_len (st : Stack) : Z := zlen st.

(** [st.data[len-n]] and [st.data[len-1]] are exchanged. *)
Definition swap (st : Stack) (n : nat) : result Stack :=
  a ← from_option_panic (match n with O => None | S k => st !! k end);
  b ← from_option_panic (head st);
  Ok (<[0%nat := a]> (<[(n - 1)%nat := b]> st)).

Definition dup (st : Stack) (n : nat) : result Stack :=
  x ← from_option_panic (match n with O => None | S k => st !! k end);
  Ok (push st x).

Definition peek (st : Stack) : result Z := from_option_panic (head st).

(** Writing through the pointer [peek] returned. *)
Definition set_peek (st : Stack) (x : Z) : result Stack :=
  match st with [] => Panic | _ :: st' => Ok (x :: st') end.

Definition Back (st : Stack) (n : nat) : result Z := from_option_panic (st !! n).

(** ** [vm/stack_table.go] *)
Definition maxStack (pop push : Z) : Z := StackLimit + pop - push.
Definition minStack (pops push : Z) : Z := pops.
Definition minSwapStack (n : Z) : Z := minStack n n.
Definition maxSwapStack (n : Z) : Z := maxStack n n.
Definition minDupStack (n : Z) : Z := minStack n (n + 1).
Definition maxDupStack (n : Z) : Z := maxStack n (n + 1).

(** ** [vm/memory_table.go]

    The end of the memory region an operation touches, and whether computing
    it overflowed. *)
Section MemoryTable.
Context {U : Uint256}.

Definition calcBack (st : Stack) (off l : nat) : result (Z * bool) :=
  o ← Back st off; n ← Back st l; Ok (calcMemSize64 o n).

Definition memoryKeccak256 (st : Stack) : result (Z * bool) := calcBack st 0 1.
Definition memoryCallDataCopy (st : Stack) : result (Z * bool) := calcBack st 0 2.
Definition memoryReturnDataCopy (st : Stack) : result (Z * bool) := calcBack st 0 2.
Definition memoryCodeCopy (st : Stack) : result (Z * bool) := calcBack st 0 2.
Definition memoryExtCodeCopy (st : Stack) : result (Z * bool) := calcBack st 1 3.

Definition memoryMLoad (st : Stack) : result (Z * bool) :=
  o ← Back st 0; Ok (calcMemSize64WithUint o 32).
Definition memoryMStore8 (st : Stack) : result (Z * bool) :=
  o ← Back st 0; Ok (calcMemSize64WithUint o 1).
Definition memoryMStore (st : Stack) : result (Z * bool) :=
  o ← Back st 0; Ok (calcMemSize64WithUint o 32).

Definition memoryMcopy (st : Stack) : result (Z * bool) :=
  dst ← Back st 0;
  src ← Back st 1;
  n ← Back st 2;
  let mStart := if u_Gt src dst then src else dst in
  Ok (calcMemSize64 mStart n).

Definition memoryCreate (st : Stack) : result (Z * bool) := calcBack st 1 2.
Definition memoryCreate2 (st : Stack) : result (Z * bool) := calcBack st 1 2.

(** The larger of the two regions of a call: its output, then its input. *)
Definition maxBack (st : Stack) (o1 l1 o2 l2 : nat) : result (Z * bool) :=
  '(x, overflow) ← calcBack st o1 l1;
  if overflow : bool then Ok (0, true) else
  '(y, overflow) ← calcBack st o2 l2;
  if overflow : bool then Ok (0, true) else
  if y <? x then Ok (x, false) else Ok (y, false).

Definition memoryCall (st : Stack) : result (Z * bool) := maxBack st 5 6 3 4.
Definition memoryDelegateCall (st : Stack) : result (Z * bool) := maxBack st 4 5 2 3.
Definition memoryStaticCall (st : Stack) : result (Z * bool) := maxBack st 4 5 2 3.

Definition memoryReturn (st : Stack) : result (Z * bool) := calcBack st 0 1.
Definition memoryRevert (st : Stack) : result (Z * bool) := calcBack st 0 1.
Definition memoryLog (st : Stack) : result (Z * bool) := calcBack st 0 1.
End MemoryTable.

(** ** Lemmas *)
Definition wf_stack (st : Stack) : Prop := Forall is_u256 st.

Lemma Back_ok st n : (n < length st)%nat -> exists x, Back st n = Ok x /\ st !! n = Some x.
Proof.
  intros [x H]%lookup_lt_is_Some_2. exists x. unfold Back. rewrite H. split; reflexivity.
Qed.

Lemma Back_wf st n x : wf_stack st -> Back st n = Ok x -> is_u256 x.
Proof.
  unfold Back. intros Hw. destruct (st !! n) eqn:E; intros [= <-].
  eapply Forall_lookup_1; eauto.
Qed.

Lemma pop_ok st : (0 < length st)%nat -> exists x st', st = x :: st' /\ pop st = Ok (x, st').
Proof. destruct st; simpl; [lia|eauto]. Qed.

(** SWAP<n> exchanges the top of the stack with the element [n] below it and
    touches nothing else; it does not panic on a stack of more than [n]. *)
Theorem swap_spec st n :
  (0 < n)%nat -> (n < length st)%nat ->
  exists st', swap st (S n) = Ok st' /\ length st' = length st /\
    st' !! 0%nat = st !! n /\ st' !! n = st !! 0%nat /\
    forall i, i <> 0%nat -> i <> n -> st' !! i = st !! i.
Proof.
  intros Hn Hl. destruct (lookup_lt_is_Some_2 st n Hl) as [a Ha].
  destruct st as [|b st]; [simpl in Hl; lia|].
  unfold swap. rewrite Ha. simpl from_option_panic. unfold mbind, result_bind. cbn [head from_option_panic].
  eexists; split; [reflexivity|]. replace (S n - 1)%nat with n by lia.
  rewrite !length_insert. split; [done|].
  rewrite list_lookup_insert_eq by (rewrite length_insert; simpl; lia).
  rewrite list_lookup_insert_ne by lia. rewrite list_lookup_insert_eq by done.
  split_and!; [done|done|]. intros i H0 H1.
  by rewrite !list_lookup_insert_ne by lia.
Qed.

Lemma dup_spec st n x : st !! n = Some x -> dup st (S n) = Ok (x :: st).
Proof. intros H. unfold dup. by rewrite H. Qed.

Lemma swap_spec_witness :
  exists st', swap [5; 6; 7] 3 = Ok st' /\ length st' = 3%nat /\
    st' !! 0%nat = Some 7 /\ st' !! 2%nat = Some 5 /\
    forall i, i <> 0%nat -> i <> 2%nat -> st' !! i = [5; 6; 7] !! i.
Proof. apply (swap_spec [5; 6; 7] 2); simpl; lia. Defined.
