(* ===== verification/Memory.v ===== *)
(** The byte-addressed memory of a call frame: [vm/memory.go]. *)
From Stdlib Require Import ZArith Lia.
From stdpp Require Import base numbers list.
From S2P Require Import Prelude U256 Math.
Local Open Scope Z_scope.

Record Memory := mkMemory { store : bytes; lastGasCost : Z }.

Definition NewMemory : Memory := {| store := []; lastGasCost := 0 |}.

Definition Memory_Len (m : Memory) : Z := zlen (store m).

Definition with_store (m : Memory) (s : bytes) : Memory :=
  {| store := s; lastGasCost := lastGasCost m |}.

(** [copy(m.store[offset:offset+size], value)] behind the bounds check. *)
Definition Memory_Set (m : Memory) (offset size : Z) (value : bytes) : result Memory :=
  if 0 <? size then
    if zlen (store m) <? u64 (offset + size) then Panic
    else
      _ ← slice (store m) offset (u64 (offset + size));
      Ok (with_store m (copy_at (store m) offset (take (Z.to_nat size) value)))
  else Ok m.

Definition Memory_Set32 {U : Uint256} (m : Memory) (offset val : Z) : result Memory :=
  if zlen (store m) <? u64 (offset + 32) then Panic
  else
    _ ← slice (store m) offset (u64 (offset + 32));
    let s := copy_at (store m) offset (zeros 32) in
    tl ← slice s offset (zlen s);
    Ok (with_store m (take (Z.to_nat offset) s ++ u_WriteToSlice val tl)).

Definition Memory_Resize (m : Memory) (size : Z) : Memory :=
  if Memory_Len m <? size
  then with_store m (store m ++ zeros (size - Memory_Len m))
  else m.

(** [offset] and [size] are [int64]: a negative one panics in [make] or in the
    slice expression.  A nil result is the empty list. *)
Definition Memory_GetCopy (m : Memory) (offset size : Z) : result bytes :=
  if size =? 0 then Ok []
  else if offset <? zlen (store m) then
    if size <? 0 then Panic else
    s ← slice (store m) offset (offset + size);
    Ok (copy_at (zeros size) 0 s)
  else Ok [].

Definition Memory_GetPtr (m : Memory) (offset size : Z) : result bytes :=
  if size =? 0 then Ok []
  else if offset <? zlen (store m) then slice (store m) offset (offset + size)
  else Ok [].

Definition Memory_Copy (m : Memory) (dst src len : Z) : result Memory :=
  if len =? 0 then Ok m
  else
    _ ← slice (store m) dst (zlen (store m));
    s ← slice (store m) src (u64 (src + len));
    Ok (with_store m (copy_at (store m) dst s)).

(** ** Lemmas *)
Definition wf_memory (m : Memory) : Prop := wf_bytes (store m) /\ zlen (store m) < 2 ^ 63.

Lemma wf_NewMemory : wf_memory NewMemory.
Proof. split; [constructor|reflexivity]. Qed.

Lemma wf_zeros n : wf_bytes (zeros n).
Proof. apply Forall_replicate. unfold is_byte. lia. Qed.

Lemma wf_copy_at dst i src : wf_bytes dst -> wf_bytes src -> wf_bytes (copy_at dst i src).
Proof.
  intros Hd Hs. unfold copy_at. apply Forall_app; split; [by apply Forall_take|].
  apply Forall_app; split; [by apply Forall_take | by apply Forall_drop].
Qed.

Lemma lookup_copy_at {A} (dst src : list A) off (i : nat) :
  0 <= off <= zlen dst ->
  copy_at dst off src !! i =
    if decide (off <= Z.of_nat i < off + zlen src /\ Z.of_nat i < zlen dst)
    then src !! (i - Z.to_nat off)%nat else dst !! i.
Proof.
  unfold zlen, copy_at. intros Ho.
  set (n := Nat.min _ _).
  assert (Ht : length (take (Z.to_nat off) dst) = Z.to_nat off) by (rewrite length_take; lia).
  assert (Hn : length (take n src) = n) by (rewrite length_take; subst n; lia).
  case_decide as Hd.
  - rewrite lookup_app_r, Ht by lia. rewrite lookup_app_l by (rewrite Hn; subst n; lia).
    rewrite lookup_take_lt by (subst n; lia). done.
  - destruct (Nat.lt_ge_cases i (Z.to_nat off)) as [Hi|Hi].
    + rewrite lookup_app_l by lia. by rewrite lookup_take_lt by lia.
    + rewrite lookup_app_r, Ht by lia. rewrite lookup_app_r, Hn by (rewrite Hn; subst n; lia).
      rewrite lookup_drop. f_equal. subst n. lia.
Qed.

(** [Set] stores the value's first [size] bytes at [offset], leaves every
    other byte alone and keeps the size of the memory. *)
Lemma Memory_Set_ok m offset size value :
  0 <= offset -> 0 <= size -> (size = 0 \/ offset + size <= zlen (store m)) ->
  zlen (store m) < 2 ^ 63 ->
  exists m', Memory_Set m offset size value = Ok m' /\
    lastGasCost m' = lastGasCost m /\ zlen (store m') = zlen (store m) /\
    (wf_bytes (store m) -> wf_bytes value -> wf_bytes (store m')) /\
    forall i : nat, store m' !! i =
      if decide (offset <= Z.of_nat i < offset + Z.min size (zlen value))
      then value !! (i - Z.to_nat offset)%nat else store m !! i.
Proof.
  intros Ho Hs Hr Hl. unfold Memory_Set. destruct (Z.ltb_spec 0 size).
  - assert (Hw : u64 (offset + size) = offset + size) by (apply u64_id; unfold is_u64; lia).
    rewrite Hw. destruct (Z.ltb_spec (zlen (store m)) (offset + size)); [lia|].
    rewrite slice_ok by lia. eexists; split; [reflexivity|]. simpl.
    rewrite zlen_copy_at by lia. split_and!; [done|done| |].
    + intros. apply wf_copy_at; [done|]. by apply Forall_take.
    + intros i. rewrite lookup_copy_at by lia.
      assert (zlen (take (Z.to_nat size) value) = Z.min size (zlen value)) as ->
        by (unfold zlen; rewrite length_take; lia).
      repeat case_decide; try lia; try done. apply lookup_take_lt. lia.
  - exists m. split_and!; try done. intros i. case_decide; [|done].
    pose proof (zlen_nonneg value). lia.
Qed.

Lemma Memory_GetPtr_ok m offset size :
  0 <= offset -> 0 <= size -> (size = 0 \/ offset + size <= zlen (store m)) ->
  Memory_GetPtr m offset size =
    Ok (take (Z.to_nat size) (drop (Z.to_nat offset) (store m))).
Proof.
  intros Ho Hs Hr. unfold Memory_GetPtr. destruct (Z.eqb_spec size 0) as [->|].
  - by rewrite take_0.
  - destruct (Z.ltb_spec offset (zlen (store m))); [|lia].
    rewrite slice_ok by lia. do 2 f_equal. lia.
Qed.

Lemma zlen_GetPtr m offset size r :
  Memory_GetPtr m offset size = Ok r -> zlen r = size \/ r = [].
Proof.
  unfold Memory_GetPtr. zcases; intros E; simplify_eq; auto.
  left. apply zlen_slice in E. lia.
Qed.

Lemma wf_slice (l : bytes) i j r : wf_bytes l -> slice l i j = Ok r -> wf_bytes r.
Proof.
  unfold slice. intros Hl. destruct (_ && _); intros [= <-]. by apply Forall_take, Forall_drop.
Qed.

Lemma wf_GetPtr m offset size r :
  wf_bytes (store m) -> Memory_GetPtr m offset size = Ok r -> wf_bytes r.
Proof.
  unfold Memory_GetPtr. intros Hw. zcases; intros E; simplify_eq; try (by constructor).
  eapply wf_slice; eauto.
Qed.

(** [GetCopy] and [GetPtr] return the same bytes. *)
Lemma Memory_GetCopy_GetPtr m offset size :
  0 <= size -> Memory_GetCopy m offset size = Memory_GetPtr m offset size.
Proof.
  intros Hs. unfold Memory_GetCopy, Memory_GetPtr. zcases; try done; try lia.
  destruct (slice (store m) offset (offset + size)) as [r| |] eqn:E; try done.
  simpl. rewrite copy_at_full; [done|]. apply zlen_slice in E. unfold zeros, zlen in *.
  rewrite length_replicate. lia.
Qed.

Section Set32.
Context {U : Uint256} {UL : Uint256Laws}.

Lemma Memory_Set32_ok m offset val :
  0 <= offset -> offset + 32 <= zlen (store m) -> zlen (store m) < 2 ^ 63 -> is_u256 val ->
  Memory_Set32 m offset val = Ok (with_store m (copy_at (store m) offset (be_bytes 32 val))).
Proof.
  intros Ho Hr Hl Hv. unfold Memory_Set32.
  assert (Hw : u64 (offset + 32) = offset + 32) by (apply u64_id; unfold is_u64; lia).
  rewrite Hw. destruct (Z.ltb_spec (zlen (store m)) (offset + 32)); [lia|].
  rewrite (slice_ok (store m) offset (offset + 32)) by lia. unfold mbind, result_bind.
  set (s := copy_at (store m) offset (zeros 32)).
  assert (Hsl : zlen s = zlen (store m)) by (apply zlen_copy_at; lia).
  rewrite slice_ok by lia.
  rewrite law_WriteToSlice; [|done|].
  2: { unfold zlen in *. rewrite length_take, length_drop. lia. }
  do 2 f_equal. rewrite (firstn_all2 (drop (Z.to_nat offset) s)) by (unfold zlen in *; rewrite length_drop; lia).
  apply list_eq. intros i. rewrite lookup_copy_at, zlen_be_bytes by lia.
  assert (Hd : zlen (drop (Z.to_nat offset) s) = zlen s - offset) by (apply zlen_drop; lia).
  assert (Ht : length (take (Z.to_nat offset) s) = Z.to_nat offset)
    by (unfold zlen in *; rewrite length_take; lia).
  destruct (Nat.lt_ge_cases i (Z.to_nat offset)) as [Hi|Hi].
  - rewrite lookup_app_l, lookup_take_lt by lia. subst s. rewrite lookup_copy_at by lia.
    repeat case_decide; try lia; done.
  - rewrite lookup_app_r, Ht, lookup_copy_at, zlen_be_bytes, Hd by lia.
    rewrite lookup_drop. replace (Z.to_nat offset + (i - Z.to_nat offset))%nat with i by lia.
    change (Z.to_nat 0) with O. rewrite Nat.sub_0_r. subst s.
    rewrite lookup_copy_at by lia.
    change (zlen (zeros 32)) with 32. repeat case_decide; try lia; done.
Qed.
End Set32.

Lemma Memory_Resize_len m size : Memory_Len (Memory_Resize m size) = Z.max (Memory_Len m) size.
Proof.
  unfold Memory_Resize, Memory_Len. zcases; [|lia].
  rewrite zlen_app, zlen_zeros; lia.
Qed.

Lemma Memory_Resize_lookup m size (i : nat) :
  store (Memory_Resize m size) !! i =
    match store m !! i with
    | Some b => Some b
    | None => if decide (Z.of_nat i < size) then Some 0 else None
    end.
Proof.
  unfold Memory_Resize, Memory_Len, zlen. zcases.
  - rewrite lookup_app. destruct (store m !! i) eqn:E; [done|].
    apply lookup_ge_None in E. unfold zeros.
    case_decide; [apply lookup_replicate_2; lia | apply lookup_replicate_None; lia].
  - destruct (store m !! i) eqn:E; [done|]. apply lookup_ge_None in E.
    case_decide; [lia|done].
Qed.

Lemma wf_Resize m size : wf_bytes (store m) -> wf_bytes (store (Memory_Resize m size)).
Proof.
  unfold Memory_Resize. intros. case_match; [|done]. simpl.
  apply Forall_app; split; [done|apply wf_zeros].
Qed.

(** C27: bytes written to memory by [Set] are read back by [GetPtr] and [GetCopy]
    from the same range, every byte outside the range keeps its value, and the
    memory keeps its size and its price; nothing panics on a range inside the
    memory. *)
Theorem Memory_Set_GetPtr m offset value :
  0 <= offset -> offset + zlen value <= zlen (store m) -> zlen (store m) < 2 ^ 63 ->
  exists m', Memory_Set m offset (zlen value) value = Ok m' /\
    Memory_GetPtr m' offset (zlen value) = Ok value /\ Memory_GetCopy m' offset (zlen value) = Ok value /\
    Memory_Len m' = Memory_Len m /\ lastGasCost m' = lastGasCost m /\
    forall i : nat, ~ (offset <= Z.of_nat i < offset + zlen value) -> store m' !! i = store m !! i.
Proof.
  intros Ho Hr Hl. pose proof (zlen_nonneg value) as Hv.
  destruct (Memory_Set_ok m offset (zlen value) value) as (m' & Es & Eg & El & _ & Hi); [lia..|].
  exists m'. rewrite Memory_GetCopy_GetPtr by lia. rewrite Memory_GetPtr_ok by lia.
  assert (take (Z.to_nat (zlen value)) (drop (Z.to_nat offset) (store m')) = value) as ->.
  { apply list_eq. intros i. destruct (Nat.lt_ge_cases i (length value)) as [Hlt|Hge].
    - rewrite lookup_take_lt by (unfold zlen; lia). rewrite lookup_drop, Hi.
      rewrite decide_True by (unfold zlen in *; lia). f_equal. lia.
    - rewrite lookup_take_ge by (unfold zlen; lia). symmetry. by apply lookup_ge_None. }
  split_and!; try done. intros i Hni. rewrite Hi. rewrite decide_False by lia. done.
Qed.
Lemma Memory_Set_GetPtr_witness :
  exists m', Memory_Set (mkMemory (zeros 64) 6) 10 3 [1; 2; 3] = Ok m' /\
    Memory_GetPtr m' 10 3 = Ok [1; 2; 3] /\ Memory_GetCopy m' 10 3 = Ok [1; 2; 3] /\
    Memory_Len m' = 64 /\ lastGasCost m' = 6 /\
    forall i : nat, ~ (10 <= Z.of_nat i < 10 + 3) -> store m' !! i = zeros 64 !! i.
Proof.
  apply (Memory_Set_GetPtr (mkMemory (zeros 64) 6) 10 [1; 2; 3]); [lia|vm_compute; discriminate|reflexivity].
Defined.
