(* ===== verification/Analysis.v ===== *)
(** JUMPDEST analysis: [vm/analysis.go].

    The bit vector has a bit per byte of the program, set when the byte is the
    argument of a PUSH.  The reference definition is [instr_start], the
    positions at which an instruction begins when the program is read from
    its first byte. *)
From Stdlib Require Import ZArith Lia.
From stdpp Require Import base numbers list.
From S2P Require Import Prelude OpCodes.
Local Open Scope Z_scope.

Definition set2BitsMask : Z := 3.
Definition set3BitsMask : Z := 7.
Definition set4BitsMask : Z := 15.
Definition set5BitsMask : Z := 31.
Definition set6BitsMask : Z := 63.
Definition set7BitsMask : Z := 127.

(** [byte(x)] and [^a] on bytes. *)
Definition to_byte (x : Z) : Z := Z.land x 255.
Definition not_byte (a : Z) : Z := Z.lxor a 255.

(** [bits[i] |= x] *)
Definition or_index (bits : bytes) (i x : Z) : result bytes :=
  b ← index bits i; set_index bits i (Z.lor b x).

Definition set1 (bits : bytes) (pos : Z) : result bytes :=
  or_index bits (pos / 8) (Z.shiftl 1 (pos mod 8)).

Definition setN (bits : bytes) (flag pos : Z) : result bytes :=
  let a := Z.land (Z.shiftl flag (pos mod 8)) 65535 in
  bits ← or_index bits (pos / 8) (to_byte a);
  let b := to_byte (Z.shiftr a 8) in
  if negb (b =? 0) then set_index bits (pos / 8 + 1) b else Ok bits.

Definition set8 (bits : bytes) (pos : Z) : result bytes :=
  let a := to_byte (Z.shiftl 255 (pos mod 8)) in
  bits ← or_index bits (pos / 8) a;
  set_index bits (pos / 8 + 1) (not_byte a).

Definition set16 (bits : bytes) (pos : Z) : result bytes :=
  let a := to_byte (Z.shiftl 255 (pos mod 8)) in
  bits ← or_index bits (pos / 8) a;
  bits ← set_index bits (pos / 8 + 1) 255;
  set_index bits (pos / 8 + 2) (not_byte a).

Definition codeSegment (bits : bytes) (pos : Z) : result bool :=
  b ← index bits (pos / 8);
  Ok (Z.land (Z.shiftr b (pos mod 8)) 1 =? 0).

(** The loops [for ; numbits >= w; numbits -= w]. *)
Fixpoint set_chunks (w : Z) (set : bytes -> Z -> result bytes) (fuel : nat)
    (bits : bytes) (pc numbits : Z) : result (bytes * Z * Z) :=
  match fuel with
  | O => OutOfFuel
  | S fuel' =>
    if w <=? numbits then
      bits ← set bits pc;
      set_chunks w set fuel' bits (pc + w) (numbits - w)
    else Ok (bits, pc, numbits)
  end.

(** The [switch numbits]. *)
Definition set_rest (bits : bytes) (pc numbits : Z) : result (bytes * Z) :=
  match numbits with
  | 1 => bits ← set1 bits pc; Ok (bits, pc + 1)
  | 2 => bits ← setN bits set2BitsMask pc; Ok (bits, pc + 2)
  | 3 => bits ← setN bits set3BitsMask pc; Ok (bits, pc + 3)
  | 4 => bits ← setN bits set4BitsMask pc; Ok (bits, pc + 4)
  | 5 => bits ← setN bits set5BitsMask pc; Ok (bits, pc + 5)
  | 6 => bits ← setN bits set6BitsMask pc; Ok (bits, pc + 6)
  | 7 => bits ← setN bits set7BitsMask pc; Ok (bits, pc + 7)
  | _ => Ok (bits, pc)
  end.

(** The body of the loop after the opcode was recognised as a PUSH. *)
Definition set_push (bits : bytes) (pc numbits : Z) : result (bytes * Z) :=
  if 8 <=? numbits then
    '(bits, pc, numbits) ← set_chunks 16 set16 3 bits pc numbits;
    '(bits, pc, numbits) ← set_chunks 8 set8 2 bits pc numbits;
    set_rest bits pc numbits
  else set_rest bits pc numbits.

Fixpoint codeBitmapLoop (fuel : nat) (code bits : bytes) (pc : Z) : result bytes :=
  match fuel with
  | O => OutOfFuel
  | S fuel' =>
    if pc <? zlen code then
      op ← index code pc;
      let pc := pc + 1 in
      if (op <? PUSH1) || (PUSH32 <? op) then codeBitmapLoop fuel' code bits pc
      else
        '(bits, pc) ← set_push bits pc (op - PUSH1 + 1);
        codeBitmapLoop fuel' code bits pc
    else Ok bits
  end.

(** Every turn of the loop advances [pc]: [len code + 1] turns are enough. *)
Definition codeBitmapInternal (code bits : bytes) : result bytes :=
  codeBitmapLoop (S (length code)) code bits 0.

Definition codeBitmap (code : bytes) : result bytes :=
  codeBitmapInternal code (zeros (zlen code / 8 + 1 + 4)).

(** ** The reference definition *)
Definition push_len (op : Z) : Z :=
  if (op <? PUSH1) || (PUSH32 <? op) then 0 else op - PUSH1 + 1.

Inductive instr_start (code : bytes) : Z -> Prop :=
| start_first : instr_start code 0
| start_next pc op :
    instr_start code pc -> 0 <= pc -> code !! Z.to_nat pc = Some op ->
    instr_start code (pc + 1 + push_len op).

(** ** Bits of a vector *)
Definition bit (bits : bytes) (i : Z) : bool :=
  match bits !! Z.to_nat (i / 8) with
  | Some b => Z.testbit b (i mod 8)
  | None => false
  end.

(** [marks bits pos n bits']: the bits of [pos, pos+n) were added. *)
Definition marks (bits : bytes) (pos n : Z) (bits' : bytes) : Prop :=
  length bits' = length bits /\
  forall i, 0 <= i -> bit bits' i = bit bits i || ((pos <=? i) && (i <? pos + n)).

(** No bit is set from [pos] on. *)
Definition clear_from (bits : bytes) (pos : Z) : Prop :=
  forall i, pos <= i -> bit bits i = false.

Lemma bit_insert bits q v i :
  0 <= q < zlen bits -> 0 <= i ->
  bit (<[Z.to_nat q := v]> bits) i =
    if i / 8 =? q then Z.testbit v (i mod 8) else bit bits i.
Proof.
  intros Hq Hi. unfold bit. assert (0 <= i / 8) by (apply Z.div_pos; lia).
  destruct (Z.eqb_spec (i / 8) q) as [->|Hne].
  - rewrite list_lookup_insert_eq; [done|]. unfold zlen in *. lia.
  - rewrite list_lookup_insert_ne; [done|]. lia.
Qed.

Lemma or_index_ok bits q x :
  0 <= q < zlen bits ->
  exists bits', or_index bits q x = Ok bits' /\ length bits' = length bits /\
    forall i, 0 <= i ->
      bit bits' i = bit bits i || ((i / 8 =? q) && Z.testbit x (i mod 8)).
Proof.
  intros Hq. unfold or_index. destruct (index_ok bits q Hq) as (b & -> & Hb).
  unfold mbind, result_bind. rewrite set_index_ok by done. eexists; split; [done|].
  rewrite length_insert. split; [done|]. intros i Hi. rewrite bit_insert by done.
  destruct (Z.eqb_spec (i / 8) q) as [<-|]; simpl.
  - unfold bit. rewrite Hb. apply Z.lor_spec.
  - by rewrite orb_false_r.
Qed.

Lemma codeSegment_ok bits pos :
  0 <= pos < 8 * zlen bits -> codeSegment bits pos = Ok (negb (bit bits pos)).
Proof.
  intros Hp. unfold codeSegment.
  destruct (index_ok bits (pos / 8)) as (b & -> & Hb); [zmod|].
  unfold mbind, result_bind, bit. rewrite Hb. f_equal.
  change 1 with (Z.ones 1). rewrite Z.land_ones by lia. change (2 ^ 1) with 2.
  rewrite <- Z.bit0_mod, Z.shiftr_spec, Z.add_0_l by lia.
  by destruct (Z.testbit b (pos mod 8)).
Qed.

(** ** The setters mark ranges *)
Ltac mask_solve :=
  unfold to_byte, not_byte;
  change 255 with (Z.ones 8); change 65535 with (Z.ones 16);
  rewrite ?Z.land_spec, ?Z.lxor_spec, ?Z.land_spec, ?Z.shiftr_spec, ?Z.land_spec,
    ?Z.shiftl_spec, ?Z.testbit_ones by lia; zcases; lia || done.

Lemma mask_low n r k : 0 <= n -> 0 <= r < 8 -> 0 <= k < 8 ->
  Z.testbit (to_byte (Z.land (Z.shiftl (Z.ones n) r) 65535)) k = (r <=? k) && (k <? r + n).
Proof. intros. mask_solve. Qed.

Lemma mask_high n r k : 0 <= n -> 0 <= r < 8 -> 0 <= k < 8 ->
  Z.testbit (to_byte (Z.shiftr (Z.land (Z.shiftl (Z.ones n) r) 65535) 8)) k = (k + 8 <? r + n).
Proof. intros. mask_solve. Qed.

Lemma mask_high_zero n r : 0 <= n -> 0 <= r -> r + n <= 8 ->
  to_byte (Z.shiftr (Z.land (Z.shiftl (Z.ones n) r) 65535) 8) = 0.
Proof. intros. apply Z.bits_inj'. intros k Hk. rewrite Z.bits_0. mask_solve. Qed.

Lemma mask8_low r k : 0 <= r < 8 -> 0 <= k < 8 ->
  Z.testbit (to_byte (Z.shiftl 255 r)) k = (r <=? k).
Proof. intros. mask_solve. Qed.

Lemma mask8_high r k : 0 <= r < 8 -> 0 <= k < 8 ->
  Z.testbit (not_byte (to_byte (Z.shiftl 255 r))) k = (k <? r).
Proof. intros. mask_solve. Qed.

Lemma ones8 k : 0 <= k < 8 -> Z.testbit 255 k = true.
Proof. intros. mask_solve. Qed.

(** Positions by byte and offset. *)
Ltac bitpos pos :=
  pose proof (Z.div_mod pos 8 ltac:(lia)); pose proof (Z.mod_pos_bound pos 8 ltac:(lia)).

Lemma set1_marks bits pos :
  0 <= pos -> pos < 8 * zlen bits ->
  exists bits', set1 bits pos = Ok bits' /\ marks bits pos 1 bits'.
Proof.
  intros H0 Hl. unfold set1. bitpos pos.
  destruct (or_index_ok bits (pos / 8) (Z.shiftl 1 (pos mod 8))) as (b & -> & Hb & Hbit); [lia|].
  exists b. split; [done|]. split; [done|]. intros i Hi. rewrite Hbit by done. bitpos i. f_equal.
  change 1 with (Z.ones 1) at 1. rewrite Z.shiftl_spec, Z.testbit_ones by lia. zcases; lia || done.
Qed.

Lemma setN_marks bits n pos :
  1 <= n <= 7 -> 0 <= pos -> pos + n <= 8 * zlen bits -> clear_from bits pos ->
  exists bits', setN bits (Z.ones n) pos = Ok bits' /\ marks bits pos n bits'.
Proof.
  intros Hn H0 Hl Hc. unfold setN. bitpos pos.
  set (a := Z.land _ _).
  destruct (or_index_ok bits (pos / 8) (to_byte a)) as (b & -> & Hb & Hbit); [lia|].
  unfold mbind, result_bind.
  assert (Hz : zlen b = zlen bits) by (unfold zlen; lia).
  destruct (Z.eqb_spec (to_byte (Z.shiftr a 8)) 0) as [E|E]; cbn [negb].
  - exists b. split; [done|]. split; [done|]. intros i Hi. rewrite Hbit by done. bitpos i.
    f_equal. subst a. destruct (Z.eqb_spec (i / 8) (pos / 8)); simpl.
    + rewrite mask_low by lia. zcases; lia || done.
    + destruct (Z.eq_dec (i / 8) (pos / 8 + 1)).
      * pose proof (mask_high n (pos mod 8) (i mod 8)) as Hm. rewrite E, Z.bits_0 in Hm.
        specialize (Hm ltac:(lia) ltac:(lia) ltac:(lia)). zcases; lia || done.
      * zcases; lia || done.
  - assert (8 < pos mod 8 + n).
    { destruct (Z.lt_ge_cases 8 (pos mod 8 + n)); [done|]. subst a. by rewrite mask_high_zero in E by lia. }
    rewrite set_index_ok by lia. eexists; split; [done|]. split; [by rewrite length_insert|].
    intros i Hi. rewrite bit_insert, Hbit by lia. bitpos i. subst a.
    destruct (Z.eqb_spec (i / 8) (pos / 8 + 1)).
    + rewrite mask_high, Hc by lia. simpl. zcases; lia || done.
    + f_equal. destruct (Z.eqb_spec (i / 8) (pos / 8)); simpl;
        [rewrite mask_low by lia|]; zcases; lia || done.
Qed.

Lemma set8_marks bits pos :
  0 <= pos -> pos + 8 < 8 * zlen bits -> clear_from bits pos ->
  exists bits', set8 bits pos = Ok bits' /\ marks bits pos 8 bits'.
Proof.
  intros H0 Hl Hc. unfold set8. bitpos pos.
  set (a := to_byte _).
  destruct (or_index_ok bits (pos / 8) a) as (b & -> & Hb & Hbit); [lia|].
  unfold mbind, result_bind.
  assert (Hz : zlen b = zlen bits) by (unfold zlen; lia).
  rewrite set_index_ok by lia. eexists; split; [done|]. split; [by rewrite length_insert|].
  intros i Hi. rewrite bit_insert, Hbit by lia. bitpos i. subst a.
  destruct (Z.eqb_spec (i / 8) (pos / 8 + 1)).
  - rewrite mask8_high, Hc by lia. simpl. zcases; lia || done.
  - f_equal. destruct (Z.eqb_spec (i / 8) (pos / 8)); simpl;
      [rewrite mask8_low by lia|]; zcases; lia || done.
Qed.

Lemma set16_marks bits pos :
  0 <= pos -> pos + 16 < 8 * zlen bits -> clear_from bits pos ->
  exists bits', set16 bits pos = Ok bits' /\ marks bits pos 16 bits'.
Proof.
  intros H0 Hl Hc. unfold set16. bitpos pos.
  set (a := to_byte _).
  destruct (or_index_ok bits (pos / 8) a) as (b & -> & Hb & Hbit); [lia|].
  unfold mbind, result_bind.
  assert (Hz : zlen b = zlen bits) by (unfold zlen; lia).
  rewrite set_index_ok by lia.
  rewrite set_index_ok by (unfold zlen in *; rewrite length_insert; lia).
  eexists; split; [done|]. split; [by rewrite !length_insert|].
  intros i Hi. rewrite bit_insert by (unfold zlen in *; rewrite ?length_insert; lia).
  rewrite bit_insert, Hbit by lia. bitpos i. subst a.
  destruct (Z.eqb_spec (i / 8) (pos / 8 + 2)); [|destruct (Z.eqb_spec (i / 8) (pos / 8 + 1))].
  - rewrite mask8_high, Hc by lia. simpl. zcases; lia || done.
  - rewrite ones8, Hc by lia. simpl. zcases; lia || done.
  - f_equal. destruct (Z.eqb_spec (i / 8) (pos / 8)); simpl;
      [rewrite mask8_low by lia|]; zcases; lia || done.
Qed.

Lemma marks_refl bits pos : marks bits pos 0 bits.
Proof. split; [done|]. intros i _. zcases; try lia; by rewrite orb_false_r. Qed.

Lemma marks_trans bits pos n bits1 m bits2 :
  0 <= n -> 0 <= m ->
  marks bits pos n bits1 -> marks bits1 (pos + n) m bits2 -> marks bits pos (n + m) bits2.
Proof.
  intros Hn Hm [L1 M1] [L2 M2]. split; [congruence|]. intros i Hi.
  rewrite M2, M1, <- orb_assoc by done. f_equal. zcases; lia || done.
Qed.

Lemma marks_clear bits pos n bits' :
  0 <= pos -> 0 <= n -> clear_from bits pos -> marks bits pos n bits' -> clear_from bits' (pos + n).
Proof. intros H0 Hn Hc [_ M] i Hi. rewrite M, Hc by lia. zcases; lia || done. Qed.

Lemma set_rest_marks bits pc n :
  0 <= n <= 7 -> 0 <= pc -> pc + n <= 8 * zlen bits -> clear_from bits pc ->
  exists bits', set_rest bits pc n = Ok (bits', pc + n) /\ marks bits pc n bits'.
Proof.
  intros Hn H0 Hl Hc.
  assert (n = 0 \/ n = 1 \/ n = 2 \/ n = 3 \/ n = 4 \/ n = 5 \/ n = 6 \/ n = 7)
    as [->|[->|Hn']] by lia.
  - exists bits. rewrite Z.add_0_r. split; [done|apply marks_refl].
  - destruct (set1_marks bits pc) as (b & Hb & M); [lia..|]. exists b. simpl. by rewrite Hb.
  - destruct (setN_marks bits n pc) as (b & Hb & M); [lia..|done|]. exists b. split; [|done].
    repeat destruct Hn' as [->|Hn']; try subst n; cbn [set_rest];
      (change (Z.ones _) with set2BitsMask in Hb || change (Z.ones _) with set3BitsMask in Hb
       || change (Z.ones _) with set4BitsMask in Hb || change (Z.ones _) with set5BitsMask in Hb
       || change (Z.ones _) with set6BitsMask in Hb || change (Z.ones _) with set7BitsMask in Hb);
      by rewrite Hb.
Qed.

Lemma set_chunks_marks w set fuel bits pc n :
  0 < w ->
  (forall b p, 0 <= p -> p + w < 8 * zlen b -> clear_from b p ->
     exists b', set b p = Ok b' /\ marks b p w b') ->
  n < w * Z.of_nat fuel -> 0 <= n -> 0 <= pc -> pc + n < 8 * zlen bits -> clear_from bits pc ->
  exists bits', set_chunks w set fuel bits pc n = Ok (bits', pc + w * (n / w), n mod w) /\
    marks bits pc (w * (n / w)) bits'.
Proof.
  intros Hw Hset. revert bits pc n. induction fuel as [|fuel IH]; intros bits pc n Hf Hn Hp Hl Hc; [lia|].
  cbn [set_chunks]. destruct (Z.leb_spec w n).
  - destruct (Hset bits pc) as (b & -> & M); [lia..|done|]. unfold mbind, result_bind.
    destruct (IH b (pc + w) (n - w)) as (b2 & -> & M2); [lia..| |eapply marks_clear; eauto; lia|].
    { unfold zlen in *. destruct M as [-> _]. lia. }
    assert (Hd : n / w = (n - w) / w + 1) 
      by (replace n with (n - w + 1 * w) at 1 by lia; apply Z.div_add; lia).
    assert (Hm : n mod w = (n - w) mod w) 
      by (replace n with (n - w + 1 * w) at 1 by lia; apply Z.mod_add; lia).
    rewrite Hd, Hm. exists b2.
    replace (pc + w * ((n - w) / w + 1)) with (pc + w + w * ((n - w) / w)) by lia.
    split; [done|]. replace (w * ((n - w) / w + 1)) with (w + w * ((n - w) / w)) by lia.
    assert (0 <= (n - w) / w) by (apply Z.div_pos; lia).
    eapply marks_trans; eauto; nia.
  - rewrite Z.div_small, Z.mod_small, Z.mul_0_r, Z.add_0_r by lia. exists bits.
    split; [done|apply marks_refl].
Qed.

Lemma set_push_marks bits pc n :
  1 <= n <= 32 -> 0 <= pc -> pc + 33 <= 8 * zlen bits -> clear_from bits pc ->
  exists bits', set_push bits pc n = Ok (bits', pc + n) /\ marks bits pc n bits'.
Proof.
  intros Hn Hp Hl Hc. unfold set_push. destruct (Z.leb_spec 8 n).
  2: { apply set_rest_marks; lia || done. }
  destruct (set_chunks_marks 16 set16 3 bits pc n) as (b1 & -> & M1); [lia|apply set16_marks|lia..|done|].
  unfold mbind, result_bind.
  assert (L1 : zlen b1 = zlen bits) by (destruct M1 as [L _]; unfold zlen; lia).
  assert (Hc1 : clear_from b1 (pc + 16 * (n / 16))) by (eapply marks_clear; eauto; zmod).
  destruct (set_chunks_marks 8 set8 2 b1 (pc + 16 * (n / 16)) (n mod 16)) as (b2 & -> & M2);
    [lia|apply set8_marks|zmod..|done|].
  assert (L2 : zlen b2 = zlen b1) by (destruct M2 as [L _]; unfold zlen; lia).
  assert (Hc2 : clear_from b2 (pc + 16 * (n / 16) + 8 * (n mod 16 / 8)))
    by (eapply marks_clear; eauto; zmod).
  destruct (set_rest_marks b2 (pc + 16 * (n / 16) + 8 * (n mod 16 / 8)) (n mod 16 mod 8))
    as (b3 & -> & M3); [zmod..|done|].
  exists b3. split; [do 2 f_equal; zmod|].
  rewrite <- Z.add_assoc in M3.
  replace n with (16 * (n / 16) + 8 * (n mod 16 / 8) + n mod 16 mod 8) by zmod.
  eapply marks_trans; [zmod|zmod| |exact M3]. eapply marks_trans; eauto; zmod.
Qed.

(** ** The bitmap against the reference *)
Lemma push_len_nonneg op : 0 <= push_len op.
Proof. unfold push_len, PUSH1, PUSH32. zcases; lia. Qed.

Lemma instr_start_nonneg code i : instr_start code i -> 0 <= i.
Proof. induction 1 as [|pc op]; [done|]. pose proof (push_len_nonneg op). lia. Qed.

(** No instruction starts strictly inside another one. *)
Lemma instr_start_gap code i :
  0 <= i -> instr_start code i ->
  forall q oq, instr_start code q -> q < i -> code !! Z.to_nat q = Some oq ->
    q + 1 + push_len oq <= i.
Proof.
  intros Hi. pattern i. apply Z_lt_induction; [|done]. clear i Hi.
  intros i IH Hs q oq Hq Hlt Hoq. destruct Hs as [|p o Hp Hp0 Ho].
  { apply instr_start_nonneg in Hq. lia. }
  pose proof (push_len_nonneg o).
  destruct (Z.lt_trichotomy q p) as [Hqp|[->|Hqp]].
  - specialize (IH p ltac:(lia) Hp q oq Hq Hqp Hoq). lia.
  - simplify_eq. lia.
  - specialize (IH q ltac:(lia) Hq p o Hp Hqp Ho). lia.
Qed.

(** At the head of the loop [pc] is an instruction start, the bits below it
    tell instructions from data, and the bits from it on are clear. *)
Record bitmap_inv (code bits : bytes) (pc : Z) : Prop := {
  inv_len : zlen bits = zlen code / 8 + 5;
  inv_start : instr_start code pc;
  inv_clear : clear_from bits pc;
  inv_bits : forall i, 0 <= i < pc -> (bit bits i = false <-> instr_start code i)
}.

Lemma bitmap_inv_step code bits pc op bits' :
  bitmap_inv code bits pc -> code !! Z.to_nat pc = Some op ->
  marks bits (pc + 1) (push_len op) bits' ->
  bitmap_inv code bits' (pc + 1 + push_len op).
Proof.
  intros [Hl Hs Hc Hb] Hop M. pose proof (instr_start_nonneg _ _ Hs).
  pose proof (push_len_nonneg op). destruct M as [HL M]. split.
  - unfold zlen in *. lia.
  - by constructor.
  - intros i Hi. rewrite M, Hc by lia. zcases; lia || done.
  - intros i Hi. rewrite M by lia. destruct (Z.lt_trichotomy i pc) as [Hlt|[->|Hgt]].
    + rewrite <- Hb by lia. destruct (bit bits i); zcases; lia || done.
    + rewrite Hc by lia. zcases; try lia; by split.
    + rewrite Hc by lia. zcases; try lia. split; [done|]. intros Hi'.
      pose proof (instr_start_gap code i ltac:(lia) Hi' pc op Hs Hgt Hop). lia.
Qed.

Lemma codeBitmapLoop_inv code fuel bits pc :
  wf_bytes code -> bitmap_inv code bits pc -> Z.max 0 (zlen code - pc) < Z.of_nat fuel ->
  exists bits' pc', codeBitmapLoop fuel code bits pc = Ok bits' /\
    bitmap_inv code bits' pc' /\ zlen code <= pc'.
Proof.
  intros Hw. revert bits pc. induction fuel as [|fuel IH]; intros bits pc Hinv Hf.
  { lia. }
  cbn [codeBitmapLoop]. destruct (Z.ltb_spec pc (zlen code)); [|eauto].
  pose proof (instr_start_nonneg _ _ (inv_start _ _ _ Hinv)) as Hpc.
  destruct (index_ok code pc) as (op & -> & Hop); [lia|]. unfold mbind, result_bind.
  pose proof (push_len_nonneg op) as Hpl. pose proof (bitmap_inv_step code bits pc op) as Hstep.
  unfold push_len in Hstep, Hpl. destruct ((op <? PUSH1) || (PUSH32 <? op)) eqn:Ep.
  - destruct (IH bits (pc + 1)) as (b & p & ? & ? & ?); [|lia|eauto].
    rewrite <- (Z.add_0_r (pc + 1)). apply Hstep; [done|done|apply marks_refl].
  - apply orb_false_iff in Ep as [E1%Z.ltb_ge E2%Z.ltb_ge]. unfold PUSH1, PUSH32 in E1, E2.
    destruct Hinv as [HL Hs Hc Hb].
    destruct (set_push_marks bits (pc + 1) (op - PUSH1 + 1)) as (b1 & -> & M).
    + unfold PUSH1. lia.
    + lia.
    + rewrite HL. zmod.
    + intros i Hi. apply Hc. lia.
    + destruct (IH b1 (pc + 1 + (op - PUSH1 + 1))) as (b & p & ? & ? & ?);
        [apply Hstep; done|unfold PUSH1 in *; lia|eauto].
Qed.

Lemma bitmap_inv_init code : bitmap_inv code (zeros (zlen code / 8 + 1 + 4)) 0.
Proof.
  pose proof (zlen_nonneg code). split.
  - rewrite zlen_zeros; zmod.
  - constructor.
  - intros i Hi. unfold bit, zeros. destruct (_ !! _) eqn:E; [|done].
    apply lookup_replicate in E as [-> _]. apply Z.bits_0.
  - lia.
Qed.

(** The analysis returns, for every program, and its bits are the data bytes. *)
Lemma codeBitmap_ok code :
  wf_bytes code ->
  exists bits, codeBitmap code = Ok bits /\ zlen code < 8 * zlen bits /\
    forall i, 0 <= i < zlen code -> (bit bits i = false <-> instr_start code i).
Proof.
  intros Hw. unfold codeBitmap, codeBitmapInternal.
  destruct (codeBitmapLoop_inv code (S (length code)) _ 0 Hw (bitmap_inv_init code))
    as (bits & pc & H & [Hl _ _ Hb] & Hpc); [unfold zlen; lia|].
  exists bits. split; [exact H|]. split; [pose proof (zlen_nonneg code); rewrite Hl; zmod|].
  intros i Hi. apply Hb. lia.
Qed.

(** C8: [codeBitmap] returns for every program, and its bit at a position tells
    whether an instruction starts there. *)
Theorem codeBitmap_correct code i :
  wf_bytes code -> 0 <= i < zlen code ->
  exists bits b, codeBitmap code = Ok bits /\ codeSegment bits i = Ok b /\
    (b = true <-> instr_start code i).
Proof.
  intros Hw Hi. destruct (codeBitmap_ok code Hw) as (bits & H & Hl & Hb).
  exists bits, (negb (bit bits i)). split; [done|].
  split; [apply codeSegment_ok; lia|]. rewrite negb_true_iff. by apply Hb.
Qed.

Lemma codeBitmap_correct_witness :
  exists bits b, codeBitmap [0x61; 0x5b; 0x5b; 0x5b] = Ok bits /\
    codeSegment bits 2 = Ok b /\ (b = true <-> instr_start [0x61; 0x5b; 0x5b; 0x5b] 2).
Proof.
  apply codeBitmap_correct; [repeat constructor; unfold is_byte; lia | unfold zlen; simpl; lia].
Defined.
