(* ===== verification/Rlp.v ===== *)
(** RLP: the raw layer ([rlp/raw.go]), the encoder buffer ([rlp/encbuffer.go],
    [rlp/encode.go]) and the decoding stream ([rlp/decode.go]), the latter two
    as far as the state database and the EVM use them (accounts, contract
    addresses).  Reflection is resolved: the writers and decoders of the struct
    fields appear in the order in which [makeStructWriter] and
    [makeStructDecoder] call them. *)
From Stdlib Require Import ZArith Lia.
From stdpp Require Import base numbers list.
From S2P Require Import Prelude Math.
Local Open Scope Z_scope.

Inductive Kind := Byte | String | List.
#[global] Instance Kind_eq_dec : EqDecision Kind.
Proof. solve_decision. Defined.

(** Error values; [decodeError] is what [wrapStreamError] makes of a stream
    error (its message; type and field context are not kept). *)
Inductive rlp_error :=
| ErrUnexpectedEOF | ErrEOF | ErrCanonSize | ErrCanonInt | ErrExpectedString | ErrExpectedList
| ErrElemTooLarge | ErrValueTooLarge | errUintOverflow | EOL | errNotAtEOL | errNotInList
| ErrMoreThanOneValue | ErrNegativeBigInt | errTooFewElements
| decodeError (e : rlp_error).

(** A Go pair [(value, error)]. *)
Inductive err (A : Type) := Val (a : A) | Err (e : rlp_error).
Arguments Val {A} a.
Arguments Err {A} e.

#[global] Instance err_ret : MRet err := fun _ => Val.
#[global] Instance err_bind : MBind err := fun _ _ f m =>
  match m with Val a => f a | Err e => Err e end.

(** [byte(i >> s)] *)
Definition byte_at (i s : Z) : Z := Z.shiftr i s mod 256.

(** ** Sizes and heads: [rlp/encode.go] *)

(** The bytes [putint] writes. *)
Definition putint (i : Z) : bytes :=
  if i <? 2 ^ 8 then [byte_at i 0]
  else if i <? 2 ^ 16 then [byte_at i 8; byte_at i 0]
  else if i <? 2 ^ 24 then [byte_at i 16; byte_at i 8; byte_at i 0]
  else if i <? 2 ^ 32 then [byte_at i 24; byte_at i 16; byte_at i 8; byte_at i 0]
  else if i <? 2 ^ 40 then [byte_at i 32; byte_at i 24; byte_at i 16; byte_at i 8; byte_at i 0]
  else if i <? 2 ^ 48 then
    [byte_at i 40; byte_at i 32; byte_at i 24; byte_at i 16; byte_at i 8; byte_at i 0]
  else if i <? 2 ^ 56 then
    [byte_at i 48; byte_at i 40; byte_at i 32; byte_at i 24; byte_at i 16; byte_at i 8; byte_at i 0]
  else
    [byte_at i 56; byte_at i 48; byte_at i 40; byte_at i 32; byte_at i 24; byte_at i 16;
     byte_at i 8; byte_at i 0].

(** The loop shifts a 64-bit value out byte by byte: eight turns. *)
Fixpoint intsize_loop (fuel : nat) (i size : Z) : Z :=
  match fuel with
  | O => size
  | S fuel' => let i := Z.shiftr i 8 in
               if i =? 0 then size else intsize_loop fuel' i (size + 1)
  end.
Definition intsize (i : Z) : Z := intsize_loop 8 i 1.

Definition headsize (size : Z) : Z := if size <? 56 then 1 else 1 + intsize size.

(** The bytes [puthead] writes. *)
Definition puthead (smalltag largetag size : Z) : bytes :=
  if size <? 56 then [smalltag + size]
  else (largetag + zlen (putint size)) :: putint size.

(** ** [rlp/raw.go] *)
Definition StringSize (s : bytes) : Z :=
  match s with
  | [] => 1
  | [b] => if b <=? 0x7f then 1 else 2
  | _ => headsize (zlen s) + zlen s
  end.
Definition BytesSize (b : bytes) : Z :=
  match b with
  | [] => 1
  | [x] => if x <=? 0x7f then 1 else 2
  | _ => headsize (zlen b) + zlen b
  end.
Definition ListSize (contentSize : Z) : Z := headsize contentSize + contentSize.
Definition IntSize (x : Z) : Z := if x <? 0x80 then 1 else 1 + intsize x.

(** The shifted bytes of the eight cases are disjoint: their union is the
    big-endian value. *)
Definition readSize (b : bytes) (slen : Z) : err Z :=
  if zlen b <? slen then Err ErrUnexpectedEOF
  else
    let s := be_val (take (Z.to_nat slen) b) in
    match b with
    | b0 :: _ => if (s <? 56) || (b0 =? 0) then Err ErrCanonSize else Val s
    | [] => Err ErrCanonSize
    end.

Definition readKind (buf : bytes) : err (Kind * Z * Z) :=
  match buf with
  | [] => Err ErrUnexpectedEOF
  | b :: tl =>
    '(k, tagsize, contentsize) ←
      (if b <? 0x80 then Val (Byte, 0, 1)
       else if b <? 0xB8 then
         let contentsize := b - 0x80 in
         if (contentsize =? 1) && (match tl with b1 :: _ => b1 <? 128 | [] => false end)
         then Err ErrCanonSize
         else Val (String, 1, contentsize)
       else if b <? 0xC0 then
         contentsize ← readSize tl (b - 0xB7);
         Val (String, b - 0xB7 + 1, contentsize)
       else if b <? 0xF8 then Val (List, 1, b - 0xC0)
       else
         contentsize ← readSize tl (b - 0xF7);
         Val (List, b - 0xF7 + 1, contentsize));
    if zlen buf - tagsize <? contentsize then Err ErrValueTooLarge
    else Val (k, tagsize, contentsize)
  end.

(** Kind, content and rest of the first value. *)
Definition Split (b : bytes) : result (err (Kind * bytes * bytes)) :=
  match readKind b with
  | Err e => Ok (Err e)
  | Val (k, ts, cs) =>
    content ← slice b ts (ts + cs);
    rest ← slice b (ts + cs) (zlen b);
    Ok (Val (k, content, rest))
  end.

Definition SplitString (b : bytes) : result (err (bytes * bytes)) :=
  s ← Split b;
  match s with
  | Err e => Ok (Err e)
  | Val (k, content, rest) =>
    if decide (k = List) then Ok (Err ErrExpectedString) else Ok (Val (content, rest))
  end.

Definition SplitUint64 (b : bytes) : result (err (Z * bytes)) :=
  s ← SplitString b;
  match s with
  | Err e => Ok (Err e)
  | Val (content, rest) =>
    match content with
    | [] => Ok (Val (0, rest))
    | [c] => if c =? 0 then Ok (Err ErrCanonInt) else Ok (Val (c, rest))
    | _ => if 8 <? zlen content then Ok (Err errUintOverflow)
           else match readSize content (zlen content) with
                | Err _ => Ok (Err ErrCanonInt)
                | Val x => Ok (Val (x, rest))
                end
    end
  end.

Definition SplitList (b : bytes) : result (err (bytes * bytes)) :=
  s ← Split b;
  match s with
  | Err e => Ok (Err e)
  | Val (k, content, rest) =>
    if decide (k = List) then Ok (Val (content, rest)) else Ok (Err ErrExpectedList)
  end.

(** Every turn consumes at least one byte. *)
Fixpoint CountValues_loop (fuel : nat) (b : bytes) (i : Z) : result (err Z) :=
  match fuel with
  | O => OutOfFuel
  | S fuel' =>
    if 0 <? zlen b then
      match readKind b with
      | Err e => Ok (Err e)
      | Val (_, tagsize, size) =>
        b ← slice b (tagsize + size) (zlen b);
        CountValues_loop fuel' b (i + 1)
      end
    else Ok (Val i)
  end.
Definition CountValues (b : bytes) : result (err Z) := CountValues_loop (S (length b)) b 0.

(** The eight cases append the tag [0x80 + n] and the [n] bytes of [i]. *)
Definition AppendUint64 (b : bytes) (i : Z) : bytes :=
  if i =? 0 then b ++ [0x80]
  else if i <? 128 then b ++ [i]
  else if i <? 2 ^ 8 then b ++ [0x81; byte_at i 0]
  else if i <? 2 ^ 16 then b ++ [0x82; byte_at i 8; byte_at i 0]
  else if i <? 2 ^ 24 then b ++ [0x83; byte_at i 16; byte_at i 8; byte_at i 0]
  else if i <? 2 ^ 32 then b ++ [0x84; byte_at i 24; byte_at i 16; byte_at i 8; byte_at i 0]
  else if i <? 2 ^ 40 then
    b ++ [0x85; byte_at i 32; byte_at i 24; byte_at i 16; byte_at i 8; byte_at i 0]
  else if i <? 2 ^ 48 then
    b ++ [0x86; byte_at i 40; byte_at i 32; byte_at i 24; byte_at i 16; byte_at i 8; byte_at i 0]
  else if i <? 2 ^ 56 then
    b ++ [0x87; byte_at i 48; byte_at i 40; byte_at i 32; byte_at i 24; byte_at i 16; byte_at i 8;
          byte_at i 0]
  else
    b ++ [0x88; byte_at i 56; byte_at i 48; byte_at i 40; byte_at i 32; byte_at i 24; byte_at i 16;
          byte_at i 8; byte_at i 0].

(** ** The encoder buffer: [rlp/encbuffer.go] *)
Record listhead := { lh_offset : Z; lh_size : Z }.
Record encBuffer := { str : bytes; lheads : list listhead; lhsize : Z }.

Definition getEncBuffer : encBuffer := {| str := []; lheads := []; lhsize := 0 |}.

Definition enc_size (buf : encBuffer) : Z := zlen (str buf) + lhsize buf.

Definition append_str (buf : encBuffer) (b : bytes) : encBuffer :=
  {| str := str buf ++ b; lheads := lheads buf; lhsize := lhsize buf |}.

Definition listhead_encode (h : listhead) : bytes := puthead 0xC0 0xF7 (lh_size h).

(** One turn of the loop of [copyTo], then the rest of the string data; writing
    a header past the end of [dst] panics. *)
Fixpoint copyTo_loop (heads : list listhead) (s dst : bytes) (strpos pos : Z) : result bytes :=
  match heads with
  | [] =>
    piece ← slice s strpos (zlen s);
    Ok (copy_at dst pos piece)
  | head :: heads' =>
    piece ← slice s strpos (lh_offset head);
    let n := Z.min (zlen dst - pos) (zlen piece) in
    let dst := copy_at dst pos piece in
    let pos := pos + n in
    let enc := listhead_encode head in
    if zlen dst - pos <? zlen enc then Panic
    else copyTo_loop heads' s (copy_at dst pos enc) (strpos + n) (pos + zlen enc)
  end.

Definition makeBytes (buf : encBuffer) : result bytes :=
  copyTo_loop (lheads buf) (str buf) (zeros (enc_size buf)) 0 0.

Definition writeBool (buf : encBuffer) (b : bool) : encBuffer :=
  if b then append_str buf [0x01] else append_str buf [0x80].

Definition writeUint64 (buf : encBuffer) (i : Z) : encBuffer :=
  if i =? 0 then append_str buf [0x80]
  else if i <? 128 then append_str buf [i]
  else append_str buf ((0x80 + zlen (putint i)) :: putint i).

Definition encodeStringHeader (buf : encBuffer) (size : Z) : encBuffer :=
  if size <? 56 then append_str buf [0x80 + size]
  else append_str buf ((0xB7 + zlen (putint size)) :: putint size).

Definition writeBytes (buf : encBuffer) (b : bytes) : encBuffer :=
  match b with
  | [x] => if x <=? 0x7F then append_str buf [x] else append_str (encodeStringHeader buf 1) b
  | _ => append_str (encodeStringHeader buf (zlen b)) b
  end.

(** [big.Int.BitLen] *)
Definition BitLen (i : Z) : Z := if i =? 0 then 0 else Z.log2 (Z.abs i) + 1.

(** The loop over [i.Bits()] fills the buffer from its end with the bytes of
    [i], least significant first. *)
Definition writeBigInt (buf : encBuffer) (i : Z) : encBuffer :=
  let bitlen := BitLen i in
  if bitlen <=? 64 then writeUint64 buf (u64 i)
  else
    let length := Z.shiftr (Z.land (bitlen + 7) (-8)) 3 in
    append_str (encodeStringHeader buf length) (be_bytes (Z.to_nat length) i).

(** The bytes of [z] after the string header, in one array. *)
Definition writeUint256 (buf : encBuffer) (z : Z) : encBuffer :=
  let bitlen := BitLen z in
  if bitlen <=? 64 then writeUint64 buf (u64 z)
  else
    let nBytes := (bitlen + 7) / 8 in
    append_str buf ((0x80 + nBytes) :: be_bytes (Z.to_nat nBytes) z).

Definition writeBigIntPtr (buf : encBuffer) (ptr : option Z) : err encBuffer :=
  match ptr with
  | None => Val (append_str buf [0x80])
  | Some i => if Z.sgn i =? -1 then Err ErrNegativeBigInt else Val (writeBigInt buf i)
  end.

(** A byte array of a length other than 0 and 1. *)
Definition writeByteArray (buf : encBuffer) (b : bytes) : encBuffer :=
  append_str (encodeStringHeader buf (zlen b)) b.

Definition enc_list (buf : encBuffer) : encBuffer * Z :=
  ({| str := str buf;
      lheads := lheads buf ++ [{| lh_offset := zlen (str buf); lh_size := lhsize buf |}];
      lhsize := lhsize buf |}, zlen (lheads buf)).

Definition enc_listEnd (buf : encBuffer) (i : Z) : result encBuffer :=
  lh ← index (lheads buf) i;
  let size := enc_size buf - lh_offset lh - lh_size lh in
  heads ← set_index (lheads buf) i {| lh_offset := lh_offset lh; lh_size := size |};
  Ok {| str := str buf; lheads := heads;
        lhsize := if size <? 56 then lhsize buf + 1 else lhsize buf + (1 + intsize size) |}.

(** ** The decoding stream: [rlp/decode.go]

    The reader is a [sliceReader], the bytes not read yet.  [skind] is [None]
    for the rearmed value -1.  The top of [sstack] is its head. *)
Record Stream := mkStream {
  sr : bytes;
  remaining : Z;
  ssize : Z;
  kinderr : option rlp_error;
  sstack : list Z;
  skind : option Kind;
  byteval : Z;
  limited : bool
}.

Definition set_skind (s : Stream) (k : option Kind) : Stream :=
  mkStream (sr s) (remaining s) (ssize s) (kinderr s) (sstack s) k (byteval s) (limited s).
Definition set_sstack (s : Stream) (st : list Z) : Stream :=
  mkStream (sr s) (remaining s) (ssize s) (kinderr s) st (skind s) (byteval s) (limited s).
Definition set_remaining (s : Stream) (n : Z) : Stream :=
  mkStream (sr s) n (ssize s) (kinderr s) (sstack s) (skind s) (byteval s) (limited s).
Definition set_sr (s : Stream) (b : bytes) : Stream :=
  mkStream b (remaining s) (ssize s) (kinderr s) (sstack s) (skind s) (byteval s) (limited s).
Definition set_byteval (s : Stream) (b : Z) : Stream :=
  mkStream (sr s) (remaining s) (ssize s) (kinderr s) (sstack s) (skind s) b (limited s).
Definition set_ahead (s : Stream) (k : option Kind) (size : Z) (e : option rlp_error) : Stream :=
  mkStream (sr s) (remaining s) size e (sstack s) k (byteval s) (limited s).

(** A stream operation: its result or error, and the stream after it. *)
Definition SM (A : Type) : Type := Stream -> err A * Stream.
#[global] Instance SM_ret : MRet SM := fun _ a s => (Val a, s).
#[global] Instance SM_bind : MBind SM := fun _ _ f m s =>
  match m s with
  | (Val a, s') => f a s'
  | (Err e, s') => (Err e, s')
  end.
Definition throw {A} (e : rlp_error) : SM A := fun s => (Err e, s).
Definition modify (f : Stream -> Stream) : SM unit := fun s => (Val tt, f s).
Definition gets {A} (f : Stream -> A) : SM A := fun s => (Val (f s), s).

(** [Reset] on a [sliceReader]. *)
Definition Stream_Reset (r : bytes) (inputLimit : Z) : Stream :=
  mkStream r (if 0 <? inputLimit then inputLimit else 0) 0 None [] None 0 (0 <? inputLimit).

Definition listLimit (s : Stream) : option Z := head (sstack s).

Definition willRead (n : Z) : SM unit := fun s =>
  let s := set_skind s None in
  let check_limit (s : Stream) : err unit * Stream :=
    if limited s then
      if remaining s <? n then (Err ErrValueTooLarge, s)
      else (Val tt, set_remaining s (remaining s - n))
    else (Val tt, s) in
  match sstack s with
  | limit :: st =>
    if limit <? n then (Err ErrElemTooLarge, s) else check_limit (set_sstack s ((limit - n) :: st))
  | [] => check_limit s
  end.

(** The loop over [sliceReader.Read] copies what there is; [ReadByte]. *)
Definition sliceReader_Read (n : Z) : SM bytes := fun s =>
  if zlen (sr s) <? n then (Err ErrUnexpectedEOF, set_sr s [])
  else (Val (take (Z.to_nat n) (sr s)), set_sr s (drop (Z.to_nat n) (sr s))).
Definition sliceReader_ReadByte : SM Z := fun s =>
  match sr s with
  | [] => (Err ErrUnexpectedEOF, s)
  | b :: tl => (Val b, set_sr s tl)
  end.

Definition readFull (n : Z) : SM bytes := _ ← willRead n; sliceReader_Read n.
Definition readByte : SM Z := _ ← willRead 1; sliceReader_ReadByte.

Definition readUint (size : Z) : SM Z :=
  if size =? 0 then _ ← modify (fun s => set_skind s None); mret 0
  else if size =? 1 then readByte
  else
    b ← readFull size;
    match b with
    | b0 :: _ => if b0 =? 0 then throw ErrCanonSize else mret (be_val b)
    | [] => throw ErrCanonSize
    end.

(** [readKind] together with its named results: on an error of the size the
    kind is returned too. *)
Definition Stream_readKind : Stream -> (Kind * Z * option rlp_error) * Stream := fun s =>
  match readByte s with
  | (Err e, s) =>
    let e := match sstack s, e with
             | [], ErrUnexpectedEOF => ErrEOF
             | [], ErrValueTooLarge => ErrEOF
             | _, e => e
             end in
    ((Byte, 0, Some e), s)
  | (Val b, s) =>
    let s := set_byteval s 0 in
    let long (k : Kind) (n : Z) :=
      match readUint n s with
      | (Err e, s) => ((k, 0, Some e), s)
      | (Val size, s) => ((k, size, if size <? 56 then Some ErrCanonSize else None), s)
      end in
    if b <? 0x80 then ((Byte, 0, None), set_byteval s b)
    else if b <? 0xB8 then ((String, b - 0x80, None), s)
    else if b <? 0xC0 then long String (b - 0xB7)
    else if b <? 0xF8 then ((List, b - 0xC0, None), s)
    else long List (b - 0xF7)
  end.

Definition Stream_Kind : SM (Kind * Z) := fun s =>
  match skind s with
  | Some k => (match kinderr s with Some e => Err e | None => Val (k, ssize s) end, s)
  | None =>
    let lim := listLimit s in
    match lim with
    | Some 0 => (Err EOL, s)
    | _ =>
      let '((k, size, e), s) := Stream_readKind s in
      let e := match e with
               | Some e => Some e
               | None =>
                 if match lim with Some l => l <? size | None => false end
                 then Some ErrElemTooLarge
                 else if limited s && (remaining s <? size) then Some ErrValueTooLarge
                 else None
               end in
      (match e with Some e => Err e | None => Val (k, size) end, set_ahead s (Some k) size e)
    end
  end.

Definition rearm : SM unit := modify (fun s => set_skind s None).

Definition Stream_Bytes : SM bytes :=
  '(kind, size) ← Stream_Kind;
  match kind with
  | Byte => _ ← rearm; b ← gets byteval; mret [b]
  | String =>
    b ← readFull size;
    if (size =? 1) && (match b with b0 :: _ => b0 <? 128 | [] => false end)
    then throw ErrCanonSize else mret b
  | List => throw ErrExpectedString
  end.

(** [ErrCanonSize] of [readUint] is adjusted when an integer is read. *)
Definition canonInt {A} (m : SM A) : SM A := fun s =>
  match m s with (Err ErrCanonSize, s) => (Err ErrCanonInt, s) | r => r end.

Definition Stream_uint (maxbits : Z) : SM Z :=
  '(kind, size) ← Stream_Kind;
  match kind with
  | Byte =>
    b ← gets byteval;
    if b =? 0 then throw ErrCanonInt else _ ← rearm; mret b
  | String =>
    if maxbits / 8 <? size then throw errUintOverflow
    else
      v ← canonInt (readUint size);
      if (0 <? size) && (v <? 128) then throw ErrCanonSize else mret v
  | List => throw ErrExpectedString
  end.

Definition Stream_List : SM Z :=
  '(kind, size) ← Stream_Kind;
  if decide (kind = List) then
    _ ← modify (fun s =>
      let st := match sstack s with limit :: st => (limit - size) :: st | [] => [] end in
      mkStream (sr s) (remaining s) 0 (kinderr s) (size :: st) None (byteval s) (limited s));
    mret size
  else throw ErrExpectedList.

Definition Stream_ListEnd : SM unit := fun s =>
  match sstack s with
  | [] => (Err errNotInList, s)
  | listLimit :: st =>
    if 0 <? listLimit then (Err errNotAtEOL, s)
    else (Val tt, mkStream (sr s) (remaining s) 0 (kinderr s) st None (byteval s) (limited s))
  end.

(** [uintbuf] has 32 bytes; both branches of the size read the same bytes. *)
Definition Stream_decodeBigInt : SM Z :=
  '(kind, size) ← Stream_Kind;
  buffer ← match kind with
           | List => throw ErrExpectedString
           | Byte => b ← gets byteval; _ ← rearm; mret [b]
           | String =>
             if size =? 0 then _ ← rearm; mret []
             else if size <=? 32 then
               b ← readFull size;
               if (size =? 1) && (match b with b0 :: _ => b0 <? 128 | [] => false end)
               then throw ErrCanonSize else mret b
             else readFull size
           end;
  match buffer with
  | b0 :: _ => if b0 =? 0 then throw ErrCanonInt else mret (be_val buffer)
  | [] => mret (be_val buffer)
  end.

Definition wrapStreamError (e : rlp_error) : rlp_error :=
  match e with
  | ErrCanonInt | ErrCanonSize | ErrExpectedList | ErrExpectedString | errUintOverflow
  | errNotAtEOL => decodeError e
  | _ => e
  end.
Definition wrapped {A} (m : SM A) : SM A := fun s =>
  match m s with (Err e, s) => (Err (wrapStreamError e), s) | r => r end.

(** A field of a struct without optional fields: the end of the list is
    "too few elements". *)
Definition decode_field {A} (m : SM A) : SM A := fun s =>
  match wrapped m s with (Err EOL, s) => (Err (decodeError errTooFewElements), s) | r => r end.

(** ** Accounts: [state/account.go] *)
Record Account := mkAccount { Nonce : Z; Balance : option Z; Root : bytes; CodeHash : bytes }.

Definition decodeAccount : SM Account :=
  _ ← wrapped Stream_List;
  n ← decode_field (Stream_uint 64);
  b ← decode_field Stream_decodeBigInt;
  r ← decode_field Stream_Bytes;
  c ← decode_field Stream_Bytes;
  _ ← wrapped Stream_ListEnd;
  mret (mkAccount n (Some b) r c).

(** [rlp.DecodeBytes(b, &account)] *)
Definition DecodeBytes (b : bytes) : err Account :=
  match decodeAccount (Stream_Reset b (zlen b)) with
  | (Err e, _) => Err e
  | (Val a, s) => if 0 <? zlen (sr s) then Err ErrMoreThanOneValue else Val a
  end.

(** [rlp.EncodeToBytes(account)]: the struct writer runs the writers of the
    four fields between [list] and [listEnd]. *)
Definition EncodeAccount (a : Account) : result (err bytes) :=
  let '(buf, lh) := enc_list getEncBuffer in
  let buf := writeUint64 buf (Nonce a) in
  match writeBigIntPtr buf (Balance a) with
  | Err e => Ok (Err e)
  | Val buf =>
    let buf := writeBytes (writeBytes buf (Root a)) (CodeHash a) in
    buf ← enc_listEnd buf lh;
    b ← makeBytes buf;
    Ok (Val b)
  end.

(** [rlp.EncodeToBytes([]interface{}{b, nonce})] of [crypto.CreateAddress]. *)
Definition EncodeAddressNonce (b : bytes) (nonce : Z) : result bytes :=
  let '(buf, lh) := enc_list getEncBuffer in
  let buf := writeUint64 (writeByteArray buf b) nonce in
  buf ← enc_listEnd buf lh;
  makeBytes buf.
