(* ===== verification/RlpProofs.v ===== *)
(** Round trips of the RLP layer: integers through [AppendUint64] and
    [SplitUint64], accounts through [EncodeToBytes] and [FullAccount]'s
    decoder. *)
From Stdlib Require Import ZArith Lia.
From stdpp Require Import base numbers list.
From S2P Require Import Prelude Math Rlp.
Local Open Scope Z_scope.

(** ** Minimal big-endian integers *)

(** [n] is the number of bytes of the positive integer [i]. *)
Definition int_width (i : Z) (n : nat) : Prop :=
  (0 < n)%nat /\ 256 ^ (Z.of_nat n - 1) <= i < 256 ^ Z.of_nat n.

Lemma byte_at_div i s : 0 <= s -> byte_at i s = (i / 2 ^ s) mod 256.
Proof. intros. unfold byte_at. by rewrite Z.shiftr_div_pow2. Qed.

Ltac putint_case n :=
  exists n; split; [simpl; lia|]; split; [lia|];
  rewrite ?byte_at_div by lia; cbn [be_bytes app]; rewrite ?Z.div_div by lia;
  change (2 ^ 0) with 1; rewrite ?Z.div_1_r; reflexivity.

Lemma putint_cases i :
  0 < i -> is_u64 i ->
  exists n, int_width i n /\ (n <= 8)%nat /\ putint i = be_bytes n i.
Proof.
  intros H0 [_ H1]. unfold putint, int_width.
  destruct (Z.ltb_spec i (2 ^ 8)); [putint_case 1%nat|].
  destruct (Z.ltb_spec i (2 ^ 16)); [putint_case 2%nat|].
  destruct (Z.ltb_spec i (2 ^ 24)); [putint_case 3%nat|].
  destruct (Z.ltb_spec i (2 ^ 32)); [putint_case 4%nat|].
  destruct (Z.ltb_spec i (2 ^ 40)); [putint_case 5%nat|].
  destruct (Z.ltb_spec i (2 ^ 48)); [putint_case 6%nat|].
  destruct (Z.ltb_spec i (2 ^ 56)); [putint_case 7%nat|].
  putint_case 8%nat.
Qed.

Lemma int_width_unique i n m : int_width i n -> int_width i m -> n = m.
Proof.
  intros [Hn [Ln Un]] [Hm [Lm Um]].
  destruct (Nat.lt_trichotomy n m) as [H|[H|H]]; [|done|].
  - assert (256 ^ Z.of_nat n <= 256 ^ (Z.of_nat m - 1)) by (apply Z.pow_le_mono_r; lia). lia.
  - assert (256 ^ Z.of_nat m <= 256 ^ (Z.of_nat n - 1)) by (apply Z.pow_le_mono_r; lia). lia.
Qed.

Lemma be_bytes_cons n z :
  be_bytes (S n) z = (z / 256 ^ Z.of_nat n) mod 256 :: be_bytes n z.
Proof.
  revert z; induction n as [|n IH]; intros z.
  - simpl. by rewrite Z.div_1_r.
  - cbn [be_bytes] in IH |- *. rewrite (IH (z / 256)).
    rewrite Z.div_div by (try apply Z.pow_pos_nonneg; lia).
    rewrite Nat2Z.inj_succ, Z.pow_succ_r by lia. reflexivity.
Qed.

(** The leading byte of a minimal encoding is the top digit, not zero. *)
Lemma be_bytes_width i n :
  int_width i n ->
  exists b l, be_bytes n i = b :: l /\ b <> 0 /\ (n = 1%nat -> b = i).
Proof.
  intros [Hn [HL HU]]. destruct n as [|n]; [lia|]. rewrite be_bytes_cons.
  rewrite Nat2Z.inj_succ in HL, HU. replace (Z.succ _ - 1) with (Z.of_nat n) in HL by lia.
  rewrite Z.pow_succ_r in HU by lia.
  assert (0 < 256 ^ Z.of_nat n) by (apply Z.pow_pos_nonneg; lia).
  assert (1 <= i / 256 ^ Z.of_nat n) by (apply Z.div_le_lower_bound; lia).
  assert (i / 256 ^ Z.of_nat n < 256) by (apply Z.div_lt_upper_bound; lia).
  eexists _, _; split; [reflexivity|]. rewrite Z.mod_small by lia.
  split; [lia|]. intros [= ->]. simpl. by rewrite Z.div_1_r.
Qed.

Lemma be_val_width i n : int_width i n -> be_val (be_bytes n i) = i.
Proof.
  intros [Hn [HL HU]]. rewrite be_val_be_bytes. apply Z.mod_small.
  assert (0 < 256 ^ (Z.of_nat n - 1)) by (apply Z.pow_pos_nonneg; lia). lia.
Qed.

Lemma width_be_val b l : wf_bytes (b :: l) -> b <> 0 -> int_width (be_val (b :: l)) (S (length l)).
Proof.
  intros Hw Hb. split; [lia|].
  pose proof (be_val_range (b :: l) Hw) as HR. inversion_clear Hw as [|? ? Hb' Hl].
  pose proof (be_val_range l Hl) as HR2. unfold is_byte in Hb'.
  rewrite zlen_cons in HR. unfold zlen in *.
  change (b :: l) with ([b] ++ l) in *. rewrite be_val_app in *. unfold zlen in *.
  change (be_val [b]) with (0 * 256 + b) in *.
  replace (Z.of_nat (S (length l)) - 1) with (Z.of_nat (length l)) by lia.
  replace (Z.of_nat (S (length l))) with (Z.of_nat (length l) + 1) by lia. nia.
Qed.

Lemma width_small i n : int_width i n -> i < 128 -> n = 1%nat.
Proof.
  intros Hw Hi. apply (int_width_unique i); [done|]. destruct Hw as [? [HL _]].
  split; [lia|]. change (256 ^ (Z.of_nat 1 - 1)) with 1. change (256 ^ Z.of_nat 1) with 256.
  assert (0 < 256 ^ (Z.of_nat n - 1)) by (apply Z.pow_pos_nonneg; lia). lia.
Qed.

(** ** Integers *)

(** The canonical encoding of a 64-bit integer. *)
Definition enc_uint (i : Z) : bytes :=
  if i =? 0 then [0x80] else if i <? 128 then [i] else (0x80 + zlen (putint i)) :: putint i.

Lemma AppendUint64_enc b i : is_u64 i -> AppendUint64 b i = b ++ enc_uint i.
Proof.
  intros _. unfold AppendUint64, enc_uint, putint.
  destruct (i =? 0); [done|]. destruct (i <? 128); [done|].
  repeat (case_match; [reflexivity|]). reflexivity.
Qed.

Lemma Split_parts b k ts cs :
  readKind b = Val (k, ts, cs) -> 0 <= ts -> 0 <= cs -> ts + cs <= zlen b ->
  Split b = Ok (Val (k, take (Z.to_nat cs) (drop (Z.to_nat ts) b), drop (Z.to_nat (ts + cs)) b)).
Proof.
  intros H ? ? ?. unfold Split. rewrite H, !slice_ok by lia. unfold mbind, result_bind.
  do 4 f_equal; [do 2 f_equal; lia|]. apply firstn_all2. unfold zlen in *. rewrite length_drop. lia.
Qed.

(** A short string splits into its content and the rest. *)
Lemma Split_short (c rest : bytes) :
  zlen c < 56 -> (zlen c = 1 -> Forall (fun b => 128 <= b) c) ->
  Split ((0x80 + zlen c) :: c ++ rest) = Ok (Val (String, c, rest)).
Proof.
  intros Hl H1. pose proof (zlen_nonneg c).
  rewrite (Split_parts _ String 1 (zlen c)).
  - change (Z.to_nat 1) with 1%nat. cbn [skipn]. replace (Z.to_nat (zlen c)) with (length c) by (unfold zlen; lia).
    rewrite drop_0, take_app_length.
    replace (Z.to_nat (1 + zlen c)) with (S (length c)) by (unfold zlen; lia).
    cbn [skipn]. by rewrite drop_app_length.
  - unfold readKind. destruct (Z.ltb_spec (0x80 + zlen c) 0x80); [lia|].
    destruct (Z.ltb_spec (0x80 + zlen c) 0xB8); [|lia].
    replace (0x80 + zlen c - 0x80) with (zlen c) by lia.
    assert ((zlen c =? 1) && match c ++ rest with b1 :: _ => b1 <? 128 | [] => false end = false) as ->.
    { destruct (Z.eqb_spec (zlen c) 1) as [E|]; [|done]. specialize (H1 E).
      destruct c as [|x c]; [done|]. inversion_clear H1. simpl. by apply Z.ltb_ge. }
    unfold mbind, err_bind. rewrite zlen_cons, zlen_app. pose proof (zlen_nonneg rest).
    destruct (Z.ltb_spec (zlen c + zlen rest + 1 - 1) (zlen c)); [lia|done].
  - lia.
  - lia.
  - rewrite zlen_cons, zlen_app. pose proof (zlen_nonneg rest). lia.
Qed.

Lemma Split_byte (b : Z) (rest : bytes) : b < 0x80 -> Split (b :: rest) = Ok (Val (Byte, [b], rest)).
Proof.
  intros H. rewrite (Split_parts _ Byte 0 1); [done| |lia|lia|].
  - unfold readKind. destruct (Z.ltb_spec b 0x80); [|lia]. unfold mbind, err_bind.
    rewrite zlen_cons. pose proof (zlen_nonneg rest).
    destruct (Z.ltb_spec (zlen rest + 1 - 0) 1); [lia|done].
  - rewrite zlen_cons. pose proof (zlen_nonneg rest). lia.
Qed.

(** C18: an encoded 64-bit integer followed by anything is read back, and the
    rest is returned untouched. *)
Theorem SplitUint64_AppendUint64 i rest :
  is_u64 i -> SplitUint64 (AppendUint64 [] i ++ rest) = Ok (Val (i, rest)).
Proof.
  intros Hi. rewrite AppendUint64_enc by done. cbn [app]. unfold enc_uint, SplitUint64, SplitString.
  destruct (Z.eqb_spec i 0) as [->|H0].
  { change ([0x80] ++ rest) with ((0x80 + zlen (@nil Z)) :: [] ++ rest). by rewrite Split_short. }
  assert (0 < i) by (unfold is_u64 in Hi; lia).
  destruct (Z.ltb_spec i 128).
  { cbn [app]. rewrite Split_byte by lia. unfold mbind, result_bind. rewrite decide_False by done.
    destruct (Z.eqb_spec i 0); [lia|done]. }
  destruct (putint_cases i) as (n & Hw & Hn & ->); [lia|done|].
  rewrite <- app_comm_cons, Split_short.
  - unfold mbind, result_bind. rewrite decide_False by done.
    destruct (be_bytes_width i n Hw) as (b & l & E & Hb & Hb1).
    pose proof (be_val_width i n Hw) as Hv. pose proof (zlen_be_bytes n i) as Hz.
    rewrite E in *. destruct l as [|c l].
    + unfold zlen in Hz. simpl in Hz. rewrite Hb1 by lia. destruct (Z.eqb_spec i 0); [lia|done].
    + rewrite Hz. destruct (Z.ltb_spec 8 (Z.of_nat n)); [lia|].
      unfold readSize. rewrite Hz, Z.ltb_irrefl, Nat2Z.id.
      rewrite firstn_all2 by (unfold zlen in Hz; lia). rewrite Hv.
      assert ((i <? 56) = false) as -> by (apply Z.ltb_ge; lia).
      destruct (Z.eqb_spec b 0); [lia|done].
  - rewrite zlen_be_bytes. lia.
  - rewrite zlen_be_bytes. intros Hn1. replace n with 1%nat in * by lia. simpl.
    destruct Hw as [_ [_ HU]]. repeat constructor. rewrite Z.mod_small; simpl in *; lia.
Qed.

Lemma SplitUint64_AppendUint64_witness :
  SplitUint64 (AppendUint64 [] 1024 ++ [1; 2]) = Ok (Val (1024, [1; 2])).
Proof. apply SplitUint64_AppendUint64. unfold is_u64. lia. Defined.

(** ** Canonical input *)
Lemma readSize_ge tl n s : readSize tl n = Val s -> 56 <= s.
Proof.
  unfold readSize. case_match; [done|]. destruct tl; [done|].
  destruct (Z.ltb_spec (be_val (take (Z.to_nat n) (z :: tl))) 56); simpl; [done|].
  case_match; [done|]. by intros [= <-].
Qed.

Lemma Split_inv b k c rest :
  wf_bytes b -> Split b = Ok (Val (k, c, rest)) -> k <> List ->
  (exists x, x < 128 /\ c = [x] /\ b = x :: rest) \/
  (b = (0x80 + zlen c) :: c ++ rest /\ zlen c < 56 /\ (zlen c = 1 -> Forall (fun x => 128 <= x) c)) \/
  56 <= zlen c.
Proof.
  intros Hw HS Hk. unfold Split in HS.
  destruct (readKind b) as [[[k' ts] cs]|] eqn:HR; [|done].
  destruct (slice b ts (ts + cs)) as [c'| |] eqn:Hc; try done.
  destruct (slice b (ts + cs) (zlen b)) as [r'| |] eqn:Hr; try done.
  unfold mbind, result_bind in HS. simplify_eq.
  pose proof (zlen_slice _ _ _ _ Hc) as Hlc.
  destruct b as [|x tl]; [done|]. inversion_clear Hw as [|? ? Hx Htl]. unfold is_byte in Hx.
  unfold readKind in HR.
  destruct (Z.ltb_spec x 0x80); [|destruct (Z.ltb_spec x 0xB8);
    [|destruct (Z.ltb_spec x 0xC0); [|destruct (Z.ltb_spec x 0xF8)]]].
  - left. unfold mbind, err_bind in HR. case_match; simplify_eq.
    unfold slice in Hc, Hr. rewrite zlen_cons in *. pose proof (zlen_nonneg tl).
    repeat case_match; simplify_eq. change (Z.to_nat (0 + 1)) with 1%nat in *.
    replace (Z.to_nat (zlen tl + 1 - (0 + 1))) with (length tl) by (unfold zlen; lia).
    simpl. rewrite firstn_all. eauto.
  - right; left. destruct (_ && _) eqn:E1 in HR; [done|].
    unfold mbind, err_bind in HR. case_match; simplify_eq.
    match goal with H : (_ <? _) = false |- _ => apply Z.ltb_ge in H end.
    rewrite zlen_cons in *. pose proof (zlen_nonneg tl).
    rewrite slice_ok in Hc, Hr by (rewrite ?zlen_cons; lia). simplify_eq.
    replace (1 + (x - 128) - 1) with (x - 128) in * by lia.
    replace (Z.to_nat (1 + (x - 128))) with (S (Z.to_nat (x - 128))) by lia.
    change (Z.to_nat 1) with 1%nat in *. cbn [skipn] in *.
    rewrite (firstn_all2 (drop (Z.to_nat (x - 128)) tl)) by (unfold zlen in *; rewrite length_drop; lia).
    rewrite drop_0 in *. rewrite take_drop. split; [f_equal; lia|]. split; [lia|]. intros H1c.
    destruct (Z.eqb_spec (x - 128) 1) as [Ex|]; [|lia]. rewrite Ex. cbn in E1.
    destruct tl as [|y tl]; [simpl; constructor|]. simpl. constructor; [by apply Z.ltb_ge|constructor].
  - right; right. destruct (readSize tl (x - 0xB7)) eqn:E; [|done]. apply readSize_ge in E.
    unfold mbind, err_bind in HR. case_match; simplify_eq. lia.
  - unfold mbind, err_bind in HR. case_match; simplify_eq.
  - destruct (readSize tl (x - 0xF7)) eqn:E; [|done].
    unfold mbind, err_bind in HR. case_match; simplify_eq.
Qed.

Lemma putint_width i n : is_u64 i -> int_width i n -> putint i = be_bytes n i.
Proof.
  intros Hi Hw. destruct (putint_cases i) as (m & Hm & _ & E); [|done|].
  - destruct Hw as [? [H _]]. assert (0 < 256 ^ (Z.of_nat n - 1)) by (apply Z.pow_pos_nonneg; lia). lia.
  - by rewrite (int_width_unique i n m).
Qed.

(** The content of an accepted integer, re-encoded. *)
Lemma enc_uint_content b0 l :
  wf_bytes (b0 :: l) -> b0 <> 0 -> (length l < 8)%nat -> (l = [] -> 128 <= b0) ->
  is_u64 (be_val (b0 :: l)) /\
  enc_uint (be_val (b0 :: l)) = (0x80 + zlen (b0 :: l)) :: b0 :: l.
Proof.
  intros Hw Hb Hl H1. pose proof (width_be_val b0 l Hw Hb) as Hwd.
  pose proof (be_val_range _ Hw) as HR.
  assert (256 ^ zlen (b0 :: l) <= 256 ^ 8) by (apply Z.pow_le_mono_r; unfold zlen; simpl; lia).
  assert (Hu : is_u64 (be_val (b0 :: l))) by (split; [lia|]; change (2 ^ 64) with (256 ^ 8); lia).
  assert (128 <= be_val (b0 :: l)).
  { destruct (Z.lt_ge_cases (be_val (b0 :: l)) 128) as [Hlt|]; [|lia].
    pose proof (width_small _ _ Hwd Hlt) as E. destruct l; [|done].
    change (be_val [b0]) with (0 * 256 + b0) in *. specialize (H1 eq_refl). lia. }
  split; [done|]. unfold enc_uint.
  destruct (Z.eqb_spec (be_val (b0 :: l)) 0); [lia|].
  destruct (Z.ltb_spec (be_val (b0 :: l)) 128); [lia|].
  rewrite (putint_width _ _ Hu Hwd), zlen_be_bytes.
  change (S (length l)) with (length (b0 :: l)). by rewrite be_bytes_be_val.
Qed.

(** C19: integers have one encoding: whatever [SplitUint64] accepts is the
    encoding [AppendUint64] makes of the integer it returns. *)
Theorem SplitUint64_canonical b x rest :
  wf_bytes b -> SplitUint64 b = Ok (Val (x, rest)) ->
  is_u64 x /\ b = AppendUint64 [] x ++ rest.
Proof.
  intros Hw H. unfold SplitUint64, SplitString in H.
  destruct (Split b) as [[[[k c] r]|]| |] eqn:HS; try done.
  unfold mbind, result_bind in H. case_decide as Hk; [done|].
  destruct (Split_inv _ _ _ _ Hw HS Hk) as [(y & Hy & -> & ->)|[(-> & Hl & H1)|Hl]].
  - destruct (Z.eqb_spec y 0); [done|]. simplify_eq.
    inversion_clear Hw as [|? ? Hb _]. unfold is_byte in Hb.
    assert (is_u64 x) by (unfold is_u64; lia). split; [done|].
    rewrite AppendUint64_enc by done. unfold enc_uint.
    destruct (Z.eqb_spec x 0); [lia|]. destruct (Z.ltb_spec x 128); [done|lia].
  - inversion_clear Hw as [|? ? _ Hw']. apply Forall_app in Hw' as [Hwc _].
    destruct c as [|b0 [|b1 c]].
    + simplify_eq. split; [unfold is_u64; lia|done].
    + destruct (Z.eqb_spec b0 0); [done|]. simplify_eq.
      assert (Hb0 : 128 <= x) by (specialize (H1 eq_refl); by inversion H1).
      destruct (enc_uint_content x []) as [Hu He]; [done|lia|simpl; lia|done|].
      change (be_val [x]) with (0 * 256 + x) in *. replace (0 * 256 + x) with x in * by lia.
      split; [done|]. rewrite AppendUint64_enc, He by done. done.
    + set (cc := b0 :: b1 :: c) in *. destruct (Z.ltb_spec 8 (zlen cc)); [done|].
      destruct (readSize cc (zlen cc)) eqn:ER; [|done]. simplify_eq.
      unfold readSize in ER. rewrite Z.ltb_irrefl in ER.
      rewrite firstn_all2 in ER by (unfold zlen; lia).
      subst cc. cbn beta iota in ER.
      destruct ((be_val (b0 :: b1 :: c) <? 56) || (b0 =? 0)) eqn:E0; [done|]. simplify_eq.
      apply orb_false_iff in E0 as [_ E0%Z.eqb_neq].
      destruct (enc_uint_content b0 (b1 :: c)) as [Hu He];
        [done|done|unfold zlen in *; simpl in *; lia|done|].
      split; [done|]. rewrite AppendUint64_enc, He by done. done.
  - destruct c as [|b0 [|b1 c]]; [unfold zlen in Hl; simpl in Hl; lia..|].
    destruct (Z.ltb_spec 8 (zlen (b0 :: b1 :: c))); [done|lia].
Qed.

Lemma SplitUint64_canonical_witness :
  is_u64 300 /\ [0x82; 1; 44; 7] = AppendUint64 [] 300 ++ [7].
Proof.
  apply SplitUint64_canonical; [repeat constructor; unfold is_byte; lia | reflexivity].
Defined.

(** ** Accounts *)

(** The stream stands before [input], inside one list that has [lim] bytes
    left. *)
Definition at_stream (s : Stream) (input : bytes) (lim : Z) : Prop :=
  sr s = input /\ remaining s = zlen input /\ sstack s = [lim] /\ skind s = None /\ limited s = true.

(** [m] reads exactly the encoding [enc] and returns [v]. *)
Definition reads {A} (m : SM A) (enc : bytes) (v : A) : Prop :=
  forall s rest lim, at_stream s (enc ++ rest) lim -> zlen enc <= lim ->
    exists s', m s = (Val v, s') /\ at_stream s' rest (lim - zlen enc).

Lemma reads_bind {A B} (m : SM A) (f : A -> SM B) e1 e2 v w :
  reads m e1 v -> reads (f v) e2 w -> reads (m ≫= f) (e1 ++ e2) w.
Proof.
  intros H1 H2 s rest lim Hs Hl. rewrite <- app_assoc in Hs. rewrite zlen_app in *.
  pose proof (zlen_nonneg e2).
  destruct (H1 s (e2 ++ rest) lim Hs) as (s1 & E1 & A1); [lia|].
  destruct (H2 s1 rest (lim - zlen e1) A1) as (s2 & E2 & A2); [lia|].
  exists s2. unfold mbind, SM_bind. rewrite E1, E2. split; [done|].
  replace (lim - (zlen e1 + zlen e2)) with (lim - zlen e1 - zlen e2) by lia. done.
Qed.

Lemma reads_field {A} (m : SM A) e v : reads m e v -> reads (decode_field m) e v.
Proof.
  intros H s rest lim Hs Hl. destruct (H s rest lim Hs Hl) as (s' & E & A').
  exists s'. unfold decode_field, wrapped. by rewrite E.
Qed.

Lemma readFull_reads l : reads (readFull (zlen l)) l l.
Proof.
  intros s rest lim (H1 & H2 & H3 & H4 & H5) Hl.
  pose proof (zlen_nonneg rest). rewrite zlen_app in H2.
  unfold readFull, mbind, SM_bind, willRead. cbn. rewrite H3.
  destruct (Z.ltb_spec lim (zlen l)); [lia|]. cbn. rewrite H5, H2.
  destruct (Z.ltb_spec (zlen l + zlen rest) (zlen l)); [lia|].
  unfold sliceReader_Read. cbn. rewrite H1, zlen_app.
  destruct (Z.ltb_spec (zlen l + zlen rest) (zlen l)); [lia|].
  replace (Z.to_nat (zlen l)) with (length l) by (unfold zlen; lia).
  rewrite take_app_length, drop_app_length.
  eexists; split; [reflexivity|]. split_and!; cbn; try done. lia.
Qed.

Lemma readByte_reads b : reads readByte [b] b.
Proof.
  intros s rest lim (H1 & H2 & H3 & H4 & H5) Hl.
  pose proof (zlen_nonneg rest). cbn [app] in *. rewrite zlen_cons in H2. change (zlen [b]) with 1 in *.
  unfold readByte, mbind, SM_bind, willRead. cbn. rewrite H3.
  destruct (Z.ltb_spec lim 1); [lia|]. cbn. rewrite H5, H2.
  destruct (Z.ltb_spec (zlen rest + 1) 1); [lia|].
  unfold sliceReader_ReadByte. cbn. rewrite H1.
  eexists; split; [reflexivity|]. split_and!; cbn; try done. lia.
Qed.

(** [Kind] at the head of a short string consumes the tag; the content is
    ahead. *)
Lemma Kind_short s c rest lim :
  at_stream s ((0x80 + zlen c) :: c ++ rest) lim -> zlen c < 56 -> zlen c + 1 <= lim ->
  exists s', Stream_Kind s = (Val (String, zlen c), s') /\ at_stream (set_skind s' None) (c ++ rest) (lim - 1).
Proof.
  intros Hs Hc Hl. pose proof (zlen_nonneg c). pose proof (zlen_nonneg rest).
  destruct (readByte_reads (0x80 + zlen c) s (c ++ rest) lim Hs) as (s1 & E1 & A1).
  { change (zlen [128 + zlen c]) with 1. lia. }
  change (zlen [128 + zlen c]) with 1 in A1. pose proof A1 as (B1 & B2 & B3 & B4 & B5).
  destruct Hs as (H1 & H2 & H3 & H4 & H5).
  unfold Stream_Kind, listLimit. rewrite H4, H3. cbn [head].
  destruct lim as [|lim|lim]; [lia| |lia].
  unfold Stream_readKind. rewrite E1.
  destruct (Z.ltb_spec (0x80 + zlen c) 0x80); [lia|].
  destruct (Z.ltb_spec (0x80 + zlen c) 0xB8); [|lia].
  replace (0x80 + zlen c - 0x80) with (zlen c) by lia.
  destruct (Z.ltb_spec (Z.pos lim) (zlen c)); [lia|].
  cbn [limited remaining set_byteval]. rewrite B5, B2, zlen_app. cbn [andb].
  destruct (Z.ltb_spec (zlen c + zlen rest) (zlen c)); [lia|].
  eexists; split; [reflexivity|]. split_and!; cbn; done.
Qed.

Lemma Kind_byte s b rest lim :
  at_stream s (b :: rest) lim -> b < 0x80 -> 1 <= lim ->
  exists s', Stream_Kind s = (Val (Byte, 0), s') /\ byteval s' = b /\
    at_stream (set_skind s' None) rest (lim - 1).
Proof.
  intros Hs Hc Hl. pose proof (zlen_nonneg rest).
  destruct (readByte_reads b s rest lim Hs) as (s1 & E1 & A1); [done|].
  change (zlen [b]) with 1 in A1. pose proof A1 as (B1 & B2 & B3 & B4 & B5).
  destruct Hs as (H1 & H2 & H3 & H4 & H5).
  unfold Stream_Kind, listLimit. rewrite H4, H3. cbn [head].
  destruct lim as [|lim|lim]; [lia| |lia].
  unfold Stream_readKind. rewrite E1.
  destruct (Z.ltb_spec b 0x80); [|lia].
  destruct (Z.ltb_spec (Z.pos lim) 0); [lia|].
  cbn [limited remaining set_byteval]. rewrite B5, B2. cbn [andb].
  destruct (Z.ltb_spec (zlen rest) 0); [lia|].
  eexists; split; [reflexivity|]. split_and!; cbn; done.
Qed.

(** Reading content does not depend on the rearmed kind. *)
Lemma willRead_kind n s k : willRead n (set_skind s k) = willRead n s.
Proof. unfold willRead. destruct s. reflexivity. Qed.
Lemma readFull_kind n s k : readFull n (set_skind s k) = readFull n s.
Proof. unfold readFull, mbind, SM_bind. by rewrite willRead_kind. Qed.
Lemma readByte_kind s k : readByte (set_skind s k) = readByte s.
Proof. unfold readByte, mbind, SM_bind. by rewrite willRead_kind. Qed.
Lemma readUint_kind n s k : 0 < n -> readUint n (set_skind s k) = readUint n s.
Proof.
  intros. unfold readUint. destruct (Z.eqb_spec n 0); [lia|]. case_match; [apply readByte_kind|].
  unfold mbind, SM_bind. by rewrite readFull_kind.
Qed.

(** A decoder that dispatches on [Kind] and then reads the content. *)
Lemma reads_short {A} (f : Kind * Z -> SM A) c v :
  zlen c < 56 ->
  (forall s k, f (String, zlen c) (set_skind s k) = f (String, zlen c) s) ->
  reads (f (String, zlen c)) c v ->
  reads (Stream_Kind ≫= f) ((0x80 + zlen c) :: c) v.
Proof.
  intros Hc Hk Hf s rest lim Hs Hl. rewrite zlen_cons in *. rewrite <- app_comm_cons in Hs.
  destruct (Kind_short s c rest lim Hs) as (s1 & E1 & A1); [done|lia|].
  destruct (Hf _ rest (lim - 1) A1) as (s2 & E2 & A2); [lia|].
  exists s2. unfold mbind, SM_bind. rewrite E1, <- (Hk s1 None), E2. split; [done|].
  by replace (lim - (zlen c + 1)) with (lim - 1 - zlen c) by lia.
Qed.

Lemma reads_byte {A} (f : Kind * Z -> SM A) b v :
  b < 0x80 ->
  (forall s, byteval s = b -> f (Byte, 0) s = (Val v, set_skind s None)) ->
  reads (Stream_Kind ≫= f) [b] v.
Proof.
  intros Hb Hf s rest lim Hs Hl. change (zlen [b]) with 1 in *.
  destruct (Kind_byte s b rest lim Hs) as (s1 & E1 & B1 & A1); [done|lia|].
  exists (set_skind s1 None). unfold mbind, SM_bind. by rewrite E1, Hf.
Qed.

Lemma reads_if_false {A} (b : bool) (m n : SM A) e v :
  b = false -> reads n e v -> reads (if b then m else n) e v.
Proof. by intros ->. Qed.

Lemma reads_ret {A} (v : A) : reads (mret v) [] v.
Proof. intros s rest lim Hs _. exists s. rewrite Z.sub_0_r. by split. Qed.

Lemma reads_bind_ret {A B} (m : SM A) (f : A -> SM B) e v w :
  reads m e v -> reads (f v) [] w -> reads (m ≫= f) e w.
Proof. intros H1 H2. rewrite <- (app_nil_r e). by eapply reads_bind. Qed.

Lemma readUint_reads i n : int_width i n -> (2 <= n <= 8)%nat -> reads (readUint (Z.of_nat n)) (be_bytes n i) i.
Proof.
  intros Hw Hn. unfold readUint.
  destruct (Z.eqb_spec (Z.of_nat n) 0); [lia|]. destruct (Z.eqb_spec (Z.of_nat n) 1); [lia|].
  eapply reads_bind_ret.
  - rewrite <- (zlen_be_bytes n i). apply readFull_reads.
  - destruct (be_bytes_width i n Hw) as (b & l & E & Hb & _). pose proof (be_val_width i n Hw) as Hv.
    rewrite E in *. apply reads_if_false; [by apply Z.eqb_neq|]. rewrite Hv. apply reads_ret.
Qed.

Lemma uint_reads i : is_u64 i -> reads (Stream_uint 64) (enc_uint i) i.
Proof.
  intros Hi. unfold enc_uint, Stream_uint.
  destruct (Z.eqb_spec i 0) as [->|H0].
  { change [0x80] with ((0x80 + zlen (@nil Z)) :: []). apply reads_short; [done|done|].
    intros s rest lim (H1 & H2 & H3 & H4 & H5) Hl. eexists; split; [reflexivity|].
    rewrite Z.sub_0_r. split_and!; cbn; done. }
  destruct (Z.ltb_spec i 128).
  { apply reads_byte; [lia|]. intros s Hb. unfold mbind, SM_bind, gets. rewrite Hb.
    destruct (Z.eqb_spec i 0); [done|reflexivity]. }
  destruct (putint_cases i) as (n & Hw & Hn & ->); [unfold is_u64 in Hi; lia|done|].
  assert (Hz : zlen (be_bytes n i) = Z.of_nat n) by apply zlen_be_bytes.
  assert (1 <= n)%nat by (destruct Hw; lia).
  apply reads_short; [lia| |]; rewrite Hz.
  - intros s k. destruct (Z.ltb_spec (64 / 8) (Z.of_nat n)) as [Hlt|_].
    { change (64 / 8) with 8 in Hlt. lia. }
    unfold mbind, SM_bind, canonInt.
    by rewrite readUint_kind by lia.
  - apply reads_if_false; [apply Z.ltb_ge; change (64 / 8) with 8; lia|].
    eapply (reads_bind_ret _ _ _ i).
    + assert (Hr : reads (readUint (Z.of_nat n)) (be_bytes n i) i).
      { destruct (Nat.eq_dec n 1%nat) as [->|]; [|apply readUint_reads; [done|lia]].
        destruct (be_bytes_width i 1%nat Hw) as (b & l & E & _ & Hb1). pose proof (length_be_bytes 1%nat i) as L.
        rewrite E in *. destruct l; [|done]. rewrite Hb1 by done. apply readByte_reads. }
      intros s rest lim Hs Hl. destruct (Hr s rest lim Hs Hl) as (s' & E & A').
      exists s'. unfold canonInt. by rewrite E.
    + apply reads_if_false; [|apply reads_ret]. apply andb_false_intro2, Z.ltb_ge. lia.
Qed.

(** The canonical encoding of a natural number of at most 32 bytes. *)
Definition enc_big (i : Z) : bytes :=
  if i <? 2 ^ 64 then enc_uint i
  else let n := Z.to_nat (Z.shiftr (Z.land (BitLen i + 7) (-8)) 3) in
       (0x80 + Z.of_nat n) :: be_bytes n i.

Lemma BitLen_width i n :
  0 < i -> n = Z.to_nat (Z.shiftr (Z.land (BitLen i + 7) (-8)) 3) -> int_width i n.
Proof.
  intros Hi ->. unfold BitLen. destruct (Z.eqb_spec i 0); [lia|]. rewrite Z.abs_eq by lia.
  pose proof (Z.log2_nonneg i). set (l := Z.log2 i) in *.
  assert (Hd : Z.shiftr (Z.land (l + 1 + 7) (-8)) 3 = l / 8 + 1).
  { rewrite Z.shiftr_land. change (Z.shiftr (-8) 3) with (-1). rewrite Z.land_m1_r.
    rewrite Z.shiftr_div_pow2 by lia. change (2 ^ 3) with 8. zmod. }
  rewrite Hd. assert (0 <= l / 8) by zmod.
  pose proof (Z.log2_spec i Hi) as [HL HU]. fold l in HL, HU.
  split; [lia|]. rewrite Z2Nat.id by lia.
  replace (l / 8 + 1 - 1) with (l / 8) by lia.
  change 256 with (2 ^ 8). rewrite <- !Z.pow_mul_r by lia. split.
  - transitivity (2 ^ l); [apply Z.pow_le_mono_r; zmod|done].
  - eapply Z.lt_le_trans; [exact HU|]. apply Z.pow_le_mono_r; zmod.
Qed.

Lemma buffer_reads i n :
  int_width i n -> (n <= 32)%nat -> 128 <= i ->
  reads Stream_decodeBigInt ((0x80 + Z.of_nat n) :: be_bytes n i) i.
Proof.
  intros Hw Hn Hi. unfold Stream_decodeBigInt. rewrite <- (zlen_be_bytes n i).
  assert (1 <= n)%nat by (destruct Hw; lia). assert (Hz : zlen (be_bytes n i) = Z.of_nat n) by apply zlen_be_bytes.
  apply reads_short; [lia| |]; rewrite Hz.
  - intros s k. destruct (Z.eqb_spec (Z.of_nat n) 0); [lia|].
    destruct (Z.leb_spec (Z.of_nat n) 32); [|lia]. unfold mbind, SM_bind. by rewrite readFull_kind.
  - destruct (be_bytes_width i n Hw) as (b & l & E & Hb & Hb1). pose proof (be_val_width i n Hw) as Hv.
    eapply reads_bind_ret.
    + destruct (Z.eqb_spec (Z.of_nat n) 0); [lia|]. destruct (Z.leb_spec (Z.of_nat n) 32); [|lia].
      rewrite <- Hz. eapply reads_bind_ret; [apply readFull_reads|].
      apply reads_if_false; [|apply reads_ret].
      rewrite Hz, E. destruct (Z.eqb_spec (Z.of_nat n) 1); [|done].
      apply Z.ltb_ge. rewrite Hb1; lia.
    + rewrite E in *. apply reads_if_false; [by apply Z.eqb_neq|]. rewrite Hv. apply reads_ret.
Qed.

Lemma bigint_reads i : 0 <= i < 2 ^ 256 -> reads Stream_decodeBigInt (enc_big i) i.
Proof.
  intros Hi. unfold enc_big. destruct (Z.ltb_spec i (2 ^ 64)).
  - unfold enc_uint. destruct (Z.eqb_spec i 0) as [->|].
    { change [0x80] with ((0x80 + zlen (@nil Z)) :: []). apply reads_short; [done|done|].
      intros s rest lim (H1 & H2 & H3 & H4 & H5) Hl. eexists; split; [reflexivity|].
      rewrite Z.sub_0_r. split_and!; cbn; done. }
    destruct (Z.ltb_spec i 128).
    { apply reads_byte; [lia|]. intros s Hb. unfold mbind, SM_bind, gets. rewrite Hb. cbn.
      destruct (Z.eqb_spec i 0); [done|]. unfold be_val. simpl. done. }
    destruct (putint_cases i) as (m & Hw & Hm & ->); [lia|unfold is_u64; lia|].
    rewrite zlen_be_bytes. apply buffer_reads; [done|lia|lia].
  - set (n := Z.to_nat _). assert (Hw : int_width i n) by (by apply BitLen_width; [lia|]).
    apply buffer_reads; [done| |lia].
    destruct (Nat.le_gt_cases n 32) as [|Hgt]; [done|]. destruct Hw as [_ [HL _]].
    assert (256 ^ 32 <= 256 ^ (Z.of_nat n - 1)) by (apply Z.pow_le_mono_r; lia).
    change (256 ^ 32) with (2 ^ 256) in *. lia.
Qed.

Lemma bytes32_reads b : zlen b = 32 -> reads Stream_Bytes (0xA0 :: b) b.
Proof.
  intros Hb. unfold Stream_Bytes. change 0xA0 with (0x80 + 32). rewrite <- Hb.
  apply reads_short; [lia| |].
  - intros s k. unfold mbind, SM_bind. by rewrite readFull_kind.
  - eapply reads_bind_ret; [apply readFull_reads|].
    apply reads_if_false; [|apply reads_ret]. by rewrite Hb.
Qed.

(** *** The encoder *)
Lemma writeUint64_enc buf i : writeUint64 buf i = append_str buf (enc_uint i).
Proof. unfold writeUint64, enc_uint. repeat case_match; done. Qed.

Lemma append_str_app buf a b : append_str (append_str buf a) b = append_str buf (a ++ b).
Proof. unfold append_str. simpl. by rewrite app_assoc. Qed.

Lemma writeBigInt_enc buf i : 0 <= i < 2 ^ 256 -> writeBigInt buf i = append_str buf (enc_big i).
Proof.
  intros Hi. unfold writeBigInt, enc_big.
  assert (Hb : (BitLen i <=? 64) = (i <? 2 ^ 64)).
  { unfold BitLen. destruct (Z.eqb_spec i 0) as [->|]; [done|]. rewrite Z.abs_eq by lia.
    pose proof (Z.log2_lt_pow2 i 64 ltac:(lia)). zcases; lia. }
  rewrite Hb. destruct (Z.ltb_spec i (2 ^ 64)).
  - rewrite u64_id by (unfold is_u64; lia). apply writeUint64_enc.
  - set (z := Z.shiftr _ _). assert (Hw : int_width i (Z.to_nat z)) by (by apply BitLen_width; [lia|]).
    assert (Z.to_nat z <= 32)%nat.
    { destruct (Nat.le_gt_cases (Z.to_nat z) 32) as [|Hgt]; [done|]. destruct Hw as [_ [HL _]].
      assert (256 ^ 32 <= 256 ^ (Z.of_nat (Z.to_nat z) - 1)) by (apply Z.pow_le_mono_r; lia).
      change (256 ^ 32) with (2 ^ 256) in *. lia. }
    unfold encodeStringHeader. destruct (Z.ltb_spec z 56); [|lia].
    rewrite append_str_app. destruct Hw as [Hpos _]. by rewrite Z2Nat.id by lia.
Qed.

Lemma writeBytes32_enc buf b : zlen b = 32 -> writeBytes buf b = append_str buf (0xA0 :: b).
Proof.
  intros Hb. unfold writeBytes. destruct b as [|x [|y b]]; [done|done|].
  rewrite Hb. unfold encodeStringHeader. change (32 <? 56) with true. cbn iota. by rewrite append_str_app.
Qed.

Lemma copy_at_nil (d : bytes) : copy_at d 0 [] = d.
Proof. unfold copy_at. by rewrite Nat.min_0_r. Qed.

Lemma copy_at_prefix (d1 d2 src : bytes) :
  length d1 = length src -> copy_at (d1 ++ d2) 0 src = src ++ d2.
Proof.
  intros H. unfold copy_at. change (Z.to_nat 0) with O. rewrite length_app, H.
  rewrite Nat.min_r by lia. rewrite firstn_all, <- H, Nat.add_0_l, drop_app_length. done.
Qed.

Lemma copy_at_suffix (d1 d2 src : bytes) :
  length d2 = length src -> copy_at (d1 ++ d2) (zlen d1) src = d1 ++ src.
Proof.
  intros H. unfold copy_at, zlen. rewrite Nat2Z.id, take_app_length, length_app.
  rewrite Nat.min_r, firstn_all, drop_ge by (rewrite ?length_app; lia). by rewrite app_nil_r.
Qed.

(** A single list with a payload of 56 to 255 bytes. *)
Lemma makeBytes_list p :
  56 <= zlen p < 256 ->
  (buf ← enc_listEnd (append_str (fst (enc_list getEncBuffer)) p) (snd (enc_list getEncBuffer));
   makeBytes buf) = Ok (0xF8 :: zlen p :: p).
Proof.
  intros Hp. unfold enc_list, enc_listEnd, append_str, getEncBuffer.
  cbn [fst snd lheads str lhsize app].
  change (index _ (zlen [])) with (Ok {| lh_offset := 0; lh_size := 0 |}).
  unfold mbind, result_bind. cbn [lh_offset lh_size].
  unfold enc_size. cbn [str lhsize]. replace (zlen p + 0 - 0 - 0) with (zlen p) by lia.
  change (set_index _ (zlen []) ?x) with (Ok [x]). cbn beta iota.
  destruct (Z.ltb_spec (zlen p) 56); [lia|].
  unfold makeBytes, enc_size. cbn [lheads str lhsize].
  assert (Hi : intsize (zlen p) = 1).
  { unfold intsize. cbn [intsize_loop]. assert (Z.shiftr (zlen p) 8 = 0) as ->; [|done].
    rewrite Z.shiftr_div_pow2 by lia. apply Z.div_small. lia. }
  rewrite Hi. unfold copyTo_loop. cbn [lh_offset].
  rewrite slice_ok by lia. unfold mbind, result_bind. cbn [take drop Z.to_nat firstn].
  assert (He : listhead_encode {| lh_offset := 0; lh_size := zlen p |} = [0xF8; zlen p]).
  { unfold listhead_encode, puthead. cbn [lh_size]. destruct (Z.ltb_spec (zlen p) 56); [lia|].
    unfold putint. destruct (Z.ltb_spec (zlen p) (2 ^ 8)); [|lia].
    unfold byte_at. rewrite Z.shiftr_0_r, Z.mod_small by lia. done. }
  rewrite He. change (zlen (@nil Z)) with 0. change (zlen [248; zlen p]) with 2.
  set (d0 := zeros _). assert (Hd0 : zlen d0 = zlen p + 2) by (subst d0; rewrite zlen_zeros; lia).
  rewrite (zlen_copy_at d0) by lia. rewrite Hd0.
  change (take (Z.to_nat (0 - 0)) (drop (Z.to_nat 0) p)) with (@nil Z). change (zlen (@nil Z)) with 0.
  replace (0 + Z.min (zlen p + 2 - 0) 0) with 0 by lia.
  destruct (Z.ltb_spec (zlen p + 2 - 0) 2); [lia|].
  rewrite slice_ok by lia. f_equal. rewrite Z.sub_0_r. change (Z.to_nat 0) with O. rewrite drop_0.
  rewrite (firstn_all2 p) by (unfold zlen; lia).
  rewrite copy_at_nil. unfold zlen in Hd0. destruct d0 as [|x0 [|x1 d0]]; simpl in Hd0; try lia.
  change (x0 :: x1 :: d0) with ([x0; x1] ++ d0).
  rewrite copy_at_prefix by done. change (0 + 2) with (zlen [0xF8; zlen p]).
  rewrite copy_at_suffix by (unfold zlen in *; lia). done.
Qed.

Lemma enc_uint_len i : is_u64 i -> 1 <= zlen (enc_uint i) <= 9.
Proof.
  intros Hi. unfold enc_uint. repeat case_match; try (unfold zlen; simpl; lia).
  destruct (putint_cases i) as (n & _ & Hn & ->);
    [unfold is_u64 in *; zcases; lia | done |]. rewrite zlen_cons, zlen_be_bytes. lia.
Qed.

Lemma enc_big_len i : 0 <= i < 2 ^ 256 -> 1 <= zlen (enc_big i) <= 33.
Proof.
  intros Hi. unfold enc_big. destruct (Z.ltb_spec i (2 ^ 64)).
  - pose proof (enc_uint_len i ltac:(unfold is_u64; lia)). lia.
  - set (n := Z.to_nat _). assert (Hw : int_width i n) by (by apply BitLen_width; [lia|]).
    rewrite zlen_cons, zlen_be_bytes. destruct (Nat.le_gt_cases n 32) as [|Hgt]; [lia|].
    destruct Hw as [_ [HL _]].
    assert (256 ^ 32 <= 256 ^ (Z.of_nat n - 1)) by (apply Z.pow_le_mono_r; lia).
    change (256 ^ 32) with (2 ^ 256) in *. lia.
Qed.

(** The payload of an account's list. *)
Definition account_payload (n b : Z) (r c : bytes) : bytes :=
  enc_uint n ++ enc_big b ++ (0xA0 :: r) ++ (0xA0 :: c).

Lemma EncodeAccount_bytes n b r c :
  is_u64 n -> 0 <= b < 2 ^ 256 -> zlen r = 32 -> zlen c = 32 ->
  let p := account_payload n b r c in
  EncodeAccount (mkAccount n (Some b) r c) = Ok (Val (0xF8 :: zlen p :: p)) /\ 68 <= zlen p <= 108.
Proof.
  intros Hn Hb Hr Hc p.
  assert (Hp : 68 <= zlen p <= 108).
  { subst p. unfold account_payload. rewrite !zlen_app, !zlen_cons, Hr, Hc.
    pose proof (enc_uint_len n Hn). pose proof (enc_big_len b Hb). lia. }
  split; [|done].
  pose proof (makeBytes_list p ltac:(lia)) as HM. unfold EncodeAccount.
  destruct (enc_list getEncBuffer) as [buf lh]. cbn [fst snd Nonce Balance Root CodeHash] in *.
  unfold writeBigIntPtr. assert ((Z.sgn b =? -1) = false) as ->.
  { apply Z.eqb_neq. pose proof (Z.sgn_nonneg b). lia. }
  rewrite writeUint64_enc, writeBigInt_enc, !writeBytes32_enc, !append_str_app by done.
  unfold mbind, result_bind in HM |- *.
  match goal with |- context [append_str buf ?x] =>
    replace x with p by (subst p; unfold account_payload; by rewrite <- ?app_assoc)
  end.
  destruct (enc_listEnd (append_str buf p) lh); try done. by rewrite HM.
Qed.

(** At top level the list header is read and the list entered. *)
Lemma List_top p :
  56 <= zlen p < 256 ->
  exists s', Stream_List (Stream_Reset (0xF8 :: zlen p :: p) (zlen (0xF8 :: zlen p :: p))) = (Val (zlen p), s')
    /\ at_stream s' p (zlen p).
Proof.
  intros Hp. rewrite !zlen_cons. unfold Stream_Reset.
  destruct (Z.ltb_spec 0 (zlen p + 1 + 1)); [|lia].
  unfold Stream_List, mbind, SM_bind, Stream_Kind. cbn [skind listLimit head sstack].
  unfold Stream_readKind, readByte, mbind, SM_bind, willRead.
  cbn -[Z.ltb Z.sub Z.add zlen].
  destruct (Z.ltb_spec (zlen p + 1 + 1) 1); [lia|]. cbn -[Z.ltb Z.sub Z.add zlen].
  change (248 <? 128) with false. change (248 <? 184) with false. change (248 <? 192) with false.
  change (248 <? 248) with false. cbn iota.
  change (248 - 247) with 1. unfold readUint. change (1 =? 0) with false. change (1 =? 1) with true. cbn iota.
  unfold readByte, mbind, SM_bind, willRead. cbn -[Z.ltb Z.sub Z.add zlen].
  destruct (Z.ltb_spec (zlen p + 1 + 1 - 1) 1); [lia|]. cbn -[Z.ltb Z.sub Z.add zlen].
  destruct (Z.ltb_spec (zlen p) 56); [lia|]. cbn -[Z.ltb Z.sub Z.add zlen].
  destruct (Z.ltb_spec (zlen p + 1 + 1 - 1 - 1) (zlen p)); [lia|].
  eexists; split; [reflexivity|]. split_and!; cbn; try done. lia.
Qed.

Lemma DecodeBytes_bytes n b r c :
  is_u64 n -> 0 <= b < 2 ^ 256 -> zlen r = 32 -> zlen c = 32 ->
  let p := account_payload n b r c in 68 <= zlen p <= 108 ->
  DecodeBytes (0xF8 :: zlen p :: p) = Val (mkAccount n (Some b) r c).
Proof.
  intros Hn Hb Hr Hc p Hp. unfold DecodeBytes, decodeAccount.
  destruct (List_top p) as (s0 & E0 & A0); [lia|]. unfold mbind, SM_bind at 1. unfold wrapped at 1.
  rewrite E0.
  assert (HR : reads (n ← decode_field (Stream_uint 64); b ← decode_field Stream_decodeBigInt;
                      r ← decode_field Stream_Bytes; c ← decode_field Stream_Bytes;
                      mret (mkAccount n (Some b) r c)) p (mkAccount n (Some b) r c)).
  { subst p. unfold account_payload.
    eapply reads_bind; [apply reads_field, uint_reads, Hn|].
    eapply reads_bind; [apply reads_field, bigint_reads, Hb|].
    eapply reads_bind; [apply reads_field, bytes32_reads, Hr|].
    eapply reads_bind_ret; [apply reads_field, bytes32_reads, Hc|apply reads_ret]. }
  rewrite <- (app_nil_r p) in A0 at 1.
  destruct (HR s0 [] (zlen p) A0) as (s1 & E1 & (B1 & B2 & B3 & B4 & B5)); [lia|].
  unfold mbind, SM_bind in E1 |- *.
  destruct (decode_field (Stream_uint 64) s0) as [[a1|] t1]; [|done].
  destruct (decode_field Stream_decodeBigInt t1) as [[a2|] t2]; [|done].
  destruct (decode_field Stream_Bytes t2) as [[a3|] t3]; [|done].
  destruct (decode_field Stream_Bytes t3) as [[a4|] t4]; [|done].
  cbn in E1. injection E1 as -> -> -> -> ->.
  unfold wrapped, Stream_ListEnd. rewrite B3, Z.sub_diag. cbn. by rewrite B1.
Qed.

(** C20: an account encoded by [rlp.EncodeToBytes] decodes to itself, for every
    64-bit nonce, 256-bit balance and 32-byte root and code hash. *)
Theorem EncodeAccount_DecodeBytes n b r c :
  is_u64 n -> 0 <= b < 2 ^ 256 -> zlen r = 32 -> zlen c = 32 ->
  exists enc, EncodeAccount (mkAccount n (Some b) r c) = Ok (Val enc) /\
    DecodeBytes enc = Val (mkAccount n (Some b) r c).
Proof.
  intros Hn Hb Hr Hc. destruct (EncodeAccount_bytes n b r c Hn Hb Hr Hc) as [-> Hp].
  eexists; split; [reflexivity|]. by apply DecodeBytes_bytes.
Qed.
Lemma EncodeAccount_DecodeBytes_witness :
  exists enc, EncodeAccount (mkAccount 300 (Some (2 ^ 200)) (replicate 32 1) (replicate 32 2)) = Ok (Val enc) /\
    DecodeBytes enc = Val (mkAccount 300 (Some (2 ^ 200)) (replicate 32 1) (replicate 32 2)).
Proof. apply EncodeAccount_DecodeBytes; [unfold is_u64; lia|lia|reflexivity..]. Defined.
