(* ===== verification/AccessList.v ===== *)
(** The access list of EIP-2929: [state/access_list.go].

    An address maps to -1 or to the index of its slot set.  The abstraction
    [al_view] forgets the indices; the operations refine their set-level
    specifications, and the two deletions undo an addition exactly. *)
From Stdlib Require Import ZArith Lia.
From stdpp Require Import base numbers list gmap.
From S2P Require Import Prelude.
Local Open Scope Z_scope.

Record accessList := mkAL { addresses : gmap Z Z; slots : list (gset Z) }.

Definition newAccessList : accessList := mkAL ∅ [].

Definition ContainsAddress (al : accessList) (address : Z) : bool :=
  bool_decide (is_Some (addresses al !! address)).

(** Presence of the address and of the slot. *)
Definition Contains (al : accessList) (address slot : Z) : result (bool * bool) :=
  match addresses al !! address with
  | None => Ok (false, false)
  | Some idx =>
    if idx =? -1 then Ok (true, false)
    else
      slotmap ← index (slots al) idx;
      Ok (true, bool_decide (slot ∈ slotmap))
  end.

(** [Copy] clones the map and every slot set: a new value with equal content. *)
Definition accessList_Copy (a : accessList) : accessList :=
  mkAL (addresses a) (map (fun slotMap => slotMap) (slots a)).

Definition AddAddress (al : accessList) (address : Z) : bool * accessList :=
  match addresses al !! address with
  | Some _ => (false, al)
  | None => (true, mkAL (<[address := -1]> (addresses al)) (slots al))
  end.

Definition AddSlot (al : accessList) (address slot : Z) : result (bool * bool * accessList) :=
  let fresh (addrPresent : bool) :=
    Ok (negb addrPresent, true,
        mkAL (<[address := zlen (slots al)]> (addresses al)) (slots al ++ [{[ slot ]}])) in
  match addresses al !! address with
  | None => fresh false
  | Some idx =>
    if idx =? -1 then fresh true
    else
      slotmap ← index (slots al) idx;
      if bool_decide (slot ∈ slotmap) then Ok (false, false, al)
      else
        s ← set_index (slots al) idx ({[ slot ]} ∪ slotmap);
        Ok (false, true, mkAL (addresses al) s)
  end.

Definition DeleteSlot (al : accessList) (address slot : Z) : result accessList :=
  match addresses al !! address with
  | None => Panic
  | Some idx =>
    slotmap ← index (slots al) idx;
    let slotmap := slotmap ∖ {[ slot ]} in
    s ← set_index (slots al) idx slotmap;
    if decide (slotmap = ∅) then
      s ← slice s 0 idx;
      Ok (mkAL (<[address := -1]> (addresses al)) s)
    else Ok (mkAL (addresses al) s)
  end.

Definition DeleteAddress (al : accessList) (address : Z) : accessList :=
  mkAL (delete address (addresses al)) (slots al).

(** ** The representation invariant *)
Record wf_al (al : accessList) : Prop := {
  al_range a i : addresses al !! a = Some i -> i = -1 \/ 0 <= i < zlen (slots al);
  al_inj a b i : addresses al !! a = Some i -> addresses al !! b = Some i -> i <> -1 -> a = b;
  al_nonempty s : s ∈ slots al -> s <> ∅
}.

(** ** Abstraction: the slots of every listed address *)
Definition al_slots (al : accessList) (i : Z) : gset Z :=
  if i =? -1 then ∅ else default ∅ (slots al !! Z.to_nat i).
Definition al_view (al : accessList) : gmap Z (gset Z) := al_slots al <$> addresses al.

(** The operations on the abstract list. *)
Definition spec_AddAddress (v : gmap Z (gset Z)) (a : Z) : gmap Z (gset Z) :=
  match v !! a with Some _ => v | None => <[a := ∅]> v end.
Definition spec_AddSlot (v : gmap Z (gset Z)) (a s : Z) : gmap Z (gset Z) :=
  <[a := {[ s ]} ∪ default ∅ (v !! a)]> v.

Lemma wf_newAccessList : wf_al newAccessList.
Proof. split; simpl; intros *; rewrite ?lookup_empty; try done. intros H. by apply elem_of_nil in H. Qed.

Lemma al_view_lookup al a : al_view al !! a = al_slots al <$> addresses al !! a.
Proof. apply lookup_fmap. Qed.

Lemma al_idx_ok al a i :
  wf_al al -> addresses al !! a = Some i -> i <> -1 ->
  exists m, index (slots al) i = Ok m /\ slots al !! Z.to_nat i = Some m /\ 0 <= i < zlen (slots al)
    /\ al_slots al i = m /\ m <> ∅.
Proof.
  intros Hw Ha Hi. destruct (al_range al Hw a i Ha) as [|Hr]; [done|].
  destruct (index_ok (slots al) i Hr) as (m & E & L). exists m. split_and!; [done|done|lia|lia| |].
  - unfold al_slots. destruct (Z.eqb_spec i (-1)); [done|]. by rewrite L.
  - eapply al_nonempty, list_elem_of_lookup_2, L. done.
Qed.

Lemma ContainsAddress_view al a : ContainsAddress al a = bool_decide (is_Some (al_view al !! a)).
Proof.
  unfold ContainsAddress. rewrite al_view_lookup. apply bool_decide_ext. by rewrite fmap_is_Some.
Qed.

Lemma Contains_view al a s :
  wf_al al ->
  Contains al a s = Ok (bool_decide (is_Some (al_view al !! a)),
                        bool_decide (s ∈ default ∅ (al_view al !! a))).
Proof.
  intros Hw. unfold Contains. rewrite al_view_lookup.
  destruct (addresses al !! a) as [i|] eqn:Ha; simpl.
  2: { reflexivity. }
  rewrite ?(bool_decide_eq_true_2 (is_Some _)) by eauto.
  destruct (Z.eqb_spec i (-1)) as [->|Hi].
  - reflexivity.
  - destruct (al_idx_ok al a i Hw Ha Hi) as (m & -> & _ & _ & -> & _). done.
Qed.

Lemma AddAddress_view al a b al' :
  AddAddress al a = (b, al') ->
  b = negb (ContainsAddress al a) /\ al_view al' = spec_AddAddress (al_view al) a.
Proof.
  unfold AddAddress, ContainsAddress, spec_AddAddress. rewrite al_view_lookup.
  destruct (addresses al !! a) eqn:Ha; intros [= <- <-]; [done|].
  split; [done|].
  unfold al_view. simpl. by rewrite fmap_insert.
Qed.

Lemma wf_AddAddress al a b al' : wf_al al -> AddAddress al a = (b, al') -> wf_al al'.
Proof.
  intros [HR HI HN]. unfold AddAddress. destruct (addresses al !! a) eqn:Ha; intros [= <- <-]; [done|].
  split; simpl.
  - intros c i. destruct (decide (a = c)) as [->|].
    + rewrite lookup_insert_eq. intros [= <-]. by left.
    + rewrite lookup_insert_ne by done. apply HR.
  - intros c d i Hc Hd Hi. rewrite lookup_insert_Some in Hc, Hd.
    destruct Hc as [[? ?]|[? Hc]]; [done|]. destruct Hd as [[? ?]|[? Hd]]; [done|]. eauto.
  - done.
Qed.

(** The slots an address had, and the address of an index, are not affected
    by appending a new slot set. *)
Lemma al_slots_app al a i m ads :
  wf_al al -> addresses al !! a = Some i -> al_slots (mkAL ads (slots al ++ [m])) i = al_slots al i.
Proof.
  intros Hw Ha. unfold al_slots. simpl. destruct (Z.eqb_spec i (-1)); [done|].
  destruct (al_range al Hw a i Ha) as [|Hr]; [done|]. rewrite lookup_app_l; [done|]. unfold zlen in *. lia.
Qed.

(** A fresh slot set at the end, owned by [a]. *)
Lemma fresh_slot_ok al a s :
  wf_al al ->
  let al' := mkAL (<[a := zlen (slots al)]> (addresses al)) (slots al ++ [{[ s ]}]) in
  wf_al al' /\ al_view al' = <[a := {[ s ]} ∪ ∅]> (al_view al).
Proof.
  intros Hw al'. pose proof (zlen_nonneg (slots al)). split; [split; simpl|].
  - intros c i. rewrite zlen_app. change (zlen [{[s]}]) with 1. rewrite lookup_insert_Some.
    intros [[<- <-]|[Hne Hc]]; [lia|]. destruct (al_range al Hw c i Hc); lia.
  - intros c d i Hc Hd Hi. rewrite lookup_insert_Some in Hc, Hd.
    destruct Hc as [[<- <-]|[? Hc]], Hd as [[<- E]|[? Hd]]; try done.
    + destruct (al_range al Hw _ _ Hd); lia.
    + subst. destruct (al_range al Hw _ _ Hc); lia.
    + by eapply al_inj.
  - intros m [Hm|Hm]%elem_of_app; [by eapply al_nonempty|].
    apply list_elem_of_singleton in Hm as ->. set_solver -.
  - apply map_eq. intros c. unfold al_view. subst al'. simpl. rewrite lookup_fmap.
    destruct (decide (a = c)) as [<-|].
    + rewrite !lookup_insert_eq. simpl. f_equal. unfold al_slots. simpl.
      destruct (Z.eqb_spec (zlen (slots al)) (-1)); [lia|].
      unfold zlen. rewrite Nat2Z.id, list_lookup_middle by done. simpl. set_solver -.
    + rewrite !lookup_insert_ne by done. rewrite lookup_fmap.
      destruct (addresses al !! c) as [i|] eqn:Hc; [|done]. simpl. f_equal.
      by apply (al_slots_app al c).
Qed.

(** Growing the slot set of an address that has one. *)
Lemma grow_slot_ok al a i s m :
  wf_al al -> addresses al !! a = Some i -> i <> -1 -> slots al !! Z.to_nat i = Some m ->
  let al' := mkAL (addresses al) (<[Z.to_nat i := {[ s ]} ∪ m]> (slots al)) in
  wf_al al' /\ al_view al' = <[a := {[ s ]} ∪ m]> (al_view al).
Proof.
  intros Hw Ha Hi L al'. apply lookup_lt_Some in L as Hlt. split; [split; simpl|].
  - intros c j Hc. unfold zlen. rewrite length_insert. by apply (al_range al Hw c).
  - apply Hw.
  - intros x (j & Hx)%list_elem_of_lookup_1. rewrite list_lookup_insert_Some in Hx.
    destruct Hx as [(_ & <- & _)|[_ Hx]]; [set_solver -|].
    by eapply al_nonempty, list_elem_of_lookup_2.
  - apply map_eq. intros c. unfold al_view. simpl. rewrite lookup_fmap.
    destruct (decide (a = c)) as [<-|].
    + rewrite lookup_insert_eq, Ha. simpl. f_equal. unfold al_slots. simpl.
      destruct (Z.eqb_spec i (-1)); [done|]. by rewrite list_lookup_insert_eq.
    + rewrite lookup_insert_ne, lookup_fmap by done.
      destruct (addresses al !! c) as [j|] eqn:Hc; [|done]. simpl. f_equal.
      unfold al_slots. simpl. destruct (Z.eqb_spec j (-1)); [done|].
      rewrite list_lookup_insert_ne; [done|]. intros E.
      destruct (al_range al Hw c j Hc), (al_range al Hw a i Ha); [done..|].
      assert (i = j) as <- by lia. naive_solver (eapply al_inj; eauto).
Qed.

Lemma AddSlot_ok al a s :
  wf_al al ->
  exists ca cs al', AddSlot al a s = Ok (ca, cs, al') /\ wf_al al' /\
    ca = negb (ContainsAddress al a) /\
    cs = negb (bool_decide (s ∈ default ∅ (al_view al !! a))) /\
    al_view al' = spec_AddSlot (al_view al) a s.
Proof.
  intros Hw. unfold AddSlot, spec_AddSlot, ContainsAddress. rewrite al_view_lookup.
  destruct (fresh_slot_ok al a s Hw) as [W V].
  destruct (addresses al !! a) as [i|] eqn:Ha; simpl.
  2: { do 3 eexists. split; [reflexivity|]. by split_and!. }
  destruct (Z.eqb_spec i (-1)) as [->|Hi].
  { do 3 eexists. split; [reflexivity|]. by split_and!. }
  destruct (al_idx_ok al a i Hw Ha Hi) as (m & -> & L & Hr & Hm & _). simpl.
  destruct (bool_decide (s ∈ m)) eqn:Es; rewrite Hm, Es.
  - apply bool_decide_eq_true_1 in Es. do 3 eexists. split; [reflexivity|]. split_and!; [done|done|done|].
    symmetry. apply insert_id. rewrite al_view_lookup, Ha. simpl. f_equal. rewrite Hm. set_solver.
  - rewrite set_index_ok by done. destruct (grow_slot_ok al a i s m Hw Ha Hi L) as [W' V'].
    do 3 eexists. split; [reflexivity|]. by split_and!.
Qed.

(** ** Undoing *)
Lemma AddAddress_undo al a al' : AddAddress al a = (true, al') -> DeleteAddress al' a = al.
Proof.
  unfold AddAddress, DeleteAddress. destruct (addresses al !! a) eqn:Ha; intros [= <-].
  destruct al as [ads sl]. simpl in *. by rewrite delete_insert_id.
Qed.

Lemma DeleteSlot_fresh ads sl a s :
  DeleteSlot (mkAL (<[a := zlen sl]> ads) (sl ++ [{[ s ]}])) a s = Ok (mkAL (<[a := -1]> ads) sl).
Proof.
  pose proof (zlen_nonneg sl). unfold DeleteSlot. simpl. rewrite lookup_insert_eq.
  destruct (index_ok (sl ++ [{[ s ]} : gset Z]) (zlen sl)) as (m & -> & L).
  { rewrite zlen_app. change (zlen [{[s]}]) with 1. lia. }
  unfold zlen in L. rewrite Nat2Z.id, list_lookup_middle in L by done. injection L as <-.
  unfold mbind, result_bind. rewrite set_index_ok by (rewrite zlen_app; change (zlen [{[s]}]) with 1; lia).
  rewrite decide_True by set_solver -.
  rewrite slice_ok by (unfold zlen; rewrite ?length_insert, ?length_app; simpl; lia).
  do 2 f_equal; [by rewrite insert_insert_eq|].
  rewrite Z.sub_0_r, drop_0. unfold zlen. rewrite Nat2Z.id.
  by rewrite take_insert_ge, take_app_length by lia.
Qed.

(** The deletions of the entries [AddSlot] asks to journal, in reverse order,
    give back the list exactly. *)
Lemma AddSlot_undo al a s ca cs al' :
  wf_al al -> AddSlot al a s = Ok (ca, cs, al') ->
  (cs = false -> al' = al /\ ca = false) /\
  (cs = true -> exists al1, DeleteSlot al' a s = Ok al1 /\
     (if ca then DeleteAddress al1 a else al1) = al).
Proof.
  intros Hw. unfold AddSlot. destruct (addresses al !! a) as [i|] eqn:Ha.
  - destruct (Z.eqb_spec i (-1)) as [->|Hi].
    + intros [= <- <- <-]. split; [done|]. intros _. rewrite DeleteSlot_fresh. eexists; split; [done|].
      destruct al as [ads sl]; simpl in *. by rewrite insert_id.
    + destruct (al_idx_ok al a i Hw Ha Hi) as (m & -> & L & Hr & _ & Hm). unfold mbind, result_bind.
      destruct (bool_decide (s ∈ m)) eqn:Es; [by intros [= <- <- <-]|].
      apply bool_decide_eq_false_1 in Es. rewrite set_index_ok by done.
      intros [= <- <- <-]. split; [done|]. intros _. unfold DeleteSlot. simpl. rewrite Ha.
      assert (Hlt : (Z.to_nat i < length (slots al))%nat) by (unfold zlen in *; lia).
      destruct (index_ok (<[Z.to_nat i := {[s]} ∪ m]> (slots al)) i) as (m' & -> & L').
      { unfold zlen in *. rewrite length_insert. lia. }
      rewrite list_lookup_insert_eq in L' by done. injection L' as <-. unfold mbind, result_bind.
      rewrite set_index_ok by (unfold zlen in *; rewrite length_insert; lia).
      assert (({[s]} ∪ m) ∖ {[s]} = m) as -> by set_solver.
      rewrite decide_False by done. eexists; split; [done|].
      destruct al as [ads sl]; simpl in *. by rewrite list_insert_insert_eq, list_insert_id.
  - intros [= <- <- <-]. split; [done|]. intros _. rewrite DeleteSlot_fresh. eexists; split; [done|].
    destruct al as [ads sl]. unfold DeleteAddress; simpl in *. by rewrite delete_insert_id.
Qed.

(** ** Refinement

    A run of additions on the indexed representation, and on the plain map from
    addresses to slot sets it stands for. *)
Inductive al_op := AAddress (a : Z) | ASlot (a s : Z).

Definition run_al_op (al : accessList) (op : al_op) : result accessList :=
  match op with
  | AAddress a => Ok (snd (AddAddress al a))
  | ASlot a s => '(_, al') ← AddSlot al a s; Ok al'
  end.
Fixpoint run_al (al : accessList) (ops : list al_op) : result accessList :=
  match ops with [] => Ok al | op :: ops => al' ← run_al_op al op; run_al al' ops end.

Definition spec_al (v : gmap Z (gset Z)) (op : al_op) : gmap Z (gset Z) :=
  match op with AAddress a => spec_AddAddress v a | ASlot a s => spec_AddSlot v a s end.

Lemma run_al_op_ok al op : wf_al al ->
  exists al', run_al_op al op = Ok al' /\ wf_al al' /\ al_view al' = spec_al (al_view al) op.
Proof.
  intros Hw. destruct op as [a|a s]; simpl.
  - destruct (AddAddress al a) as [b al'] eqn:Ea. exists al'. split_and!; [done|by eapply wf_AddAddress|].
    by destruct (AddAddress_view _ _ _ _ Ea).
  - destruct (AddSlot_ok al a s Hw) as (ca & cs & al' & -> & W & _ & _ & V). by exists al'.
Qed.
Lemma run_al_ok ops al : wf_al al ->
  exists al', run_al al ops = Ok al' /\ wf_al al' /\ al_view al' = foldl spec_al (al_view al) ops.
Proof.
  revert al. induction ops as [|op ops IH]; intros al Hw; [by exists al|].
  destruct (run_al_op_ok al op Hw) as (al1 & E1 & W1 & V1). destruct (IH al1 W1) as (al2 & E2 & W2 & V2).
  exists al2. cbn [run_al foldl]. rewrite E1, <- V1. done.
Qed.

(** C21: the indexed access list implements a map from addresses to sets of
    slots: after any additions from the empty list none of its index operations
    panics, and [ContainsAddress] and [Contains] answer as that map does. *)
Theorem accessList_refines ops :
  exists al, run_al newAccessList ops = Ok al /\
    let v := foldl spec_al ∅ ops in
    (forall a, ContainsAddress al a = bool_decide (is_Some (v !! a))) /\
    forall a s, Contains al a s = Ok (bool_decide (is_Some (v !! a)), bool_decide (s ∈ default ∅ (v !! a))).
Proof.
  destruct (run_al_ok ops newAccessList wf_newAccessList) as (al & E & W & V).
  assert (al_view newAccessList = ∅) as V0 by (unfold al_view, newAccessList; simpl; apply fmap_empty).
  rewrite V0 in V. exists al. split; [done|]. rewrite <- V. split; intros.
  - apply ContainsAddress_view.
  - by apply Contains_view.
Qed.

(** C22: undoing an addition of a slot gives back the very list it started from:
    deleting the slot (and the address, when it was new) restores the index
    map and the slot table exactly. *)
Theorem AddSlot_undone al a s ca al' :
  wf_al al -> AddSlot al a s = Ok (ca, true, al') ->
  exists al1, DeleteSlot al' a s = Ok al1 /\ (if ca then DeleteAddress al1 a else al1) = al.
Proof. intros Hw Hs. by apply (AddSlot_undo al a s ca true al'). Qed.
Lemma AddSlot_undone_witness :
  exists al1, DeleteSlot (mkAL {[7 := 0]} [{[3]}]) 7 3 = Ok al1 /\ DeleteAddress al1 7 = newAccessList.
Proof.
  refine (AddSlot_undone newAccessList 7 3 true (mkAL {[7 := 0]} [{[3]}]) wf_newAccessList _).
  vm_compute. reflexivity.
Defined.
