(* ===== verification/Host.v ===== *)
(** The parts of the system outside this repository that the state database
    and the EVM call, as a class of functions: the Keccak sponge of
    [golang.org/x/crypto/sha3], the read-only storage transaction of
    [cardinal-storage], and the fixed-size hash type of [cardinal-types].
    On top of them: [crypto/crypto.go] and [schema/schema.go]. *)
From Stdlib Require Import ZArith Lia.
From stdpp Require Import base numbers list.
From S2P Require Import Prelude Math Rlp.
Local Open Scope Z_scope.

(** A hash is its 32 bytes read as a number.  [tx_get key] is what [Get] and
    [ZeroCopyGet] find under a key; [None] stands for any error.  [bytesToHash]
    is [types.BytesToHash] (and [SetBytes] on a zero hash). *)
Class Host : Type := {
  keccak : bytes -> Z;
  tx_get : bytes -> option bytes;
  bytesToHash : bytes -> Z
}.

(** What the package documentation promises of them. *)
Class HostLaws {H : Host} : Prop := {
  keccak_range b : is_u256 (keccak b);
  bytesToHash_range b : wf_bytes b -> is_u256 (bytesToHash b);
  bytesToHash_32 b : wf_bytes b -> zlen b = 32 -> bytesToHash b = be_val b
}.

Definition Hash_Bytes (h : Z) : bytes := be_bytes 32 h.

(** ** [crypto/crypto.go]

    The variadic arguments are written to the sponge one after the other. *)
Section Crypto.
Context {H : Host}.

Definition Keccak256Hash (data : list bytes) : Z := keccak (concat data).
Definition Keccak256 (data : list bytes) : bytes := Hash_Bytes (keccak (concat data)).

Definition CreateAddress (b nonce : Z) : result Z :=
  data ← EncodeAddressNonce (Address_Bytes b) nonce;
  Ok (BytesToAddress (drop 12 (Keccak256 [data]))).

Definition CreateAddress2 (b salt : Z) (inithash : bytes) : Z :=
  BytesToAddress (drop 12 (Keccak256 [[0xff]; Address_Bytes b; Hash_Bytes salt; inithash])).
End Crypto.

(** ** [schema/schema.go]

    Keys are the bytes of strings; [%x] prints a number or a byte string in
    lower-case hexadecimal. *)
Definition hex_digit (d : Z) : Z := if d <? 10 then 48 + d else 87 + d.
Definition fmt_x_bytes (b : bytes) : bytes :=
  b ≫= fun x => [hex_digit (x / 16); hex_digit (x mod 16)].

Fixpoint hex_digits (fuel : nat) (z : Z) : bytes :=
  match fuel with
  | O => []
  | S fuel' => if z <? 16 then [hex_digit z] else hex_digits fuel' (z / 16) ++ [hex_digit (z mod 16)]
  end.
(** An [int64] has at most sixteen digits. *)
Definition fmt_x_int (z : Z) : bytes :=
  if z <? 0 then 45 :: hex_digits 17 (- z) else hex_digits 17 z.

(** ["/"], ["c"], ["a"], ["d"], ["s"] *)
Definition slash : Z := 47.
Definition chr_c : Z := 99.
Definition chr_a : Z := 97.
Definition chr_d : Z := 100.
Definition chr_s : Z := 115.

Section Schema.
Context {H : Host}.

Definition AccountData (chainid : Z) (address : bytes) : bytes :=
  [chr_c; slash] ++ fmt_x_int chainid ++ [slash; chr_a; slash]
  ++ fmt_x_bytes (Hash_Bytes (Keccak256Hash [address])) ++ [slash; chr_d].

Definition AccountCode (chainid : Z) (codeHash : bytes) : bytes :=
  [chr_c; slash] ++ fmt_x_int chainid ++ [slash; chr_c; slash] ++ fmt_x_bytes codeHash.

Definition AccountStorage (chainid : Z) (address storage : bytes) : bytes :=
  [chr_c; slash] ++ fmt_x_int chainid ++ [slash; chr_a; slash]
  ++ fmt_x_bytes (Hash_Bytes (Keccak256Hash [address])) ++ [slash; chr_s; slash]
  ++ fmt_x_bytes storage.
End Schema.

(** A small concrete host: an empty store, and a hash that is the input's
    value. *)
Definition host_demo : Host := {|
  keccak b := u256 (be_val b);
  tx_get _ := None;
  bytesToHash b := u256 (be_val b)
|}.

#[export] Instance host_demo_laws : @HostLaws host_demo.
Proof.
  split; cbn.
  - intros. apply u256_range.
  - intros. apply u256_range.
  - intros b Hb Hl. apply u256_id. pose proof (be_val_range b Hb). rewrite Hl in *.
    unfold is_u256. change (2 ^ 256) with (256 ^ 32). lia.
Qed.
