(* ===== verification/State.v ===== *)
(** The state database: [state/account.go], [state/state_object.go] and
    [state/statedb.go].

    A [stateDB] is a map of state objects over a read-only storage transaction
    with a journal of undo actions.  The journal's closures are the
    constructors of [journalEntry], run by [revert_entry].  Reads fill caches
    in the objects ([account], [code], [clean]) and create empty objects:
    every operation is a state transformer. *)
From Stdlib Require Import ZArith Lia.
From stdpp Require Import base numbers list gmap.
From S2P Require Import Prelude Math Params Rlp Host AccessList.
Local Open Scope Z_scope.

Definition emptyRoot : Z := 0x56e81f171bcc55a6ff8345e692c0f86e5b48e01b996cadc001622fb5e363b421.

Abbreviation Storage := (gmap Z Z).

Record codeEntry := mkCode { ce_code : bytes; ce_hash : Z }.

Record stateObject := mkObj {
  so_address : Z;
  account : option Account;
  balanceDelta : option Z;
  code : option codeEntry;
  dirty : Storage;
  clean : Storage;
  created : bool;
  suicided : bool;
  deleted : bool;
  nonce : option Z;
  fakeBalance : option Z
}.

Definition set_account (o : stateObject) (x : option Account) : stateObject :=
  mkObj (so_address o) x (balanceDelta o) (code o) (dirty o) (clean o) (created o) (suicided o)
    (deleted o) (nonce o) (fakeBalance o).
Definition set_balanceDelta (o : stateObject) (x : option Z) : stateObject :=
  mkObj (so_address o) (account o) x (code o) (dirty o) (clean o) (created o) (suicided o)
    (deleted o) (nonce o) (fakeBalance o).
Definition set_code (o : stateObject) (x : option codeEntry) : stateObject :=
  mkObj (so_address o) (account o) (balanceDelta o) x (dirty o) (clean o) (created o) (suicided o)
    (deleted o) (nonce o) (fakeBalance o).
Definition set_dirty (o : stateObject) (x : Storage) : stateObject :=
  mkObj (so_address o) (account o) (balanceDelta o) (code o) x (clean o) (created o) (suicided o)
    (deleted o) (nonce o) (fakeBalance o).
Definition set_clean (o : stateObject) (x : Storage) : stateObject :=
  mkObj (so_address o) (account o) (balanceDelta o) (code o) (dirty o) x (created o) (suicided o)
    (deleted o) (nonce o) (fakeBalance o).
Definition set_suicided (o : stateObject) (x : bool) : stateObject :=
  mkObj (so_address o) (account o) (balanceDelta o) (code o) (dirty o) (clean o) (created o) x
    (deleted o) (nonce o) (fakeBalance o).
Definition set_deleted (o : stateObject) (x : bool) : stateObject :=
  mkObj (so_address o) (account o) (balanceDelta o) (code o) (dirty o) (clean o) (created o)
    (suicided o) x (nonce o) (fakeBalance o).
Definition set_nonce (o : stateObject) (x : option Z) : stateObject :=
  mkObj (so_address o) (account o) (balanceDelta o) (code o) (dirty o) (clean o) (created o)
    (suicided o) (deleted o) x (fakeBalance o).
Definition set_fakeBalance (o : stateObject) (x : option Z) : stateObject :=
  mkObj (so_address o) (account o) (balanceDelta o) (code o) (dirty o) (clean o) (created o)
    (suicided o) (deleted o) (nonce o) x.

(** The undo actions.  [JCreate] holds the object that was replaced, with the
    account that [CreateAccount] loaded into it. *)
Inductive journalEntry :=
| JBalanceNil (addr : Z)
| JBalanceAdd (addr amount : Z)
| JBalanceSub (addr amount : Z)
| JFakeBalance (addr : Z) (old : option Z)
| JNonce (addr : Z) (old : option Z)
| JCode (addr : Z) (old : option codeEntry)
| JDirtySet (addr key old : Z)
| JDirtyDelete (addr key : Z)
| JDirty (addr : Z) (old : Storage)
| JUnsuicide (addr : Z)
| JCreate (addr : Z) (prev : stateObject)
| JRefund (old : Z)
| JTransient (addr key old : Z)
| JDeleteAddress (addr : Z)
| JDeleteSlot (addr slot : Z).

Record stateDB := mkDB {
  journal : list journalEntry;
  state : gmap Z stateObject;
  transient : gmap Z Storage;
  chainid : Z;
  refund : Z;
  sdb_accessList : accessList;
  alcalc : bool
}.

Definition set_journal (s : stateDB) (x : list journalEntry) : stateDB :=
  mkDB x (state s) (transient s) (chainid s) (refund s) (sdb_accessList s) (alcalc s).
Definition set_state (s : stateDB) (x : gmap Z stateObject) : stateDB :=
  mkDB (journal s) x (transient s) (chainid s) (refund s) (sdb_accessList s) (alcalc s).
Definition set_transient (s : stateDB) (x : gmap Z Storage) : stateDB :=
  mkDB (journal s) (state s) x (chainid s) (refund s) (sdb_accessList s) (alcalc s).
Definition set_refund (s : stateDB) (x : Z) : stateDB :=
  mkDB (journal s) (state s) (transient s) (chainid s) x (sdb_accessList s) (alcalc s).
Definition set_accessList (s : stateDB) (x : accessList) : stateDB :=
  mkDB (journal s) (state s) (transient s) (chainid s) (refund s) x (alcalc s).
Definition set_alcalc (s : stateDB) (x : bool) : stateDB :=
  mkDB (journal s) (state s) (transient s) (chainid s) (refund s) (sdb_accessList s) x.

Definition NewStateDB (chainid : Z) : stateDB :=
  mkDB [] ∅ ∅ chainid 0 newAccessList false.

Section State.
Context {H : Host}.

Definition emptyCode : Z := Keccak256Hash [[]].

(** ** [state/account.go] *)
Definition Account_zero : Account := mkAccount 0 None [] [].

Definition Account_Copy (ac : option Account) : Account :=
  match ac with
  | None => mkAccount 0 (Some 0) (Hash_Bytes emptyRoot) (Hash_Bytes emptyCode)
  | Some ac => mkAccount (Nonce ac) (Some (default 0 (Balance ac))) (Root ac) (CodeHash ac)
  end.

Definition FullAccount (data : bytes) : err Account :=
  match DecodeBytes data with
  | Err e => Err e
  | Val account =>
    Val (mkAccount (Nonce account) (Balance account)
      (match Root account with [] => Hash_Bytes emptyRoot | r => r end)
      (match CodeHash account with [] => Hash_Bytes emptyCode | c => c end))
  end.

(** ** [state/state_object.go] *)

(** [codeEntry.getHash], with the entry it leaves behind. *)
Definition codeEntry_getHash (c : codeEntry) : Z * codeEntry :=
  let c := if negb (ce_hash c =? 0) then mkCode (ce_code c) (Keccak256Hash [ce_code c]) else c in
  (ce_hash c, c).

Definition newObject (addr : Z) : stateObject :=
  mkObj addr None None None ∅ ∅ false false false None None.

(** The account stored under an address; an unreadable one is like a missing
    one (the error is only logged). *)
Definition storedAccount (chainid addr : Z) : option Account :=
  match tx_get (AccountData chainid (Address_Bytes addr)) with
  | None => None
  | Some acctData => match FullAccount acctData with Val a => Some a | Err _ => None end
  end.

(** [finalise] runs over the map in no particular order: the union. *)
Definition finalise (s : stateObject) : stateObject :=
  let s := set_clean s (dirty s ∪ clean s) in
  if suicided s then set_deleted s true else s.

(** [copy] keeps neither [fakeBalance] nor anything it does not name. *)
Definition stateObject_copy (s : stateObject) : stateObject :=
  mkObj (so_address s) (account s) (balanceDelta s) (code s) (dirty s) (clean s) (created s)
    (suicided s) (deleted s) (nonce s) None.

Definition loadAccount (chainid : Z) (s : stateObject) : bool * stateObject :=
  if deleted s then (false, s)
  else match account s with
       | Some _ => (true, s)
       | None =>
         match storedAccount chainid (so_address s) with
         | Some a => (true, set_account s (Some a))
         | None => (false, s)
         end
       end.

(** [!s.loadAccount() || (s.account != nil && CodeHash == emptyCode)]; the
    account is there when loading succeeds. *)
Definition loadCode (chainid : Z) (s : stateObject) : bool * stateObject :=
  if deleted s then (false, s)
  else match code s with
       | Some _ => (true, s)
       | None =>
         let '(ok, s) := loadAccount chainid s in
         match (if ok then account s else None) with
         | None => (true, set_code s (Some (mkCode [] emptyCode)))
         | Some a =>
           if decide (CodeHash a = Hash_Bytes emptyCode)
           then (true, set_code s (Some (mkCode [] emptyCode)))
           else
             let code := default [] (tx_get (AccountCode chainid (CodeHash a))) in
             (true, set_code s (Some (mkCode code (bytesToHash (CodeHash a)))))
         end
       end.

Definition subBalance (s : stateObject) (amount : Z) : stateObject * journalEntry :=
  match balanceDelta s with
  | None => (set_balanceDelta s (Some (- amount)), JBalanceNil (so_address s))
  | Some d => (set_balanceDelta s (Some (d - amount)), JBalanceAdd (so_address s) amount)
  end.

Definition addBalance (s : stateObject) (amount : Z) : stateObject * journalEntry :=
  match balanceDelta s with
  | None => (set_balanceDelta s (Some amount), JBalanceNil (so_address s))
  | Some d => (set_balanceDelta s (Some (d + amount)), JBalanceSub (so_address s) amount)
  end.

Definition getBalance (s : stateObject) : Z :=
  let delta := default 0 (balanceDelta s) in
  let balance := match fakeBalance s with
                 | Some b => Some b
                 | None => match account s with Some a => Balance a | None => None end
                 end in
  delta + default 0 balance.

Definition setBalance (s : stateObject) (balance : Z) : stateObject * journalEntry :=
  (set_fakeBalance s (Some balance), JFakeBalance (so_address s) (fakeBalance s)).

Definition getNonce (chainid : Z) (s : stateObject) : Z * stateObject :=
  match nonce s with
  | Some n => (n, s)
  | None =>
    let '(ok, s) := loadAccount chainid s in
    (match (if ok then account s else None) with Some a => Nonce a | None => 0 end, s)
  end.

Definition setNonce (s : stateObject) (n : Z) : stateObject * journalEntry :=
  (set_nonce s (Some n), JNonce (so_address s) (nonce s)).

Definition getCodeHash (chainid : Z) (s : stateObject) : Z * stateObject :=
  match account s with
  | Some a => (bytesToHash (CodeHash a), s)
  | None =>
    let '(ok, s) := loadCode chainid s in
    match (if ok then code s else None) with
    | None => (emptyCode, s)
    | Some c => let '(h, c) := codeEntry_getHash c in (h, set_code s (Some c))
    end
  end.

Definition getCode (chainid : Z) (s : stateObject) : bytes * stateObject :=
  let '(ok, s) := loadCode chainid s in
  (match (if ok then code s else None) with Some c => ce_code c | None => [] end, s).

Definition setCode (s : stateObject) (c : bytes) : stateObject * journalEntry :=
  (set_code s (Some (mkCode c (Keccak256Hash [c]))), JCode (so_address s) (code s)).

(** The value of a stored slot: the content of its RLP string. *)
Definition storedSlot (chainid addr storage : Z) : option Z :=
  match tx_get (AccountStorage chainid (Address_Bytes addr) (Hash_Bytes storage)) with
  | None => None
  | Some [] => Some 0
  | Some data =>
    match Split data with
    | Ok (Val (_, content, _)) => Some (bytesToHash content)
    | _ => Some (bytesToHash [])
    end
  end.

Definition getCommittedState (chainid storage : Z) (s : stateObject) : Z * stateObject :=
  match clean s !! storage with
  | Some data => (data, s)
  | None =>
    match storedSlot chainid (so_address s) storage with
    | Some v => (v, set_clean s (<[storage := v]> (clean s)))
    | None => (0, s)
    end
  end.

Definition getState (chainid storage : Z) (s : stateObject) : Z * stateObject :=
  match dirty s !! storage with
  | Some data => (data, s)
  | None => getCommittedState chainid storage s
  end.

Definition setState (s : stateObject) (storage data : Z) : stateObject * journalEntry :=
  let s' := set_dirty s (<[storage := data]> (dirty s)) in
  match dirty s !! storage with
  | Some old => (s', JDirtySet (so_address s) storage old)
  | None => (s', JDirtyDelete (so_address s) storage)
  end.

Definition setStorage (s : stateObject) (storage : Storage) : stateObject * journalEntry :=
  (set_dirty s storage, JDirty (so_address s) (dirty s)).

Definition suicide (s : stateObject) : bool * stateObject * option journalEntry :=
  if suicided s || deleted s then (false, s, None)
  else (true, set_suicided s true, Some (JUnsuicide (so_address s))).

(** The three tests short-circuit. *)
Definition empty (chainid : Z) (s : stateObject) : bool * stateObject :=
  let '(n, s) := getNonce chainid s in
  if n =? 0 then
    if getBalance s =? 0 then
      let '(h, s) := getCodeHash chainid s in (h =? emptyCode, s)
    else (false, s)
  else (false, s).

(** The key/value pairs of an object ([kv]); the account is encoded before the
    copied one, which the code hash and the balance were put into, is used. *)
Definition kv (chainid : Z) (s : stateObject) : result (list (bytes * bytes)) :=
  if deleted s || suicided s then Ok []
  else
    let code' := snd ∘ codeEntry_getHash <$> code s in
    acctRLP ← match account s with
              | Some a => e ← EncodeAccount a; Ok (match e with Val b => b | Err _ => [] end)
              | None => Ok [0xC0]
              end;
    let addr := Address_Bytes (so_address s) in
    Ok ([(AccountData chainid addr, acctRLP)]
        ++ match code' with
           | Some c => [(AccountCode chainid (Hash_Bytes (ce_hash c)), ce_code c)]
           | None => []
           end
        ++ ((fun '(k, v) => (AccountStorage chainid addr (Hash_Bytes k), Hash_Bytes v))
             <$> map_to_list (dirty s ∪ clean s))).
End State.
