(* ===== verification/StateDB.v ===== *)
(** The operations of [state/statedb.go], as state transformers. *)
From Stdlib Require Import ZArith Lia.
From stdpp Require Import base numbers list gmap.
From S2P Require Import Prelude Math Params Rlp Host AccessList State.
Local Open Scope Z_scope.

Abbreviation SDB := (ST stateDB).

Section StateDB.
Context {H : Host}.

(** [getAccount] creates the object when it is missing; the pointer it returns
    is the map's entry, so what the caller does to it is stored back. *)
Definition getAccount (addr : Z) : SDB stateObject := fun s =>
  match state s !! addr with
  | Some o => Ok (o, s)
  | None => let o := newObject addr in Ok (o, set_state s (<[addr := o]> (state s)))
  end.

Definition put_obj (addr : Z) (o : stateObject) : SDB unit :=
  st_modify (fun s => set_state s (<[addr := o]> (state s))).

Definition push_journal (e : journalEntry) : SDB unit :=
  st_modify (fun s => set_journal s (journal s ++ [e])).

(** A method that reads through the object and may fill its caches. *)
Definition read_obj {A} (addr : Z) (f : Z -> stateObject -> A * stateObject) : SDB A :=
  o ← getAccount addr;
  c ← st_gets chainid;
  let '(a, o') := f c o in
  _ ← put_obj addr o';
  mret a.

(** A method that changes the object and returns its undo. *)
Definition write_obj (addr : Z) (f : stateObject -> stateObject * journalEntry) : SDB unit :=
  o ← getAccount addr;
  let '(o', e) := f o in
  _ ← put_obj addr o';
  push_journal e.

Definition CreateAccount (addr : Z) : SDB unit :=
  prev ← getAccount addr;
  c ← st_gets chainid;
  let fresh := mkObj addr (Some Account_zero) None None ∅ ∅ true false false None None in
  if negb (deleted prev) && negb (suicided prev) then
    let '(ok, prev) := loadAccount c prev in
    _ ← push_journal (JCreate addr prev);
    put_obj addr (if ok : bool then fst (addBalance fresh (getBalance prev)) else fresh)
  else
    _ ← push_journal (JCreate addr prev);
    put_obj addr fresh.

Definition SubBalance (addr amount : Z) : SDB unit :=
  if Z.sgn amount =? 0 then mret tt else write_obj addr (fun o => subBalance o amount).
Definition AddBalance (addr amount : Z) : SDB unit :=
  if Z.sgn amount =? 0 then mret tt else write_obj addr (fun o => addBalance o amount).
Definition GetBalance (addr : Z) : SDB Z :=
  read_obj addr (fun c o =>
    let '(ok, o) := loadAccount c o in (if ok : bool then getBalance o else 0, o)).
Definition GetNonce (addr : Z) : SDB Z := read_obj addr getNonce.
Definition SetNonce (addr n : Z) : SDB unit := write_obj addr (fun o => setNonce o n).
Definition GetCodeHash (addr : Z) : SDB Z := read_obj addr getCodeHash.
Definition GetCode (addr : Z) : SDB bytes := read_obj addr getCode.
Definition SetCode (addr : Z) (c : bytes) : SDB unit := write_obj addr (fun o => setCode o c).
Definition GetCodeSize (addr : Z) : SDB Z := c ← GetCode addr; mret (zlen c).

Definition AddRefund (amount : Z) : SDB unit :=
  old ← st_gets refund;
  _ ← st_modify (fun s => set_refund s (u64 (refund s + amount)));
  push_journal (JRefund old).
Definition SubRefund (amount : Z) : SDB unit :=
  old ← st_gets refund;
  _ ← st_modify (fun s => set_refund s (u64 (refund s - amount)));
  push_journal (JRefund old).
Definition GetRefund : SDB Z := st_gets refund.

Definition slotKey (storage : Z) : Z := Keccak256Hash [Hash_Bytes storage].
Definition GetCommittedState (addr storage : Z) : SDB Z :=
  read_obj addr (fun c o => getCommittedState c (slotKey storage) o).
Definition GetState (addr storage : Z) : SDB Z :=
  read_obj addr (fun c o => getState c (slotKey storage) o).
Definition SetState (addr storage data : Z) : SDB unit :=
  write_obj addr (fun o => setState o (slotKey storage) data).

Definition SetTransientState (addr storage data : Z) : SDB unit :=
  t ← st_gets transient;
  let s := default ∅ (t !! addr) in
  let old := default 0 (s !! storage) in
  _ ← st_modify (fun db => set_transient db (<[addr := <[storage := data]> s]> t));
  push_journal (JTransient addr storage old).
Definition GetTransientState (addr storage : Z) : SDB Z :=
  t ← st_gets transient;
  match t !! addr with
  | None => mret 0
  | Some s => mret (default 0 (s !! storage))
  end.

Definition SetStorage (addr : Z) (storage : Storage) : SDB unit :=
  write_obj addr (fun o => setStorage o storage).
Definition SetBalance (addr balance : Z) : SDB unit :=
  write_obj addr (fun o => setBalance o balance).

Definition Suicide (addr : Z) : SDB bool :=
  o ← getAccount addr;
  let '(ok, o', je) := suicide o in
  _ ← put_obj addr o';
  match je with
  | Some e => _ ← push_journal e; mret ok
  | None => mret ok
  end.
Definition SelfDestruct6780 (addr : Z) : SDB unit :=
  o ← getAccount addr;
  if created o then _ ← Suicide addr; mret tt else mret tt.
Definition HasSuicided (addr : Z) : SDB bool := o ← getAccount addr; mret (suicided o).

Definition Exist (addr : Z) : SDB bool :=
  read_obj addr (fun c o =>
    if deleted o then (false, o) else let '(e, o) := empty c o in (negb e, o)).
Definition Empty (addr : Z) : SDB bool :=
  read_obj addr (fun c o => if deleted o || suicided o then (true, o) else empty c o).

(** ** The access list *)
Definition AddressInAccessList (addr : Z) : SDB bool :=
  al ← st_gets sdb_accessList; c ← st_gets alcalc;
  mret (c || ContainsAddress al addr).
Definition SlotInAccessList (addr slot : Z) : SDB (bool * bool) :=
  al ← st_gets sdb_accessList; c ← st_gets alcalc;
  if c : bool then mret (true, true) else st_lift (Contains al addr slot).

Definition AddAddressToAccessList (addr : Z) : SDB unit :=
  al ← st_gets sdb_accessList;
  let '(change, al) := AddAddress al addr in
  _ ← st_modify (fun s => set_accessList s al);
  if change : bool then push_journal (JDeleteAddress addr) else mret tt.
Definition AddSlotToAccessList (addr slot : Z) : SDB unit :=
  al ← st_gets sdb_accessList;
  '(addrMod, slotMod, al) ← st_lift (AddSlot al addr slot);
  _ ← st_modify (fun s => set_accessList s al);
  _ ← (if addrMod : bool then push_journal (JDeleteAddress addr) else mret tt);
  if slotMod : bool then push_journal (JDeleteSlot addr slot) else mret tt.

(** [for _, x := range l { body }] *)
Fixpoint forM_ {A} (l : list A) (body : A -> SDB unit) : SDB unit :=
  match l with
  | [] => mret tt
  | x :: l' => _ ← body x; forM_ l' body
  end.

(** An entry of a transaction's access list: address and storage keys. *)
Definition AccessTuple : Type := Z * list Z.

Definition PrepareAccessList (rules : Rules) (sender coinbase : Z) (dst : option Z)
    (precompiles : list Z) (txAccesses : list AccessTuple) : SDB unit :=
  if r_IsBerlin rules then
    _ ← AddAddressToAccessList sender;
    _ ← match dst with Some d => AddAddressToAccessList d | None => mret tt end;
    _ ← forM_ precompiles AddAddressToAccessList;
    _ ← forM_ txAccesses (fun '(a, keys) =>
          _ ← AddAddressToAccessList a;
          forM_ keys (AddSlotToAccessList a));
    if r_IsShanghai rules then AddAddressToAccessList coinbase else mret tt
  else mret tt.

(** ** Snapshots *)
Definition on_obj (addr : Z) (f : stateObject -> result stateObject) (s : stateDB) : result stateDB :=
  '(o, s) ← getAccount addr s;
  o ← f o;
  Ok (set_state s (<[addr := o]> (state s))).

(** The closure of a journal entry; writing to a missing [transient] map or to
    a nil [balanceDelta] panics. *)
Definition revert_entry (e : journalEntry) (s : stateDB) : result stateDB :=
  match e with
  | JBalanceNil a => on_obj a (fun o => Ok (set_balanceDelta o None)) s
  | JBalanceAdd a n => on_obj a (fun o =>
      match balanceDelta o with Some d => Ok (set_balanceDelta o (Some (d + n))) | None => Panic end) s
  | JBalanceSub a n => on_obj a (fun o =>
      match balanceDelta o with Some d => Ok (set_balanceDelta o (Some (d - n))) | None => Panic end) s
  | JFakeBalance a old => on_obj a (fun o => Ok (set_fakeBalance o old)) s
  | JNonce a old => on_obj a (fun o => Ok (set_nonce o old)) s
  | JCode a old => on_obj a (fun o => Ok (set_code o old)) s
  | JDirtySet a k old => on_obj a (fun o => Ok (set_dirty o (<[k := old]> (dirty o)))) s
  | JDirtyDelete a k => on_obj a (fun o => Ok (set_dirty o (delete k (dirty o)))) s
  | JDirty a old => on_obj a (fun o => Ok (set_dirty o old)) s
  | JUnsuicide a => on_obj a (fun o => Ok (set_suicided o false)) s
  | JCreate a prev => Ok (set_state s (<[a := prev]> (state s)))
  | JRefund old => Ok (set_refund s old)
  | JTransient a k old =>
    match transient s !! a with
    | None => Panic
    | Some m => Ok (set_transient s (<[a := <[k := old]> m]> (transient s)))
    end
  | JDeleteAddress a => Ok (set_accessList s (DeleteAddress (sdb_accessList s) a))
  | JDeleteSlot a k =>
    al ← DeleteSlot (sdb_accessList s) a k;
    Ok (set_accessList s al)
  end.

(** The entries of [l], last first. *)
Fixpoint undo (l : list journalEntry) (s : stateDB) : result stateDB :=
  match l with
  | [] => Ok s
  | e :: l' => s ← undo l' s; revert_entry e s
  end.

Definition Snapshot : SDB Z := st_gets (fun s => zlen (journal s)).

Definition RevertToSnapshot (snap : Z) : SDB unit := fun s =>
  if (0 <=? snap) && (snap <=? zlen (journal s)) then
    s' ← undo (drop (Z.to_nat snap) (journal s)) s;
    Ok (tt, set_journal s' (take (Z.to_nat snap) (journal s')))
  else Panic.

(** ** Whole-database operations *)
Definition stateDB_Copy (s : stateDB) : stateDB :=
  mkDB (journal s) (stateObject_copy <$> state s) (transient s) (chainid s) (refund s)
    (accessList_Copy (sdb_accessList s)) false.
Definition ALCalcCopy (s : stateDB) : stateDB := set_alcalc (stateDB_Copy s) true.
Definition Finalise (s : stateDB) : stateDB :=
  mkDB (journal s) (finalise <$> state s) ∅ (chainid s) 0 newAccessList (alcalc s).

(** [AddLog] is a placeholder that drops the log. *)
Definition AddLog {A} (log : A) : SDB unit := mret tt.
End StateDB.
