(* ===== verification/StateProofs.v ===== *)
(** The journal of the state database undoes what was done.

    States are compared by what they hold once caches are filled ([⊑]).  [ext]
    relates the state before and after some work: the journal grew by entries
    that, run in reverse on the later state (with any further caching), give a
    state that holds what the earlier one held.  Every operation extends, hence
    so does every composition of operations, and [RevertToSnapshot] goes back
    to the snapshot. *)
From Stdlib Require Import ZArith Lia.
From stdpp Require Import base numbers list gmap.
From S2P Require Import Prelude Math Params Rlp Host AccessList State StateDB.
Local Open Scope Z_scope.

Section Proofs.
Context {H : Host}.

(** ** What an object holds *)
Definition eff_account (c : Z) (o : stateObject) : option Account :=
  if deleted o then account o
  else match account o with Some a => Some a | None => storedAccount c (so_address o) end.

Definition loadedCode (c : Z) (a : option Account) : codeEntry :=
  match a with
  | None => mkCode [] emptyCode
  | Some a => if decide (CodeHash a = Hash_Bytes emptyCode) then mkCode [] emptyCode
              else mkCode (default [] (tx_get (AccountCode c (CodeHash a)))) (bytesToHash (CodeHash a))
  end.

(** An entry as it is after its hash has been asked for. *)
Definition hashed (e : codeEntry) : codeEntry := snd (codeEntry_getHash e).
Lemma hashed_hashed e : hashed (hashed e) = hashed e.
Proof.
  destruct e as [b h]. unfold hashed, codeEntry_getHash. simpl.
  destruct (Z.eqb_spec h 0) as [->|]; simpl; [done|]. by destruct (_ =? 0).
Qed.

Lemma hashed_code e : ce_code (hashed e) = ce_code e.
Proof. unfold hashed, codeEntry_getHash. by destruct (negb _). Qed.

Definition eff_code (c : Z) (o : stateObject) : option codeEntry :=
  match code o with
  | Some e => Some (hashed e)
  | None => if deleted o then None else Some (hashed (loadedCode c (eff_account c o)))
  end.

Definition eff_clean (c : Z) (o : stateObject) (k : Z) : Z :=
  match clean o !! k with
  | Some v => v
  | None => default 0 (storedSlot c (so_address o) k)
  end.

(** [o'] holds what [o] holds, and has loaded at least what [o] has. *)
Record oeq (c : Z) (o o' : stateObject) : Prop := {
  oeq_address : so_address o = so_address o';
  oeq_delta : balanceDelta o = balanceDelta o';
  oeq_dirty : dirty o = dirty o';
  oeq_created : created o = created o';
  oeq_suicided : suicided o = suicided o';
  oeq_deleted : deleted o = deleted o';
  oeq_nonce : nonce o = nonce o';
  oeq_fake : fakeBalance o = fakeBalance o';
  oeq_account : eff_account c o = eff_account c o';
  oeq_loaded : is_Some (account o) -> is_Some (account o');
  oeq_code : eff_code c o = eff_code c o';
  oeq_clean k : eff_clean c o k = eff_clean c o' k
}.

#[export] Instance oeq_preorder c : PreOrder (oeq c).
Proof.
  split.
  - by constructor.
  - intros o1 o2 o3 [] []. constructor; eauto; etransitivity; eauto.
Qed.

(** ** What a database holds *)
Definition obj (s : stateDB) (a : Z) : stateObject := default (newObject a) (state s !! a).
Definition tslot (s : stateDB) (a k : Z) : Z := default 0 (default ∅ (transient s !! a) !! k).

Record sle (s t : stateDB) : Prop := {
  sle_chainid : chainid s = chainid t;
  sle_refund : refund s = refund t;
  sle_al : sdb_accessList s = sdb_accessList t;
  sle_alcalc : alcalc s = alcalc t;
  sle_obj a : oeq (chainid s) (obj s a) (obj t a);
  sle_tslot a k : tslot s a k = tslot t a k;
  sle_tdom a : is_Some (transient s !! a) -> is_Some (transient t !! a)
}.
Infix "⊑" := sle.

#[export] Instance sle_preorder : PreOrder sle.
Proof.
  split.
  - by constructor.
  - intros s t u H1 H2. constructor.
    1-4: (etransitivity; [apply H1|apply H2]).
    + intros a. etransitivity; [apply (sle_obj _ _ H1)|]. rewrite (sle_chainid _ _ H1). apply (sle_obj _ _ H2).
    + intros a k. by rewrite (sle_tslot _ _ H1), (sle_tslot _ _ H2).
    + intros a Ha. by apply (sle_tdom _ _ H2), (sle_tdom _ _ H1).
Qed.

Record wf_db (s : stateDB) : Prop := {
  wf_addr a o : state s !! a = Some o -> so_address o = a;
  wf_list : wf_al (sdb_accessList s);
  wf_refund : is_u64 (refund s)
}.

Lemma obj_address s a : wf_db s -> so_address (obj s a) = a.
Proof. intros [Hw _ _]. unfold obj. destruct (state s !! a) eqn:E; [by apply Hw|done]. Qed.

Definition ext (s1 s2 : stateDB) : Prop :=
  wf_db s1 ->
  wf_db s2 /\
  exists new, journal s2 = journal s1 ++ new /\
    forall t, s2 ⊑ t -> exists t', undo new t = Ok t' /\ s1 ⊑ t' /\
      journal t' = journal t /\ (wf_db t -> wf_db t').

Lemma undo_app l1 l2 s : undo (l1 ++ l2) s = (s ← undo l2 s; undo l1 s).
Proof.
  induction l1 as [|e l1 IH]; simpl.
  - by destruct (undo l2 s).
  - rewrite IH. unfold mbind, result_bind. by destruct (undo l2 s).
Qed.

#[export] Instance ext_preorder : PreOrder ext.
Proof.
  split.
  - intros s Hw. split; [done|]. exists []. rewrite app_nil_r. split; [done|]. intros t Ht. exists t. done.
  - intros s1 s2 s3 H12 H23 Hw. destruct (H12 Hw) as (W2 & n1 & J1 & U1).
    destruct (H23 W2) as (W3 & n2 & J2 & U2). split; [done|].
    exists (n1 ++ n2). rewrite app_assoc, <- J1. split; [done|]. intros t Ht.
    destruct (U2 t Ht) as (t2 & E2 & L2 & K2 & X2). destruct (U1 t2 L2) as (t1 & E1 & L1 & K1 & X1).
    exists t1. rewrite undo_app, E2. split_and!; [done|done|congruence|auto].
Qed.

(** A change of caches alone. *)
Lemma ext_cache s1 s2 :
  (wf_db s1 -> wf_db s2) -> journal s1 = journal s2 -> s1 ⊑ s2 -> ext s1 s2.
Proof.
  intros Hw HJ HL W. split; [auto|]. exists []. rewrite app_nil_r. split; [done|].
  intros t Ht. exists t. split_and!; try done. by etransitivity.
Qed.

(** ** Single objects *)
Lemma obj_set s a o b : obj (set_state s (<[a := o]> (state s))) b = if decide (a = b) then o else obj s b.
Proof.
  unfold obj. simpl. case_decide as E; [subst; by rewrite lookup_insert_eq|].
  by rewrite lookup_insert_ne.
Qed.

Lemma sle_set_l s t a o :
  s ⊑ t -> oeq (chainid s) o (obj t a) -> set_state s (<[a := o]> (state s)) ⊑ t.
Proof.
  intros HL Ho. constructor; try apply HL. intros b. rewrite obj_set. simpl.
  case_decide; [by subst|apply HL].
Qed.
Lemma sle_set_r s t a o :
  s ⊑ t -> oeq (chainid s) (obj s a) o -> s ⊑ set_state t (<[a := o]> (state t)).
Proof.
  intros HL Ho. constructor; try apply HL. intros b. rewrite obj_set. simpl.
  case_decide; [by subst|apply HL].
Qed.

Lemma getAccount_eq a s :
  getAccount a s = Ok (obj s a, match state s !! a with
                                | Some _ => s
                                | None => set_state s (<[a := newObject a]> (state s))
                                end).
Proof. unfold getAccount, obj. by destruct (state s !! a). Qed.

(** After writing the object back, it makes no difference whether
    [getAccount] had to create it. *)
Lemma getAccount_put a o s s' :
  getAccount a s = Ok (obj s a, s') ->
  set_state s' (<[a := o]> (state s')) = set_state s (<[a := o]> (state s)).
Proof.
  rewrite getAccount_eq. intros [= <-]. destruct (state s !! a); [done|].
  destruct s; unfold set_state; simpl. by rewrite insert_insert_eq.
Qed.

Lemma getAccount_fields a s s' :
  getAccount a s = Ok (obj s a, s') ->
  journal s' = journal s /\ transient s' = transient s /\ chainid s' = chainid s /\
  refund s' = refund s /\ sdb_accessList s' = sdb_accessList s /\ alcalc s' = alcalc s /\
  (forall b, obj s' b = obj s b).
Proof.
  rewrite getAccount_eq. intros [= <-]. destruct (state s !! a) eqn:E; [done|].
  split_and!; try done. intros b. rewrite obj_set. case_decide; [|done]. subst.
  unfold obj. by rewrite E.
Qed.

Lemma wf_set s a o : wf_db s -> so_address o = a -> wf_db (set_state s (<[a := o]> (state s))).
Proof.
  intros [Hw Hl Hr] Ho. split; [|done|done]. intros b o'. simpl. rewrite lookup_insert_Some.
  intros [[<- <-]|[_ Hb]]; eauto.
Qed.

(** ** Reading methods fill caches *)
Definition caches {A} (f : Z -> stateObject -> A * stateObject) : Prop :=
  forall c o, oeq c o (snd (f c o)).

Lemma read_obj_inv {A} a (f : Z -> stateObject -> A * stateObject) s x s' :
  read_obj a f s = Ok (x, s') ->
  x = fst (f (chainid s) (obj s a)) /\
  s' = set_state s (<[a := snd (f (chainid s) (obj s a))]> (state s)).
Proof.
  unfold read_obj, mbind, ST_bind. destruct (getAccount a s) as [[o s0]| |] eqn:E; try done.
  assert (o = obj s a) as -> by (rewrite getAccount_eq in E; congruence).
  unfold st_gets. destruct (getAccount_fields a s s0 E) as (_ & _ & -> & _).
  destruct (f (chainid s) (obj s a)) as [y o'] eqn:Ef. cbn. intros [= <- <-]. split; [done|].
  by apply getAccount_put.
Qed.

Lemma ext_read {A} a (f : Z -> stateObject -> A * stateObject) :
  caches f -> st_rel ext (read_obj a f).
Proof.
  intros Hf s x s' (-> & ->)%read_obj_inv. pose proof (Hf (chainid s) (obj s a)) as Ho.
  apply ext_cache; [|done|].
  - intros W. apply wf_set; [done|]. rewrite <- (oeq_address _ _ _ Ho). by apply obj_address.
  - by apply sle_set_r.
Qed.

Lemma caches_loadAccount : caches loadAccount.
Proof.
  intros c o. unfold loadAccount. destruct (deleted o) eqn:D; [done|].
  destruct (account o) eqn:A; [done|]. destruct (storedAccount c (so_address o)) eqn:S; [|done].
  simpl. constructor; try done.
  - unfold eff_account. simpl. by rewrite D, A.
  - unfold eff_code, eff_account. simpl. by rewrite D, A, S.
Qed.

Lemma loadAccount_true c o o' : loadAccount c o = (true, o') -> account o' = eff_account c o /\ deleted o = false.
Proof.
  unfold loadAccount, eff_account. destruct (deleted o); [done|].
  destruct (account o) eqn:A; [by intros [= <-]|].
  destruct (storedAccount c (so_address o)) eqn:S; by intros [= <-].
Qed.
Lemma loadAccount_false c o o' : loadAccount c o = (false, o') -> o' = o /\ (deleted o = false -> eff_account c o = None).
Proof.
  unfold loadAccount, eff_account. destruct (deleted o); [by intros [= <-]|].
  destruct (account o) eqn:A; [done|]. by destruct (storedAccount c (so_address o)) eqn:S; intros [= <-].
Qed.

(** Filling the code cache with the code that would be loaded. *)
Lemma oeq_set_code c o e :
  eff_code c o = Some (hashed e) -> oeq c o (set_code o (Some e)).
Proof. intros E. constructor; done. Qed.

Lemma caches_loadCode : caches loadCode.
Proof.
  intros c o. unfold loadCode. destruct (deleted o) eqn:D; [done|].
  destruct (code o) eqn:C; [done|].
  pose proof (caches_loadAccount c o) as HA.
  destruct (loadAccount c o) as [ok o1] eqn:L. cbn [snd] in HA.
  assert (E : eff_code c o1 = Some (hashed (loadedCode c (eff_account c o))))
    by (rewrite <- (oeq_code _ _ _ HA); unfold eff_code; by rewrite C, D).
  destruct ok.
  - destruct (loadAccount_true _ _ _ L) as [-> _].
    destruct (eff_account c o) as [a|]; simpl in *; [case_decide|];
      (etransitivity; [exact HA|]; by apply oeq_set_code).
  - destruct (loadAccount_false _ _ _ L) as [-> En]. rewrite En in E by done.
    simpl in *. by apply oeq_set_code.
Qed.

Lemma caches_getNonce : caches getNonce.
Proof.
  intros c o. unfold getNonce. destruct (nonce o); [done|].
  pose proof (caches_loadAccount c o). by destruct (loadAccount c o).
Qed.

Lemma caches_getCode : caches getCode.
Proof.
  intros c o. unfold getCode. pose proof (caches_loadCode c o). by destruct (loadCode c o).
Qed.

Lemma caches_getCodeHash : caches getCodeHash.
Proof.
  intros c o. unfold getCodeHash. destruct (account o); [done|].
  pose proof (caches_loadCode c o) as HC. destruct (loadCode c o) as [[] o1]; [|done]. cbn [snd] in HC.
  destruct (code o1) as [e|] eqn:E; [|done]. destruct (codeEntry_getHash e) as [h e'] eqn:Eh.
  assert (e' = hashed e) as -> by (unfold hashed; by rewrite Eh). cbn [snd].
  etransitivity; [exact HC|]. apply oeq_set_code. unfold eff_code. by rewrite E, hashed_hashed.
Qed.

Lemma caches_getCommittedState k : caches (fun c o => getCommittedState c k o).
Proof.
  intros c o. unfold getCommittedState. destruct (clean o !! k) eqn:C; [done|].
  destruct (storedSlot c (so_address o) k) eqn:S; [|done]. constructor; try done.
  intros k'. unfold eff_clean. simpl. destruct (decide (k = k')) as [<-|].
  - by rewrite lookup_insert_eq, C, S.
  - by rewrite lookup_insert_ne.
Qed.

Lemma caches_getState k : caches (fun c o => getState c k o).
Proof.
  intros c o. unfold getState. destruct (dirty o !! k); [done|]. apply caches_getCommittedState.
Qed.

Lemma caches_empty : caches empty.
Proof.
  intros c o. unfold empty. pose proof (caches_getNonce c o) as HN.
  destruct (getNonce c o) as [n o1]. cbn [snd] in HN. destruct (n =? 0); [|done].
  destruct (getBalance o1 =? 0); [|done]. etransitivity; [exact HN|].
  pose proof (caches_getCodeHash c o1). by destruct (getCodeHash c o1).
Qed.

(** ** Writing methods come with their undo *)
Definition undoes (f : stateObject -> stateObject * journalEntry) : Prop :=
  forall c o, let '(o', e) := f o in
    so_address o' = so_address o /\
    exists g, (forall s, revert_entry e s = on_obj (so_address o) g s) /\
      forall p, oeq c o' p -> exists q, g p = Ok q /\ oeq c o q.

Lemma on_obj_ok a g s q :
  g (obj s a) = Ok q -> on_obj a g s = Ok (set_state s (<[a := q]> (state s))).
Proof.
  intros E. unfold on_obj. rewrite getAccount_eq. unfold mbind, result_bind. rewrite E. f_equal.
  apply getAccount_put. apply getAccount_eq.
Qed.

Lemma write_obj_inv a f s x s' :
  write_obj a f s = Ok (x, s') ->
  s' = set_journal (set_state s (<[a := fst (f (obj s a))]> (state s)))
         (journal s ++ [snd (f (obj s a))]).
Proof.
  unfold write_obj, mbind, ST_bind. destruct (getAccount a s) as [[o s0]| |] eqn:E; try done.
  assert (o = obj s a) as -> by (rewrite getAccount_eq in E; congruence).
  pose proof (getAccount_put a (fst (f (obj s a))) s s0 E) as EP.
  destruct (getAccount_fields a s s0 E) as (EJ & _).
  destruct (f (obj s a)) as [o' e] eqn:Ef. cbn in *. intros [= <- <-].
  rewrite <- EP, EJ. done.
Qed.

Lemma write_obj_eq a f s :
  write_obj a f s = Ok (tt, set_journal (set_state s (<[a := fst (f (obj s a))]> (state s)))
                              (journal s ++ [snd (f (obj s a))])).
Proof.
  destruct (write_obj a f s) as [[[] s']| |] eqn:Ew; [by rewrite (write_obj_inv a f s _ _ Ew)|exfalso..];
    unfold write_obj, mbind, ST_bind in Ew; rewrite getAccount_eq in Ew; cbn in Ew; by destruct (f (obj s a)).
Qed.

Lemma sle_journal_l s t l : s ⊑ t -> set_journal s l ⊑ t.
Proof. intros []. by constructor. Qed.
Lemma sle_journal_l' s t l : set_journal s l ⊑ t -> s ⊑ t.
Proof. intros []. by constructor. Qed.
Lemma sle_journal_r s t l : s ⊑ t -> s ⊑ set_journal t l.
Proof. intros []. by constructor. Qed.
Lemma wf_journal s l : wf_db s -> wf_db (set_journal s l).
Proof. intros []. by split. Qed.

(** Replacing an object and journalling one entry that restores it. *)
Lemma ext_replace s a o e g :
  (wf_db s -> so_address o = a) ->
  (forall t, revert_entry e t = on_obj a g t) ->
  (wf_db s -> forall p, oeq (chainid s) o p ->
     exists q, g p = Ok q /\ oeq (chainid s) (obj s a) q) ->
  ext s (set_journal (set_state s (<[a := o]> (state s))) (journal s ++ [e])).
Proof.
  intros Ha He Hg W. split; [by apply wf_journal, wf_set; auto|]. exists [e]. split; [done|].
  intros t Ht. apply sle_journal_l' in Ht.
  pose proof (sle_obj _ _ Ht a) as Ho. rewrite obj_set, decide_True in Ho by done.
  destruct (Hg W _ Ho) as (q & Eq & Oq). simpl. rewrite He, (on_obj_ok _ _ _ q Eq).
  eexists; split; [done|]. split_and!; [|done|].
  - constructor; try apply Ht. intros b. rewrite obj_set. case_decide as Eb; [by subst|].
    pose proof (sle_obj _ _ Ht b) as Hb. by rewrite obj_set, decide_False in Hb.
  - intros Wt. apply wf_set; [done|]. rewrite <- (oeq_address _ _ _ Oq). by apply obj_address.
Qed.

Lemma ext_write a f : undoes f -> st_rel ext (write_obj a f).
Proof.
  intros Hf s x s' ->%write_obj_inv W.
  pose proof (Hf (chainid s) (obj s a)) as Hu. destruct (f (obj s a)) as [o e]. cbn [fst snd] in *.
  rewrite (obj_address s a W) in Hu. destruct Hu as (Ha & g & He & Hg).
  exact (ext_replace s a o e g (fun _ => Ha) He (fun _ => Hg) W).
Qed.

Lemma undoes_subBalance n : undoes (fun o => subBalance o n).
Proof.
  intros c o. unfold subBalance. destruct (balanceDelta o) as [d|] eqn:D; (split; [done|]).
  - eexists; split; [reflexivity|]. intros p Hp. cbn beta. rewrite <- (oeq_delta _ _ _ Hp). simpl.
    eexists; split; [reflexivity|]. destruct Hp. constructor; simpl in *; try done.
    rewrite D. f_equal. lia.
  - eexists; split; [reflexivity|]. intros p Hp.
    eexists; split; [reflexivity|]. destruct Hp. by constructor; simpl in *.
Qed.

Lemma undoes_addBalance n : undoes (fun o => addBalance o n).
Proof.
  intros c o. unfold addBalance. destruct (balanceDelta o) as [d|] eqn:D; (split; [done|]).
  - eexists; split; [reflexivity|]. intros p Hp. cbn beta. rewrite <- (oeq_delta _ _ _ Hp). simpl.
    eexists; split; [reflexivity|]. destruct Hp. constructor; simpl in *; try done.
    rewrite D. f_equal. lia.
  - eexists; split; [reflexivity|]. intros p Hp.
    eexists; split; [reflexivity|]. destruct Hp. by constructor; simpl in *.
Qed.

Lemma undoes_setBalance n : undoes (fun o => setBalance o n).
Proof.
  intros c o. split; [done|]. eexists; split; [reflexivity|]. intros p Hp.
  eexists; split; [reflexivity|]. destruct Hp. by constructor; simpl in *.
Qed.

Lemma undoes_setNonce n : undoes (fun o => setNonce o n).
Proof.
  intros c o. split; [done|]. eexists; split; [reflexivity|]. intros p Hp.
  eexists; split; [reflexivity|]. destruct Hp. by constructor; simpl in *.
Qed.

Lemma undoes_setCode n : undoes (fun o => setCode o n).
Proof.
  intros c o. split; [done|]. eexists; split; [reflexivity|]. intros p Hp.
  eexists; split; [reflexivity|]. destruct Hp as [? ? ? ? ? Hd ? ? Ha ? ? ?].
  constructor; simpl in *; try done.
  unfold eff_code; simpl. destruct (code o); [done|]. rewrite <- Hd. destruct (deleted o) eqn:D; [done|].
  do 3 f_equal. exact Ha.
Qed.

Lemma undoes_setState k v : undoes (fun o => setState o k v).
Proof.
  intros c o. unfold setState. destruct (dirty o !! k) as [old|] eqn:D; (split; [done|]);
    (eexists; split; [reflexivity|]); intros p Hp; (eexists; split; [reflexivity|]);
    destruct Hp as [? ? Hd]; constructor; simpl in *; try done; rewrite <- Hd.
  - by rewrite insert_insert_eq, insert_id.
  - by rewrite delete_insert_id.
Qed.

Lemma undoes_setStorage m : undoes (fun o => setStorage o m).
Proof.
  intros c o. split; [done|]. eexists; split; [reflexivity|]. intros p Hp.
  eexists; split; [reflexivity|]. destruct Hp. by constructor; simpl in *.
Qed.

Lemma revert_create a prev t : revert_entry (JCreate a prev) t = on_obj a (fun _ => Ok prev) t.
Proof. by rewrite (on_obj_ok a _ t prev). Qed.

Lemma CreateAccount_inv a s x s' :
  CreateAccount a s = Ok (x, s') ->
  exists o prev, so_address o = a /\ oeq (chainid s) (obj s a) prev /\
    s' = set_journal (set_state s (<[a := o]> (state s))) (journal s ++ [JCreate a prev]).
Proof.
  unfold CreateAccount, mbind, ST_bind. destruct (getAccount a s) as [[o s0]| |] eqn:E; try done.
  assert (o = obj s a) as -> by (rewrite getAccount_eq in E; congruence).
  destruct (getAccount_fields a s s0 E) as (EJ & _ & EC & _). unfold st_gets. rewrite EC.
  assert (Hput : forall o' e, put_obj a o' (set_journal s0 (journal s0 ++ [e])) =
      Ok (tt, set_journal (set_state s (<[a := o']> (state s))) (journal s ++ [e]))).
  { intros o' e. rewrite <- (getAccount_put a o' s s0 E), EJ. done. }
  destruct (negb (deleted (obj s a)) && negb (suicided (obj s a))).
  - pose proof (caches_loadAccount (chainid s) (obj s a)) as HC.
    destruct (loadAccount (chainid s) (obj s a)) as [ok prev]. cbn [snd] in HC.
    unfold push_journal, st_modify. cbn -[put_obj]. rewrite Hput. intros [= <- <-].
    do 2 eexists. split_and!; [|exact HC|reflexivity]. by destruct ok.
  - unfold push_journal, st_modify. cbn -[put_obj]. rewrite Hput. intros [= <- <-].
    do 2 eexists. split_and!; [|reflexivity|reflexivity]. done.
Qed.

Lemma ext_CreateAccount a : st_rel ext (CreateAccount a).
Proof.
  intros s x s' (o & prev & Ha & Hp & ->)%CreateAccount_inv.
  eapply ext_replace; [done|apply revert_create|]. intros _ p _. by eexists.
Qed.

Lemma ext_getAccount a : st_rel ext (getAccount a).
Proof.
  intros s o s' E. assert (o = obj s a) as -> by (rewrite getAccount_eq in E; congruence).
  destruct (getAccount_fields a s s' E) as (EJ & ET & EC & ER & EL & EA & EO).
  apply ext_cache; [|done|].
  - rewrite getAccount_eq in E. injection E as <-. destruct (state s !! a); [done|].
    intros W. by apply wf_set.
  - constructor; try done.
    + intros b. by rewrite EO.
    + intros b k. unfold tslot. by rewrite ET.
    + by rewrite ET.
Qed.

Lemma Suicide_inv a s x s' :
  Suicide a s = Ok (x, s') ->
  s' = set_state s (<[a := obj s a]> (state s)) \/
  suicided (obj s a) = false /\
  s' = set_journal (set_state s (<[a := set_suicided (obj s a) true]> (state s)))
         (journal s ++ [JUnsuicide (so_address (obj s a))]).
Proof.
  unfold Suicide, mbind, ST_bind. destruct (getAccount a s) as [[o s0]| |] eqn:E; try done.
  assert (o = obj s a) as -> by (rewrite getAccount_eq in E; congruence).
  destruct (getAccount_fields a s s0 E) as (EJ & _).
  unfold suicide. destruct (suicided (obj s a)) eqn:ES; [|destruct (deleted (obj s a))]; cbn; intros [= <- <-].
  - left. by apply getAccount_put.
  - left. by apply getAccount_put.
  - right. split; [done|]. by rewrite <- (getAccount_put a _ s s0 E), EJ.
Qed.

Lemma ext_Suicide a : st_rel ext (Suicide a).
Proof.
  intros s x s' [->|[ES ->]]%Suicide_inv W.
  - revert W. apply ext_cache; [intros W; apply wf_set; [done|by apply obj_address]|done|].
    by apply sle_set_r.
  - rewrite (obj_address s a W). revert W. eapply ext_replace.
    + by apply obj_address.
    + reflexivity.
    + intros _ p Hp. eexists; split; [reflexivity|]. destruct Hp. by constructor; simpl in *.
Qed.

(** One journal entry for a change outside the objects. *)
Lemma ext_entry s s1 e :
  (wf_db s -> wf_db s1) -> journal s1 = journal s ->
  (wf_db s -> forall t, s1 ⊑ t -> exists t', revert_entry e t = Ok t' /\ s ⊑ t' /\
     journal t' = journal t /\ (wf_db t -> wf_db t')) ->
  ext s (set_journal s1 (journal s1 ++ [e])).
Proof.
  intros Hw HJ Hu W. split; [by apply wf_journal, Hw|]. exists [e]. simpl. rewrite HJ. split; [done|].
  intros t Ht%sle_journal_l'. exact (Hu W t Ht).
Qed.

Lemma ext_refund f : (forall r, is_u64 (f r)) -> st_rel ext (old ← st_gets refund; _ ← st_modify (fun s => set_refund s (f (refund s)));
                                 push_journal (JRefund old)).
Proof.
  intros Hf s x s' [= <- <-]. refine (ext_entry s (set_refund s (f (refund s))) _ _ _ _).
  - intros []. split; [done|done|apply Hf].
  - done.
  - intros [] t Ht. eexists; split; [reflexivity|]. split_and!; [|done|intros []; by split].
    constructor; try apply Ht; done.
Qed.

Lemma ext_SetTransientState a k v : st_rel ext (SetTransientState a k v).
Proof.
  intros s x s' [= <- <-].
  set (m := default ∅ (transient s !! a)).
  refine (ext_entry s (set_transient s (<[a := <[k := v]> m]> (transient s))) _ _ _ _).
  - intros []. by split.
  - done.
  - intros _ t Ht. simpl.
    destruct (sle_tdom _ _ Ht a) as [mt Emt]; [simpl; rewrite lookup_insert_eq; eauto|].
    rewrite Emt. eexists; split; [reflexivity|]. split_and!; [|done|intros []; by split].
    constructor; try apply Ht; simpl.
    + intros b k'. pose proof (sle_tslot _ _ Ht b k') as Hs. unfold tslot in *. simpl in *.
      destruct (decide (a = b)) as [<-|].
      * rewrite lookup_insert_eq in *. simpl in *. rewrite Emt in Hs. simpl in Hs. fold m.
        destruct (decide (k = k')) as [<-|].
        -- by rewrite lookup_insert_eq.
        -- by rewrite lookup_insert_ne in * by done.
      * by rewrite lookup_insert_ne in * by done.
    + intros b Hb. destruct (decide (a = b)) as [<-|].
      * rewrite lookup_insert_eq. eauto.
      * rewrite lookup_insert_ne by done. apply (sle_tdom _ _ Ht). simpl. by rewrite lookup_insert_ne.
Qed.

Lemma sle_set_al s t l : set_accessList s l ⊑ t -> l = sdb_accessList t /\ s ⊑ set_accessList t (sdb_accessList s).
Proof. intros Ht. split; [apply Ht|]. by constructor; try apply Ht. Qed.

Lemma wf_set_al s l : wf_al l -> wf_db s -> wf_db (set_accessList s l).
Proof. intros Hl []. by split. Qed.

Lemma set_accessList_id s : set_accessList s (sdb_accessList s) = s.
Proof. by destruct s. Qed.

Lemma ext_AddAddressToAccessList a : st_rel ext (AddAddressToAccessList a).
Proof.
  intros s x s'. unfold AddAddressToAccessList, mbind, ST_bind, st_gets.
  destruct (AddAddress (sdb_accessList s) a) as [ch al] eqn:E. destruct ch; cbn; intros [= <- <-].
  - refine (ext_entry s (set_accessList s al) _ _ _ _); [|done|].
    + intros W. apply wf_set_al; [|done]. eapply wf_AddAddress; [apply W|done].
    + intros W t [-> Ht]%sle_set_al. eexists; split; [reflexivity|].
      rewrite (AddAddress_undo _ _ _ E). split_and!; [done|done|].
      intros Wt. apply wf_set_al; [apply W|done].
  - assert (al = sdb_accessList s) as -> by (unfold AddAddress in E; case_match; congruence).
    rewrite set_accessList_id. reflexivity.
Qed.

Lemma ext_AddSlotToAccessList a k : st_rel ext (AddSlotToAccessList a k).
Proof.
  intros s x s'. unfold AddSlotToAccessList, mbind, ST_bind, st_gets, st_lift.
  destruct (AddSlot (sdb_accessList s) a k) as [[[ca cs] al]| |] eqn:E; try done.
  intros Hs W. destruct (AddSlot_ok _ a k (wf_list _ W)) as (ca' & cs' & al' & E' & Wal & _).
  rewrite E in E'. injection E' as <- <- <-.
  destruct (AddSlot_undo _ _ _ _ _ _ (wf_list _ W) E) as [Hno Hyes].
  destruct cs.
  - destruct (Hyes eq_refl) as (al1 & ED & EA).
    assert (W1 : wf_db (set_accessList s al)) by (by apply wf_set_al).
    destruct ca; cbn in Hs; injection Hs as <- <-; (split; [by repeat apply wf_journal|]).
    + exists [JDeleteAddress a; JDeleteSlot a k]. simpl. rewrite <- app_assoc. split; [done|].
      intros t [-> Ht]%sle_journal_l'%sle_journal_l'%sle_set_al. rewrite ED. simpl. rewrite EA.
      eexists; split; [reflexivity|]. split_and!; [done|done|]. intros Wt. apply (wf_set_al t); [apply W|done].
    + exists [JDeleteSlot a k]. simpl. split; [done|].
      intros t [-> Ht]%sle_journal_l'%sle_set_al. rewrite ED. simpl. rewrite EA.
      eexists; split; [reflexivity|]. split_and!; [done|done|]. intros Wt. apply wf_set_al; [apply W|done].
  - destruct (Hno eq_refl) as [-> ->]. cbn in Hs. injection Hs as <- <-.
    rewrite set_accessList_id. exact (reflexivity (R := ext) s W).
Qed.

(** ** Every operation extends *)
Lemma ext_GetBalance a : st_rel ext (GetBalance a).
Proof.
  apply ext_read. intros c o. pose proof (caches_loadAccount c o). by destruct (loadAccount c o).
Qed.
Lemma ext_GetNonce a : st_rel ext (GetNonce a).
Proof. apply ext_read, caches_getNonce. Qed.
Lemma ext_GetCodeHash a : st_rel ext (GetCodeHash a).
Proof. apply ext_read, caches_getCodeHash. Qed.
Lemma ext_GetCode a : st_rel ext (GetCode a).
Proof. apply ext_read, caches_getCode. Qed.
Lemma ext_GetCodeSize a : st_rel ext (GetCodeSize a).
Proof. apply st_rel_bind; [tc_solve|apply ext_GetCode|intros ?; apply st_rel_ret; tc_solve]. Qed.
Lemma ext_GetCommittedState a k : st_rel ext (GetCommittedState a k).
Proof. apply ext_read, caches_getCommittedState. Qed.
Lemma ext_GetState a k : st_rel ext (GetState a k).
Proof. apply ext_read, caches_getState. Qed.
Lemma ext_Exist a : st_rel ext (Exist a).
Proof.
  apply ext_read. intros c o. destruct (deleted o); [done|].
  pose proof (caches_empty c o). by destruct (empty c o).
Qed.
Lemma ext_Empty a : st_rel ext (Empty a).
Proof. apply ext_read. intros c o. destruct (_ || _); [done|]. apply caches_empty. Qed.

Lemma ext_SubBalance a n : st_rel ext (SubBalance a n).
Proof. apply st_rel_if; [apply st_rel_ret; tc_solve|apply ext_write, undoes_subBalance]. Qed.
Lemma ext_AddBalance a n : st_rel ext (AddBalance a n).
Proof. apply st_rel_if; [apply st_rel_ret; tc_solve|apply ext_write, undoes_addBalance]. Qed.
Lemma ext_SetNonce a n : st_rel ext (SetNonce a n).
Proof. apply ext_write, undoes_setNonce. Qed.
Lemma ext_SetCode a c : st_rel ext (SetCode a c).
Proof. apply ext_write, undoes_setCode. Qed.
Lemma ext_SetState a k v : st_rel ext (SetState a k v).
Proof. apply ext_write, undoes_setState. Qed.
Lemma ext_SetStorage a m : st_rel ext (SetStorage a m).
Proof. apply ext_write, undoes_setStorage. Qed.
Lemma ext_SetBalance a n : st_rel ext (SetBalance a n).
Proof. apply ext_write, undoes_setBalance. Qed.
Lemma ext_AddRefund n : st_rel ext (AddRefund n).
Proof. apply (ext_refund (fun r => u64 (r + n))). intros. apply u64_range. Qed.
Lemma ext_SubRefund n : st_rel ext (SubRefund n).
Proof. apply (ext_refund (fun r => u64 (r - n))). intros. apply u64_range. Qed.
End Proofs.

#[export] Hint Resolve ext_getAccount ext_CreateAccount ext_GetBalance ext_GetNonce ext_GetCodeHash
  ext_GetCode ext_GetCodeSize ext_GetCommittedState ext_GetState ext_Exist ext_Empty ext_SubBalance
  ext_AddBalance ext_SetNonce ext_SetCode ext_SetState ext_SetStorage ext_SetBalance ext_AddRefund
  ext_SubRefund ext_Suicide ext_SetTransientState ext_AddAddressToAccessList
  ext_AddSlotToAccessList : strel.

Infix "⊑" := sle (at level 70).

Section Composed.
Context {H : Host}.

Ltac ext_solve := repeat (strel_step; simpl); try solve [eauto with strel].

Lemma ext_GetRefund : st_rel ext GetRefund.
Proof. apply st_rel_gets. tc_solve. Qed.
Lemma ext_GetTransientState a k : st_rel ext (GetTransientState a k).
Proof. unfold GetTransientState. ext_solve. Qed.
Lemma ext_SelfDestruct6780 a : st_rel ext (SelfDestruct6780 a).
Proof. unfold SelfDestruct6780. ext_solve. Qed.
Lemma ext_HasSuicided a : st_rel ext (HasSuicided a).
Proof. unfold HasSuicided. ext_solve. Qed.
Lemma ext_AddressInAccessList a : st_rel ext (AddressInAccessList a).
Proof. unfold AddressInAccessList. ext_solve. Qed.
Lemma ext_SlotInAccessList a k : st_rel ext (SlotInAccessList a k).
Proof. unfold SlotInAccessList. ext_solve. Qed.
Lemma ext_forM_ {A} (l : list A) body : (forall x, st_rel ext (body x)) -> st_rel ext (forM_ l body).
Proof. intros Hb. induction l as [|x l IH]; simpl; ext_solve. Qed.
Lemma ext_PrepareAccessList r s c d p l : st_rel ext (PrepareAccessList r s c d p l).
Proof.
  unfold PrepareAccessList. ext_solve; apply ext_forM_; [intros; eauto with strel|].
  intros [adr ks]. ext_solve. apply ext_forM_. eauto with strel.
Qed.

(** ** Snapshots *)

(** Reverting to the length the journal had in [s1]. *)
Lemma RevertToSnapshot_ext s1 s2 :
  wf_db s1 -> ext s1 s2 ->
  exists s3, RevertToSnapshot (zlen (journal s1)) s2 = Ok (tt, s3) /\
    s1 ⊑ s3 /\ journal s3 = journal s1 /\ wf_db s3.
Proof.
  intros W X. destruct (X W) as (W2 & new & EJ & U). unfold RevertToSnapshot.
  destruct (U s2) as (t & Et & Lt & Jt & Wt); [reflexivity|].
  rewrite EJ, zlen_app. pose proof (zlen_nonneg new). pose proof (zlen_nonneg (journal s1)).
  destruct (Z.leb_spec 0 (zlen (journal s1))); [|lia].
  destruct (Z.leb_spec (zlen (journal s1)) (zlen (journal s1) + zlen new)); [|lia]. cbn [andb].
  unfold zlen. rewrite Nat2Z.id, drop_app_length, Et. eexists; split; [reflexivity|].
  rewrite Jt, EJ, take_app_length. split_and!; [|done|].
  - destruct Lt. by constructor.
  - destruct (Wt W2). by split.
Qed.

(** A revert is itself an extension of the state at the snapshot. *)
Lemma ext_of_sle s1 s3 : wf_db s3 -> journal s3 = journal s1 -> s1 ⊑ s3 -> ext s1 s3.
Proof. intros W E L. by apply ext_cache. Qed.
End Composed.
#[export] Hint Resolve ext_GetRefund ext_GetTransientState ext_SelfDestruct6780 ext_HasSuicided
  ext_AddressInAccessList ext_SlotInAccessList ext_forM_ ext_PrepareAccessList : strel.

(** ** Reads are functions of what the database holds *)
Definition answer {A} (m : SDB A) (s : stateDB) : result A := '(a, _) ← m s; Ok a.

Section Reads.
Context {H : Host}.

Lemma answer_read {A} a (f : Z -> stateObject -> A * stateObject) s :
  answer (read_obj a f) s = Ok (fst (f (chainid s) (obj s a))).
Proof.
  unfold answer. destruct (read_obj a f s) as [[x s']| |] eqn:E.
  - apply read_obj_inv in E as [-> _]. done.
  - unfold read_obj, mbind, ST_bind in E. rewrite getAccount_eq in E. cbn in E. by destruct (f _ _).
  - unfold read_obj, mbind, ST_bind in E. rewrite getAccount_eq in E. cbn in E. by destruct (f _ _).
Qed.

(** Balance, nonce and code an object stands for. *)
Definition held_balance (c : Z) (o : stateObject) : Z :=
  if deleted o then 0 else
  match eff_account c o with
  | None => 0
  | Some a => default 0 (balanceDelta o)
              + default 0 (match fakeBalance o with Some b => Some b | None => Balance a end)
  end.
Definition held_nonce (c : Z) (o : stateObject) : Z :=
  match nonce o with
  | Some n => n
  | None => if deleted o then 0 else match eff_account c o with Some a => Nonce a | None => 0 end
  end.
Definition held_code (c : Z) (o : stateObject) : bytes :=
  if deleted o then [] else default [] (ce_code <$> eff_code c o).
Definition held_hash (c : Z) (o : stateObject) : Z :=
  match account o with
  | Some a => bytesToHash (CodeHash a)
  | None => if deleted o then emptyCode else default emptyCode (ce_hash <$> eff_code c o)
  end.

(** The hash of the code is read from the account once that is loaded, from
    the code before: it does not depend on what is loaded when the two agree. *)
Definition hash_settled (c : Z) (o : stateObject) : Prop :=
  is_Some (account o) \/ deleted o = true \/
  forall a, eff_account c o = Some a -> ce_hash <$> eff_code c o = Some (bytesToHash (CodeHash a)).

(** [empty] takes the balance of an account that is not loaded for zero; this
    matters only where a nonce of zero was set without loading it. *)
Definition empty_settled (c : Z) (o : stateObject) : Prop :=
  is_Some (account o) \/ deleted o = true \/ eff_account c o = None \/ nonce o <> Some 0.

Lemma loadAccount_cases c o :
  loadAccount c o =
    if deleted o then (false, o)
    else match eff_account c o with Some a => (true, set_account o (Some a)) | None => (false, o) end.
Proof.
  unfold loadAccount, eff_account. destruct (deleted o); [done|].
  destruct (account o) eqn:A; [|done]. rewrite <- A. by destruct o.
Qed.

Lemma GetBalance_held a s : answer (GetBalance a) s = Ok (held_balance (chainid s) (obj s a)).
Proof.
  unfold GetBalance. rewrite answer_read, loadAccount_cases. unfold held_balance.
  destruct (deleted _); [done|]. by destruct (eff_account _ _).
Qed.

(** An account that is loaded or in storage, and not deleted. *)
Definition account_exists (s : stateDB) (a : Z) : Prop :=
  deleted (obj s a) = false /\ is_Some (eff_account (chainid s) (obj s a)).

(** Crediting an account, as later reads of balances see it: the credit of an
    account that is neither loaded nor in storage is not seen. *)
Lemma AddBalance_reads a n s : exists s', AddBalance a n s = Ok (tt, s') /\
  forall b, answer (GetBalance b) s' =
    if decide (a = b)
    then Ok (match (if deleted (obj s a) then None else eff_account (chainid s) (obj s a)) with
             | Some _ => held_balance (chainid s) (obj s a) + n
             | None => 0
             end)
    else answer (GetBalance b) s.
Proof.
  unfold AddBalance. destruct (Z.eqb_spec (Z.sgn n) 0) as [Hn|Hn].
  - exists s. split; [done|]. intros b. case_decide as Eb; [subst b|done]. rewrite GetBalance_held.
    assert (n = 0) as -> by (destruct n; done). f_equal. unfold held_balance.
    destruct (deleted _); [done|]. destruct (eff_account _ _); lia.
  - eexists. split; [apply write_obj_eq|]. intros b. rewrite !GetBalance_held. cbn [chainid set_journal].
    change (obj (set_journal ?x ?y) b) with (obj x b). rewrite obj_set.
    destruct (decide (a = b)) as [<-|]; [|done]. f_equal. unfold addBalance.
    assert (forall d, eff_account (chainid s) (set_balanceDelta (obj s a) d) = eff_account (chainid s) (obj s a)) as He by done.
    destruct (balanceDelta (obj s a)) as [d|] eqn:Ed; unfold held_balance; cbn [fst chainid set_state]; rewrite He; simpl;
      (destruct (deleted (obj s a)); [done|]); (destruct (eff_account _ _); [|done]); rewrite ?Ed; simpl; lia.
Qed.

Lemma GetNonce_held a s : answer (GetNonce a) s = Ok (held_nonce (chainid s) (obj s a)).
Proof.
  unfold GetNonce. rewrite answer_read. unfold getNonce, held_nonce. destruct (nonce _); [done|].
  rewrite loadAccount_cases. destruct (deleted _); [done|]. by destruct (eff_account _ _).
Qed.

Lemma GetCode_held a s : answer (GetCode a) s = Ok (held_code (chainid s) (obj s a)).
Proof.
  unfold GetCode. rewrite answer_read. unfold getCode, loadCode, held_code, eff_code.
  destruct (deleted _) eqn:D; [done|]. destruct (code (obj s a)) as [e|] eqn:C.
  - simpl. by rewrite C, hashed_code.
  - rewrite loadAccount_cases, D. destruct (eff_account _ _) as [ac|]; simpl;
      [case_decide|]; by rewrite ?C, hashed_code.
Qed.

Lemma GetCodeSize_held a s : answer (GetCodeSize a) s = Ok (zlen (held_code (chainid s) (obj s a))).
Proof.
  pose proof (GetCode_held a s) as Hc. unfold answer, GetCodeSize, mbind, ST_bind, result_bind in *.
  destruct (GetCode a s) as [[x s']| |]; try done. by injection Hc as ->.
Qed.

Lemma getCodeHash_held c o : fst (getCodeHash c o) = held_hash c o.
Proof.
  unfold getCodeHash, held_hash, eff_code. destruct (account o) eqn:A; [done|].
  unfold loadCode. destruct (deleted o) eqn:D; [done|]. destruct (code o) as [e|] eqn:C.
  - rewrite C. unfold hashed, codeEntry_getHash. by destruct (negb _).
  - rewrite loadAccount_cases, D. destruct (eff_account c o) as [a|]; simpl; [case_decide|];
      unfold hashed, codeEntry_getHash; simpl; by destruct (negb _).
Qed.

Lemma held_hash_oeq c o o' : oeq c o o' -> hash_settled c o -> held_hash c o = held_hash c o'.
Proof.
  intros Ho Hs. pose proof (oeq_account _ _ _ Ho) as Ea. unfold held_hash, hash_settled, eff_account in *.
  rewrite <- (oeq_deleted _ _ _ Ho), <- (oeq_code _ _ _ Ho) in *. pose proof (oeq_loaded _ _ _ Ho) as Hl.
  destruct (account o) as [a|], (account o') as [a'|], (deleted o); simplify_eq; try done;
    try (by destruct Hl as [? ?]).
  destruct Hs as [[? ?]|[?|Hs]]; [done..|]. by rewrite (Hs a' Ea).
Qed.

(** What [empty] answers, account by account. *)
Lemma empty_oeq c o o' :
  oeq c o o' -> empty_settled c o -> deleted o = false -> fst (empty c o) = fst (empty c o').
Proof.
  intros Ho Hs Hd. pose proof (oeq_deleted _ _ _ Ho) as Hd'. pose proof (oeq_account _ _ _ Ho) as Ea.
  assert (forall p n, deleted p = false -> nonce p = n -> fst (empty c p) =
    match n, eff_account c p with
    | Some n, _ => (n =? 0) && (getBalance p =? 0) && (held_hash c p =? emptyCode)
    | None, Some a => (Nonce a =? 0) && (getBalance (set_account p (Some a)) =? 0) && (bytesToHash (CodeHash a) =? emptyCode)
    | None, None => (getBalance p =? 0) && (held_hash c p =? emptyCode)
    end) as He.
  { intros p n Hp Hn. unfold empty, getNonce. rewrite Hn, loadAccount_cases, Hp. destruct n as [n|].
    - pose proof (getCodeHash_held c p) as Hh. destruct (n =? 0), (getBalance p =? 0); try done.
      destruct (getCodeHash c p). cbn in *. by rewrite Hh.
    - destruct (eff_account c p) as [a|].
      + cbn [set_account account]. destruct (Nonce a =? 0), (getBalance _ =? 0); done.
      + pose proof (getCodeHash_held c p) as Hh. cbn [fst]. destruct (getBalance p =? 0); try done.
        destruct (getCodeHash c p). cbn in *. by rewrite Hh. }
  rewrite (He o _ Hd eq_refl), (He o' _ (eq_trans (eq_sym Hd') Hd) eq_refl).
  rewrite <- (oeq_nonce _ _ _ Ho), <- Ea.
  assert (account o = account o' -> getBalance o = getBalance o' /\ held_hash c o = held_hash c o') as Hacc.
  { intros Eacc. unfold getBalance, held_hash. rewrite <- Eacc.
    by rewrite (oeq_delta _ _ _ Ho), (oeq_fake _ _ _ Ho), Hd', (oeq_code _ _ _ Ho). }
  unfold empty_settled, eff_account in *. rewrite Hd in *. rewrite <- Hd' in *. pose proof (oeq_loaded _ _ _ Ho) as Hl.
  destruct (nonce o) as [n|] eqn:En.
  - destruct (Z.eqb_spec n 0) as [->|]; [|done]. cbn [andb].
    assert (account o = account o') as Eacc; [|by destruct (Hacc Eacc) as [-> ->]].
    destruct Hs as [Hs|[?|[Hs|?]]]; try done.
    + destruct Hs as [a Eo]. rewrite Eo in *. destruct (Hl ltac:(eauto)) as [a' Eo']. rewrite Eo' in *. congruence.
    + destruct (account o), (account o'); simplify_eq; congruence.
  - destruct (match account o with Some a => Some a | None => storedAccount c (so_address o) end) as [a|] eqn:Eo.
    + unfold getBalance. cbn. by rewrite (oeq_delta _ _ _ Ho), (oeq_fake _ _ _ Ho).
    + assert (account o = account o') as Eacc; [|by destruct (Hacc Eacc) as [-> ->]].
      destruct (account o), (account o'); congruence.
Qed.

Lemma GetCommittedState_held a k s :
  answer (GetCommittedState a k) s = Ok (eff_clean (chainid s) (obj s a) (slotKey k)).
Proof.
  unfold GetCommittedState. rewrite answer_read. unfold getCommittedState, eff_clean.
  destruct (clean _ !! _); [done|]. by destruct (storedSlot _ _ _).
Qed.

Lemma GetState_held a k s :
  answer (GetState a k) s =
    Ok (match dirty (obj s a) !! slotKey k with
        | Some v => v | None => eff_clean (chainid s) (obj s a) (slotKey k) end).
Proof.
  unfold GetState. rewrite answer_read. unfold getState. destruct (dirty _ !! _); [done|].
  pose proof (GetCommittedState_held a k s) as HC. unfold GetCommittedState in HC.
  by rewrite answer_read in HC.
Qed.

Lemma GetTransientState_held a k s : answer (GetTransientState a k) s = Ok (tslot s a k).
Proof. unfold answer, GetTransientState, tslot, mbind, ST_bind. cbn. by destruct (transient s !! a). Qed.

Lemma HasSuicided_held a s : answer (HasSuicided a) s = Ok (suicided (obj s a)).
Proof. unfold answer, HasSuicided, mbind, ST_bind. by rewrite getAccount_eq. Qed.

(** The reads of the interface that answer in [s] from what the database
    holds: all of them, but for the hash of the code and the two tests of
    existence of an account on which a write went past what is loaded. *)
Inductive sdb_read (s : stateDB) : forall {A}, SDB A -> Prop :=
| RBalance a : sdb_read s (GetBalance a)
| RNonce a : sdb_read s (GetNonce a)
| RCode a : sdb_read s (GetCode a)
| RCodeSize a : sdb_read s (GetCodeSize a)
| RCodeHash a : hash_settled (chainid s) (obj s a) -> sdb_read s (GetCodeHash a)
| RCommitted a k : sdb_read s (GetCommittedState a k)
| RState a k : sdb_read s (GetState a k)
| RTransient a k : sdb_read s (GetTransientState a k)
| RRefund : sdb_read s GetRefund
| RSuicided a : sdb_read s (HasSuicided a)
| RExist a : empty_settled (chainid s) (obj s a) -> sdb_read s (Exist a)
| REmpty a : empty_settled (chainid s) (obj s a) -> sdb_read s (Empty a)
| RAddress a : sdb_read s (AddressInAccessList a)
| RSlot a k : sdb_read s (SlotInAccessList a k).

Lemma held_oeq c o o' : oeq c o o' ->
  held_balance c o = held_balance c o' /\ held_nonce c o = held_nonce c o' /\ held_code c o = held_code c o'.
Proof.
  intros Ho. unfold held_balance, held_nonce, held_code.
  by rewrite (oeq_deleted _ _ _ Ho), (oeq_account _ _ _ Ho), (oeq_delta _ _ _ Ho), (oeq_fake _ _ _ Ho),
    (oeq_nonce _ _ _ Ho), (oeq_code _ _ _ Ho).
Qed.

Lemma exist_oeq c o o' : oeq c o o' -> empty_settled c o ->
  fst (if deleted o then (false, o) else let '(e, o) := empty c o in (negb e, o)) =
    fst (if deleted o' then (false, o') else let '(e, o') := empty c o' in (negb e, o')) /\
  fst (if deleted o || suicided o then (true, o) else empty c o) =
    fst (if deleted o' || suicided o' then (true, o') else empty c o').
Proof.
  intros Ho Hs. rewrite <- (oeq_deleted _ _ _ Ho), <- (oeq_suicided _ _ _ Ho).
  destruct (deleted o) eqn:D; [done|]. pose proof (empty_oeq c o o' Ho Hs D) as He.
  destruct (empty c o), (empty c o'). cbn in *. subst. by destruct (suicided o).
Qed.

Lemma sdb_read_sle {A} (m : SDB A) s t : sdb_read s m -> s ⊑ t -> answer m s = answer m t.
Proof.
  intros Hm [Hc Hr Ha Hl Ho Ht _]. destruct Hm as [a|a|a|a|a Hs|a k|a k|a k| |a|a Hs|a Hs|a|a k];
    try destruct (held_oeq _ _ _ (Ho a)) as (Eb & En & Ec).
  - by rewrite !GetBalance_held, <- Hc, Eb.
  - by rewrite !GetNonce_held, <- Hc, En.
  - by rewrite !GetCode_held, <- Hc, Ec.
  - by rewrite !GetCodeSize_held, <- Hc, Ec.
  - unfold GetCodeHash. rewrite !answer_read, !getCodeHash_held, <- Hc. f_equal. by apply held_hash_oeq.
  - rewrite !GetCommittedState_held, <- Hc. f_equal. apply (Ho a).
  - rewrite !GetState_held, <- Hc. by rewrite (oeq_dirty _ _ _ (Ho a)), (oeq_clean _ _ _ (Ho a)).
  - by rewrite !GetTransientState_held, Ht.
  - unfold answer, GetRefund, st_gets. cbn. by rewrite Hr.
  - rewrite !HasSuicided_held. f_equal. apply (Ho a).
  - unfold Exist. rewrite !answer_read, <- Hc. f_equal. by apply exist_oeq.
  - unfold Empty. rewrite !answer_read, <- Hc. f_equal. by apply exist_oeq.
  - unfold answer, AddressInAccessList, mbind, ST_bind, st_gets. cbn. by rewrite Ha, Hl.
  - unfold answer, SlotInAccessList, mbind, ST_bind, st_gets, st_lift. cbn. rewrite Ha, Hl.
    destruct (alcalc t); [done|]. by destruct (Contains _ _ _).
Qed.

(** The operations of the database as data. *)
Inductive sdb_op :=
| OpCreateAccount (a : Z) | OpSubBalance (a n : Z) | OpAddBalance (a n : Z)
| OpSetNonce (a n : Z) | OpSetCode (a : Z) (c : bytes) | OpSetState (a k v : Z)
| OpSetTransientState (a k v : Z) | OpSetStorage (a : Z) (m : Storage) | OpSetBalance (a n : Z)
| OpAddRefund (n : Z) | OpSubRefund (n : Z) | OpSuicide (a : Z) | OpSelfDestruct6780 (a : Z)
| OpAddAddress (a : Z) | OpAddSlot (a k : Z)
| OpGetBalance (a : Z) | OpGetNonce (a : Z) | OpGetCode (a : Z) | OpGetCodeHash (a : Z)
| OpGetState (a k : Z) | OpGetCommittedState (a k : Z) | OpExist (a : Z) | OpEmpty (a : Z).

Definition discard {A} (m : SDB A) : SDB unit := _ ← m; mret tt.
Definition run_op (op : sdb_op) : SDB unit :=
  match op with
  | OpCreateAccount a => CreateAccount a
  | OpSubBalance a n => SubBalance a n
  | OpAddBalance a n => AddBalance a n
  | OpSetNonce a n => SetNonce a n
  | OpSetCode a c => SetCode a c
  | OpSetState a k v => SetState a k v
  | OpSetTransientState a k v => SetTransientState a k v
  | OpSetStorage a m => SetStorage a m
  | OpSetBalance a n => SetBalance a n
  | OpAddRefund n => AddRefund n
  | OpSubRefund n => SubRefund n
  | OpSuicide a => discard (Suicide a)
  | OpSelfDestruct6780 a => SelfDestruct6780 a
  | OpAddAddress a => AddAddressToAccessList a
  | OpAddSlot a k => AddSlotToAccessList a k
  | OpGetBalance a => discard (GetBalance a)
  | OpGetNonce a => discard (GetNonce a)
  | OpGetCode a => discard (GetCode a)
  | OpGetCodeHash a => discard (GetCodeHash a)
  | OpGetState a k => discard (GetState a k)
  | OpGetCommittedState a k => discard (GetCommittedState a k)
  | OpExist a => discard (Exist a)
  | OpEmpty a => discard (Empty a)
  end.

Lemma ext_run_op op : st_rel ext (run_op op).
Proof. destruct op; simpl; unfold discard; repeat strel_step; eauto with strel. Qed.

Lemma wf_NewStateDB c : wf_db (NewStateDB c).
Proof. split; [intros a o; simpl; by rewrite lookup_empty|apply wf_newAccessList|done]. Qed.

(** C4: whatever operations ran since a snapshot, reverting to it succeeds, the
    journal is the one of the snapshot, and every read method answers as it did
    at the snapshot.  For [GetCodeHash] this holds of the accounts that at
    the snapshot were loaded, deleted, absent from storage, or had the same hash
    in account and code ([hash_settled]), for [Exist] and [Empty] of those that
    were loaded, deleted, absent from storage, or had not had their nonce set to
    zero ([empty_settled]). *)
Theorem RevertToSnapshot_restores (ops : list sdb_op) s s' :
  wf_db s -> forM_ ops run_op s = Ok (tt, s') ->
  exists s2, RevertToSnapshot (zlen (journal s)) s' = Ok (tt, s2) /\
    journal s2 = journal s /\
    forall A (m : SDB A), sdb_read s m -> answer m s2 = answer m s.
Proof.
  intros W E. apply (ext_forM_ ops run_op ext_run_op) in E.
  destruct (RevertToSnapshot_ext s s' W E) as (s2 & ER & L & J & _).
  exists s2. split_and!; [done|done|]. intros A m Hm. symmetry. by apply sdb_read_sle.
Qed.
End Reads.

Lemma RevertToSnapshot_restores_witness :
  exists s s2, RevertToSnapshot 0 s = Ok (tt, s2) /\ journal s2 = [] /\
    forall A (m : SDB A), @sdb_read host_demo (NewStateDB 1) A m -> answer m s2 = answer m (NewStateDB 1).
Proof.
  eexists.
  refine (@RevertToSnapshot_restores host_demo
    [OpCreateAccount 1; OpAddBalance 1 5; OpSetState 1 2 3; OpAddSlot 1 2; OpSuicide 1]
    (NewStateDB 1) _ _ _).
  - apply wf_NewStateDB.
  - vm_compute. reflexivity.
Defined.
