(* ===== verification/VmErrors.v ===== *)
(** The execution errors of [vm/errors.go], the errors of a precompiled
    contract as one constructor with a code, and the reentrancy sentry of the
    SSTORE gas functions. *)
From stdpp Require Import base numbers.

Inductive vmerror :=
| ErrOutOfGas
| ErrCodeStoreOutOfGas
| ErrDepth
| ErrInsufficientBalance
| ErrContractAddressCollision
| ErrExecutionReverted
| ErrMaxCodeSizeExceeded
| ErrMaxInitCodeSizeExceeded
| ErrInvalidJump
| ErrWriteProtection
| ErrReturnDataOutOfBounds
| ErrGasUintOverflow
| ErrInvalidCode
| errStopToken
| ErrStackUnderflow (stackLen required : Z)
| ErrStackOverflow (stackLen limit : Z)
| ErrInvalidOpCode (opcode : Z)
| errSentry
| errPrecompile (code : Z).

#[global] Instance vmerror_eq_dec : EqDecision vmerror.
Proof. solve_decision. Defined.
