(* ===== verification/Precompiles.v ===== *)
(** The precompiled contracts of [vm/contracts.go]: the table of every fork,
    the price of every contract, and the contracts whose work is done in the
    repository ([dataCopy], [bigModExp]) or is a wrapper around a hash.  The
    elliptic-curve and pairing libraries are the parameter [Crypto]. *)
From Stdlib Require Import ZArith Lia.
From stdpp Require Import base numbers list.
From S2P Require Import Prelude Math Params VmErrors.
Local Open Scope Z_scope.

(** The Go types that implement [PrecompiledContract]. *)
Inductive PrecompiledContract :=
| ecrecover
| sha256hash
| ripemd160hash
| dataCopy
| bigModExp (eip2565 eip7823 eip7883 : bool)
| bn256AddByzantium
| bn256AddIstanbul
| bn256ScalarMulByzantium
| bn256ScalarMulIstanbul
| bn256PairingByzantium
| bn256PairingIstanbul
| blake2F
| kzgPointEvaluation
| bls12381G1Add
| bls12381G1MultiExp
| bls12381G2Add
| bls12381G2MultiExp
| bls12381Pairing
| bls12381MapG1
| bls12381MapG2
| p256Verify (gas : Z).

(** ** The tables *)
Definition PTable : Type := list (Z * PrecompiledContract).

Definition PrecompiledContractsHomestead : PTable :=
  [(BytesToAddress [1], ecrecover);
   (BytesToAddress [2], sha256hash);
   (BytesToAddress [3], ripemd160hash);
   (BytesToAddress [4], dataCopy)].

Definition PrecompiledContractsByzantium : PTable :=
  [(BytesToAddress [1], ecrecover);
   (BytesToAddress [2], sha256hash);
   (BytesToAddress [3], ripemd160hash);
   (BytesToAddress [4], dataCopy);
   (BytesToAddress [5], bigModExp false false false);
   (BytesToAddress [6], bn256AddByzantium);
   (BytesToAddress [7], bn256ScalarMulByzantium);
   (BytesToAddress [8], bn256PairingByzantium)].

Definition PrecompiledContractsIstanbul : PTable :=
  [(BytesToAddress [1], ecrecover);
   (BytesToAddress [2], sha256hash);
   (BytesToAddress [3], ripemd160hash);
   (BytesToAddress [4], dataCopy);
   (BytesToAddress [5], bigModExp false false false);
   (BytesToAddress [6], bn256AddIstanbul);
   (BytesToAddress [7], bn256ScalarMulIstanbul);
   (BytesToAddress [8], bn256PairingIstanbul);
   (BytesToAddress [9], blake2F)].

Definition PrecompiledContractsBerlin : PTable :=
  [(BytesToAddress [1], ecrecover);
   (BytesToAddress [2], sha256hash);
   (BytesToAddress [3], ripemd160hash);
   (BytesToAddress [4], dataCopy);
   (BytesToAddress [5], bigModExp true false false);
   (BytesToAddress [6], bn256AddIstanbul);
   (BytesToAddress [7], bn256ScalarMulIstanbul);
   (BytesToAddress [8], bn256PairingIstanbul);
   (BytesToAddress [9], blake2F)].

Definition PrecompiledContractsCancun : PTable :=
  [(BytesToAddress [1], ecrecover);
   (BytesToAddress [2], sha256hash);
   (BytesToAddress [3], ripemd160hash);
   (BytesToAddress [4], dataCopy);
   (BytesToAddress [5], bigModExp true false false);
   (BytesToAddress [6], bn256AddIstanbul);
   (BytesToAddress [7], bn256ScalarMulIstanbul);
   (BytesToAddress [8], bn256PairingIstanbul);
   (BytesToAddress [9], blake2F);
   (BytesToAddress [10], kzgPointEvaluation)].

Definition PrecompiledContractsNapoli : PTable :=
  [(BytesToAddress [1], ecrecover);
   (BytesToAddress [2], sha256hash);
   (BytesToAddress [3], ripemd160hash);
   (BytesToAddress [4], dataCopy);
   (BytesToAddress [5], bigModExp true false false);
   (BytesToAddress [6], bn256AddIstanbul);
   (BytesToAddress [7], bn256ScalarMulIstanbul);
   (BytesToAddress [8], bn256PairingIstanbul);
   (BytesToAddress [9], blake2F);
   (BytesToAddress [10], kzgPointEvaluation);
   (BytesToAddress [0x01; 0x00], p256Verify 3450)].

Definition PrecompiledContractsPrague : PTable :=
  [(BytesToAddress [1], ecrecover);
   (BytesToAddress [2], sha256hash);
   (BytesToAddress [3], ripemd160hash);
   (BytesToAddress [4], dataCopy);
   (BytesToAddress [5], bigModExp true false false);
   (BytesToAddress [6], bn256AddIstanbul);
   (BytesToAddress [7], bn256ScalarMulIstanbul);
   (BytesToAddress [8], bn256PairingIstanbul);
   (BytesToAddress [9], blake2F);
   (BytesToAddress [0x0a], kzgPointEvaluation);
   (BytesToAddress [0x0b], bls12381G1Add);
   (BytesToAddress [0x0c], bls12381G1MultiExp);
   (BytesToAddress [0x0d], bls12381G2Add);
   (BytesToAddress [0x0e], bls12381G2MultiExp);
   (BytesToAddress [0x0f], bls12381Pairing);
   (BytesToAddress [0x10], bls12381MapG1);
   (BytesToAddress [0x11], bls12381MapG2)].

Definition PrecompiledContractsNapoliPrague : PTable :=
  [(BytesToAddress [1], ecrecover);
   (BytesToAddress [2], sha256hash);
   (BytesToAddress [3], ripemd160hash);
   (BytesToAddress [4], dataCopy);
   (BytesToAddress [5], bigModExp true false false);
   (BytesToAddress [6], bn256AddIstanbul);
   (BytesToAddress [7], bn256ScalarMulIstanbul);
   (BytesToAddress [8], bn256PairingIstanbul);
   (BytesToAddress [9], blake2F);
   (BytesToAddress [0x0a], kzgPointEvaluation);
   (BytesToAddress [0x0b], bls12381G1Add);
   (BytesToAddress [0x0c], bls12381G1MultiExp);
   (BytesToAddress [0x0d], bls12381G2Add);
   (BytesToAddress [0x0e], bls12381G2MultiExp);
   (BytesToAddress [0x0f], bls12381Pairing);
   (BytesToAddress [0x10], bls12381MapG1);
   (BytesToAddress [0x11], bls12381MapG2);
   (BytesToAddress [0x01; 0x00], p256Verify 3450)].

Definition PrecompiledContractsOsaka : PTable :=
  [(BytesToAddress [1], ecrecover);
   (BytesToAddress [2], sha256hash);
   (BytesToAddress [3], ripemd160hash);
   (BytesToAddress [4], dataCopy);
   (BytesToAddress [5], bigModExp true true true);
   (BytesToAddress [6], bn256AddIstanbul);
   (BytesToAddress [7], bn256ScalarMulIstanbul);
   (BytesToAddress [8], bn256PairingIstanbul);
   (BytesToAddress [9], blake2F);
   (BytesToAddress [0x0a], kzgPointEvaluation);
   (BytesToAddress [0x0b], bls12381G1Add);
   (BytesToAddress [0x0c], bls12381G1MultiExp);
   (BytesToAddress [0x0d], bls12381G2Add);
   (BytesToAddress [0x0e], bls12381G2MultiExp);
   (BytesToAddress [0x0f], bls12381Pairing);
   (BytesToAddress [0x10], bls12381MapG1);
   (BytesToAddress [0x11], bls12381MapG2);
   (BytesToAddress [0x01; 0x00], p256Verify 6900)].

(** Go map lookup. *)
Fixpoint plookup (t : PTable) (addr : Z) : option PrecompiledContract :=
  match t with
  | [] => None
  | (a, p) :: t' => if a =? addr then Some p else plookup t' addr
  end.

(** The table [EVM.precompile] looks into. *)
Definition precompiles (r : Rules) : PTable :=
  if r_IsOsaka r then PrecompiledContractsOsaka
  else if r_IsPrague r && r_IsNapoli r then PrecompiledContractsNapoliPrague
  else if r_IsPrague r then PrecompiledContractsPrague
  else if r_IsNapoli r then PrecompiledContractsNapoli
  else if r_IsCancun r then PrecompiledContractsCancun
  else if r_IsBerlin r then PrecompiledContractsBerlin
  else if r_IsIstanbul r then PrecompiledContractsIstanbul
  else if r_IsByzantium r then PrecompiledContractsByzantium
  else PrecompiledContractsHomestead.

Definition precompile (r : Rules) (addr : Z) : option PrecompiledContract :=
  plookup (precompiles r) addr.

(** The address lists [init] fills by ranging over the tables. *)
Definition PrecompiledAddresses (t : PTable) : list Z := fst <$> t.

Definition ActivePrecompiles (rules : Rules) : list Z :=
  if r_IsOsaka rules then PrecompiledAddresses PrecompiledContractsOsaka
  else if r_IsPrague rules && r_IsNapoli rules then PrecompiledAddresses PrecompiledContractsNapoliPrague
  else if r_IsPrague rules then PrecompiledAddresses PrecompiledContractsPrague
  else if r_IsNapoli rules then PrecompiledAddresses PrecompiledContractsNapoli
  else if r_IsCancun rules then PrecompiledAddresses PrecompiledContractsCancun
  else if r_IsBerlin rules then PrecompiledAddresses PrecompiledContractsBerlin
  else if r_IsIstanbul rules then PrecompiledAddresses PrecompiledContractsIstanbul
  else if r_IsByzantium rules then PrecompiledAddresses PrecompiledContractsByzantium
  else PrecompiledAddresses PrecompiledContractsHomestead.

(** ** Prices *)

(** [uint64(len(input)+31)/32*perWord + base] *)
Definition wordsGas (input : bytes) (perWord base : Z) : Z :=
  u64 ((zlen input + 31) / 32 * perWord + base).

Definition big_BitLen (z : Z) : Z := if z =? 0 then 0 else Z.log2 (Z.abs z) + 1.

Definition modexpMultComplexity (x : Z) : Z :=
  if x <=? 64 then x * x
  else if x <=? 1024 then (x * x) / 4 + (96 * x - 3072)
  else (x * x) / 16 + (480 * x - 199680).

(** [max] of [contracts.go]. *)
Definition max (xs : list Z) : Z :=
  match xs with
  | [] => 0
  | m :: xs => fold_left (fun m v => if m <? v then v else m) xs m
  end.

(** The lengths of base, exponent and modulus, and the operands after them. *)
Definition modexpHeader (input : bytes) : result (Z * Z * Z * bytes) :=
  b ← getData input 0 32;
  e ← getData input 32 32;
  m ← getData input 64 32;
  Ok (be_val b, be_val e, be_val m, if 96 <? zlen input then drop 96 input else []).

Definition bigModExp_RequiredGas (eip2565 eip7883 : bool) (input : bytes) : result Z :=
  '(baseLen, expLen, modLen, input) ← modexpHeader input;
  expHead ← (if zlen input <=? baseLen then Ok 0
             else
               d ← getData input (u64 baseLen) (if 32 <? expLen then 32 else u64 expLen);
               Ok (be_val d));
  let bitlen := big_BitLen expHead in
  let msb := if 0 <? bitlen then bitlen - 1 else 0 in
  let adjExpLen :=
    (if 32 <? expLen then Z.shiftl (expLen - 32) (if eip7883 then 4 else 3) else 0) + msb in
  let gas := Z.max modLen baseLen in
  let maxLenOver32 := 32 <? gas in
  Ok (if eip2565 then
        let gas := (gas + 7) / 8 in
        let gas := gas * gas in
        let minPrice := if eip7883 then 500 else 200 in
        let gas := if eip7883 then (if maxLenOver32 then gas + gas else 16) else gas in
        let gas := if 1 <? adjExpLen then gas * adjExpLen else gas in
        let gas := if eip7883 then gas else gas / 3 in
        if 64 <? big_BitLen gas then MaxUint64 else max [minPrice; u64 gas]
      else
        let gas := modexpMultComplexity gas in
        let gas := gas * Z.max adjExpLen 1 in
        let gas := gas / 20 in
        if 64 <? big_BitLen gas then MaxUint64 else u64 gas).

Definition blake2FInputLength : Z := 213.

Definition blake2F_RequiredGas (input : bytes) : Z :=
  if negb (zlen input =? blake2FInputLength) then 0 else be_val (take 4 input) mod 2 ^ 32.

(** The discounted multi-exponentiation price; [table] is one of the two
    discount tables. *)
Definition multiExpGas (pairLen mulGas : Z) (table : list Z) (input : bytes) : result Z :=
  let k := zlen input / pairLen in
  if k =? 0 then Ok 0
  else
    let dLen := zlen table in
    discount ← index table (if k <? dLen then k - 1 else dLen - 1);
    Ok (u64 (k * mulGas * discount) / 1000).

Definition RequiredGas (p : PrecompiledContract) (input : bytes) : result Z :=
  match p with
  | ecrecover => Ok EcrecoverGas
  | sha256hash => Ok (wordsGas input Sha256PerWordGas Sha256BaseGas)
  | ripemd160hash => Ok (wordsGas input Ripemd160PerWordGas Ripemd160BaseGas)
  | dataCopy => Ok (wordsGas input IdentityPerWordGas IdentityBaseGas)
  | bigModExp eip2565 _ eip7883 => bigModExp_RequiredGas eip2565 eip7883 input
  | bn256AddByzantium => Ok Bn256AddGasByzantium
  | bn256AddIstanbul => Ok Bn256AddGasIstanbul
  | bn256ScalarMulByzantium => Ok Bn256ScalarMulGasByzantium
  | bn256ScalarMulIstanbul => Ok Bn256ScalarMulGasIstanbul
  | bn256PairingByzantium =>
      Ok (u64 (Bn256PairingBaseGasByzantium + zlen input / 192 * Bn256PairingPerPointGasByzantium))
  | bn256PairingIstanbul =>
      Ok (u64 (Bn256PairingBaseGasIstanbul + zlen input / 192 * Bn256PairingPerPointGasIstanbul))
  | blake2F => Ok (blake2F_RequiredGas input)
  | kzgPointEvaluation => Ok BlobTxPointEvaluationPrecompileGas
  | bls12381G1Add => Ok Bls12381G1AddGas
  | bls12381G1MultiExp => multiExpGas 160 Bls12381G1MulGas Bls12381G1MultiExpDiscountTable input
  | bls12381G2Add => Ok Bls12381G2AddGas
  | bls12381G2MultiExp => multiExpGas 288 Bls12381G2MulGas Bls12381G2MultiExpDiscountTable input
  | bls12381Pairing =>
      Ok (u64 (Bls12381PairingBaseGas + zlen input / 384 * Bls12381PairingPerPairGas))
  | bls12381MapG1 => Ok Bls12381MapG1Gas
  | bls12381MapG2 => Ok Bls12381MapG2Gas
  | p256Verify gas => Ok (u64 gas)
  end.

(** ** Running *)

(** The hash and curve libraries: the digests, and the whole [Run] of the
    contracts built on a curve or on the BLAKE2 compression. *)
Class Crypto : Type := {
  sha256_Sum256 : bytes -> bytes;
  ripemd160_Sum : bytes -> bytes;
  curve_Run : PrecompiledContract -> bytes -> bytes * option vmerror
}.

(** Modular exponentiation by squaring ([big.Int.Exp] with a modulus). *)
Definition mod_exp (base exp mod_ : Z) : Z :=
  match exp with
  | Zpos p => Pos.iter_op (fun a b => (a * b) mod mod_) p (base mod mod_)
  | _ => 1 mod mod_
  end.

(** [big.Int.Bytes]: no leading zeros. *)
Definition big_Bytes (z : Z) : bytes := be_bytes (Z.to_nat ((big_BitLen z + 7) / 8)) z.

Definition bigModExp_Run (eip7823 : bool) (input : bytes) : result (bytes * option vmerror) :=
  '(baseLen, expLen, modLen, input) ← modexpHeader input;
  let baseLen := u64 baseLen in
  let expLen := u64 expLen in
  let modLen := u64 modLen in
  if (baseLen =? 0) && (modLen =? 0) then Ok ([], None)
  else if eip7823 && (1024 <? max [baseLen; expLen; modLen]) then Ok ([], Some (errPrecompile 1))
  else
    base ← getData input 0 baseLen;
    exp ← getData input baseLen expLen;
    mod_ ← getData input (u64 (baseLen + expLen)) modLen;
    if big_BitLen (be_val mod_) =? 0 then Ok (LeftPadBytes [] (int64_of modLen), None)
    else Ok (LeftPadBytes (big_Bytes (mod_exp (be_val base) (be_val exp) (be_val mod_)))
               (int64_of modLen), None).

Section Run.
Context {C : Crypto}.

Definition precompile_Run (p : PrecompiledContract) (input : bytes) : result (bytes * option vmerror) :=
  match p with
  | sha256hash => Ok (sha256_Sum256 input, None)
  | ripemd160hash => Ok (LeftPadBytes (ripemd160_Sum input) 32, None)
  | dataCopy => Ok (input, None)
  | bigModExp _ eip7823 _ => bigModExp_Run eip7823 input
  | _ => Ok (curve_Run p input)
  end.

Definition RunPrecompiledContract (p : PrecompiledContract) (input : bytes) (suppliedGas : Z)
    : result (bytes * Z * option vmerror) :=
  gasCost ← RequiredGas p input;
  if suppliedGas <? gasCost then Ok ([], 0, Some ErrOutOfGas)
  else
    let suppliedGas := suppliedGas - gasCost in
    '(output, err) ← precompile_Run p input;
    Ok (output, suppliedGas, err).
End Run.

(** ** The active addresses *)
Lemma plookup_dom t addr : is_Some (plookup t addr) <-> addr ∈ PrecompiledAddresses t.
Proof.
  unfold PrecompiledAddresses. induction t as [|[a p] t IH]; simpl.
  - split; [by intros []|by intros ?%elem_of_nil].
  - rewrite elem_of_cons. destruct (Z.eqb_spec a addr) as [->|Hne]; [split; eauto|].
    rewrite IH. naive_solver.
Qed.

(** C23: under every set of fork rules, the addresses that a transaction warms as
    precompiles are exactly those at which the EVM finds a precompile. *)
Theorem ActivePrecompiles_precompile r addr : addr ∈ ActivePrecompiles r <-> is_Some (precompile r addr).
Proof.
  unfold precompile. rewrite plookup_dom. unfold ActivePrecompiles, precompiles. by repeat case_match.
Qed.
