(* ===== verification/Contract.v ===== *)
(** A call frame's contract: [vm/contract.go], and delegation designators
    ([types/tx_setcode.go]).

    A [ContractRef] is an [AccountRef] or another contract, of which the code
    uses the address, the caller's address and the value.  The map of shared
    JUMPDEST analyses is passed around as [jumpdests]. *)
From Stdlib Require Import ZArith Lia.
From stdpp Require Import base numbers list gmap.
From S2P Require Import Prelude U256 Math OpCodes Analysis.
Local Open Scope Z_scope.

Inductive ContractRef :=
| AccountRef (addr : Z)
| ContractOf (addr callerAddress : Z) (value : option Z).

Definition ContractRef_Address (c : ContractRef) : Z :=
  match c with AccountRef a => a | ContractOf a _ _ => a end.

Record Contract := mkContract {
  CallerAddress : Z;
  caller : ContractRef;
  self : ContractRef;
  analysis : option bytes;
  Code : bytes;
  CodeHash : Z;
  CodeAddr : option Z;
  Input : bytes;
  Gas : Z;
  c_value : option Z
}.

Definition set_Gas (c : Contract) (g : Z) : Contract :=
  mkContract (CallerAddress c) (caller c) (self c) (analysis c) (Code c) (CodeHash c) (CodeAddr c)
    (Input c) g (c_value c).
Definition set_Input (c : Contract) (i : bytes) : Contract :=
  mkContract (CallerAddress c) (caller c) (self c) (analysis c) (Code c) (CodeHash c) (CodeAddr c)
    i (Gas c) (c_value c).
Definition set_analysis (c : Contract) (a : option bytes) : Contract :=
  mkContract (CallerAddress c) (caller c) (self c) a (Code c) (CodeHash c) (CodeAddr c)
    (Input c) (Gas c) (c_value c).

Definition Contract_Address (c : Contract) : Z := ContractRef_Address (self c).

(** A contract as the caller of another frame. *)
Definition as_ref (c : Contract) : ContractRef :=
  ContractOf (Contract_Address c) (CallerAddress c) (c_value c).

(** The new contract, and whether it shares its caller's analyses. *)
Definition NewContract (caller object : ContractRef) (value : option Z) (gas : Z) : Contract * bool :=
  (mkContract (ContractRef_Address caller) caller object None [] 0 None [] gas value,
   match caller with ContractOf _ _ _ => true | AccountRef _ => false end).

(** The type assertion panics when the caller is not a contract. *)
Definition AsDelegate (c : Contract) : result Contract :=
  match caller c with
  | ContractOf _ parentCaller parentValue =>
    Ok (mkContract parentCaller (caller c) (self c) (analysis c) (Code c) (CodeHash c) (CodeAddr c)
          (Input c) (Gas c) parentValue)
  | AccountRef _ => Panic
  end.

Definition SetCallCode (c : Contract) (addr : option Z) (hash : Z) (code : bytes) : Contract :=
  mkContract (CallerAddress c) (caller c) (self c) (analysis c) code hash addr
    (Input c) (Gas c) (c_value c).

(** [codeAndHash] is its code and its hash (zero while not computed). *)
Definition SetCodeOptionalHash (c : Contract) (addr : option Z) (codeAndHash : bytes * Z) : Contract :=
  mkContract (CallerAddress c) (caller c) (self c) (analysis c) (fst codeAndHash) (snd codeAndHash)
    addr (Input c) (Gas c) (c_value c).

Definition GetOp (c : Contract) (n : Z) : Z :=
  if n <? zlen (Code c) then default STOP (Code c !! Z.to_nat n) else STOP.

Definition UseGas (c : Contract) (gas : Z) : bool * Contract :=
  if Gas c <? gas then (false, c) else (true, set_Gas c (Gas c - gas)).

(** The answer, the contract with its cached analysis, the shared map. *)
Definition isCode (c : Contract) (jumpdests : gmap Z bytes) (udest : Z)
    : result (bool * Contract * gmap Z bytes) :=
  match analysis c with
  | Some a =>
    b ← codeSegment a udest;
    Ok (b, c, jumpdests)
  | None =>
    if negb (CodeHash c =? 0) then
      '(a, jumpdests) ← match jumpdests !! CodeHash c with
                        | Some a => Ok (a, jumpdests)
                        | None =>
                          a ← codeBitmap (Code c);
                          Ok (a, <[CodeHash c := a]> jumpdests)
                        end;
      b ← codeSegment a udest;
      Ok (b, set_analysis c (Some a), jumpdests)
    else
      a ← codeBitmap (Code c);
      b ← codeSegment a udest;
      Ok (b, set_analysis c (Some a), jumpdests)
  end.

Definition validJumpdest {U : Uint256} (c : Contract) (jumpdests : gmap Z bytes) (dest : Z)
    : result (bool * Contract * gmap Z bytes) :=
  let '(udest, overflow) := u_Uint64WithOverflow dest in
  if overflow || (zlen (Code c) <=? udest) then Ok (false, c, jumpdests)
  else
    op ← index (Code c) udest;
    if negb (op =? JUMPDEST) then Ok (false, c, jumpdests)
    else isCode c jumpdests udest.

(** ** Delegation designators *)
Definition DelegationPrefix : bytes := [0xef; 0x01; 0x00].

Definition ParseDelegation (b : bytes) : option Z :=
  if negb (zlen b =? 23) || negb (bool_decide (take 3 b = DelegationPrefix)) then None
  else Some (BytesToAddress (drop 3 b)).

Definition AddressToDelegation (addr : Z) : bytes := DelegationPrefix ++ Address_Bytes addr.

(** C29: a delegation designator parses back to the address it was made for. *)
Theorem ParseDelegation_AddressToDelegation a :
  0 <= a < 2 ^ 160 -> ParseDelegation (AddressToDelegation a) = Some a.
Proof.
  intros Ha. unfold ParseDelegation, AddressToDelegation.
  rewrite zlen_app. change (zlen DelegationPrefix) with 3. unfold Address_Bytes.
  rewrite zlen_be_bytes. change (3 + Z.of_nat 20 =? 23) with true. cbn [negb orb].
  rewrite take_app_length' by done. rewrite bool_decide_eq_true_2 by done. cbn [negb orb].
  rewrite drop_app_length' by done. f_equal. by apply BytesToAddress_Bytes.
Qed.

(** ** Jump destinations

    The cached analysis of a contract, and the analyses shared under its code
    hash, are those of its code. *)
Definition jd_ok (c : Contract) (jumpdests : gmap Z bytes) : Prop :=
  (forall a, analysis c = Some a -> codeBitmap (Code c) = Ok a) /\
  (forall a, CodeHash c <> 0 -> jumpdests !! CodeHash c = Some a -> codeBitmap (Code c) = Ok a).

Section Jumpdest.
Context {U : Uint256} {UL : Uint256Laws}.

Lemma isCode_ok c jd u :
  wf_bytes (Code c) -> jd_ok c jd -> 0 <= u < zlen (Code c) ->
  exists b c' jd', isCode c jd u = Ok (b, c', jd') /\ Gas c' = Gas c /\ jd_ok c' jd' /\
    (b = true <-> instr_start (Code c) u).
Proof.
  intros Hw [Ha Hj] Hu. destruct (codeBitmap_ok (Code c) Hw) as (bits & HB & Hl & Hb).
  assert (HS : codeSegment bits u = Ok (negb (bit bits u))) by (apply codeSegment_ok; lia).
  assert (Hneg : negb (bit bits u) = true <-> instr_start (Code c) u)
    by (rewrite negb_true_iff; by apply Hb).
  unfold isCode. destruct (analysis c) as [a|] eqn:EA.
  - pose proof (Ha a eq_refl) as E. rewrite HB in E. injection E as <-. rewrite HS.
    do 3 eexists. split_and!; [done|done| |done]. split; [|done]. by rewrite EA.
  - destruct (Z.eqb_spec (CodeHash c) 0) as [E0|E0]; cbn [negb].
    + rewrite HB. unfold mbind, result_bind. rewrite HS. do 3 eexists. split_and!; [done|done| |done].
      split; [simpl; congruence|]. simpl. done.
    + destruct (jd !! CodeHash c) as [a|] eqn:EJ.
      * pose proof (Hj a E0 eq_refl) as E. rewrite HB in E. injection E as <-.
        unfold mbind, result_bind. rewrite HS. do 3 eexists. split_and!; [done|done| |done].
        split; simpl; congruence.
      * rewrite HB. unfold mbind, result_bind. rewrite HS. do 3 eexists. split_and!; [done|done| |done].
        split; simpl; [congruence|]. intros a' _. rewrite lookup_insert_eq. congruence.
Qed.

(** C7: JUMP and JUMPI accept a destination exactly when it is inside the code,
    holds JUMPDEST and is where an instruction starts; the analysis cached for
    later jumps stays the one of the code. *)
Theorem validJumpdest_correct c jd dest :
  wf_bytes (Code c) -> jd_ok c jd -> is_u256 dest -> zlen (Code c) < 2 ^ 63 ->
  exists b c' jd', validJumpdest c jd dest = Ok (b, c', jd') /\ jd_ok c' jd' /\
    (b = true <->
     dest < zlen (Code c) /\ Code c !! Z.to_nat dest = Some JUMPDEST /\ instr_start (Code c) dest).
Proof.
  intros Hw Hj Hd Hlen. unfold validJumpdest.
  destruct (u_Uint64WithOverflow dest) as [u ov] eqn:EU.
  rewrite law_Uint64WithOverflow in EU by done. injection EU as <- <-. unfold is_u256 in Hd.
  destruct (Z.ltb_spec dest (2 ^ 64)) as [Hlt|Hge]; cbn [negb orb].
  2: { do 3 eexists. split_and!; [done|done|]. split; [done|lia]. }
  rewrite u64_id by (unfold is_u64; lia).
  destruct (Z.leb_spec (zlen (Code c)) dest) as [Hout|Hin].
  { do 3 eexists. split_and!; [done|done|]. split; [done|lia]. }
  destruct (index_ok (Code c) dest) as (op & -> & Hop); [lia|]. unfold mbind, result_bind.
  destruct (Z.eqb_spec op JUMPDEST) as [->|Hne]; cbn [negb].
  - destruct (isCode_ok c jd dest Hw Hj) as (b & c' & jd' & -> & _ & Hj' & Hb); [lia|].
    do 3 eexists. split_and!; [done|done|]. rewrite Hb. naive_solver.
  - do 3 eexists. split_and!; [done|done|]. split; [done|]. rewrite Hop. naive_solver.
Qed.
End Jumpdest.

Definition demo_contract (code : bytes) (gas : Z) : Contract :=
  mkContract 1 (AccountRef 1) (AccountRef 2) None code 0 None [] gas (Some 0).

Lemma validJumpdest_correct_witness :
  exists b c' jd', validJumpdest (demo_contract [0x60; 0x5b; 0x5b] 0) ∅ 2 = Ok (b, c', jd') /\
    jd_ok c' jd' /\
    (b = true <->
     2 < zlen [0x60; 0x5b; 0x5b] /\ [0x60; 0x5b; 0x5b] !! Z.to_nat 2 = Some JUMPDEST /\
     instr_start [0x60; 0x5b; 0x5b] 2).
Proof.
  apply (validJumpdest_correct (demo_contract [0x60; 0x5b; 0x5b] 0) ∅ 2).
  - repeat constructor; unfold is_byte; lia.
  - split; [done|]. intros a _. by rewrite lookup_empty.
  - unfold is_u256. lia.
  - reflexivity.
Defined.

Lemma ParseDelegation_AddressToDelegation_witness : ParseDelegation (AddressToDelegation 1234) = Some 1234.
Proof. apply ParseDelegation_AddressToDelegation. lia. Defined.
