(* ===== verification/Vm.v ===== *)
(** The state of the virtual machine: the parts of [EVM] and [EVMInterpreter]
    that change during execution ([evmS]), the parts that do not ([evmE]), and
    the frame of a running contract. *)
From Stdlib Require Import ZArith Lia.
From stdpp Require Import base numbers list gmap.
From S2P Require Import Prelude U256 Math Params Host AccessList State StateDB Stack Memory Contract.
From S2P Require Import VmErrors Precompiles.
Local Open Scope Z_scope.

(** ** [BlockContext] and [TxContext] of [vm/evm.go]

    [CanTransfer] and [Transfer] are the defaults [NewEVM] installs (see
    Evm.v); nothing in the repository sets other ones. *)
Record BlockContext := {
  GetHash : Z -> Z;
  Coinbase : Z;
  bc_GasLimit : Z;
  BlockNumber : Z;
  bc_Time : Z;
  bc_Difficulty : Z;
  bc_BaseFee : option Z;
  bc_BlobBaseFee : option Z;
  bc_Random : option Z
}.

Record TxContext := {
  Origin : Z;
  tx_GasPrice : Z;
  BlobHashes : list Z
}.

(** ** What changes

    [StateDB], [depth], [callGasTemp] are fields of [EVM]; [readOnly] and
    [returnData] of [EVMInterpreter]; [jumpdests] is the map shared by the
    contracts of a call tree; [loads] counts the atomic reads of [abort]. *)
Record evmS := mkEvm {
  StateDB : stateDB;
  depth : Z;
  callGasTemp : Z;
  readOnly : bool;
  returnData : bytes;
  jumpdests : gmap Z bytes;
  loads : nat
}.

Definition set_StateDB (e : evmS) (x : stateDB) : evmS :=
  mkEvm x (depth e) (callGasTemp e) (readOnly e) (returnData e) (jumpdests e) (loads e).
Definition set_depth (e : evmS) (x : Z) : evmS :=
  mkEvm (StateDB e) x (callGasTemp e) (readOnly e) (returnData e) (jumpdests e) (loads e).
Definition set_callGasTemp (e : evmS) (x : Z) : evmS :=
  mkEvm (StateDB e) (depth e) x (readOnly e) (returnData e) (jumpdests e) (loads e).
Definition set_readOnly (e : evmS) (x : bool) : evmS :=
  mkEvm (StateDB e) (depth e) (callGasTemp e) x (returnData e) (jumpdests e) (loads e).
Definition set_returnData (e : evmS) (x : bytes) : evmS :=
  mkEvm (StateDB e) (depth e) (callGasTemp e) (readOnly e) x (jumpdests e) (loads e).
Definition set_jumpdests (e : evmS) (x : gmap Z bytes) : evmS :=
  mkEvm (StateDB e) (depth e) (callGasTemp e) (readOnly e) (returnData e) x (loads e).
Definition set_loads (e : evmS) (x : nat) : evmS :=
  mkEvm (StateDB e) (depth e) (callGasTemp e) (readOnly e) (returnData e) (jumpdests e) x.

(** ** What does not change

    [e_abort n] is the value of [abort] at its [n]-th atomic read: another
    goroutine may set it at any moment, so it is an arbitrary sequence. *)
Record evmE := mkEnv {
  chainRules : Rules;
  ChainID : option Z;
  Context_ : BlockContext;
  TxContext_ : TxContext;
  e_abort : nat -> bool
}.

(** A running contract: [ScopeContext] and the program counter. *)
Record frame := mkFrame {
  pc : Z;
  f_stack : Stack;
  f_mem : Memory;
  f_contract : Contract
}.

Definition set_pc (f : frame) (x : Z) : frame := mkFrame x (f_stack f) (f_mem f) (f_contract f).
Definition set_stack (f : frame) (x : Stack) : frame := mkFrame (pc f) x (f_mem f) (f_contract f).
Definition set_mem (f : frame) (x : Memory) : frame := mkFrame (pc f) (f_stack f) x (f_contract f).
Definition set_contract (f : frame) (x : Contract) : frame := mkFrame (pc f) (f_stack f) (f_mem f) x.

Record vstate := mkV { evm : evmS; fr : frame }.

Abbreviation EVM := (ST evmS).
Abbreviation VM := (ST vstate).

(** A handler of the jump table: the returned bytes and error. *)
Definition execRes : Type := bytes * option vmerror.
(** A gas function: the cost, or an error. *)
Inductive gasRes := GasOk (gas : Z) | GasErr (e : vmerror).

(** ** Access *)
Definition sdb {A} (m : SDB A) : EVM A := fun e =>
  match m (StateDB e) with
  | Ok (a, s) => Ok (a, set_StateDB e s)
  | Panic => Panic
  | OutOfFuel => OutOfFuel
  end.

Definition on_evm {A} (m : EVM A) : VM A := fun v =>
  match m (evm v) with
  | Ok (a, e) => Ok (a, mkV e (fr v))
  | Panic => Panic
  | OutOfFuel => OutOfFuel
  end.

Definition vsdb {A} (m : SDB A) : VM A := on_evm (sdb m).

Definition get_frame : VM frame := st_gets fr.
Definition upd_frame (f : frame -> frame) : VM unit := st_modify (fun v => mkV (evm v) (f (fr v))).
Definition upd_evm (f : evmS -> evmS) : VM unit := st_modify (fun v => mkV (f (evm v)) (fr v)).
Definition get_contract : VM Contract := st_gets (fun v => f_contract (fr v)).
Definition get_mem : VM Memory := st_gets (fun v => f_mem (fr v)).
Definition put_mem (m : Memory) : VM unit := upd_frame (fun f => set_mem f m).
Definition put_contract (c : Contract) : VM unit := upd_frame (fun f => set_contract f c).
Definition get_readOnly : VM bool := st_gets (fun v => readOnly (evm v)).

Definition spop : VM Z := fun v =>
  match f_stack (fr v) with
  | [] => Panic
  | x :: st => Ok (x, mkV (evm v) (set_stack (fr v) st))
  end.
Definition spush (x : Z) : VM unit := upd_frame (fun f => set_stack f (push (f_stack f) x)).
Definition speek : VM Z := fun v =>
  match f_stack (fr v) with [] => Panic | x :: _ => Ok (x, v) end.
(** Writing through the pointer returned by [peek]. *)
Definition sset (x : Z) : VM unit := fun v =>
  match f_stack (fr v) with
  | [] => Panic
  | _ :: st => Ok (tt, mkV (evm v) (set_stack (fr v) (x :: st)))
  end.
Definition sback (n : nat) : VM Z := fun v =>
  match f_stack (fr v) !! n with Some x => Ok (x, v) | None => Panic end.

(** [Contract.UseGas] on the frame's contract. *)
Definition vUseGas (gas : Z) : VM bool := fun v =>
  let '(ok, c) := UseGas (f_contract (fr v)) gas in
  Ok (ok, mkV (evm v) (set_contract (fr v) c)).

Definition ok_nil : VM execRes := mret ([], None).
Definition fail (e : vmerror) : VM execRes := mret ([], Some e).
