(* ===== verification/Gas.v ===== *)
(** Gas: [vm/gas.go], [vm/gas_table.go] and [vm/operations_acl.go]. *)
From Stdlib Require Import ZArith Lia.
From stdpp Require Import base numbers list gmap.
From S2P Require Import Prelude U256 Math Params Host AccessList State StateDB Stack Memory Contract.
From S2P Require Import VmErrors Precompiles Vm.
Local Open Scope Z_scope.

Definition GasQuickStep : Z := 2.
Definition GasFastestStep : Z := 3.
Definition GasFastStep : Z := 5.
Definition GasMidStep : Z := 8.
Definition GasSlowStep : Z := 10.
Definition GasExtStep : Z := 20.

(** The cost and the memory with its new [lastGasCost]. *)
Definition memoryGasCost (mem : Memory) (newMemSize : Z) : gasRes * Memory :=
  if newMemSize =? 0 then (GasOk 0, mem)
  else if 0x1FFFFFFFE0 <? newMemSize then (GasErr ErrGasUintOverflow, mem)
  else
    let newMemSizeWords := toWordSize newMemSize in
    let newMemSize := u64 (newMemSizeWords * 32) in
    if Memory_Len mem <? newMemSize then
      let square := u64 (newMemSizeWords * newMemSizeWords) in
      let linCoef := u64 (newMemSizeWords * MemoryGas) in
      let quadCoef := square / QuadCoeffDiv in
      let newTotalFee := u64 (linCoef + quadCoef) in
      let fee := u64 (newTotalFee - lastGasCost mem) in
      (GasOk fee, mkMemory (store mem) newTotalFee)
    else (GasOk 0, mem).

Section Gas.
Context {U : Uint256} {H : Host}.

(** The static part of [EVM] that gas functions read. *)
Variable rules : Rules.

Definition callGas (isEip150 : bool) (availableGas base callCost : Z) : gasRes :=
  let capped :=
    if isEip150 then
      let availableGas := u64 (availableGas - base) in
      let gas := availableGas - availableGas / 64 in
      if negb (u_IsUint64 callCost) || (gas <? u_Uint64 callCost) then Some gas else None
    else None in
  match capped with
  | Some gas => GasOk gas
  | None =>
    if negb (u_IsUint64 callCost) then GasErr ErrGasUintOverflow
    else GasOk (u_Uint64 callCost)
  end.

(** *** Sequencing of fallible gas computations *)
Abbreviation GM A := (ST vstate (A + vmerror)).
Definition gret {A : Type} (a : A) : GM A := mret (inl a).
Definition gerr {A : Type} (e : vmerror) : GM A := mret (inr e).
Definition gbind {A B : Type} (m : GM A) (f : A -> GM B) : GM B :=
  r ← m; match r with inl a => f a | inr e => mret (inr e) end.
Definition glift {A : Type} (m : VM A) : GM A := a ← m; mret (inl a).
Definition grun (m : GM Z) : VM gasRes :=
  r ← m; mret (match r with inl g => GasOk g | inr e => GasErr e end).
(** [if x, overflow = ...; overflow { return 0, ErrGasUintOverflow }] *)
Definition guard (r : Z * bool) : GM Z :=
  let '(x, overflow) := r in if overflow : bool then gerr ErrGasUintOverflow else gret x.

Definition gasFunc : Type := Z -> VM gasRes.

(** [memoryGasCost(mem, memorySize)] on the frame's memory. *)
Definition vMemoryGasCost (memorySize : Z) : VM gasRes :=
  mem ← get_mem;
  let '(r, mem) := memoryGasCost mem memorySize in
  _ ← put_mem mem;
  mret r.
Definition gMemory (memorySize : Z) : GM Z :=
  r ← vMemoryGasCost memorySize;
  match r with GasOk g => gret g | GasErr e => gerr e end.
Definition gBack64 (n : nat) : GM Z :=
  gbind (glift (sback n)) (fun x => guard (u_Uint64WithOverflow x)).

Definition memoryCopierGas (stackpos : nat) : gasFunc := fun memorySize => grun (
  gbind (gMemory memorySize) (fun gas =>
  gbind (gBack64 stackpos) (fun words =>
  gbind (guard (SafeMul (toWordSize words) CopyGas)) (fun words =>
  guard (SafeAdd gas words))))).

Definition gasCallDataCopy : gasFunc := memoryCopierGas 2.
Definition gasCodeCopy : gasFunc := memoryCopierGas 2.
Definition gasMcopy : gasFunc := memoryCopierGas 2.
Definition gasExtCodeCopy : gasFunc := memoryCopierGas 3.
Definition gasReturnDataCopy : gasFunc := memoryCopierGas 2.

Definition contractAddress : VM Z := c ← get_contract; mret (Contract_Address c).

(** The cases 2.2 of net-metered SSTORE that only touch the refund counter. *)
Definition dirtyRefunds (original current value clearRefund resetClearRefund resetRefund : Z) : VM unit :=
  _ ← (if negb (original =? 0) then
         if current =? 0 then vsdb (SubRefund clearRefund)
         else if value =? 0 then vsdb (AddRefund clearRefund)
         else mret tt
       else mret tt);
  if original =? value then
    if original =? 0 then vsdb (AddRefund resetClearRefund)
    else vsdb (AddRefund resetRefund)
  else mret tt.

Definition gasSStore : gasFunc := fun _ =>
  y ← sback 1; x ← sback 0;
  addr ← contractAddress;
  current ← vsdb (GetState addr (u_Bytes32 x));
  if r_IsPetersburg rules || negb (r_IsConstantinople rules) then
    if (current =? 0) && negb (u_Sign y =? 0) then mret (GasOk SstoreSetGas)
    else if negb (current =? 0) && (u_Sign y =? 0) then
      _ ← vsdb (AddRefund SstoreRefundGas);
      mret (GasOk SstoreClearGas)
    else mret (GasOk SstoreResetGas)
  else
    let value := u_Bytes32 y in
    if current =? value then mret (GasOk NetSstoreNoopGas)
    else
      original ← vsdb (GetCommittedState addr (u_Bytes32 x));
      if original =? current then
        if original =? 0 then mret (GasOk NetSstoreInitGas)
        else
          _ ← (if value =? 0 then vsdb (AddRefund NetSstoreClearRefund) else mret tt);
          mret (GasOk NetSstoreCleanGas)
      else
        _ ← dirtyRefunds original current value NetSstoreClearRefund NetSstoreResetClearRefund
              NetSstoreResetRefund;
        mret (GasOk NetSstoreDirtyGas).

Definition gasSStoreEIP2200 : gasFunc := fun _ =>
  c ← get_contract;
  if Gas c <=? SstoreSentryGasEIP2200 then mret (GasErr errSentry)
  else
    y ← sback 1; x ← sback 0;
    addr ← contractAddress;
    current ← vsdb (GetState addr (u_Bytes32 x));
    let value := u_Bytes32 y in
    if current =? value then mret (GasOk SloadGasEIP2200)
    else
      original ← vsdb (GetCommittedState addr (u_Bytes32 x));
      if original =? current then
        if original =? 0 then mret (GasOk SstoreSetGasEIP2200)
        else
          _ ← (if value =? 0 then vsdb (AddRefund SstoreClearsScheduleRefundEIP2200) else mret tt);
          mret (GasOk SstoreResetGasEIP2200)
      else
        _ ← dirtyRefunds original current value SstoreClearsScheduleRefundEIP2200
              (SstoreSetGasEIP2200 - SloadGasEIP2200) (SstoreResetGasEIP2200 - SloadGasEIP2200);
        mret (GasOk SloadGasEIP2200).

Definition makeGasLog (n : Z) : gasFunc := fun memorySize => grun (
  gbind (gBack64 1) (fun requestedSize =>
  gbind (gMemory memorySize) (fun gas =>
  gbind (guard (SafeAdd gas LogGas)) (fun gas =>
  gbind (guard (SafeAdd gas (u64 (n * LogTopicGas)))) (fun gas =>
  gbind (guard (SafeMul requestedSize LogDataGas)) (fun memorySizeGas =>
  guard (SafeAdd gas memorySizeGas))))))).

Definition gasKeccak256 : gasFunc := fun memorySize => grun (
  gbind (gMemory memorySize) (fun gas =>
  gbind (gBack64 1) (fun wordGas =>
  gbind (guard (SafeMul (toWordSize wordGas) Keccak256WordGas)) (fun wordGas =>
  guard (SafeAdd gas wordGas))))).

Definition pureMemoryGascost : gasFunc := vMemoryGasCost.
Definition gasReturn : gasFunc := pureMemoryGascost.
Definition gasRevert : gasFunc := pureMemoryGascost.
Definition gasMLoad : gasFunc := pureMemoryGascost.
Definition gasMStore8 : gasFunc := pureMemoryGascost.
Definition gasMStore : gasFunc := pureMemoryGascost.
Definition gasCreate : gasFunc := pureMemoryGascost.

Definition gasCreate2 : gasFunc := fun memorySize => grun (
  gbind (gMemory memorySize) (fun gas =>
  gbind (gBack64 2) (fun wordGas =>
  gbind (guard (SafeMul (toWordSize wordGas) Keccak256WordGas)) (fun wordGas =>
  guard (SafeAdd gas wordGas))))).

Definition gasExpFrontier : gasFunc := fun _ => grun (
  gbind (glift (sback 1)) (fun e =>
  let expByteLen := (u_BitLen e + 7) / 8 in
  guard (SafeAdd (u64 (expByteLen * ExpByteFrontier)) ExpGas))).

Definition gasExpEIP158 : gasFunc := fun _ => grun (
  gbind (glift (sback 1)) (fun e =>
  let expByteLen := (u_BitLen e + 7) / 8 in
  guard (SafeAdd (u64 (expByteLen * ExpByteEIP158)) ExpGas))).

(** [evm.callGasTemp, err = callGas(IsEIP150, contract.Gas, gas, stack.Back(0))]
    and the sum of the two. *)
Definition finishCallGas (gas : Z) : GM Z :=
  gbind (glift get_contract) (fun c =>
  gbind (glift (sback 0)) (fun requested =>
  match callGas (r_IsEIP150 rules) (Gas c) gas requested with
  | GasErr e =>
    gbind (glift (upd_evm (fun s => set_callGasTemp s 0))) (fun _ => gerr e)
  | GasOk temp =>
    gbind (glift (upd_evm (fun s => set_callGasTemp s temp))) (fun _ =>
    guard (SafeAdd gas temp))
  end)).

Definition gasCall : gasFunc := fun memorySize => grun (
  gbind (glift (sback 2)) (fun value =>
  let transfersValue := negb (u_IsZero value) in
  gbind (glift (sback 1)) (fun a =>
  let address := u_Bytes20 a in
  gbind (glift (
    if r_IsEIP158 rules then
      if transfersValue then
        e ← vsdb (Empty address);
        mret (if e : bool then CallNewAccountGas else 0)
      else mret 0
    else
      e ← vsdb (Exist address);
      mret (if e : bool then 0 else CallNewAccountGas))) (fun gas =>
  let gas := if transfersValue then gas + CallValueTransferGas else gas in
  gbind (gMemory memorySize) (fun memoryGas =>
  gbind (guard (SafeAdd gas memoryGas)) finishCallGas))))).

Definition gasCallCode : gasFunc := fun memorySize => grun (
  gbind (gMemory memorySize) (fun memoryGas =>
  gbind (glift (sback 2)) (fun value =>
  let gas := if negb (u_Sign value =? 0) then CallValueTransferGas else 0 in
  gbind (guard (SafeAdd gas memoryGas)) finishCallGas))).

Definition gasDelegateCall : gasFunc := fun memorySize => grun (
  gbind (gMemory memorySize) finishCallGas).

Definition gasStaticCall : gasFunc := fun memorySize => grun (
  gbind (gMemory memorySize) finishCallGas).

Definition gasSelfdestruct : gasFunc := fun _ =>
  self ← contractAddress;
  gas ← (if r_IsEIP150 rules then
           a ← sback 0;
           let address := u_Bytes20 a in
           if r_IsEIP158 rules then
             e ← vsdb (Empty address);
             if e : bool then
               b ← vsdb (GetBalance self);
               mret (if negb (Z.sgn b =? 0) then SelfdestructGasEIP150 + CreateBySelfdestructGas
                     else SelfdestructGasEIP150)
             else mret SelfdestructGasEIP150
           else
             e ← vsdb (Exist address);
             mret (if e : bool then SelfdestructGasEIP150
                   else SelfdestructGasEIP150 + CreateBySelfdestructGas)
         else mret 0);
  s ← vsdb (HasSuicided self);
  _ ← (if negb s then vsdb (AddRefund SelfdestructRefundGas) else mret tt);
  mret (GasOk gas).

(** [size, overflow := ...; if overflow || size > params.MaxInitCodeSize] *)
Definition gInitCodeSize : GM Z :=
  gbind (gBack64 2) (fun size =>
  if MaxInitCodeSize <? size then gerr ErrGasUintOverflow else gret size).

Definition gasCreateEip3860 : gasFunc := fun memorySize => grun (
  gbind (gMemory memorySize) (fun gas =>
  gbind gInitCodeSize (fun size =>
  let moreGas := u64 (InitCodeWordGas * (u64 (size + 31) / 32)) in
  guard (SafeAdd gas moreGas)))).

Definition gasCreate2Eip3860 : gasFunc := fun memorySize => grun (
  gbind (gMemory memorySize) (fun gas =>
  gbind gInitCodeSize (fun size =>
  let moreGas := u64 ((InitCodeWordGas + Keccak256WordGas) * (u64 (size + 31) / 32)) in
  guard (SafeAdd gas moreGas)))).

(** ** [vm/operations_acl.go] *)
Definition makeGasSStoreFunc (clearingRefund : Z) : gasFunc := fun _ =>
  c ← get_contract;
  if Gas c <=? SstoreSentryGasEIP2200 then mret (GasErr errSentry)
  else
    y ← sback 1; x ← speek;
    let slot := u_Bytes32 x in
    addr ← contractAddress;
    current ← vsdb (GetState addr slot);
    '(addrPresent, slotPresent) ← vsdb (SlotInAccessList addr slot);
    cost ← (if negb slotPresent then
              _ ← vsdb (AddSlotToAccessList addr slot);
              if negb addrPresent then st_panic else mret ColdSloadCostEIP2929
            else mret 0);
    let value := u_Bytes32 y in
    if current =? value then mret (GasOk (cost + WarmStorageReadCostEIP2929))
    else
      original ← vsdb (GetCommittedState addr (u_Bytes32 x));
      if original =? current then
        if original =? 0 then mret (GasOk (cost + SstoreSetGasEIP2200))
        else
          _ ← (if value =? 0 then vsdb (AddRefund clearingRefund) else mret tt);
          mret (GasOk (cost + (SstoreResetGasEIP2200 - ColdSloadCostEIP2929)))
      else
        _ ← dirtyRefunds original current value clearingRefund
              (SstoreSetGasEIP2200 - WarmStorageReadCostEIP2929)
              ((SstoreResetGasEIP2200 - ColdSloadCostEIP2929) - WarmStorageReadCostEIP2929);
        mret (GasOk (cost + WarmStorageReadCostEIP2929)).

Definition gasSLoadEIP2929 : gasFunc := fun _ =>
  loc ← speek;
  let slot := u_Bytes32 loc in
  addr ← contractAddress;
  '(_, slotPresent) ← vsdb (SlotInAccessList addr slot);
  if negb slotPresent then
    _ ← vsdb (AddSlotToAccessList addr slot);
    mret (GasOk ColdSloadCostEIP2929)
  else mret (GasOk WarmStorageReadCostEIP2929).

Definition gasExtCodeCopyEIP2929 : gasFunc := fun memorySize =>
  r ← gasExtCodeCopy memorySize;
  match r with
  | GasErr e => mret (GasErr e)
  | GasOk gas =>
    a ← speek;
    let addr := u_Bytes20 a in
    warm ← vsdb (AddressInAccessList addr);
    if negb warm then
      _ ← vsdb (AddAddressToAccessList addr);
      grun (guard (SafeAdd gas (ColdAccountAccessCostEIP2929 - WarmStorageReadCostEIP2929)))
    else mret (GasOk gas)
  end.

Definition gasEip2929AccountCheck : gasFunc := fun _ =>
  a ← speek;
  let addr := u_Bytes20 a in
  warm ← vsdb (AddressInAccessList addr);
  if negb warm then
    _ ← vsdb (AddAddressToAccessList addr);
    mret (GasOk (ColdAccountAccessCostEIP2929 - WarmStorageReadCostEIP2929))
  else mret (GasOk 0).

(** [contract.Gas += x] *)
Definition addGas (x : Z) : VM unit :=
  upd_frame (fun f => set_contract f (set_Gas (f_contract f) (u64 (Gas (f_contract f) + x)))).

Definition makeCallVariantGasCallEIP2929 (oldCalculator : gasFunc) : gasFunc := fun memorySize =>
  a ← sback 1;
  let addr := u_Bytes20 a in
  warmAccess ← vsdb (AddressInAccessList addr);
  let coldCost := ColdAccountAccessCostEIP2929 - WarmStorageReadCostEIP2929 in
  paid ← (if negb warmAccess then
            _ ← vsdb (AddAddressToAccessList addr);
            vUseGas coldCost
          else mret true);
  if negb paid then mret (GasErr ErrOutOfGas)
  else
    r ← oldCalculator memorySize;
    match r with
    | GasErr e => mret (GasErr e)
    | GasOk gas =>
      if warmAccess : bool then mret (GasOk gas)
      else
        _ ← addGas coldCost;
        mret (GasOk (u64 (gas + coldCost)))
    end.

Definition makeSelfdestructGasFn (refundsEnabled : bool) : gasFunc := fun _ =>
  a ← speek;
  let address := u_Bytes20 a in
  self ← contractAddress;
  warm ← vsdb (AddressInAccessList address);
  gas ← (if negb warm then
           _ ← vsdb (AddAddressToAccessList address);
           mret ColdAccountAccessCostEIP2929
         else mret 0);
  e ← vsdb (Empty address);
  gas ← (if e : bool then
           b ← vsdb (GetBalance self);
           mret (if negb (Z.sgn b =? 0) then gas + CreateBySelfdestructGas else gas)
         else mret gas);
  _ ← (if refundsEnabled then
         s ← vsdb (HasSuicided self);
         if negb s then vsdb (AddRefund SelfdestructRefundGas) else mret tt
       else mret tt);
  mret (GasOk gas).

(** The price of following a delegation designator, if there is one. *)
Definition makeCallVariantGasCallEIP7702 (oldCalculator : gasFunc) : gasFunc := fun memorySize =>
  a ← sback 1;
  let addr := u_Bytes20 a in
  warm ← vsdb (AddressInAccessList addr);
  cold ← (if negb warm then
            _ ← vsdb (AddAddressToAccessList addr);
            let coldCost := ColdAccountAccessCostEIP2929 - WarmStorageReadCostEIP2929 in
            paid ← vUseGas coldCost;
            mret (if paid : bool then Some coldCost else None)
          else mret (Some 0));
  match cold with
  | None => mret (GasErr ErrOutOfGas)
  | Some total =>
    code ← vsdb (GetCode addr);
    resolution ← match ParseDelegation code with
                 | Some target =>
                   warm ← vsdb (AddressInAccessList target);
                   cost ← (if warm : bool then mret WarmStorageReadCostEIP2929
                           else
                             _ ← vsdb (AddAddressToAccessList target);
                             mret ColdAccountAccessCostEIP2929);
                   paid ← vUseGas cost;
                   mret (if paid : bool then Some cost else None)
                 | None => mret (Some 0)
                 end;
    match resolution with
    | None => mret (GasErr ErrOutOfGas)
    | Some cost =>
      let total := total + cost in
      r ← oldCalculator memorySize;
      match r with
      | GasErr e => mret (GasErr e)
      | GasOk old =>
        _ ← addGas total;
        grun (guard (SafeAdd old total))
      end
    end
  end.

Definition gasCallEIP2929 : gasFunc := makeCallVariantGasCallEIP2929 gasCall.
Definition gasDelegateCallEIP2929 : gasFunc := makeCallVariantGasCallEIP2929 gasDelegateCall.
Definition gasStaticCallEIP2929 : gasFunc := makeCallVariantGasCallEIP2929 gasStaticCall.
Definition gasCallCodeEIP2929 : gasFunc := makeCallVariantGasCallEIP2929 gasCallCode.
Definition gasSelfdestructEIP2929 : gasFunc := makeSelfdestructGasFn true.
Definition gasSelfdestructEIP3529 : gasFunc := makeSelfdestructGasFn false.
Definition gasSStoreEIP2929 : gasFunc := makeGasSStoreFunc SstoreClearsScheduleRefundEIP2200.
Definition gasSStoreEIP3529 : gasFunc := makeGasSStoreFunc SstoreClearsScheduleRefundEIP3529.
Definition gasCallEIP7702 : gasFunc := makeCallVariantGasCallEIP7702 gasCall.
Definition gasDelegateCallEIP7702 : gasFunc := makeCallVariantGasCallEIP7702 gasDelegateCall.
Definition gasStaticCallEIP7702 : gasFunc := makeCallVariantGasCallEIP7702 gasStaticCall.
Definition gasCallCodeEIP7702 : gasFunc := makeCallVariantGasCallEIP7702 gasCallCode.
End Gas.
