(* ===== verification/Instr.v ===== *)
(** The instructions: [vm/instructions.go] and the handlers of [vm/eips.go].

    A handler [executionFunc] is a computation on the frame and the EVM that
    returns bytes and an error.  The handlers of the CALL and CREATE families
    take the six entry points of [EVM] they call as a record [Calls]; Evm.v
    ties the knot. *)
From Stdlib Require Import ZArith Lia.
From stdpp Require Import base numbers list gmap.
From S2P Require Import Prelude U256 Math Params Host AccessList State StateDB Stack Memory Contract.
From S2P Require Import VmErrors Precompiles Vm.
Local Open Scope Z_scope.

(** What a message call returns: the data, the gas left, the error. *)
Definition callRes : Type := bytes * Z * option vmerror.

(** [Call], [CallCode], [DelegateCall], [StaticCall], [Create] and [Create2]
    of [EVM], from the handlers' point of view. *)
Record Calls := {
  do_Call : ContractRef -> Z -> bytes -> Z -> Z -> EVM callRes;
  do_CallCode : ContractRef -> Z -> bytes -> Z -> Z -> EVM callRes;
  do_DelegateCall : ContractRef -> Z -> bytes -> Z -> EVM callRes;
  do_StaticCall : ContractRef -> Z -> bytes -> Z -> EVM callRes;
  do_Create : ContractRef -> bytes -> Z -> Z -> EVM (callRes * Z);
  do_Create2 : ContractRef -> bytes -> Z -> Z -> Z -> EVM (callRes * Z)
}.

Section Instructions.
Context {U : Uint256} {H : Host}.
Variable E : evmE.

Definition executionFunc : Type := VM execRes.

(** [SetUint64(uint64(x))] *)
Definition SetUint64 (x : Z) : Z := u64 x.

(** A change of the frame's memory by one of its methods. *)
Definition modMem (f : Memory -> result Memory) : VM unit :=
  mem ← get_mem;
  mem ← st_lift (f mem);
  put_mem mem.

(** [x, y := stack.pop(), stack.peek(); y.op(&x, y)] *)
Definition binary (f : Z -> Z -> Z) : executionFunc :=
  x ← spop; y ← speek;
  _ ← sset (f x y);
  ok_nil.
(** The same with [SetOne] or [Clear]. *)
Definition compare (f : Z -> Z -> bool) : executionFunc :=
  binary (fun x y => if f x y then 1 else 0).

Definition opAdd : executionFunc := binary (fun x y => u_Add x y).
Definition opSub : executionFunc := binary (fun x y => u_Sub x y).
Definition opMul : executionFunc := binary (fun x y => u_Mul x y).
Definition opDiv : executionFunc := binary (fun x y => u_Div x y).
Definition opSdiv : executionFunc := binary (fun x y => u_SDiv x y).
Definition opMod : executionFunc := binary (fun x y => u_Mod x y).
Definition opSmod : executionFunc := binary (fun x y => u_SMod x y).
Definition opExp : executionFunc := binary (fun base exponent => u_Exp base exponent).
Definition opSignExtend : executionFunc := binary (fun back num => u_ExtendSign num back).

Definition opNot : executionFunc :=
  x ← speek; _ ← sset (u_Not x); ok_nil.

Definition opLt : executionFunc := compare (fun x y => u_Lt x y).
Definition opGt : executionFunc := compare (fun x y => u_Gt x y).
Definition opSlt : executionFunc := compare (fun x y => u_Slt x y).
Definition opSgt : executionFunc := compare (fun x y => u_Sgt x y).
Definition opEq : executionFunc := compare (fun x y => u_Eq x y).
Definition opIszero : executionFunc :=
  x ← speek; _ ← sset (if u_IsZero x then 1 else 0); ok_nil.

Definition opAnd : executionFunc := binary (fun x y => u_And x y).
Definition opOr : executionFunc := binary (fun x y => u_Or x y).
Definition opXor : executionFunc := binary (fun x y => u_Xor x y).
Definition opByte : executionFunc := binary (fun th val => u_Byte val th).

Definition opAddmod : executionFunc :=
  x ← spop; y ← spop; z ← speek;
  _ ← sset (if u_IsZero z then 0 else u_AddMod x y z);
  ok_nil.
Definition opMulmod : executionFunc :=
  x ← spop; y ← spop; z ← speek;
  _ ← sset (u_MulMod x y z);
  ok_nil.

Definition opSHL : executionFunc := binary (fun shift value =>
  if u_LtUint64 shift 256 then u_Lsh value (u_Uint64 shift) else 0).
Definition opSHR : executionFunc := binary (fun shift value =>
  if u_LtUint64 shift 256 then u_Rsh value (u_Uint64 shift) else 0).
Definition opSAR : executionFunc := binary (fun shift value =>
  if u_GtUint64 shift 256 then
    (if 0 <=? u_Sign value then 0 else 2 ^ 256 - 1)
  else u_SRsh value (u_Uint64 shift)).

(** [AddPreimage] of the state database does nothing. *)
Definition opKeccak256 : executionFunc :=
  offset ← spop; size ← speek;
  mem ← get_mem;
  data ← st_lift (Memory_GetPtr mem (int64_of (u_Uint64 offset)) (int64_of (u_Uint64 size)));
  _ ← sset (u_SetBytes (Hash_Bytes (keccak data)));
  ok_nil.

Definition opAddress : executionFunc :=
  c ← get_contract;
  _ ← spush (u_SetBytes (Address_Bytes (Contract_Address c)));
  ok_nil.
Definition opBalance : executionFunc :=
  slot ← speek;
  b ← vsdb (GetBalance (u_Bytes20 slot));
  _ ← sset (u_FromBig b);
  ok_nil.
Definition opOrigin : executionFunc :=
  _ ← spush (u_SetBytes (Address_Bytes (Origin (TxContext_ E)))); ok_nil.
Definition opCaller : executionFunc :=
  c ← get_contract;
  _ ← spush (u_SetBytes (Address_Bytes (CallerAddress c)));
  ok_nil.
(** Pushing a nil pointer panics. *)
Definition pushBig (v : option Z) : executionFunc :=
  match v with
  | Some v => _ ← spush (u_FromBig v); ok_nil
  | None => st_panic
  end.
Definition opCallValue : executionFunc :=
  c ← get_contract; pushBig (c_value c).

Definition opCallDataLoad : executionFunc :=
  x ← speek;
  let '(offset, overflow) := u_Uint64WithOverflow x in
  if negb overflow then
    c ← get_contract;
    data ← st_lift (getData (Input c) offset 32);
    _ ← sset (u_SetBytes data);
    ok_nil
  else _ ← sset 0; ok_nil.
Definition opCallDataSize : executionFunc :=
  c ← get_contract; _ ← spush (SetUint64 (zlen (Input c))); ok_nil.

(** [scope.Memory.Set(offset, length, data)] *)
Definition memSet (offset size : Z) (data : bytes) : VM unit :=
  modMem (fun mem => Memory_Set mem offset size data).

(** A 64-bit offset into data, saturated. *)
Definition saturate (x : Z) : Z :=
  let '(x64, overflow) := u_Uint64WithOverflow x in
  if overflow : bool then 0xffffffffffffffff else x64.

Definition opCallDataCopy : executionFunc :=
  memOffset ← spop; dataOffset ← spop; length ← spop;
  let dataOffset64 := saturate dataOffset in
  c ← get_contract;
  data ← st_lift (getData (Input c) dataOffset64 (u_Uint64 length));
  _ ← memSet (u_Uint64 memOffset) (u_Uint64 length) data;
  ok_nil.

Definition get_returnData : VM bytes := st_gets (fun v => returnData (evm v)).
Definition put_returnData (b : bytes) : VM unit := upd_evm (fun e => set_returnData e b).

Definition opReturnDataSize : executionFunc :=
  d ← get_returnData; _ ← spush (SetUint64 (zlen d)); ok_nil.
Definition opReturnDataCopy : executionFunc :=
  memOffset ← spop; dataOffset ← spop; length ← spop;
  let '(offset64, overflow) := u_Uint64WithOverflow dataOffset in
  if overflow : bool then fail ErrReturnDataOutOfBounds
  else
    let '(end64, overflow) := u_Uint64WithOverflow (u_Add dataOffset length) in
    d ← get_returnData;
    if overflow || (zlen d <? end64) then fail ErrReturnDataOutOfBounds
    else
      data ← st_lift (slice d offset64 end64);
      _ ← memSet (u_Uint64 memOffset) (u_Uint64 length) data;
      ok_nil.

Definition opExtCodeSize : executionFunc :=
  slot ← speek;
  n ← vsdb (GetCodeSize (u_Bytes20 slot));
  _ ← sset (SetUint64 n);
  ok_nil.
Definition opCodeSize : executionFunc :=
  c ← get_contract; _ ← spush (SetUint64 (zlen (Code c))); ok_nil.
Definition opCodeCopy : executionFunc :=
  memOffset ← spop; codeOffset ← spop; length ← spop;
  let uint64CodeOffset := saturate codeOffset in
  c ← get_contract;
  codeCopy ← st_lift (getData (Code c) uint64CodeOffset (u_Uint64 length));
  _ ← memSet (u_Uint64 memOffset) (u_Uint64 length) codeCopy;
  ok_nil.
Definition opExtCodeCopy : executionFunc :=
  a ← spop; memOffset ← spop; codeOffset ← spop; length ← spop;
  let uint64CodeOffset := saturate codeOffset in
  code ← vsdb (GetCode (u_Bytes20 a));
  codeCopy ← st_lift (getData code uint64CodeOffset (u_Uint64 length));
  _ ← memSet (u_Uint64 memOffset) (u_Uint64 length) codeCopy;
  ok_nil.
Definition opExtCodeHash : executionFunc :=
  slot ← speek;
  let address := u_Bytes20 slot in
  e ← vsdb (Empty address);
  if e : bool then _ ← sset 0; ok_nil
  else
    h ← vsdb (GetCodeHash address);
    _ ← sset (u_SetBytes (Hash_Bytes h));
    ok_nil.

Definition opGasprice : executionFunc :=
  _ ← spush (u_FromBig (tx_GasPrice (TxContext_ E))); ok_nil.
Definition opBlockhash : executionFunc :=
  num ← speek;
  let '(num64, overflow) := u_Uint64WithOverflow num in
  if overflow : bool then _ ← sset 0; ok_nil
  else
    let upper := u64 (BlockNumber (Context_ E)) in
    let lower := if upper <? 257 then 0 else upper - 256 in
    if (lower <=? num64) && (num64 <? upper) then
      _ ← sset (u_SetBytes (Hash_Bytes (GetHash (Context_ E) num64))); ok_nil
    else _ ← sset 0; ok_nil.
Definition opCoinbase : executionFunc :=
  _ ← spush (u_SetBytes (Address_Bytes (Coinbase (Context_ E)))); ok_nil.
Definition opTimestamp : executionFunc := pushBig (Some (bc_Time (Context_ E))).
Definition opNumber : executionFunc := pushBig (Some (BlockNumber (Context_ E))).
Definition opDifficulty : executionFunc := pushBig (Some (bc_Difficulty (Context_ E))).
Definition opRandom : executionFunc :=
  match bc_Random (Context_ E) with
  | Some h => _ ← spush (u_SetBytes (Hash_Bytes h)); ok_nil
  | None => st_panic
  end.
Definition opGasLimit : executionFunc := _ ← spush (SetUint64 (bc_GasLimit (Context_ E))); ok_nil.

Definition opPop : executionFunc := _ ← spop; ok_nil.
Definition opMload : executionFunc :=
  v ← speek;
  mem ← get_mem;
  data ← st_lift (Memory_GetPtr mem (int64_of (u_Uint64 v)) 32);
  _ ← sset (u_SetBytes data);
  ok_nil.
Definition opMstore : executionFunc :=
  mStart ← spop; val ← spop;
  _ ← modMem (fun mem => Memory_Set32 mem (u_Uint64 mStart) val);
  ok_nil.
Definition opMstore8 : executionFunc :=
  off ← spop; val ← spop;
  _ ← modMem (fun mem =>
        s ← set_index (store mem) (u_Uint64 off) (u_Uint64 val mod 256);
        Ok (with_store mem s));
  ok_nil.

Definition opSload : executionFunc :=
  loc ← speek;
  c ← get_contract;
  val ← vsdb (GetState (Contract_Address c) (u_Bytes32 loc));
  _ ← sset (u_SetBytes (Hash_Bytes val));
  ok_nil.
Definition opSstore : executionFunc :=
  ro ← get_readOnly;
  if ro : bool then fail ErrWriteProtection
  else
    loc ← spop; val ← spop;
    c ← get_contract;
    _ ← vsdb (SetState (Contract_Address c) (u_Bytes32 loc) (u_Bytes32 val));
    ok_nil.

(** [atomic.LoadInt32(&evm.abort) != 0] *)
Definition load_abort : VM bool :=
  n ← st_gets (fun v => loads (evm v));
  _ ← upd_evm (fun e => set_loads e (S n));
  mret (e_abort E n).

(** [contract.validJumpdest(&pos)] *)
Definition vValidJumpdest (pos : Z) : VM bool :=
  c ← get_contract;
  jd ← st_gets (fun v => jumpdests (evm v));
  '(ok, c, jd) ← st_lift (validJumpdest c jd pos);
  _ ← put_contract c;
  _ ← upd_evm (fun e => set_jumpdests e jd);
  mret ok.
Definition put_pc (x : Z) : VM unit := upd_frame (fun f => set_pc f (u64 x)).

Definition opJump : executionFunc :=
  aborted ← load_abort;
  if aborted : bool then fail errStopToken
  else
    pos ← spop;
    ok ← vValidJumpdest pos;
    if negb ok then fail ErrInvalidJump
    else _ ← put_pc (u_Uint64 pos - 1); ok_nil.
Definition opJumpi : executionFunc :=
  aborted ← load_abort;
  if aborted : bool then fail errStopToken
  else
    pos ← spop; cond ← spop;
    if negb (u_IsZero cond) then
      ok ← vValidJumpdest pos;
      if negb ok then fail ErrInvalidJump
      else _ ← put_pc (u_Uint64 pos - 1); ok_nil
    else ok_nil.
Definition opJumpdest : executionFunc := ok_nil.

Definition opPc : executionFunc := f ← get_frame; _ ← spush (SetUint64 (pc f)); ok_nil.
Definition opMsize : executionFunc := mem ← get_mem; _ ← spush (SetUint64 (Memory_Len mem)); ok_nil.
Definition opGas : executionFunc := c ← get_contract; _ ← spush (SetUint64 (Gas c)); ok_nil.

(** ** Halting *)
(** [scope.Memory.GetPtr(int64(offset.Uint64()), int64(size.Uint64()))] *)
Definition memArgs (offset size : Z) : VM bytes :=
  mem ← get_mem;
  st_lift (Memory_GetPtr mem (int64_of (u_Uint64 offset)) (int64_of (u_Uint64 size))).

Definition opReturn : executionFunc :=
  offset ← spop; size ← spop;
  ret ← memArgs offset size;
  mret (ret, Some errStopToken).
Definition opRevert : executionFunc :=
  offset ← spop; size ← spop;
  ret ← memArgs offset size;
  _ ← put_returnData ret;
  mret (ret, Some ErrExecutionReverted).
Definition opUndefined : executionFunc :=
  f ← get_frame;
  op ← st_lift (index (Code (f_contract f)) (pc f));
  fail (ErrInvalidOpCode op).
Definition opStop : executionFunc := fail errStopToken.

Definition opSelfdestruct : executionFunc :=
  ro ← get_readOnly;
  if ro : bool then fail ErrWriteProtection
  else
    beneficiary ← spop;
    c ← get_contract;
    balance ← vsdb (GetBalance (Contract_Address c));
    _ ← vsdb (AddBalance (u_Bytes20 beneficiary) balance);
    _ ← vsdb (Suicide (Contract_Address c));
    fail errStopToken.
Definition opSelfdestruct6780 : executionFunc :=
  ro ← get_readOnly;
  if ro : bool then fail ErrWriteProtection
  else
    beneficiary ← spop;
    c ← get_contract;
    balance ← vsdb (GetBalance (Contract_Address c));
    _ ← vsdb (SubBalance (Contract_Address c) balance);
    _ ← vsdb (AddBalance (u_Bytes20 beneficiary) balance);
    _ ← vsdb (SelfDestruct6780 (Contract_Address c));
    fail errStopToken.

(** ** Logs *)
Record Log := { log_Address : Z; log_Topics : list Z; log_Data : bytes; log_BlockNumber : Z }.

Fixpoint popTopics (n : nat) : VM (list Z) :=
  match n with
  | O => mret []
  | S n =>
    addr ← spop;
    topics ← popTopics n;
    mret (u_Bytes32 addr :: topics)
  end.

Definition makeLog (size : nat) : executionFunc :=
  ro ← get_readOnly;
  if ro : bool then fail ErrWriteProtection
  else
    mStart ← spop; mSize ← spop;
    topics ← popTopics size;
    mem ← get_mem;
    d ← st_lift (Memory_GetCopy mem (int64_of (u_Uint64 mStart)) (int64_of (u_Uint64 mSize)));
    c ← get_contract;
    _ ← vsdb (AddLog {| log_Address := Contract_Address c; log_Topics := topics;
                        log_Data := d; log_BlockNumber := u64 (BlockNumber (Context_ E)) |});
    ok_nil.

(** ** Pushes, dups, swaps *)
Definition opPush0 : executionFunc := _ ← spush 0; ok_nil.
Definition opPush1 : executionFunc :=
  f ← get_frame;
  let code := Code (f_contract f) in
  let codeLen := zlen code in
  _ ← put_pc (pc f + 1);
  let pc := u64 (pc f + 1) in
  if pc <? codeLen then
    b ← st_lift (index code pc);
    _ ← spush (SetUint64 b);
    ok_nil
  else _ ← spush 0; ok_nil.
(** [int] is 64 bits wide. *)
Definition makePush (size : Z) (pushByteSize : Z) : executionFunc :=
  f ← get_frame;
  let code := Code (f_contract f) in
  let codeLen := zlen code in
  let next := int64_of (u64 (pc f + 1)) in
  let startMin := if next <? codeLen then next else codeLen in
  let endMin := if startMin + pushByteSize <? codeLen then startMin + pushByteSize else codeLen in
  data ← st_lift (slice code startMin endMin);
  _ ← spush (u_SetBytes (RightPadBytes data pushByteSize));
  _ ← put_pc (pc f + size);
  ok_nil.

(** An in-place change of the stack. *)
Definition onStack (f : Stack -> result Stack) : executionFunc :=
  fr ← get_frame;
  st ← st_lift (f (f_stack fr));
  _ ← upd_frame (fun f => set_stack f st);
  ok_nil.
Definition makeDup (size : nat) : executionFunc := onStack (fun st => dup st size).
Definition makeSwap (size : nat) : executionFunc := onStack (fun st => swap st (size + 1)).

(** ** Handlers of [vm/eips.go] *)
Definition opSelfBalance : executionFunc :=
  c ← get_contract;
  balance ← vsdb (GetBalance (Contract_Address c));
  pushBig (Some balance).
Definition opChainID : executionFunc := pushBig (ChainID E).
Definition opBaseFee : executionFunc := pushBig (bc_BaseFee (Context_ E)).
Definition opBlobBaseFee : executionFunc := pushBig (bc_BlobBaseFee (Context_ E)).
Definition opBlobHash : executionFunc :=
  i ← speek;
  let hashes := BlobHashes (TxContext_ E) in
  if u_LtUint64 i (zlen hashes) then
    h ← st_lift (index hashes (u_Uint64 i));
    _ ← sset (u_SetBytes (Hash_Bytes h));
    ok_nil
  else _ ← sset 0; ok_nil.
Definition opTload : executionFunc :=
  loc ← speek;
  c ← get_contract;
  val ← vsdb (GetTransientState (Contract_Address c) (u_Bytes32 loc));
  _ ← sset (u_SetBytes (Hash_Bytes val));
  ok_nil.
Definition opTstore : executionFunc :=
  ro ← get_readOnly;
  if ro : bool then fail ErrWriteProtection
  else
    loc ← spop; val ← spop;
    c ← get_contract;
    _ ← vsdb (SetTransientState (Contract_Address c) (u_Bytes32 loc) (u_Bytes32 val));
    ok_nil.
Definition opCLZ : executionFunc :=
  x ← speek; _ ← sset (SetUint64 (256 - u_BitLen x)); ok_nil.
Definition opMcopy : executionFunc :=
  dst ← spop; src ← spop; length ← spop;
  _ ← modMem (fun mem => Memory_Copy mem (u_Uint64 dst) (u_Uint64 src) (u_Uint64 length));
  ok_nil.
End Instructions.

(** ** The CALL and CREATE families *)
Section CallInstructions.
Context {U : Uint256} {H : Host}.
Variable E : evmE.
Variable K : Calls.

Definition get_callGasTemp : VM Z := st_gets (fun v => callGasTemp (evm v)).

(** [scope.Contract.Gas += returnGas] *)
Definition refundGas (returnGas : Z) : VM unit :=
  c ← get_contract; put_contract (set_Gas c (u64 (Gas c + returnGas))).

(** [err == nil || err == ErrExecutionReverted] *)
Definition keepsReturn (err : option vmerror) : bool :=
  match err with None | Some ErrExecutionReverted => true | _ => false end.

(** The common end of the CALL handlers. *)
Definition finishCall (retOffset retSize : Z) (r : callRes) : executionFunc :=
  let '(ret, returnGas, err) := r in
  _ ← spush (match err with None => 1 | Some _ => 0 end);
  _ ← (if keepsReturn err then memSet (u_Uint64 retOffset) (u_Uint64 retSize) ret else mret tt);
  _ ← refundGas returnGas;
  _ ← put_returnData ret;
  mret (ret, None).

Definition opCall : executionFunc :=
  _ ← spop;
  gas ← get_callGasTemp;
  addr ← spop; value ← spop; inOffset ← spop; inSize ← spop; retOffset ← spop; retSize ← spop;
  args ← memArgs inOffset inSize;
  ro ← get_readOnly;
  if ro && negb (u_IsZero value) then fail ErrWriteProtection
  else
    let '(gas, bigVal) := if negb (u_IsZero value) then (u64 (gas + CallStipend), u_ToBig value)
                          else (gas, 0) in
    c ← get_contract;
    r ← on_evm (do_Call K (as_ref c) (u_Bytes20 addr) args gas bigVal);
    finishCall retOffset retSize r.

Definition opCallCode : executionFunc :=
  _ ← spop;
  gas ← get_callGasTemp;
  addr ← spop; value ← spop; inOffset ← spop; inSize ← spop; retOffset ← spop; retSize ← spop;
  args ← memArgs inOffset inSize;
  let '(gas, bigVal) := if negb (u_IsZero value) then (u64 (gas + CallStipend), u_ToBig value)
                        else (gas, 0) in
  c ← get_contract;
  r ← on_evm (do_CallCode K (as_ref c) (u_Bytes20 addr) args gas bigVal);
  finishCall retOffset retSize r.

Definition opDelegateCall : executionFunc :=
  _ ← spop;
  gas ← get_callGasTemp;
  addr ← spop; inOffset ← spop; inSize ← spop; retOffset ← spop; retSize ← spop;
  args ← memArgs inOffset inSize;
  c ← get_contract;
  r ← on_evm (do_DelegateCall K (as_ref c) (u_Bytes20 addr) args gas);
  finishCall retOffset retSize r.

Definition opStaticCall : executionFunc :=
  _ ← spop;
  gas ← get_callGasTemp;
  addr ← spop; inOffset ← spop; inSize ← spop; retOffset ← spop; retSize ← spop;
  args ← memArgs inOffset inSize;
  c ← get_contract;
  r ← on_evm (do_StaticCall K (as_ref c) (u_Bytes20 addr) args gas);
  finishCall retOffset retSize r.

(** The common end of the CREATE handlers. *)
Definition finishCreate (stackvalue : Z) (r : callRes) : executionFunc :=
  let '(res, returnGas, suberr) := r in
  _ ← spush stackvalue;
  _ ← refundGas returnGas;
  match suberr with
  | Some ErrExecutionReverted => _ ← put_returnData res; mret (res, None)
  | _ => _ ← put_returnData []; ok_nil
  end.

Definition opCreate : executionFunc :=
  ro ← get_readOnly;
  if ro : bool then fail ErrWriteProtection
  else
    value ← spop; offset ← spop; size ← spop;
    mem ← get_mem;
    input ← st_lift (Memory_GetCopy mem (int64_of (u_Uint64 offset)) (int64_of (u_Uint64 size)));
    c ← get_contract;
    let gas := Gas c in
    let gas := if r_IsEIP150 (chainRules E) then gas - gas / 64 else gas in
    _ ← vUseGas gas;
    let bigVal := if negb (u_IsZero value) then u_ToBig value else 0 in
    c ← get_contract;
    '(r, addr) ← on_evm (do_Create K (as_ref c) input gas bigVal);
    let stackvalue :=
      match snd r with
      | Some ErrCodeStoreOutOfGas =>
        if r_IsHomestead (chainRules E) then 0 else u_SetBytes (Address_Bytes addr)
      | Some _ => 0
      | None => u_SetBytes (Address_Bytes addr)
      end in
    finishCreate stackvalue r.

Definition opCreate2 : executionFunc :=
  ro ← get_readOnly;
  if ro : bool then fail ErrWriteProtection
  else
    endowment ← spop; offset ← spop; size ← spop; salt ← spop;
    mem ← get_mem;
    input ← st_lift (Memory_GetCopy mem (int64_of (u_Uint64 offset)) (int64_of (u_Uint64 size)));
    c ← get_contract;
    let gas := Gas c in
    let gas := gas - gas / 64 in
    _ ← vUseGas gas;
    let bigEndowment := if negb (u_IsZero endowment) then u_ToBig endowment else 0 in
    c ← get_contract;
    '(r, addr) ← on_evm (do_Create2 K (as_ref c) input gas bigEndowment salt);
    let stackvalue := match snd r with Some _ => 0 | None => u_SetBytes (Address_Bytes addr) end in
    finishCreate stackvalue r.
End CallInstructions.
