(* ===== verification/JumpTable.v ===== *)
(** The jump tables of [vm/jump_table.go], the EIP activators of [vm/eips.go]
    and the choice of a table in [NewEVMInterpreter].

    The function-valued fields of [operation] hold names of functions, so that
    tables are data: [execute_sem], [dynamicGas_sem] and [memorySize_sem] give
    each name the function of the same name. *)
From Stdlib Require Import ZArith Lia.
From stdpp Require Import base numbers list gmap.
From S2P Require Import Prelude U256 Math Params OpCodes Host AccessList State StateDB Stack Memory.
From S2P Require Import Contract VmErrors Precompiles Vm Gas Instr.
Local Open Scope Z_scope.

Inductive executeName :=
| X_opStop | X_opAdd | X_opMul | X_opSub | X_opDiv | X_opSdiv | X_opMod | X_opSmod | X_opAddmod
| X_opMulmod | X_opExp | X_opSignExtend | X_opLt | X_opGt | X_opSlt | X_opSgt | X_opEq
| X_opIszero | X_opAnd | X_opXor | X_opOr | X_opNot | X_opByte | X_opKeccak256 | X_opAddress
| X_opBalance | X_opOrigin | X_opCaller | X_opCallValue | X_opCallDataLoad | X_opCallDataSize
| X_opCallDataCopy | X_opCodeSize | X_opCodeCopy | X_opGasprice | X_opExtCodeSize
| X_opExtCodeCopy | X_opBlockhash | X_opCoinbase | X_opTimestamp | X_opNumber | X_opDifficulty
| X_opGasLimit | X_opPop | X_opMload | X_opMstore | X_opMstore8 | X_opSload | X_opSstore
| X_opJump | X_opJumpi | X_opPc | X_opMsize | X_opGas | X_opJumpdest | X_opPush1 | X_opCreate
| X_opCall | X_opCallCode | X_opReturn | X_opSelfdestruct | X_opDelegateCall | X_opStaticCall
| X_opReturnDataSize | X_opReturnDataCopy | X_opRevert | X_opSHL | X_opSHR | X_opSAR
| X_opExtCodeHash | X_opCreate2 | X_opRandom | X_opSelfBalance | X_opChainID | X_opBaseFee
| X_opPush0 | X_opBlobHash | X_opBlobBaseFee | X_opTload | X_opTstore | X_opMcopy | X_opCLZ
| X_opSelfdestruct6780 | X_opUndefined
| X_makePush (size pushByteSize : Z) | X_makeDup (size : nat) | X_makeSwap (size : nat)
| X_makeLog (size : nat).

Inductive gasName :=
| G_gasExpFrontier | G_gasExpEIP158 | G_gasKeccak256 | G_gasCallDataCopy | G_gasCodeCopy
| G_gasMcopy | G_gasExtCodeCopy | G_gasReturnDataCopy | G_gasSStore | G_gasSStoreEIP2200
| G_gasReturn | G_gasRevert | G_gasMLoad | G_gasMStore8 | G_gasMStore | G_gasCreate
| G_gasCreate2 | G_gasCall | G_gasCallCode | G_gasDelegateCall | G_gasStaticCall
| G_gasSelfdestruct | G_gasCreateEip3860 | G_gasCreate2Eip3860 | G_gasSLoadEIP2929
| G_gasExtCodeCopyEIP2929 | G_gasEip2929AccountCheck | G_gasCallEIP2929
| G_gasDelegateCallEIP2929 | G_gasStaticCallEIP2929 | G_gasCallCodeEIP2929
| G_gasSelfdestructEIP2929 | G_gasSelfdestructEIP3529 | G_gasSStoreEIP2929 | G_gasSStoreEIP3529
| G_gasCallEIP7702 | G_gasDelegateCallEIP7702 | G_gasStaticCallEIP7702 | G_gasCallCodeEIP7702
| G_makeGasLog (n : Z).

Inductive memoryName :=
| M_memoryKeccak256 | M_memoryCallDataCopy | M_memoryReturnDataCopy | M_memoryCodeCopy
| M_memoryExtCodeCopy | M_memoryMLoad | M_memoryMStore8 | M_memoryMStore | M_memoryMcopy
| M_memoryCreate | M_memoryCreate2 | M_memoryCall | M_memoryDelegateCall | M_memoryStaticCall
| M_memoryReturn | M_memoryRevert | M_memoryLog.

#[global] Instance executeName_eq_dec : EqDecision executeName.
Proof. solve_decision. Defined.
#[global] Instance gasName_eq_dec : EqDecision gasName.
Proof. solve_decision. Defined.

Record operation := mkOp {
  execute : executeName;
  constantGas : Z;
  dynamicGas : option gasName;
  op_minStack : Z;
  op_maxStack : Z;
  memorySize : option memoryName
}.

Section Semantics.
Context {U : Uint256} {H : Host}.
Variable E : evmE.
Variable K : Calls.

Definition execute_sem (x : executeName) : VM execRes :=
  match x with
  | X_opStop => opStop
  | X_opAdd => opAdd
  | X_opMul => opMul
  | X_opSub => opSub
  | X_opDiv => opDiv
  | X_opSdiv => opSdiv
  | X_opMod => opMod
  | X_opSmod => opSmod
  | X_opAddmod => opAddmod
  | X_opMulmod => opMulmod
  | X_opExp => opExp
  | X_opSignExtend => opSignExtend
  | X_opLt => opLt
  | X_opGt => opGt
  | X_opSlt => opSlt
  | X_opSgt => opSgt
  | X_opEq => opEq
  | X_opIszero => opIszero
  | X_opAnd => opAnd
  | X_opXor => opXor
  | X_opOr => opOr
  | X_opNot => opNot
  | X_opByte => opByte
  | X_opKeccak256 => opKeccak256
  | X_opAddress => opAddress
  | X_opBalance => opBalance
  | X_opOrigin => opOrigin E
  | X_opCaller => opCaller
  | X_opCallValue => opCallValue
  | X_opCallDataLoad => opCallDataLoad
  | X_opCallDataSize => opCallDataSize
  | X_opCallDataCopy => opCallDataCopy
  | X_opCodeSize => opCodeSize
  | X_opCodeCopy => opCodeCopy
  | X_opGasprice => opGasprice E
  | X_opExtCodeSize => opExtCodeSize
  | X_opExtCodeCopy => opExtCodeCopy
  | X_opBlockhash => opBlockhash E
  | X_opCoinbase => opCoinbase E
  | X_opTimestamp => opTimestamp E
  | X_opNumber => opNumber E
  | X_opDifficulty => opDifficulty E
  | X_opGasLimit => opGasLimit E
  | X_opPop => opPop
  | X_opMload => opMload
  | X_opMstore => opMstore
  | X_opMstore8 => opMstore8
  | X_opSload => opSload
  | X_opSstore => opSstore
  | X_opJump => opJump E
  | X_opJumpi => opJumpi E
  | X_opPc => opPc
  | X_opMsize => opMsize
  | X_opGas => opGas
  | X_opJumpdest => opJumpdest
  | X_opPush1 => opPush1
  | X_opCreate => opCreate E K
  | X_opCall => opCall K
  | X_opCallCode => opCallCode K
  | X_opReturn => opReturn
  | X_opSelfdestruct => opSelfdestruct
  | X_opDelegateCall => opDelegateCall K
  | X_opStaticCall => opStaticCall K
  | X_opReturnDataSize => opReturnDataSize
  | X_opReturnDataCopy => opReturnDataCopy
  | X_opRevert => opRevert
  | X_opSHL => opSHL
  | X_opSHR => opSHR
  | X_opSAR => opSAR
  | X_opExtCodeHash => opExtCodeHash
  | X_opCreate2 => opCreate2 K
  | X_opRandom => opRandom E
  | X_opSelfBalance => opSelfBalance
  | X_opChainID => opChainID E
  | X_opBaseFee => opBaseFee E
  | X_opPush0 => opPush0
  | X_opBlobHash => opBlobHash E
  | X_opBlobBaseFee => opBlobBaseFee E
  | X_opTload => opTload
  | X_opTstore => opTstore
  | X_opMcopy => opMcopy
  | X_opCLZ => opCLZ
  | X_opSelfdestruct6780 => opSelfdestruct6780
  | X_opUndefined => opUndefined
  | X_makePush size pushByteSize => makePush size pushByteSize
  | X_makeDup size => makeDup size
  | X_makeSwap size => makeSwap size
  | X_makeLog size => makeLog E size
  end.

Definition dynamicGas_sem (g : gasName) : Z -> VM gasRes :=
  let rules := chainRules E in
  match g with
  | G_gasExpFrontier => gasExpFrontier
  | G_gasExpEIP158 => gasExpEIP158
  | G_gasKeccak256 => gasKeccak256
  | G_gasCallDataCopy => gasCallDataCopy
  | G_gasCodeCopy => gasCodeCopy
  | G_gasMcopy => gasMcopy
  | G_gasExtCodeCopy => gasExtCodeCopy
  | G_gasReturnDataCopy => gasReturnDataCopy
  | G_gasSStore => gasSStore rules
  | G_gasSStoreEIP2200 => gasSStoreEIP2200
  | G_gasReturn => gasReturn
  | G_gasRevert => gasRevert
  | G_gasMLoad => gasMLoad
  | G_gasMStore8 => gasMStore8
  | G_gasMStore => gasMStore
  | G_gasCreate => gasCreate
  | G_gasCreate2 => gasCreate2
  | G_gasCall => gasCall rules
  | G_gasCallCode => gasCallCode rules
  | G_gasDelegateCall => gasDelegateCall rules
  | G_gasStaticCall => gasStaticCall rules
  | G_gasSelfdestruct => gasSelfdestruct rules
  | G_gasCreateEip3860 => gasCreateEip3860
  | G_gasCreate2Eip3860 => gasCreate2Eip3860
  | G_gasSLoadEIP2929 => gasSLoadEIP2929
  | G_gasExtCodeCopyEIP2929 => gasExtCodeCopyEIP2929
  | G_gasEip2929AccountCheck => gasEip2929AccountCheck
  | G_gasCallEIP2929 => gasCallEIP2929 rules
  | G_gasDelegateCallEIP2929 => gasDelegateCallEIP2929 rules
  | G_gasStaticCallEIP2929 => gasStaticCallEIP2929 rules
  | G_gasCallCodeEIP2929 => gasCallCodeEIP2929 rules
  | G_gasSelfdestructEIP2929 => gasSelfdestructEIP2929
  | G_gasSelfdestructEIP3529 => gasSelfdestructEIP3529
  | G_gasSStoreEIP2929 => gasSStoreEIP2929
  | G_gasSStoreEIP3529 => gasSStoreEIP3529
  | G_gasCallEIP7702 => gasCallEIP7702 rules
  | G_gasDelegateCallEIP7702 => gasDelegateCallEIP7702 rules
  | G_gasStaticCallEIP7702 => gasStaticCallEIP7702 rules
  | G_gasCallCodeEIP7702 => gasCallCodeEIP7702 rules
  | G_makeGasLog n => makeGasLog n
  end.

Definition memorySize_sem (m : memoryName) : Stack -> result (Z * bool) :=
  match m with
  | M_memoryKeccak256 => memoryKeccak256
  | M_memoryCallDataCopy => memoryCallDataCopy
  | M_memoryReturnDataCopy => memoryReturnDataCopy
  | M_memoryCodeCopy => memoryCodeCopy
  | M_memoryExtCodeCopy => memoryExtCodeCopy
  | M_memoryMLoad => memoryMLoad
  | M_memoryMStore8 => memoryMStore8
  | M_memoryMStore => memoryMStore
  | M_memoryMcopy => memoryMcopy
  | M_memoryCreate => memoryCreate
  | M_memoryCreate2 => memoryCreate2
  | M_memoryCall => memoryCall
  | M_memoryDelegateCall => memoryDelegateCall
  | M_memoryStaticCall => memoryStaticCall
  | M_memoryReturn => memoryReturn
  | M_memoryRevert => memoryRevert
  | M_memoryLog => memoryLog
  end.
End Semantics.

(** ** Tables

    [JumpTable] has 256 entries; an entry is never nil once the table of the
    first fork has been filled. *)
Definition JumpTable : Type := list operation.

Definition undefinedOp : operation := mkOp X_opUndefined 0 None 0 (maxStack 0 0) None.

(** [jt[op]] *)
Definition jt_get (jt : JumpTable) (op : Z) : result operation := index jt op.
(** [jt[op] = &operation{...}] for a constant [op] of type [OpCode], a byte. *)
Definition jt_set (op : Z) (o : operation) (jt : JumpTable) : JumpTable := <[Z.to_nat op := o]> jt.
(** [jt[op].constantGas = c] and [jt[op].dynamicGas = g] *)
Definition jt_constantGas (op c : Z) (jt : JumpTable) : JumpTable :=
  alter (fun o => mkOp (execute o) c (dynamicGas o) (op_minStack o) (op_maxStack o) (memorySize o))
    (Z.to_nat op) jt.
Definition jt_dynamicGas (op : Z) (g : gasName) (jt : JumpTable) : JumpTable :=
  alter (fun o => mkOp (execute o) (constantGas o) (Some g) (op_minStack o) (op_maxStack o) (memorySize o))
    (Z.to_nat op) jt.

Definition op_valid (o : operation) : bool :=
  match memorySize o, dynamicGas o with Some _, None => false | _, _ => true end.
Definition validate (jt : JumpTable) : result JumpTable :=
  if forallb op_valid jt then Ok jt else Panic.

Definition frontierEntries0 : list (Z * operation) := [
  (STOP, mkOp X_opStop 0 None (minStack 0 0) (maxStack 0 0) None);
  (ADD, mkOp X_opAdd GasFastestStep None (minStack 2 1) (maxStack 2 1) None);
  (MUL, mkOp X_opMul GasFastStep None (minStack 2 1) (maxStack 2 1) None);
  (SUB, mkOp X_opSub GasFastestStep None (minStack 2 1) (maxStack 2 1) None);
  (DIV, mkOp X_opDiv GasFastStep None (minStack 2 1) (maxStack 2 1) None);
  (SDIV, mkOp X_opSdiv GasFastStep None (minStack 2 1) (maxStack 2 1) None);
  (MOD, mkOp X_opMod GasFastStep None (minStack 2 1) (maxStack 2 1) None);
  (SMOD, mkOp X_opSmod GasFastStep None (minStack 2 1) (maxStack 2 1) None);
  (ADDMOD, mkOp X_opAddmod GasMidStep None (minStack 3 1) (maxStack 3 1) None);
  (MULMOD, mkOp X_opMulmod GasMidStep None (minStack 3 1) (maxStack 3 1) None);
  (EXP, mkOp X_opExp 0 (Some G_gasExpFrontier) (minStack 2 1) (maxStack 2 1) None);
  (SIGNEXTEND, mkOp X_opSignExtend GasFastStep None (minStack 2 1) (maxStack 2 1) None);
  (LT, mkOp X_opLt GasFastestStep None (minStack 2 1) (maxStack 2 1) None);
  (GT, mkOp X_opGt GasFastestStep None (minStack 2 1) (maxStack 2 1) None);
  (SLT, mkOp X_opSlt GasFastestStep None (minStack 2 1) (maxStack 2 1) None);
  (SGT, mkOp X_opSgt GasFastestStep None (minStack 2 1) (maxStack 2 1) None);
  (EQ, mkOp X_opEq GasFastestStep None (minStack 2 1) (maxStack 2 1) None);
  (ISZERO, mkOp X_opIszero GasFastestStep None (minStack 1 1) (maxStack 1 1) None);
  (AND, mkOp X_opAnd GasFastestStep None (minStack 2 1) (maxStack 2 1) None);
  (XOR, mkOp X_opXor GasFastestStep None (minStack 2 1) (maxStack 2 1) None);
  (OR, mkOp X_opOr GasFastestStep None (minStack 2 1) (maxStack 2 1) None);
  (NOT, mkOp X_opNot GasFastestStep None (minStack 1 1) (maxStack 1 1) None);
  (BYTE, mkOp X_opByte GasFastestStep None (minStack 2 1) (maxStack 2 1) None);
  (KECCAK256, mkOp X_opKeccak256 Keccak256Gas (Some G_gasKeccak256) (minStack 2 1) (maxStack 2 1) (Some M_memoryKeccak256))
].
Definition frontierEntries1 : list (Z * operation) := [
  (ADDRESS, mkOp X_opAddress GasQuickStep None (minStack 0 1) (maxStack 0 1) None);
  (BALANCE, mkOp X_opBalance BalanceGasFrontier None (minStack 1 1) (maxStack 1 1) None);
  (ORIGIN, mkOp X_opOrigin GasQuickStep None (minStack 0 1) (maxStack 0 1) None);
  (CALLER, mkOp X_opCaller GasQuickStep None (minStack 0 1) (maxStack 0 1) None);
  (CALLVALUE, mkOp X_opCallValue GasQuickStep None (minStack 0 1) (maxStack 0 1) None);
  (CALLDATALOAD, mkOp X_opCallDataLoad GasFastestStep None (minStack 1 1) (maxStack 1 1) None);
  (CALLDATASIZE, mkOp X_opCallDataSize GasQuickStep None (minStack 0 1) (maxStack 0 1) None);
  (CALLDATACOPY, mkOp X_opCallDataCopy GasFastestStep (Some G_gasCallDataCopy) (minStack 3 0) (maxStack 3 0) (Some M_memoryCallDataCopy));
  (CODESIZE, mkOp X_opCodeSize GasQuickStep None (minStack 0 1) (maxStack 0 1) None);
  (CODECOPY, mkOp X_opCodeCopy GasFastestStep (Some G_gasCodeCopy) (minStack 3 0) (maxStack 3 0) (Some M_memoryCodeCopy));
  (GASPRICE, mkOp X_opGasprice GasQuickStep None (minStack 0 1) (maxStack 0 1) None);
  (EXTCODESIZE, mkOp X_opExtCodeSize ExtcodeSizeGasFrontier None (minStack 1 1) (maxStack 1 1) None);
  (EXTCODECOPY, mkOp X_opExtCodeCopy ExtcodeCopyBaseFrontier (Some G_gasExtCodeCopy) (minStack 4 0) (maxStack 4 0) (Some M_memoryExtCodeCopy));
  (BLOCKHASH, mkOp X_opBlockhash GasExtStep None (minStack 1 1) (maxStack 1 1) None);
  (COINBASE, mkOp X_opCoinbase GasQuickStep None (minStack 0 1) (maxStack 0 1) None);
  (TIMESTAMP, mkOp X_opTimestamp GasQuickStep None (minStack 0 1) (maxStack 0 1) None);
  (NUMBER, mkOp X_opNumber GasQuickStep None (minStack 0 1) (maxStack 0 1) None);
  (DIFFICULTY, mkOp X_opDifficulty GasQuickStep None (minStack 0 1) (maxStack 0 1) None);
  (GASLIMIT, mkOp X_opGasLimit GasQuickStep None (minStack 0 1) (maxStack 0 1) None);
  (POP, mkOp X_opPop GasQuickStep None (minStack 1 0) (maxStack 1 0) None);
  (MLOAD, mkOp X_opMload GasFastestStep (Some G_gasMLoad) (minStack 1 1) (maxStack 1 1) (Some M_memoryMLoad));
  (MSTORE, mkOp X_opMstore GasFastestStep (Some G_gasMStore) (minStack 2 0) (maxStack 2 0) (Some M_memoryMStore));
  (MSTORE8, mkOp X_opMstore8 GasFastestStep (Some G_gasMStore8) (minStack 2 0) (maxStack 2 0) (Some M_memoryMStore8))
].
Definition frontierEntries2 : list (Z * operation) := [
  (SLOAD, mkOp X_opSload SloadGasFrontier None (minStack 1 1) (maxStack 1 1) None);
  (SSTORE, mkOp X_opSstore 0 (Some G_gasSStore) (minStack 2 0) (maxStack 2 0) None);
  (JUMP, mkOp X_opJump GasMidStep None (minStack 1 0) (maxStack 1 0) None);
  (JUMPI, mkOp X_opJumpi GasSlowStep None (minStack 2 0) (maxStack 2 0) None);
  (PC, mkOp X_opPc GasQuickStep None (minStack 0 1) (maxStack 0 1) None);
  (MSIZE, mkOp X_opMsize GasQuickStep None (minStack 0 1) (maxStack 0 1) None);
  (GAS, mkOp X_opGas GasQuickStep None (minStack 0 1) (maxStack 0 1) None);
  (JUMPDEST, mkOp X_opJumpdest JumpdestGas None (minStack 0 0) (maxStack 0 0) None);
  (PUSH1, mkOp X_opPush1 GasFastestStep None (minStack 0 1) (maxStack 0 1) None);
  (PUSH2, mkOp (X_makePush 2 2) GasFastestStep None (minStack 0 1) (maxStack 0 1) None);
  (PUSH3, mkOp (X_makePush 3 3) GasFastestStep None (minStack 0 1) (maxStack 0 1) None);
  (PUSH4, mkOp (X_makePush 4 4) GasFastestStep None (minStack 0 1) (maxStack 0 1) None);
  (PUSH5, mkOp (X_makePush 5 5) GasFastestStep None (minStack 0 1) (maxStack 0 1) None);
  (PUSH6, mkOp (X_makePush 6 6) GasFastestStep None (minStack 0 1) (maxStack 0 1) None);
  (PUSH7, mkOp (X_makePush 7 7) GasFastestStep None (minStack 0 1) (maxStack 0 1) None);
  (PUSH8, mkOp (X_makePush 8 8) GasFastestStep None (minStack 0 1) (maxStack 0 1) None);
  (PUSH9, mkOp (X_makePush 9 9) GasFastestStep None (minStack 0 1) (maxStack 0 1) None);
  (PUSH10, mkOp (X_makePush 10 10) GasFastestStep None (minStack 0 1) (maxStack 0 1) None);
  (PUSH11, mkOp (X_makePush 11 11) GasFastestStep None (minStack 0 1) (maxStack 0 1) None);
  (PUSH12, mkOp (X_makePush 12 12) GasFastestStep None (minStack 0 1) (maxStack 0 1) None);
  (PUSH13, mkOp (X_makePush 13 13) GasFastestStep None (minStack 0 1) (maxStack 0 1) None);
  (PUSH14, mkOp (X_makePush 14 14) GasFastestStep None (minStack 0 1) (maxStack 0 1) None);
  (PUSH15, mkOp (X_makePush 15 15) GasFastestStep None (minStack 0 1) (maxStack 0 1) None);
  (PUSH16, mkOp (X_makePush 16 16) GasFastestStep None (minStack 0 1) (maxStack 0 1) None);
  (PUSH17, mkOp (X_makePush 17 17) GasFastestStep None (minStack 0 1) (maxStack 0 1) None)
].
Definition frontierEntries3 : list (Z * operation) := [
  (PUSH18, mkOp (X_makePush 18 18) GasFastestStep None (minStack 0 1) (maxStack 0 1) None);
  (PUSH19, mkOp (X_makePush 19 19) GasFastestStep None (minStack 0 1) (maxStack 0 1) None);
  (PUSH20, mkOp (X_makePush 20 20) GasFastestStep None (minStack 0 1) (maxStack 0 1) None);
  (PUSH21, mkOp (X_makePush 21 21) GasFastestStep None (minStack 0 1) (maxStack 0 1) None);
  (PUSH22, mkOp (X_makePush 22 22) GasFastestStep None (minStack 0 1) (maxStack 0 1) None);
  (PUSH23, mkOp (X_makePush 23 23) GasFastestStep None (minStack 0 1) (maxStack 0 1) None);
  (PUSH24, mkOp (X_makePush 24 24) GasFastestStep None (minStack 0 1) (maxStack 0 1) None);
  (PUSH25, mkOp (X_makePush 25 25) GasFastestStep None (minStack 0 1) (maxStack 0 1) None);
  (PUSH26, mkOp (X_makePush 26 26) GasFastestStep None (minStack 0 1) (maxStack 0 1) None);
  (PUSH27, mkOp (X_makePush 27 27) GasFastestStep None (minStack 0 1) (maxStack 0 1) None);
  (PUSH28, mkOp (X_makePush 28 28) GasFastestStep None (minStack 0 1) (maxStack 0 1) None);
  (PUSH29, mkOp (X_makePush 29 29) GasFastestStep None (minStack 0 1) (maxStack 0 1) None);
  (PUSH30, mkOp (X_makePush 30 30) GasFastestStep None (minStack 0 1) (maxStack 0 1) None);
  (PUSH31, mkOp (X_makePush 31 31) GasFastestStep None (minStack 0 1) (maxStack 0 1) None);
  (PUSH32, mkOp (X_makePush 32 32) GasFastestStep None (minStack 0 1) (maxStack 0 1) None);
  (DUP1, mkOp (X_makeDup 1) GasFastestStep None (minDupStack 1) (maxDupStack 1) None);
  (DUP2, mkOp (X_makeDup 2) GasFastestStep None (minDupStack 2) (maxDupStack 2) None);
  (DUP3, mkOp (X_makeDup 3) GasFastestStep None (minDupStack 3) (maxDupStack 3) None);
  (DUP4, mkOp (X_makeDup 4) GasFastestStep None (minDupStack 4) (maxDupStack 4) None);
  (DUP5, mkOp (X_makeDup 5) GasFastestStep None (minDupStack 5) (maxDupStack 5) None);
  (DUP6, mkOp (X_makeDup 6) GasFastestStep None (minDupStack 6) (maxDupStack 6) None);
  (DUP7, mkOp (X_makeDup 7) GasFastestStep None (minDupStack 7) (maxDupStack 7) None);
  (DUP8, mkOp (X_makeDup 8) GasFastestStep None (minDupStack 8) (maxDupStack 8) None);
  (DUP9, mkOp (X_makeDup 9) GasFastestStep None (minDupStack 9) (maxDupStack 9) None);
  (DUP10, mkOp (X_makeDup 10) GasFastestStep None (minDupStack 10) (maxDupStack 10) None)
].
Definition frontierEntries4 : list (Z * operation) := [
  (DUP11, mkOp (X_makeDup 11) GasFastestStep None (minDupStack 11) (maxDupStack 11) None);
  (DUP12, mkOp (X_makeDup 12) GasFastestStep None (minDupStack 12) (maxDupStack 12) None);
  (DUP13, mkOp (X_makeDup 13) GasFastestStep None (minDupStack 13) (maxDupStack 13) None);
  (DUP14, mkOp (X_makeDup 14) GasFastestStep None (minDupStack 14) (maxDupStack 14) None);
  (DUP15, mkOp (X_makeDup 15) GasFastestStep None (minDupStack 15) (maxDupStack 15) None);
  (DUP16, mkOp (X_makeDup 16) GasFastestStep None (minDupStack 16) (maxDupStack 16) None);
  (SWAP1, mkOp (X_makeSwap 1) GasFastestStep None (minSwapStack 2) (maxSwapStack 2) None);
  (SWAP2, mkOp (X_makeSwap 2) GasFastestStep None (minSwapStack 3) (maxSwapStack 3) None);
  (SWAP3, mkOp (X_makeSwap 3) GasFastestStep None (minSwapStack 4) (maxSwapStack 4) None);
  (SWAP4, mkOp (X_makeSwap 4) GasFastestStep None (minSwapStack 5) (maxSwapStack 5) None);
  (SWAP5, mkOp (X_makeSwap 5) GasFastestStep None (minSwapStack 6) (maxSwapStack 6) None);
  (SWAP6, mkOp (X_makeSwap 6) GasFastestStep None (minSwapStack 7) (maxSwapStack 7) None);
  (SWAP7, mkOp (X_makeSwap 7) GasFastestStep None (minSwapStack 8) (maxSwapStack 8) None);
  (SWAP8, mkOp (X_makeSwap 8) GasFastestStep None (minSwapStack 9) (maxSwapStack 9) None);
  (SWAP9, mkOp (X_makeSwap 9) GasFastestStep None (minSwapStack 10) (maxSwapStack 10) None);
  (SWAP10, mkOp (X_makeSwap 10) GasFastestStep None (minSwapStack 11) (maxSwapStack 11) None);
  (SWAP11, mkOp (X_makeSwap 11) GasFastestStep None (minSwapStack 12) (maxSwapStack 12) None);
  (SWAP12, mkOp (X_makeSwap 12) GasFastestStep None (minSwapStack 13) (maxSwapStack 13) None);
  (SWAP13, mkOp (X_makeSwap 13) GasFastestStep None (minSwapStack 14) (maxSwapStack 14) None);
  (SWAP14, mkOp (X_makeSwap 14) GasFastestStep None (minSwapStack 15) (maxSwapStack 15) None);
  (SWAP15, mkOp (X_makeSwap 15) GasFastestStep None (minSwapStack 16) (maxSwapStack 16) None);
  (SWAP16, mkOp (X_makeSwap 16) GasFastestStep None (minSwapStack 17) (maxSwapStack 17) None);
  (LOG0, mkOp (X_makeLog 0) 0 (Some (G_makeGasLog 0)) (minStack 2 0) (maxStack 2 0) (Some M_memoryLog));
  (LOG1, mkOp (X_makeLog 1) 0 (Some (G_makeGasLog 1)) (minStack 3 0) (maxStack 3 0) (Some M_memoryLog))
].
Definition frontierEntries5 : list (Z * operation) := [
  (LOG2, mkOp (X_makeLog 2) 0 (Some (G_makeGasLog 2)) (minStack 4 0) (maxStack 4 0) (Some M_memoryLog));
  (LOG3, mkOp (X_makeLog 3) 0 (Some (G_makeGasLog 3)) (minStack 5 0) (maxStack 5 0) (Some M_memoryLog));
  (LOG4, mkOp (X_makeLog 4) 0 (Some (G_makeGasLog 4)) (minStack 6 0) (maxStack 6 0) (Some M_memoryLog));
  (CREATE, mkOp X_opCreate CreateGas (Some G_gasCreate) (minStack 3 1) (maxStack 3 1) (Some M_memoryCreate));
  (CALL, mkOp X_opCall CallGasFrontier (Some G_gasCall) (minStack 7 1) (maxStack 7 1) (Some M_memoryCall));
  (CALLCODE, mkOp X_opCallCode CallGasFrontier (Some G_gasCallCode) (minStack 7 1) (maxStack 7 1) (Some M_memoryCall));
  (RETURN, mkOp X_opReturn 0 (Some G_gasReturn) (minStack 2 0) (maxStack 2 0) (Some M_memoryReturn));
  (SELFDESTRUCT, mkOp X_opSelfdestruct 0 (Some G_gasSelfdestruct) (minStack 1 0) (maxStack 1 0) None)
].

Fixpoint lookupEntry (l : list (Z * operation)) (i : Z) : option operation :=
  match l with
  | [] => None
  | (k, o) :: l => if k =? i then Some o else lookupEntry l i
  end.

(** The loop fills every unassigned slot. *)
Definition newFrontierInstructionSet : result JumpTable :=
  let tbl := frontierEntries0 ++ frontierEntries1 ++ frontierEntries2 ++ frontierEntries3 ++ frontierEntries4 ++ frontierEntries5 in
  validate (map (fun i => default undefinedOp (lookupEntry tbl (Z.of_nat i))) (seq 0 256)).

Definition newHomesteadInstructionSet : result JumpTable :=
  instructionSet ← newFrontierInstructionSet;
  validate (jt_set DELEGATECALL
    (mkOp X_opDelegateCall CallGasFrontier (Some G_gasDelegateCall) (minStack 6 1) (maxStack 6 1)
       (Some M_memoryDelegateCall)) instructionSet).

Definition newTangerineWhistleInstructionSet : result JumpTable :=
  instructionSet ← newHomesteadInstructionSet;
  validate
    (jt_constantGas DELEGATECALL CallGasEIP150
    (jt_constantGas CALLCODE CallGasEIP150
    (jt_constantGas CALL CallGasEIP150
    (jt_constantGas EXTCODECOPY ExtcodeCopyBaseEIP150
    (jt_constantGas SLOAD SloadGasEIP150
    (jt_constantGas EXTCODESIZE ExtcodeSizeGasEIP150
    (jt_constantGas BALANCE BalanceGasEIP150 instructionSet))))))).

Definition newSpuriousDragonInstructionSet : result JumpTable :=
  instructionSet ← newTangerineWhistleInstructionSet;
  validate (jt_dynamicGas EXP G_gasExpEIP158 instructionSet).

Definition newByzantiumInstructionSet : result JumpTable :=
  instructionSet ← newSpuriousDragonInstructionSet;
  validate
    (jt_set REVERT
      (mkOp X_opRevert 0 (Some G_gasRevert) (minStack 2 0) (maxStack 2 0) (Some M_memoryRevert))
    (jt_set RETURNDATACOPY
      (mkOp X_opReturnDataCopy GasFastestStep (Some G_gasReturnDataCopy) (minStack 3 0) (maxStack 3 0)
         (Some M_memoryReturnDataCopy))
    (jt_set RETURNDATASIZE
      (mkOp X_opReturnDataSize GasQuickStep None (minStack 0 1) (maxStack 0 1) None)
    (jt_set STATICCALL
      (mkOp X_opStaticCall CallGasEIP150 (Some G_gasStaticCall) (minStack 6 1) (maxStack 6 1)
         (Some M_memoryStaticCall))
    instructionSet)))).

Definition newConstantinopleInstructionSet : result JumpTable :=
  instructionSet ← newByzantiumInstructionSet;
  validate
    (jt_set CREATE2
      (mkOp X_opCreate2 Create2Gas (Some G_gasCreate2) (minStack 4 1) (maxStack 4 1)
         (Some M_memoryCreate2))
    (jt_set EXTCODEHASH
      (mkOp X_opExtCodeHash ExtcodeHashGasConstantinople None (minStack 1 1) (maxStack 1 1) None)
    (jt_set SAR (mkOp X_opSAR GasFastestStep None (minStack 2 1) (maxStack 2 1) None)
    (jt_set SHR (mkOp X_opSHR GasFastestStep None (minStack 2 1) (maxStack 2 1) None)
    (jt_set SHL (mkOp X_opSHL GasFastestStep None (minStack 2 1) (maxStack 2 1) None)
    instructionSet))))).

(** ** Activators *)
Definition enable1884 (jt : JumpTable) : JumpTable :=
  jt_set SELFBALANCE (mkOp X_opSelfBalance GasFastStep None (minStack 0 1) (maxStack 0 1) None)
  (jt_constantGas EXTCODEHASH ExtcodeHashGasEIP1884
  (jt_constantGas BALANCE BalanceGasEIP1884
  (jt_constantGas SLOAD SloadGasEIP1884 jt))).
Definition enable1344 (jt : JumpTable) : JumpTable :=
  jt_set CHAINID (mkOp X_opChainID GasQuickStep None (minStack 0 1) (maxStack 0 1) None) jt.
Definition enable2200 (jt : JumpTable) : JumpTable :=
  jt_dynamicGas SSTORE G_gasSStoreEIP2200 (jt_constantGas SLOAD SloadGasEIP2200 jt).
Definition enable2929 (jt : JumpTable) : JumpTable :=
  jt_dynamicGas SELFDESTRUCT G_gasSelfdestructEIP2929
  (jt_constantGas SELFDESTRUCT SelfdestructGasEIP150
  (jt_dynamicGas DELEGATECALL G_gasDelegateCallEIP2929
  (jt_constantGas DELEGATECALL WarmStorageReadCostEIP2929
  (jt_dynamicGas STATICCALL G_gasStaticCallEIP2929
  (jt_constantGas STATICCALL WarmStorageReadCostEIP2929
  (jt_dynamicGas CALLCODE G_gasCallCodeEIP2929
  (jt_constantGas CALLCODE WarmStorageReadCostEIP2929
  (jt_dynamicGas CALL G_gasCallEIP2929
  (jt_constantGas CALL WarmStorageReadCostEIP2929
  (jt_dynamicGas BALANCE G_gasEip2929AccountCheck
  (jt_constantGas BALANCE WarmStorageReadCostEIP2929
  (jt_dynamicGas EXTCODEHASH G_gasEip2929AccountCheck
  (jt_constantGas EXTCODEHASH WarmStorageReadCostEIP2929
  (jt_dynamicGas EXTCODESIZE G_gasEip2929AccountCheck
  (jt_constantGas EXTCODESIZE WarmStorageReadCostEIP2929
  (jt_dynamicGas EXTCODECOPY G_gasExtCodeCopyEIP2929
  (jt_constantGas EXTCODECOPY WarmStorageReadCostEIP2929
  (jt_dynamicGas SLOAD G_gasSLoadEIP2929
  (jt_constantGas SLOAD 0
  (jt_dynamicGas SSTORE G_gasSStoreEIP2929 jt)))))))))))))))))))).
Definition enable3529 (jt : JumpTable) : JumpTable :=
  jt_dynamicGas SELFDESTRUCT G_gasSelfdestructEIP3529 (jt_dynamicGas SSTORE G_gasSStoreEIP3529 jt).
Definition enable3198 (jt : JumpTable) : JumpTable :=
  jt_set BASEFEE (mkOp X_opBaseFee GasQuickStep None (minStack 0 1) (maxStack 0 1) None) jt.
Definition enable3860 (jt : JumpTable) : JumpTable :=
  jt_dynamicGas CREATE2 G_gasCreate2Eip3860 (jt_dynamicGas CREATE G_gasCreateEip3860 jt).
Definition enable3855 (jt : JumpTable) : JumpTable :=
  jt_set PUSH0 (mkOp X_opPush0 GasQuickStep None (minStack 0 1) (maxStack 0 1) None) jt.
Definition enable4844 (jt : JumpTable) : JumpTable :=
  jt_set BLOBHASH (mkOp X_opBlobHash GasFastestStep None (minStack 1 1) (maxStack 1 1) None) jt.
Definition enable7939 (jt : JumpTable) : JumpTable :=
  jt_set CLZ (mkOp X_opCLZ GasFastestStep None (minStack 1 1) (maxStack 1 1) None) jt.
Definition enable7516 (jt : JumpTable) : JumpTable :=
  jt_set BLOBBASEFEE (mkOp X_opBlobBaseFee GasQuickStep None (minStack 0 1) (maxStack 0 1) None) jt.
Definition enable1153 (jt : JumpTable) : JumpTable :=
  jt_set TSTORE (mkOp X_opTstore WarmStorageReadCostEIP2929 None (minStack 2 0) (maxStack 2 0) None)
  (jt_set TLOAD (mkOp X_opTload WarmStorageReadCostEIP2929 None (minStack 1 1) (maxStack 1 1) None) jt).
Definition enable5656 (jt : JumpTable) : JumpTable :=
  jt_set MCOPY (mkOp X_opMcopy GasFastestStep (Some G_gasMcopy) (minStack 3 0) (maxStack 3 0)
                  (Some M_memoryMcopy)) jt.
Definition enable6780 (jt : JumpTable) : JumpTable :=
  jt_set SELFDESTRUCT (mkOp X_opSelfdestruct6780 SelfdestructGasEIP150 (Some G_gasSelfdestructEIP3529)
                         (minStack 1 0) (maxStack 1 0) None) jt.
Definition enable7702 (jt : JumpTable) : JumpTable :=
  jt_dynamicGas DELEGATECALL G_gasDelegateCallEIP7702
  (jt_dynamicGas STATICCALL G_gasStaticCallEIP7702
  (jt_dynamicGas CALLCODE G_gasCallCodeEIP7702
  (jt_dynamicGas CALL G_gasCallEIP7702 jt))).

Definition newIstanbulInstructionSet : result JumpTable :=
  instructionSet ← newConstantinopleInstructionSet;
  validate (enable2200 (enable1884 (enable1344 instructionSet))).
Definition newBerlinInstructionSet : result JumpTable :=
  instructionSet ← newIstanbulInstructionSet;
  validate (enable2929 instructionSet).
Definition newLondonInstructionSet : result JumpTable :=
  instructionSet ← newBerlinInstructionSet;
  validate (enable3198 (enable3529 instructionSet)).
Definition newMergeInstructionSet : result JumpTable :=
  instructionSet ← newLondonInstructionSet;
  validate (jt_set RANDOM (mkOp X_opRandom GasQuickStep None (minStack 0 1) (maxStack 0 1) None)
              instructionSet).
Definition newShanghaiInstructionSet : result JumpTable :=
  instructionSet ← newMergeInstructionSet;
  validate (enable3855 (enable3860 instructionSet)).
Definition newCancunInstructionSet : result JumpTable :=
  instructionSet ← newShanghaiInstructionSet;
  validate (enable6780 (enable5656 (enable1153 (enable7516 (enable4844 instructionSet))))).
Definition newPragueInstructionSet : result JumpTable :=
  instructionSet ← newCancunInstructionSet;
  validate (enable7702 instructionSet).
Definition newOsakaInstructionSet : result JumpTable :=
  instructionSet ← newPragueInstructionSet;
  validate (enable7939 instructionSet).

Definition activators : list (Z * (JumpTable -> JumpTable)) := [
  (4844, enable4844); (7516, enable7516); (1153, enable1153); (6780, enable6780);
  (5656, enable5656); (3855, enable3855); (3860, enable3860); (3529, enable3529);
  (3198, enable3198); (2929, enable2929); (2200, enable2200); (1884, enable1884);
  (1344, enable1344); (7939, enable7939)
].

Definition activator (eipNum : Z) : option (JumpTable -> JumpTable) :=
  snd <$> List.find (fun p => fst p =? eipNum) activators.
Definition ValidEip (eipNum : Z) : bool := match activator eipNum with Some _ => true | None => false end.
(** The table, and whether the EIP is known (the returned error is nil). *)
Definition EnableEIP (eipNum : Z) (jt : JumpTable) : JumpTable * bool :=
  match activator eipNum with Some enablerFn => (enablerFn jt, true) | None => (jt, false) end.

(** ** The tables of the forks

    They are package variables, computed when the program starts. *)
Inductive fork :=
| F_frontier | F_homestead | F_tangerineWhistle | F_spuriousDragon | F_byzantium | F_constantinople
| F_istanbul | F_berlin | F_london | F_merge | F_shanghai | F_cancun | F_prague | F_osaka.
#[global] Instance fork_eq_dec : EqDecision fork.
Proof. solve_decision. Defined.

Definition newInstructionSet (f : fork) : result JumpTable :=
  match f with
  | F_frontier => newFrontierInstructionSet
  | F_homestead => newHomesteadInstructionSet
  | F_tangerineWhistle => newTangerineWhistleInstructionSet
  | F_spuriousDragon => newSpuriousDragonInstructionSet
  | F_byzantium => newByzantiumInstructionSet
  | F_constantinople => newConstantinopleInstructionSet
  | F_istanbul => newIstanbulInstructionSet
  | F_berlin => newBerlinInstructionSet
  | F_london => newLondonInstructionSet
  | F_merge => newMergeInstructionSet
  | F_shanghai => newShanghaiInstructionSet
  | F_cancun => newCancunInstructionSet
  | F_prague => newPragueInstructionSet
  | F_osaka => newOsakaInstructionSet
  end.

(** The variables [frontierInstructionSet], ..., [osakaInstructionSet]. *)
Definition Tables : Type := fork -> JumpTable.
Definition set_table (T : Tables) (f : fork) (jt : JumpTable) : Tables :=
  fun g => if decide (g = f) then jt else T g.

Definition forks : list fork :=
  [F_frontier; F_homestead; F_tangerineWhistle; F_spuriousDragon; F_byzantium; F_constantinople;
   F_istanbul; F_berlin; F_london; F_merge; F_shanghai; F_cancun; F_prague; F_osaka].
Fixpoint init_tables (l : list fork) (T : Tables) : result Tables :=
  match l with
  | [] => Ok T
  | f :: l' => jt ← newInstructionSet f; init_tables l' (set_table T f jt)
  end.
Definition initialTables : result Tables := init_tables forks (fun _ => []).

(** ** [NewEVMInterpreter] *)

(** The table the fork rules select. *)
Definition selectInstructionSet (r : Rules) : fork :=
  if r_IsOsaka r then F_osaka
  else if r_IsPrague r then F_prague
  else if r_IsCancun r then F_cancun
  else if r_IsShanghai r then F_shanghai
  else if r_IsMerge r then F_merge
  else if r_IsLondon r then F_london
  else if r_IsBerlin r then F_berlin
  else if r_IsIstanbul r then F_istanbul
  else if r_IsConstantinople r then F_constantinople
  else if r_IsByzantium r then F_byzantium
  else if r_IsEIP158 r then F_spuriousDragon
  else if r_IsEIP150 r then F_tangerineWhistle
  else if r_IsHomestead r then F_homestead
  else F_frontier.

(** [cfg.JumpTable[op] = &operation{execute: opUndefined, maxStack: maxStack(0, 0)}]
    for every disabled opcode, an [int] that may be out of range. *)
Fixpoint disableOpcodes (ops : list Z) (jt : JumpTable) : result JumpTable :=
  match ops with
  | [] => Ok jt
  | op :: ops => jt ← set_index jt op undefinedOp; disableOpcodes ops jt
  end.

(** The loop over [cfg.ExtraEips].  [eips] is the backing array the range
    expression was evaluated to, [len] the length of the slice [cfg.ExtraEips],
    which shrinks in place, on the same array, when an EIP is unknown. *)
Fixpoint extraEips (n : nat) (i : Z) (eips : list Z) (len : Z) (jt : JumpTable)
    : result (JumpTable * list Z) :=
  match n with
  | O => Ok (jt, take (Z.to_nat len) eips)
  | S n =>
    eip ← index eips i;
    let '(copy, ok) := EnableEIP eip jt in
    if ok : bool then extraEips n (i + 1) eips len copy
    else
      tail ← slice (take (Z.to_nat len) eips) (i + 1) len;
      extraEips n (i + 1) (copy_at eips i tail) (len - 1) copy
  end.

(** The table chosen when [cfg.JumpTable] is nil, and the remaining extra EIPs.
    [cfg.JumpTable] points to the variable of the fork: the RANDOM entry and the
    disabled opcodes are written into that variable, and the new values of the
    variables come first in the result.  Extra EIPs are enabled on copies. *)
Definition NewEVMInterpreter (T : Tables) (r : Rules) (DisableOpcodes : list Z) (ExtraEips : list Z)
    : result (Tables * (JumpTable * list Z)) :=
  let f := selectInstructionSet r in
  T ← (if r_IsShanghai r && negb (r_IsMerge r) then
         difficulty ← jt_get (T F_frontier) DIFFICULTY;
         jt ← set_index (T f) RANDOM difficulty;
         Ok (set_table T f jt)
       else Ok T);
  jt ← disableOpcodes DisableOpcodes (T f);
  let T := set_table T f jt in
  cfg ← extraEips (length ExtraEips) 0 ExtraEips (zlen ExtraEips) jt;
  Ok (T, cfg).

(** The values the variables can have: interpreters have been built, in any
    number and for any forks and configurations. *)
Inductive reachable_tables : Tables -> Prop :=
| reachable_init T : initialTables = Ok T -> reachable_tables T
| reachable_new T r disabled eips T' cfg :
    reachable_tables T -> NewEVMInterpreter T r disabled eips = Ok (T', cfg) -> reachable_tables T'.
