(* ===== verification/Evm.v ===== *)
(** The virtual machine: the interpreter loop ([vm/interpreter.go], [Run]) and
    the entry points of [EVM] ([vm/evm.go]).

    The code is recursive through [Run]: a CALL handler calls [EVM.Call],
    which calls [Run] for the callee.  The entry points are therefore defined
    from a [run] function, and the loop ties the knot with fuel: an iteration
    with fuel [S f] runs its nested frames and its remaining iterations with
    fuel [f].  EvmProofs.v shows how much fuel is enough.  The tracer calls
    under [Config.Debug] observe and do not change the machine; they are left
    out. *)
From Stdlib Require Import ZArith Lia.
From stdpp Require Import base numbers list gmap.
From S2P Require Import Prelude U256 Math Params OpCodes Host AccessList State StateDB Stack Memory.
From S2P Require Import Contract VmErrors Precompiles Vm Gas Instr JumpTable.
Local Open Scope Z_scope.

(** [Context.CanTransfer] and [Context.Transfer] *)
Section Transfer.
Context {H : Host}.

Definition defaultCanTransfer (addr amount : Z) : SDB bool :=
  b ← GetBalance addr; mret (amount <=? b).
Definition defaultTransfer (sender recipient amount : Z) : SDB unit :=
  _ ← SubBalance sender amount;
  AddBalance recipient amount.

Definition emptyCodeHash : Z := Keccak256Hash [[]].
End Transfer.

Section EVM.
Context {U : Uint256} {H : Host} {C : Crypto}.
Variable E : evmE.

(** [interpreter.Run(contract, input, readOnly)]: the result, and the contract
    as [Run] leaves it. *)
Variable run : Contract -> bytes -> bool -> EVM (execRes * Contract).

Definition resolveCode (addr : Z) : SDB bytes :=
  code ← GetCode addr;
  if negb (r_IsPrague (chainRules E)) then mret code
  else match ParseDelegation code with
       | Some target => GetCode target
       | None => mret code
       end.

Definition resolveCodeHash (addr : Z) : SDB Z :=
  if r_IsPrague (chainRules E) then
    code ← GetCode addr;
    match ParseDelegation code with
    | Some target => GetCodeHash target
    | None => GetCodeHash addr
    end
  else GetCodeHash addr.

Definition get_depth : EVM Z := st_gets depth.

(** [NewContract]: a caller that is not a contract has no analyses to share. *)
Definition newContract (caller object : ContractRef) (value : option Z) (gas : Z) : EVM Contract :=
  let '(c, shares) := NewContract caller object value gas in
  _ ← (if shares : bool then mret tt else st_modify (fun e => set_jumpdests e ∅));
  mret c.

(** [if err != nil { RevertToSnapshot(snapshot); if err != ErrExecutionReverted { gas = 0 } }] *)
Definition settle (snapshot : Z) (r : callRes) : EVM callRes :=
  let '(ret, gas, err) := r in
  match err with
  | None => mret (ret, gas, None)
  | Some e =>
    _ ← sdb (RevertToSnapshot snapshot);
    mret (ret, if bool_decide (e = ErrExecutionReverted) then gas else 0, Some e)
  end.

(** [ret, err = evm.interpreter.Run(contract, input, ro); gas = contract.Gas] *)
Definition runContract (contract : Contract) (input : bytes) (ro : bool) : EVM callRes :=
  '((ret, err), contract) ← run contract input ro;
  mret (ret, Gas contract, err).

Definition Call (caller : ContractRef) (addr : Z) (input : bytes) (gas value : Z) : EVM callRes :=
  d ← get_depth;
  if CallCreateDepth <? d then mret ([], gas, Some ErrDepth)
  else
    canTransfer ← (if negb (Z.sgn value =? 0)
                   then sdb (defaultCanTransfer (ContractRef_Address caller) value)
                   else mret true);
    if negb canTransfer then mret ([], gas, Some ErrInsufficientBalance)
    else
      snapshot ← sdb Snapshot;
      let p := precompile (chainRules E) addr in
      exists_ ← sdb (Exist addr);
      if negb exists_ && bool_decide (p = None) && r_IsEIP158 (chainRules E) && (Z.sgn value =? 0)
      then mret ([], gas, None)
      else
        _ ← (if negb exists_ then sdb (CreateAccount addr) else mret tt);
        _ ← sdb (defaultTransfer (ContractRef_Address caller) addr value);
        r ← match p with
            | Some p => st_lift (RunPrecompiledContract p input gas)
            | None =>
              code ← sdb (resolveCode addr);
              if zlen code =? 0 then mret ([], gas, None)
              else
                contract ← newContract caller (AccountRef addr) (Some value) gas;
                hash ← sdb (resolveCodeHash addr);
                runContract (SetCallCode contract (Some addr) hash code) input false
            end;
        settle snapshot r.

Definition CallCode (caller : ContractRef) (addr : Z) (input : bytes) (gas value : Z) : EVM callRes :=
  d ← get_depth;
  if CallCreateDepth <? d then mret ([], gas, Some ErrDepth)
  else
    canTransfer ← sdb (defaultCanTransfer (ContractRef_Address caller) value);
    if negb canTransfer then mret ([], gas, Some ErrInsufficientBalance)
    else
      snapshot ← sdb Snapshot;
      r ← match precompile (chainRules E) addr with
          | Some p => st_lift (RunPrecompiledContract p input gas)
          | None =>
            contract ← newContract caller (AccountRef (ContractRef_Address caller)) (Some value) gas;
            hash ← sdb (resolveCodeHash addr);
            code ← sdb (resolveCode addr);
            runContract (SetCallCode contract (Some addr) hash code) input false
          end;
      settle snapshot r.

Definition DelegateCall (caller : ContractRef) (addr : Z) (input : bytes) (gas : Z) : EVM callRes :=
  d ← get_depth;
  if CallCreateDepth <? d then mret ([], gas, Some ErrDepth)
  else
    snapshot ← sdb Snapshot;
    r ← match precompile (chainRules E) addr with
        | Some p => st_lift (RunPrecompiledContract p input gas)
        | None =>
          contract ← newContract caller (AccountRef (ContractRef_Address caller)) None gas;
          contract ← st_lift (AsDelegate contract);
          hash ← sdb (resolveCodeHash addr);
          code ← sdb (resolveCode addr);
          runContract (SetCallCode contract (Some addr) hash code) input false
        end;
    settle snapshot r.

(** The code of the callee is not resolved through a delegation here. *)
Definition StaticCall (caller : ContractRef) (addr : Z) (input : bytes) (gas : Z) : EVM callRes :=
  d ← get_depth;
  if CallCreateDepth <? d then mret ([], gas, Some ErrDepth)
  else
    snapshot ← sdb Snapshot;
    _ ← sdb (AddBalance addr 0);
    r ← match precompile (chainRules E) addr with
        | Some p => st_lift (RunPrecompiledContract p input gas)
        | None =>
          contract ← newContract caller (AccountRef addr) (Some 0) gas;
          hash ← sdb (GetCodeHash addr);
          code ← sdb (GetCode addr);
          runContract (SetCallCode contract (Some addr) hash code) input true
        end;
    settle snapshot r.

(** [codeAndHash.Hash]: the record with its hash computed. *)
Definition codeAndHash_Hash (c : bytes * Z) : bytes * Z :=
  if snd c =? 0 then (fst c, Keccak256Hash [fst c]) else c.

(** The checks on the code a creation returned. *)
Definition checkCode (ret : bytes) (err : option vmerror) : option vmerror :=
  let rules := chainRules E in
  let err := match err with
             | None =>
               if r_IsEIP158 rules then
                 if r_IsPip30 rules && (MaxCodeSizePIP30 <? zlen ret) then Some ErrMaxCodeSizeExceeded
                 else if MaxCodeSize <? zlen ret then Some ErrMaxCodeSizeExceeded
                 else None
               else None
             | Some _ => err
             end in
  match err with
  | None => if (1 <=? zlen ret) && bool_decide (head ret = Some 0xEF) && r_IsLondon rules
            then Some ErrInvalidCode else None
  | Some _ => err
  end.

(** [create] after [Run]: the code is checked, paid for and stored, or the
    creation is undone. *)
Definition endCreate (snapshot address : Z) (r : execRes * Contract) : EVM (callRes * Z) :=
  let '((ret, err), contract) := r in
  '(err, contract) ←
    match checkCode ret err with
    | None =>
      let createDataGas := u64 (zlen ret * CreateDataGas) in
      let '(paid, contract) := UseGas contract createDataGas in
      if paid : bool then
        _ ← sdb (SetCode address ret);
        mret (None, contract)
      else mret (Some ErrCodeStoreOutOfGas, contract)
    | Some e => mret (Some e, contract)
    end;
  match err with
  | Some e =>
    if r_IsHomestead (chainRules E) || negb (bool_decide (e = ErrCodeStoreOutOfGas)) then
      _ ← sdb (RevertToSnapshot snapshot);
      let contract := if bool_decide (e = ErrExecutionReverted) then contract
                      else snd (UseGas contract (Gas contract)) in
      mret ((ret, Gas contract, Some e), address)
    else mret ((ret, Gas contract, Some e), address)
  | None => mret ((ret, Gas contract, None), address)
  end.

Definition create (caller : ContractRef) (codeAndHash : bytes * Z) (gas value address : Z)
    : EVM (callRes * Z) :=
  d ← get_depth;
  if CallCreateDepth <? d then mret (([], gas, Some ErrDepth), 0)
  else
    canTransfer ← sdb (defaultCanTransfer (ContractRef_Address caller) value);
    if negb canTransfer then mret (([], gas, Some ErrInsufficientBalance), 0)
    else
      nonce ← sdb (GetNonce (ContractRef_Address caller));
      _ ← sdb (SetNonce (ContractRef_Address caller) (u64 (nonce + 1)));
      _ ← (if r_IsBerlin (chainRules E) then sdb (AddAddressToAccessList address) else mret tt);
      contractHash ← sdb (GetCodeHash address);
      anonce ← sdb (GetNonce address);
      if negb (anonce =? 0) || (negb (contractHash =? 0) && negb (contractHash =? emptyCodeHash))
      then mret (([], 0, Some ErrContractAddressCollision), 0)
      else
        snapshot ← sdb Snapshot;
        _ ← sdb (CreateAccount address);
        _ ← (if r_IsEIP158 (chainRules E) then sdb (SetNonce address 1) else mret tt);
        _ ← sdb (defaultTransfer (ContractRef_Address caller) address value);
        contract ← newContract caller (AccountRef address) (Some value) gas;
        r ← run (SetCodeOptionalHash contract (Some address) codeAndHash) [] false;
        endCreate snapshot address r.

Definition Create (caller : ContractRef) (code : bytes) (gas value : Z) : EVM (callRes * Z) :=
  nonce ← sdb (GetNonce (ContractRef_Address caller));
  contractAddr ← st_lift (CreateAddress (ContractRef_Address caller) nonce);
  create caller (code, 0) gas value contractAddr.

Definition Create2 (caller : ContractRef) (code : bytes) (gas endowment salt : Z) : EVM (callRes * Z) :=
  let codeAndHash := codeAndHash_Hash (code, 0) in
  let contractAddr := CreateAddress2 (ContractRef_Address caller) (u_Bytes32 salt)
                        (Hash_Bytes (snd codeAndHash)) in
  create caller codeAndHash gas endowment contractAddr.

Definition calls : Calls := {|
  do_Call := Call;
  do_CallCode := CallCode;
  do_DelegateCall := DelegateCall;
  do_StaticCall := StaticCall;
  do_Create := Create;
  do_Create2 := Create2
|}.
End EVM.

Section Interpreter.
Context {U : Uint256} {H : Host} {C : Crypto}.
Variable E : evmE.
(** [in.cfg.JumpTable] *)
Variable jt : JumpTable.

(** The dynamic part of the charge: [Some err] when the loop returns [nil, err]. *)
Definition chargeDynamic (o : operation) : VM (option vmerror) :=
  match dynamicGas o with
  | None => mret None
  | Some g =>
    f ← get_frame;
    size ← match memorySize o with
           | None => mret (Some 0)
           | Some m =>
             '(memSize, overflow) ← st_lift (memorySize_sem m (f_stack f));
             if overflow : bool then mret None
             else
               let '(size, overflow) := SafeMul (toWordSize memSize) 32 in
               mret (if overflow : bool then None else Some size)
           end;
    match size with
    | None => mret (Some ErrGasUintOverflow)
    | Some size =>
      cost ← dynamicGas_sem E g size;
      match cost with
      | GasErr _ => mret (Some ErrOutOfGas)
      | GasOk dynamicCost =>
        paid ← vUseGas dynamicCost;
        if negb paid then mret (Some ErrOutOfGas)
        else
          _ ← (if 0 <? size then mem ← get_mem; put_mem (Memory_Resize mem size) else mret tt);
          mret None
      end
    end
  end.

(** One iteration of the loop: [None] to go on, or what [Run] returns (the stop
    token not yet cleared). *)
Definition step (K : Calls) : VM (option execRes) :=
  f ← get_frame;
  o ← st_lift (jt_get jt (GetOp (f_contract f) (pc f)));
  let sLen := stack_len (f_stack f) in
  if sLen <? op_minStack o then mret (Some ([], Some (ErrStackUnderflow sLen (op_minStack o))))
  else if op_maxStack o <? sLen then mret (Some ([], Some (ErrStackOverflow sLen (op_maxStack o))))
  else
    paid ← vUseGas (constantGas o);
    if negb paid then mret (Some ([], Some ErrOutOfGas))
    else
      charged ← chargeDynamic o;
      match charged with
      | Some e => mret (Some ([], Some e))
      | None =>
        '(res, err) ← execute_sem E K (execute o);
        match err with
        | Some e => mret (Some (res, Some e))
        | None =>
          _ ← upd_frame (fun f => set_pc f (u64 (pc f + 1)));
          mret None
        end
      end.

(** [if err == errStopToken { err = nil }] *)
Definition clearStop (r : execRes) : execRes :=
  match snd r with
  | Some errStopToken => (fst r, None)
  | _ => r
  end.

(** A loop [body] in a new frame for [contract]. *)
Definition in_frame (body : VM execRes) (contract : Contract) : EVM (execRes * Contract) := fun e =>
  match body (mkV e (mkFrame 0 newstack NewMemory contract)) with
  | Ok (r, v) => Ok ((clearStop r, f_contract (fr v)), evm v)
  | Panic => Panic
  | OutOfFuel => OutOfFuel
  end.

(** [Run] around a loop [body]: depth and read-only mode are restored on exit. *)
Definition run_with (body : VM execRes) (contract : Contract) (input : bytes) (ro : bool)
    : EVM (execRes * Contract) :=
  _ ← st_modify (fun e => set_depth e (depth e + 1));
  was ← st_gets readOnly;
  let sets := ro && negb was in
  _ ← (if sets then st_modify (fun e => set_readOnly e true) else mret tt);
  _ ← st_modify (fun e => set_returnData e []);
  r ← (if zlen (Code contract) =? 0 then mret (([], None), contract)
       else in_frame body (set_Input contract input));
  _ ← (if sets then st_modify (fun e => set_readOnly e false) else mret tt);
  _ ← st_modify (fun e => set_depth e (depth e - 1));
  mret r.

(** The loop. *)
Fixpoint loop (fuel : nat) : VM execRes :=
  match fuel with
  | O => fun _ => OutOfFuel
  | S f =>
    next ← step (calls E (run_with (loop f)));
    match next with
    | Some r => mret r
    | None => loop f
    end
  end.

Definition Run (fuel : nat) : Contract -> bytes -> bool -> EVM (execRes * Contract) :=
  run_with (loop fuel).

(** The entry points with their nested runs. *)
Definition EVM_Call (fuel : nat) := Call E (Run fuel).
Definition EVM_StaticCall (fuel : nat) := StaticCall E (Run fuel).
Definition EVM_Create (fuel : nat) := Create E (Run fuel).
End Interpreter.

(** ** [NewEVM]

    The tables of the forks, which the new interpreter may have changed, the
    fixed part of the EVM, and the interpreter's table. *)
Definition NewEVM (T : Tables) (blockCtx : BlockContext) (txCtx : TxContext) (chainConfig : ChainConfig)
    (ExtraEips : list Z) (abort : nat -> bool) : result (Tables * (evmE * JumpTable)) :=
  let rules := ChainConfig_Rules chainConfig (Some (BlockNumber blockCtx))
                 (match bc_Random blockCtx with Some _ => true | None => false end)
                 (Some (bc_Time blockCtx)) in
  '(T, (jt, _)) ← NewEVMInterpreter T rules (DisableOpcodes chainConfig) ExtraEips;
  Ok (T, (mkEnv rules (cc_ChainID chainConfig) blockCtx txCtx abort, jt)).
