(* ===== verification/Demo.v ===== *)
(** A concrete machine, on which the theorems of the development are tried: a
    chain with every fork up to Prague, empty storage, hash functions that are
    easy to compute. *)
From Stdlib Require Import ZArith.
From stdpp Require Import base numbers list gmap.
From S2P Require Import Prelude U256 Params Host State StateDB Contract Precompiles Vm JumpTable Evm.
Local Open Scope Z_scope.

#[export] Instance crypto_demo : Crypto := {|
  sha256_Sum256 _ := zeros 32;
  ripemd160_Sum _ := zeros 20;
  curve_Run _ _ := ([], None)
|}.

Definition demo_block : BlockContext := {|
  GetHash _ := 0; Coinbase := 0; bc_GasLimit := 30000000; BlockNumber := 10; bc_Time := 10;
  bc_Difficulty := 0; bc_BaseFee := Some 7; bc_BlobBaseFee := Some 1; bc_Random := Some 5
|}.
Definition demo_tx : TxContext := {| Origin := 1; tx_GasPrice := 7; BlobHashes := [] |}.
Definition demo_config : ChainConfig := {|
  cc_ChainID := Some 1; HomesteadBlock := Some 0; EIP150Block := Some 0; EIP155Block := Some 0;
  EIP158Block := Some 0; ByzantiumBlock := Some 0; ConstantinopleBlock := Some 0;
  PetersburgBlock := Some 0; IstanbulBlock := Some 0; BerlinBlock := Some 0; LondonBlock := Some 0;
  ShanghaiBlock := None; CancunBlock := None; NapoliBlock := None; Pip30Block := None;
  PragueBlock := None; OsakaBlock := None; ShanghaiTime := Some 0; CancunTime := Some 0;
  PragueTime := Some 0; OsakaTime := None; DisableOpcodes := []
|}.
Definition demo_rules : Rules := ChainConfig_Rules demo_config (Some 10) true (Some 10).
Definition demo_env : evmE := mkEnv demo_rules (Some 1) demo_block demo_tx (fun _ => false).
Definition demo_tables : Tables :=
  match initialTables with Ok T => T | _ => fun _ => [] end.
Definition demo_table : JumpTable :=
  match NewEVMInterpreter demo_tables demo_rules [] [] with Ok (_, (jt, _)) => jt | _ => [] end.

(** An EVM over a database in which [77] has [code]. *)
Definition demo_db (code : bytes) : stateDB :=
  match SetCode (H := host_demo) 77 code (NewStateDB 1) with Ok (_, s) => s | _ => NewStateDB 1 end.
Definition demo_evm (code : bytes) : evmS := mkEvm (demo_db code) 0 0 false [] ∅ 0.
