(* ===== verification/VmLogic.v ===== *)
(** A small program logic for the machine.

    [wp m Q s]: from [s], [m] either panics or returns a result and a state
    that satisfy [Q]; it never runs out of fuel.  [safe m P] is the triple the
    instruction handlers share: on a stack of 256-bit words they leave the
    frame's gas, memory size and memory price alone, keep the stack a stack of
    words, and return a result that satisfies [P]. *)
From Stdlib Require Import ZArith Lia.
From stdpp Require Import base numbers list gmap.
From S2P Require Import Prelude U256 Math Params OpCodes Analysis Host AccessList State StateDB.
From S2P Require Import Stack Memory Contract VmErrors Precompiles Vm Gas Instr.
Local Open Scope Z_scope.

(** ** Computations that return or panic *)
Definition rnofuel {A} (r : result A) : Prop := r <> OutOfFuel.
Definition nofuel {S A} (m : ST S A) : Prop := forall s, m s <> OutOfFuel.

Create HintDb nofuel.

Section NoFuel.
Context {S : Type}.
Lemma nofuel_ret {A} (a : A) : nofuel (S := S) (mret a).
Proof. done. Qed.
Lemma nofuel_bind {A B} (m : ST S A) (f : A -> ST S B) :
  nofuel m -> (forall a, nofuel (f a)) -> nofuel (m ≫= f).
Proof.
  intros Hm Hf s. unfold mbind, ST_bind. specialize (Hm s).
  destruct (m s) as [[a s']| |]; [apply Hf|done|done].
Qed.
Lemma nofuel_gets {A} (f : S -> A) : nofuel (st_gets f).
Proof. done. Qed.
Lemma nofuel_modify (f : S -> S) : nofuel (st_modify f).
Proof. done. Qed.
Lemma nofuel_panic {A} : nofuel (@st_panic S A).
Proof. done. Qed.
Lemma nofuel_lift {A} (r : result A) : rnofuel r -> nofuel (S := S) (st_lift r).
Proof. intros Hr s. unfold st_lift. by destruct r. Qed.

Lemma rnofuel_ok {A} (a : A) : rnofuel (Ok a).
Proof. done. Qed.
Lemma rnofuel_bind {A B} (m : result A) (f : A -> result B) :
  rnofuel m -> (forall a, m = Ok a -> rnofuel (f a)) -> rnofuel (m ≫= f).
Proof. intros Hm Hf. unfold mbind, result_bind. destruct m; [by apply Hf|done|done]. Qed.
Lemma rnofuel_index {A} (l : list A) i : rnofuel (index l i).
Proof. unfold index, rnofuel. destruct (_ && _); [|done]. by destruct (l !! _). Qed.
Lemma rnofuel_slice {A} (l : list A) i j : rnofuel (slice l i j).
Proof. unfold slice, rnofuel. by destruct (_ && _). Qed.
Lemma rnofuel_from_option {A} (o : option A) : rnofuel (from_option_panic o).
Proof. by destruct o. Qed.
Lemma rnofuel_set_index {A} (l : list A) i x : rnofuel (set_index l i x).
Proof. unfold set_index, rnofuel. by destruct (_ && _). Qed.
End NoFuel.
#[export] Hint Resolve rnofuel_ok rnofuel_from_option rnofuel_index rnofuel_slice rnofuel_set_index nofuel_gets
  nofuel_modify nofuel_panic nofuel_ret nofuel_lift : nofuel.

Ltac rnofuel_step :=
  lazymatch goal with
  | |- rnofuel (mbind _ _) => apply rnofuel_bind; [|intros ? _]
  | |- rnofuel (if ?b then _ else _) => destruct b
  | |- rnofuel (match ?x with _ => _ end) => destruct x
  | |- rnofuel (Ok _) => apply rnofuel_ok
  | |- rnofuel Panic => done
  | |- rnofuel _ => solve [eauto with nofuel]
  end.
Ltac nofuel_step :=
  lazymatch goal with
  | |- nofuel (mbind _ _) => apply nofuel_bind; [|intros ?]
  | |- nofuel (if ?b then _ else _) => destruct b
  | |- nofuel (match ?x with _ => _ end) => destruct x
  | |- nofuel _ => solve [eauto with nofuel]
  end.
Ltac nofuel_solve := repeat first [rnofuel_step | nofuel_step].

(** *** The operations of the state database *)
Section Database.
Context {H : Host}.
Lemma nofuel_getAccount a : nofuel (getAccount a).
Proof. intros s. unfold getAccount. by destruct (state s !! a). Qed.
Lemma nofuel_put_obj a o : nofuel (put_obj a o).
Proof. done. Qed.
Lemma nofuel_push_journal e : nofuel (push_journal e).
Proof. done. Qed.
Hint Resolve nofuel_getAccount nofuel_put_obj nofuel_push_journal : nofuel.
Lemma nofuel_read_obj {A} a (f : Z -> stateObject -> A * stateObject) : nofuel (read_obj a f).
Proof. unfold read_obj. nofuel_solve. Qed.
Lemma nofuel_write_obj a f : nofuel (write_obj a f).
Proof. unfold write_obj. nofuel_solve. Qed.
Hint Resolve nofuel_read_obj nofuel_write_obj : nofuel.
Lemma nofuel_CreateAccount a : nofuel (CreateAccount a).
Proof. unfold CreateAccount. nofuel_solve. Qed.
Lemma nofuel_SubBalance a n : nofuel (SubBalance a n).
Proof. unfold SubBalance. nofuel_solve. Qed.
Lemma nofuel_AddBalance a n : nofuel (AddBalance a n).
Proof. unfold AddBalance. nofuel_solve. Qed.
Lemma nofuel_GetBalance a : nofuel (GetBalance a).
Proof. refine (nofuel_read_obj _ _). Qed.
Lemma nofuel_GetNonce a : nofuel (GetNonce a).
Proof. refine (nofuel_read_obj _ _). Qed.
Lemma nofuel_SetNonce a n : nofuel (SetNonce a n).
Proof. refine (nofuel_write_obj _ _). Qed.
Lemma nofuel_GetCodeHash a : nofuel (GetCodeHash a).
Proof. refine (nofuel_read_obj _ _). Qed.
Lemma nofuel_GetCode a : nofuel (GetCode a).
Proof. refine (nofuel_read_obj _ _). Qed.
Hint Resolve nofuel_GetCode : nofuel.
Lemma nofuel_SetCode a c : nofuel (SetCode a c).
Proof. refine (nofuel_write_obj _ _). Qed.
Lemma nofuel_GetCodeSize a : nofuel (GetCodeSize a).
Proof. unfold GetCodeSize. nofuel_solve. Qed.
Lemma nofuel_AddRefund n : nofuel (AddRefund n).
Proof. unfold AddRefund. nofuel_solve. Qed.
Lemma nofuel_SubRefund n : nofuel (SubRefund n).
Proof. unfold SubRefund. nofuel_solve. Qed.
Lemma nofuel_GetRefund : nofuel GetRefund.
Proof. done. Qed.
Lemma nofuel_GetCommittedState a k : nofuel (GetCommittedState a k).
Proof. refine (nofuel_read_obj _ _). Qed.
Lemma nofuel_GetState a k : nofuel (GetState a k).
Proof. refine (nofuel_read_obj _ _). Qed.
Lemma nofuel_SetState a k v : nofuel (SetState a k v).
Proof. refine (nofuel_write_obj _ _). Qed.
Lemma nofuel_SetTransientState a k v : nofuel (SetTransientState a k v).
Proof. unfold SetTransientState. nofuel_solve. Qed.
Lemma nofuel_GetTransientState a k : nofuel (GetTransientState a k).
Proof. unfold GetTransientState. nofuel_solve. Qed.
Lemma nofuel_Suicide a : nofuel (Suicide a).
Proof. unfold Suicide. nofuel_solve. Qed.
Hint Resolve nofuel_Suicide : nofuel.
Lemma nofuel_SelfDestruct6780 a : nofuel (SelfDestruct6780 a).
Proof. unfold SelfDestruct6780. nofuel_solve. Qed.
Lemma nofuel_HasSuicided a : nofuel (HasSuicided a).
Proof. unfold HasSuicided. nofuel_solve. Qed.
Lemma nofuel_Exist a : nofuel (Exist a).
Proof. unfold Exist. nofuel_solve. Qed.
Lemma nofuel_Empty a : nofuel (Empty a).
Proof. unfold Empty. nofuel_solve. Qed.
Lemma nofuel_AddressInAccessList a : nofuel (AddressInAccessList a).
Proof. unfold AddressInAccessList. nofuel_solve. Qed.
Lemma rnofuel_Contains al a k : rnofuel (Contains al a k).
Proof. unfold Contains. nofuel_solve. Qed.
Lemma rnofuel_AddSlot al a k : rnofuel (AddSlot al a k).
Proof. unfold AddSlot. nofuel_solve. Qed.
Hint Resolve rnofuel_Contains rnofuel_AddSlot : nofuel.
Lemma nofuel_SlotInAccessList a k : nofuel (SlotInAccessList a k).
Proof. unfold SlotInAccessList. nofuel_solve. Qed.
Lemma nofuel_AddAddressToAccessList a : nofuel (AddAddressToAccessList a).
Proof. unfold AddAddressToAccessList. nofuel_solve. Qed.
Lemma nofuel_AddSlotToAccessList a k : nofuel (AddSlotToAccessList a k).
Proof. unfold AddSlotToAccessList. nofuel_solve. Qed.
Lemma rnofuel_getAccount a s : rnofuel (getAccount a s).
Proof. exact (nofuel_getAccount a s). Qed.
Lemma rnofuel_DeleteSlot al a k : rnofuel (DeleteSlot al a k).
Proof. unfold DeleteSlot. nofuel_solve. Qed.
Hint Resolve rnofuel_getAccount rnofuel_DeleteSlot : nofuel.
Lemma rnofuel_undo l s : rnofuel (undo l s).
Proof.
  induction l as [|e l IH]; simpl; [done|]. apply rnofuel_bind; [done|]. intros t _.
  destruct e; simpl; unfold on_obj; nofuel_solve.
Qed.
Lemma nofuel_RevertToSnapshot n : nofuel (RevertToSnapshot n).
Proof.
  intros s. unfold RevertToSnapshot. destruct (_ && _); [|done].
  pose proof (rnofuel_undo (drop (Z.to_nat n) (journal s)) s) as Hu. unfold rnofuel in Hu.
  by destruct (undo _ _).
Qed.
End Database.
#[export] Hint Resolve nofuel_getAccount nofuel_CreateAccount nofuel_SubBalance nofuel_AddBalance nofuel_GetBalance
  nofuel_GetNonce nofuel_SetNonce nofuel_GetCodeHash nofuel_GetCode nofuel_SetCode nofuel_GetCodeSize
  nofuel_AddRefund nofuel_SubRefund nofuel_GetRefund nofuel_GetCommittedState nofuel_GetState
  nofuel_SetState nofuel_SetTransientState nofuel_GetTransientState nofuel_Suicide
  nofuel_SelfDestruct6780 nofuel_HasSuicided nofuel_Exist nofuel_Empty nofuel_AddressInAccessList
  nofuel_SlotInAccessList nofuel_AddAddressToAccessList nofuel_AddSlotToAccessList
  nofuel_RevertToSnapshot : nofuel.

(** ** Weakest preconditions *)
Definition wp {S A} (m : ST S A) (Q : A -> S -> Prop) (s : S) : Prop :=
  match m s with
  | Ok (a, s') => Q a s'
  | Panic => True
  | OutOfFuel => False
  end.

Section Wp.
Context {S : Type}.
Lemma wp_ret {A} (a : A) Q (s : S) : Q a s -> wp (mret a) Q s.
Proof. done. Qed.
Lemma wp_bind {A B} (m : ST S A) (f : A -> ST S B) Q s :
  wp m (fun a s' => wp (f a) Q s') s -> wp (m ≫= f) Q s.
Proof. unfold wp, mbind, ST_bind. by destruct (m s) as [[a s']| |]. Qed.
Lemma wp_mono {A} (m : ST S A) (Q R : A -> S -> Prop) s :
  wp m Q s -> (forall a s', Q a s' -> R a s') -> wp m R s.
Proof. unfold wp. destruct (m s) as [[a s']| |]; auto. Qed.
Lemma wp_gets {A} (f : S -> A) Q s : Q (f s) s -> wp (st_gets f) Q s.
Proof. done. Qed.
Lemma wp_modify (f : S -> S) Q s : Q tt (f s) -> wp (st_modify f) Q s.
Proof. done. Qed.
Lemma wp_lift {A} (r : result A) Q (s : S) :
  rnofuel r -> (forall a, r = Ok a -> Q a s) -> wp (st_lift r) Q s.
Proof. unfold wp, st_lift, rnofuel. destruct r; intros; auto. Qed.
Lemma wp_panic {A} Q (s : S) : wp (@st_panic S A) Q s.
Proof. done. Qed.
Lemma wp_ok {A} (m : ST S A) Q s a s' : m s = Ok (a, s') -> wp m Q s -> Q a s'.
Proof. unfold wp. by intros ->. Qed.
Lemma wp_nofuel {A} (m : ST S A) Q s : wp m Q s -> m s <> OutOfFuel.
Proof. unfold wp. by destruct (m s). Qed.
Lemma wp_if {A} (b : bool) (m n : ST S A) Q s :
  (b = true -> wp m Q s) -> (b = false -> wp n Q s) -> wp (if b then m else n) Q s.
Proof. destruct b; auto. Qed.
End Wp.

(** A call of the database changes nothing else. *)
Lemma wp_sdb {A} (m : SDB A) Q e :
  nofuel m -> (forall a s, Q a (set_StateDB e s)) -> wp (sdb m) Q e.
Proof. intros Hm HQ. unfold wp, sdb. specialize (Hm (StateDB e)). by destruct (m _) as [[a s]| |]. Qed.
Lemma wp_on_evm {A} (m : EVM A) Q v : wp m (fun a e => Q a (mkV e (fr v))) (evm v) -> wp (on_evm m) Q v.
Proof. unfold wp, on_evm. by destruct (m _) as [[a e]| |]. Qed.
Lemma wp_vsdb {A} (m : SDB A) Q v :
  nofuel m -> (forall a s, Q a (mkV (set_StateDB (evm v) s) (fr v))) -> wp (vsdb m) Q v.
Proof. intros. apply wp_on_evm, wp_sdb; auto. Qed.

(** ** The triple of the handlers *)
Abbreviation gas_of v := (Gas (f_contract (fr v))).
Abbreviation mem_of v := (f_mem (fr v)).
Abbreviation stack_of v := (f_stack (fr v)).

Record keeps (v v' : vstate) : Prop := {
  keeps_gas : gas_of v' = gas_of v;
  keeps_len : Memory_Len (mem_of v') = Memory_Len (mem_of v);
  keeps_price : lastGasCost (mem_of v') = lastGasCost (mem_of v)
}.
#[export] Instance keeps_preorder : PreOrder keeps.
Proof. split; [by split|]. intros ? ? ? [] []. split; congruence. Qed.

Definition safe {A} (m : VM A) (P : A -> Prop) : Prop := forall v,
  wf_stack (stack_of v) -> wp m (fun a v' => P a /\ wf_stack (stack_of v') /\ keeps v v') v.

Create HintDb safe.

Section Safe.
Lemma safe_ret {A} (a : A) (P : A -> Prop) : P a -> safe (mret a) P.
Proof. intros Ha v Hv. split_and!; done. Qed.
Lemma safe_bind {A B} (m : VM A) (f : A -> VM B) P Q :
  safe m P -> (forall a, P a -> safe (f a) Q) -> safe (m ≫= f) Q.
Proof.
  intros Hm Hf v Hv. apply wp_bind. eapply wp_mono; [by apply Hm|].
  intros a v1 (Pa & W1 & K1). eapply wp_mono; [by apply Hf|].
  intros b v2 (Qb & W2 & K2). split_and!; [done|done|by etransitivity].
Qed.
Lemma safe_mono {A} (m : VM A) (P Q : A -> Prop) : safe m P -> (forall a, P a -> Q a) -> safe m Q.
Proof. intros Hm HPQ v Hv. eapply wp_mono; [by apply Hm|]. intros a v' (? & ? & ?). auto. Qed.
Lemma safe_panic {A} (P : A -> Prop) : safe st_panic P.
Proof. done. Qed.
Lemma safe_gets {A} (f : vstate -> A) : safe (st_gets f) (fun _ => True).
Proof. intros v Hv. split_and!; done. Qed.
Lemma safe_lift {A} (r : result A) : rnofuel r -> safe (st_lift r) (fun a => r = Ok a).
Proof. intros Hr v Hv. by apply wp_lift. Qed.
Lemma safe_vsdb {A} (m : SDB A) : nofuel m -> safe (vsdb m) (fun _ => True).
Proof. intros Hm v Hv. apply wp_vsdb; [done|]. intros. split_and!; done. Qed.
Lemma safe_upd_evm f : safe (upd_evm f) (fun _ => True).
Proof. intros v Hv. split_and!; done. Qed.

Lemma safe_spop : safe spop is_u256.
Proof. intros v Hv. unfold wp, spop. destruct (stack_of v); [done|]. inversion_clear Hv. split_and!; done. Qed.
Lemma safe_speek : safe speek is_u256.
Proof.
  intros v Hv. unfold wp, speek. destruct (stack_of v) eqn:E; [done|]. inversion_clear Hv.
  rewrite E. split_and!; [done|by constructor|done].
Qed.
Lemma safe_spush x : is_u256 x -> safe (spush x) (fun _ => True).
Proof. intros Hx v Hv. split_and!; [done|by constructor|done]. Qed.
Lemma safe_sset x : is_u256 x -> safe (sset x) (fun _ => True).
Proof.
  intros Hx v Hv. unfold wp, sset. destruct (stack_of v); [done|]. inversion_clear Hv.
  split_and!; [done|by constructor|done].
Qed.
Lemma safe_put_pc x : safe (put_pc x) (fun _ => True).
Proof. intros v Hv. split_and!; done. Qed.
Lemma safe_modMem f :
  (forall m, rnofuel (f m)) ->
  (forall m m', f m = Ok m' -> Memory_Len m' = Memory_Len m /\ lastGasCost m' = lastGasCost m) ->
  safe (modMem f) (fun _ => True).
Proof.
  intros Hf Hk v Hv. unfold modMem. apply wp_bind, wp_gets, wp_bind, wp_lift; [apply Hf|].
  intros m' Hm. destruct (Hk _ _ Hm). split_and!; done.
Qed.
Lemma safe_onStack f :
  (forall st, rnofuel (f st)) ->
  (forall st st', wf_stack st -> f st = Ok st' -> wf_stack st') ->
  safe (onStack f) (fun _ => True).
Proof.
  intros Hf Hk v Hv. unfold onStack. apply wp_bind, wp_gets, wp_bind, wp_lift; [apply Hf|].
  intros st Hst. split_and!; [done|by apply (Hk _ _ Hv)|done].
Qed.
End Safe.
#[export] Hint Resolve safe_gets safe_lift safe_vsdb safe_upd_evm safe_spop safe_speek safe_spush safe_sset
  safe_put_pc safe_modMem safe_panic : safe.

Ltac safe_side := try solve [done | eauto with word nofuel].
Ltac safe_step :=
  lazymatch goal with
  | |- safe (mbind _ _) _ => eapply safe_bind; [|intros ? ?]
  | |- safe (mret _) _ => apply safe_ret; try done
  | |- safe ok_nil _ => apply safe_ret; try done
  | |- safe (fail _) _ => apply safe_ret; try done
  | |- safe st_panic _ => apply safe_panic
  | |- safe spop _ => apply safe_spop
  | |- safe speek _ => apply safe_speek
  | |- safe (spush _) _ => apply safe_spush; safe_side
  | |- safe (sset _) _ => apply safe_sset; safe_side
  | |- safe (st_gets _) _ => apply safe_gets
  | |- safe get_mem _ => apply safe_gets
  | |- safe get_contract _ => apply safe_gets
  | |- safe get_frame _ => apply safe_gets
  | |- safe get_readOnly _ => apply safe_gets
  | |- safe get_returnData _ => apply safe_gets
  | |- safe (st_lift _) _ => apply safe_lift; safe_side
  | |- safe (vsdb _) _ => apply safe_vsdb; safe_side
  | |- safe (upd_evm _) _ => apply safe_upd_evm
  | |- safe (put_returnData _) _ => apply safe_upd_evm
  | |- safe (put_pc _) _ => apply safe_put_pc
  | |- safe (if ?b then _ else _) _ => destruct b eqn:?
  | |- safe (match ?x with _ => _ end) _ => destruct x eqn:?
  | |- safe (let '(_, _) := ?x in _) _ => destruct x eqn:?
  | |- safe _ _ => solve [eauto with safe]
  end.
Ltac safe_solve := repeat safe_step.
