(* ===== verification/InstrProofs.v ===== *)
(** Every instruction handler outside the CALL and CREATE families is [safe]:
    it returns or panics, leaves gas, memory size and memory price alone and
    keeps the stack a stack of 256-bit words. *)
From Stdlib Require Import ZArith Lia.
From stdpp Require Import base numbers list gmap.
From S2P Require Import Prelude U256 Math Params OpCodes Analysis Host AccessList State StateDB.
From S2P Require Import Stack Memory Contract VmErrors Precompiles Vm Gas Instr JumpTable VmLogic.
Local Open Scope Z_scope.

(** ** Helpers that return or panic *)
Section NoFuelHelpers.
Lemma rnofuel_getData d a b : rnofuel (getData d a b).
Proof. unfold getData. nofuel_solve. Qed.
Lemma rnofuel_GetPtr m a b : rnofuel (Memory_GetPtr m a b).
Proof. unfold Memory_GetPtr. nofuel_solve. Qed.
Lemma rnofuel_GetCopy m a b : rnofuel (Memory_GetCopy m a b).
Proof. unfold Memory_GetCopy. nofuel_solve. Qed.
Lemma rnofuel_Memory_Set m a b d : rnofuel (Memory_Set m a b d).
Proof. unfold Memory_Set. nofuel_solve. Qed.
Lemma rnofuel_Memory_Set32 {U : Uint256} m a b : rnofuel (Memory_Set32 m a b).
Proof. unfold Memory_Set32. nofuel_solve. Qed.
Lemma rnofuel_Memory_Copy m a b c : rnofuel (Memory_Copy m a b c).
Proof. unfold Memory_Copy. nofuel_solve. Qed.
Lemma rnofuel_dup st n : rnofuel (dup st n).
Proof. unfold dup. nofuel_solve. Qed.
Lemma rnofuel_swap st n : rnofuel (swap st n).
Proof. unfold swap. nofuel_solve. Qed.
Lemma rnofuel_codeSegment b p : rnofuel (codeSegment b p).
Proof. unfold codeSegment. nofuel_solve. Qed.

(** *** JUMPDEST analysis *)
Lemma rnofuel_set_chunks w set n bits pc k :
  (forall b p, rnofuel (set b p)) -> 0 < w -> k < Z.of_nat n * w -> (0 < n)%nat ->
  rnofuel (set_chunks w set n bits pc k).
Proof.
  intros Hs Hw. revert bits pc k. induction n as [|n IH]; intros bits pc k Hk Hn; [lia|]. cbn [set_chunks].
  destruct (Z.leb_spec w k); [|done]. apply rnofuel_bind; [done|]. intros b _.
  apply IH; nia.
Qed.
Lemma set_chunks_pc w set n bits pc k b p r :
  0 < w -> set_chunks w set n bits pc k = Ok (b, p, r) -> pc <= p.
Proof.
  intros Hw. revert bits pc k. induction n as [|n IH]; intros bits pc k; cbn [set_chunks]; [done|].
  destruct (Z.leb_spec w k).
  - unfold mbind, result_bind. destruct (set bits pc); try done. intros E%IH. lia.
  - intros [= <- <- <-]. lia.
Qed.
Lemma set_rest_pc bits pc n b p : set_rest bits pc n = Ok (b, p) -> pc <= p.
Proof.
  unfold set_rest, mbind, result_bind. intros E.
  repeat (case_match; simplify_eq; try lia).
Qed.
Lemma set_push_pc bits pc n b p : set_push bits pc n = Ok (b, p) -> pc <= p.
Proof.
  unfold set_push, mbind, result_bind. destruct (8 <=? n); [|apply set_rest_pc].
  destruct (set_chunks 16 _ _ _ _ _) as [[[b1 p1] n1]| |] eqn:E1; try done.
  destruct (set_chunks 8 _ _ _ _ _) as [[[b2 p2] n2]| |] eqn:E2; try done.
  intros E3%set_rest_pc. apply set_chunks_pc in E1; [|lia]. apply set_chunks_pc in E2; [|lia]. lia.
Qed.
Lemma rnofuel_setters b p f :
  rnofuel (set1 b p) /\ rnofuel (setN b f p) /\ rnofuel (set8 b p) /\ rnofuel (set16 b p).
Proof. unfold set1, setN, set8, set16, or_index. split_and!; nofuel_solve. Qed.
Lemma rnofuel_set_push bits pc n : n <= 32 -> rnofuel (set_push bits pc n).
Proof.
  intros Hn.
  assert (forall b p k, rnofuel (set_rest b p k)) as Hr.
  { intros b p k. unfold set_rest. repeat case_match; nofuel_solve; apply (rnofuel_setters _ _ 0) || apply rnofuel_setters. }
  unfold set_push. destruct (8 <=? n); [|apply Hr].
  apply rnofuel_bind; [apply rnofuel_set_chunks; try lia; intros; apply (rnofuel_setters _ _ 0)|].
  intros [[b1 p1] n1] E1.
  apply rnofuel_bind; [|intros [[b2 p2] n2] _; apply Hr].
  assert (forall m bits pc n b p r, n < Z.of_nat m * 16 -> set_chunks 16 set16 m bits pc n = Ok (b, p, r) -> r < 16) as Hrem.
  { induction m as [|m IH]; intros bits' pc' n' b p r Hm; cbn [set_chunks]; [done|].
    destruct (Z.leb_spec 16 n'); [|by intros [= <- <- <-]].
    unfold mbind, result_bind. destruct (set16 bits' pc'); try done. intros E; eapply IH, E. lia. }
  apply Hrem in E1; [|lia].
  apply rnofuel_set_chunks; try lia. intros; apply (rnofuel_setters _ _ 0).
Qed.
Lemma rnofuel_codeBitmap code : rnofuel (codeBitmap code).
Proof.
  unfold codeBitmap, codeBitmapInternal.
  cut (forall fuel bits pc, Z.max (zlen code - pc) 0 < Z.of_nat fuel -> rnofuel (codeBitmapLoop fuel code bits pc)).
  { intros Hc. apply Hc. unfold zlen. lia. }
  induction fuel as [|fuel IH]; intros bits pc Hf; cbn [codeBitmapLoop].
  - lia.
  - destruct (Z.ltb_spec pc (zlen code)); [|done].
    apply rnofuel_bind; [apply rnofuel_index|]. intros op _.
    destruct (_ || _) eqn:Eo; [apply IH; lia|].
    apply orb_false_iff in Eo as [E1 E2]. apply Z.ltb_ge in E1, E2. unfold PUSH1, PUSH32 in *.
    apply rnofuel_bind; [apply rnofuel_set_push; lia|]. intros [b p] E%set_push_pc. apply IH. lia.
Qed.
Lemma rnofuel_validJumpdest {U : Uint256} c jd x : rnofuel (validJumpdest c jd x).
Proof.
  unfold validJumpdest, isCode. nofuel_solve; try apply rnofuel_codeSegment; try apply rnofuel_codeBitmap.
Qed.
End NoFuelHelpers.
#[export] Hint Resolve rnofuel_getData rnofuel_GetPtr rnofuel_GetCopy rnofuel_Memory_Set rnofuel_Memory_Set32
  rnofuel_Memory_Copy rnofuel_dup rnofuel_swap rnofuel_codeSegment : nofuel.

(** ** The handlers *)
Section Handlers.
Context {U : Uint256} {UL : Uint256Laws} {H : Host}.
Variable E : evmE.

Lemma range_SetUint64 x : is_u256 (SetUint64 x).
Proof. apply is_u256_u64, u64_range. Qed.
Hint Resolve range_SetUint64 rnofuel_validJumpdest : word nofuel.

Lemma Memory_Set_keeps m a b d m' :
  Memory_Set m a b d = Ok m' -> Memory_Len m' = Memory_Len m /\ lastGasCost m' = lastGasCost m.
Proof.
  unfold Memory_Set, mbind, result_bind, Memory_Len. destruct (0 <? b); [|by intros [= <-]].
  destruct (_ <? _); [done|]. destruct (slice _ _ _) eqn:Es; try done. intros [= <-]. simpl.
  split; [|done]. apply zlen_copy_at. unfold slice in Es. zcases; try done; lia.
Qed.
Lemma Memory_Set32_keeps m a x m' : is_u256 x ->
  Memory_Set32 m a x = Ok m' -> Memory_Len m' = Memory_Len m /\ lastGasCost m' = lastGasCost m.
Proof.
  intros Hx. unfold Memory_Set32, mbind, result_bind, Memory_Len.
  destruct (Z.ltb_spec (zlen (store m)) (u64 (a + 32))); [done|].
  destruct (slice _ _ _) eqn:Es; try done.
  set (s := copy_at _ _ _). destruct (slice s _ _) as [tl| |] eqn:Et; try done. intros [= <-]. simpl.
  split; [|done]. pose proof (zlen_slice _ _ _ _ Et).
  unfold slice in Es. destruct (Z.leb_spec 0 a); [|done]. destruct (Z.leb_spec a (u64 (a + 32))); [|done].
  assert (zlen s = zlen (store m)) as Hs by (apply zlen_copy_at; lia).
  assert (32 <= zlen tl) by (unfold u64 in *; rewrite Hs in *; zmod).
  rewrite law_WriteToSlice, zlen_app, zlen_take, zlen_copy_at by (done || lia). lia.
Qed.
Lemma Memory_Copy_keeps m a b c m' :
  Memory_Copy m a b c = Ok m' -> Memory_Len m' = Memory_Len m /\ lastGasCost m' = lastGasCost m.
Proof.
  unfold Memory_Copy, mbind, result_bind, Memory_Len. destruct (c =? 0); [by intros [= <-]|].
  destruct (slice _ _ _) eqn:Es; try done. destruct (slice _ b _); try done. intros [= <-]. simpl.
  split; [|done]. apply zlen_copy_at. unfold slice in Es. zcases; try done; lia.
Qed.
Lemma Memory_store8_keeps m i x m' :
  (s ← set_index (store m) i x; Ok (with_store m s)) = Ok m' ->
  Memory_Len m' = Memory_Len m /\ lastGasCost m' = lastGasCost m.
Proof.
  unfold mbind, result_bind, set_index, Memory_Len. destruct (_ && _); [|done]. intros [= <-]. simpl.
  unfold zlen. by rewrite length_insert.
Qed.

Lemma safe_memSet a b d : safe (memSet a b d) (fun _ => True).
Proof. apply safe_modMem; [intros; apply rnofuel_Memory_Set|intros m m'; apply Memory_Set_keeps]. Qed.
Lemma safe_set32 a x : is_u256 x -> safe (modMem (fun mem => Memory_Set32 mem a x)) (fun _ => True).
Proof. intros. apply safe_modMem; [intros; apply rnofuel_Memory_Set32|intros m m'; by apply Memory_Set32_keeps]. Qed.
Lemma safe_store8 a x :
  safe (modMem (fun mem => s ← set_index (store mem) a x; Ok (with_store mem s))) (fun _ => True).
Proof. apply safe_modMem; [intros; nofuel_solve|intros m m'; apply Memory_store8_keeps]. Qed.
Lemma safe_copy a b c : safe (modMem (fun mem => Memory_Copy mem a b c)) (fun _ => True).
Proof. apply safe_modMem; [intros; apply rnofuel_Memory_Copy|intros m m'; apply Memory_Copy_keeps]. Qed.
Hint Resolve safe_memSet safe_set32 safe_store8 safe_copy : safe.

Lemma safe_memArgs a b : safe (memArgs a b) (fun _ => True).
Proof. unfold memArgs. safe_solve. eapply safe_mono; [apply safe_lift, rnofuel_GetPtr|done]. Qed.
Lemma safe_load_abort : safe (load_abort E) (fun _ => True).
Proof. unfold load_abort. safe_solve. Qed.
Lemma isCode_gas c jd u b c' jd' : isCode c jd u = Ok (b, c', jd') -> Gas c' = Gas c.
Proof.
  unfold isCode, mbind, result_bind. intros Ei. repeat (case_match; simplify_eq; try done).
Qed.
Lemma validJumpdest_gas c jd x b c' jd' : validJumpdest c jd x = Ok (b, c', jd') -> Gas c' = Gas c.
Proof.
  unfold validJumpdest, mbind, result_bind. intros Ei.
  repeat (case_match; simplify_eq; try done). all: eapply isCode_gas; eauto.
Qed.
Lemma safe_vValidJumpdest x : safe (vValidJumpdest x) (fun _ => True).
Proof.
  intros v Hv. unfold vValidJumpdest. apply wp_bind, wp_gets, wp_bind, wp_gets, wp_bind.
  apply wp_lift; [apply rnofuel_validJumpdest|]. intros [[b c] jd] Ej%validJumpdest_gas.
  split_and!; done.
Qed.
Lemma safe_pushBig o : safe (pushBig o) (fun _ => True).
Proof. unfold pushBig. safe_solve. Qed.
Lemma safe_binary f : (forall x y, is_u256 x -> is_u256 y -> is_u256 (f x y)) ->
  safe (binary f) (fun _ => True).
Proof. intros Hf. unfold binary. safe_solve. Qed.
Lemma safe_popTopics n : safe (popTopics n) (fun _ => True).
Proof. induction n; simpl; safe_solve. Qed.
Lemma wf_dup st n st' : wf_stack st -> dup st n = Ok st' -> wf_stack st'.
Proof.
  unfold dup, mbind, result_bind. intros W. destruct n as [|n]; [done|].
  destruct (st !! n) as [x|] eqn:Ex; [|done]. intros [= <-]. constructor; [|done].
  by eapply Forall_lookup_1.
Qed.
Lemma wf_swap st n st' : wf_stack st -> swap st n = Ok st' -> wf_stack st'.
Proof.
  unfold swap, mbind, result_bind. intros W. destruct n as [|n]; [done|].
  destruct (st !! n) as [x|] eqn:Ex; [|done]. destruct st as [|y st]; [done|]. simpl from_option_panic.
  intros [= <-]. apply Forall_insert; [|by eapply Forall_lookup_1].
  apply Forall_insert; [done|]. by inversion_clear W.
Qed.
Lemma safe_makeDup n : safe (makeDup n) (fun _ => True).
Proof. apply safe_onStack; [intros; apply rnofuel_dup|intros ? ?; apply wf_dup]. Qed.
Lemma safe_makeSwap n : safe (makeSwap n) (fun _ => True).
Proof. apply safe_onStack; [intros; apply rnofuel_swap|intros ? ?; apply wf_swap]. Qed.
Hint Resolve safe_memArgs safe_load_abort safe_vValidJumpdest safe_pushBig safe_popTopics
  safe_makeDup safe_makeSwap : safe.

(** The names of the handlers that call back into [EVM]. *)
Definition is_call (x : executeName) : bool :=
  match x with
  | X_opCall | X_opCallCode | X_opDelegateCall | X_opStaticCall | X_opCreate | X_opCreate2 => true
  | _ => false
  end.

Lemma safe_execute K x : is_call x = false -> safe (execute_sem E K x) (fun _ => True).
Proof.
  destruct x; intros Hx; try discriminate Hx; clear Hx; cbn [execute_sem];
    try (apply safe_binary; intros); try solve [eauto with safe word];
    try match goal with
        | |- safe (?f _ _) _ => unfold f
        | |- safe (?f _) _ => unfold f
        | |- safe ?f _ => unfold f
        end;
    try (apply safe_binary; intros); try solve [safe_solve].
  - safe_solve. case_match; eauto with word.
  - case_match; eauto with word.
  - case_match; eauto with word.
  - repeat case_match; eauto with word.
  - unfold makePush. safe_solve.
  - unfold makeLog. safe_solve.
Qed.
End Handlers.
