(* ===== verification/GasProofs.v ===== *)
(** What the gas functions charge.

    The price of memory is quadratic in its size ([memFee]) and [memoryGasCost]
    charges the difference to what was paid before.  Every gas function leaves
    stack, gas and memory contents alone ([gpost]); those of the CALL family
    charge at least what they set aside for the callee, those of operations
    with no constant price charge something. *)
From Stdlib Require Import ZArith Lia.
From stdpp Require Import base numbers list gmap.
From S2P Require Import Prelude U256 Math Params OpCodes Host AccessList State StateDB Stack Memory.
From S2P Require Import Contract VmErrors Precompiles Vm Gas Instr JumpTable VmLogic InstrProofs.
Local Open Scope Z_scope.

(** ** Memory *)
Definition memFee (w : Z) : Z := 3 * w + w * w / 512.

(** The memory holds whole words, and its price has been paid. *)
Definition mem_ok (m : Memory) : Prop :=
  exists w, 0 <= w <= 4294967295 /\ Memory_Len m = 32 * w /\ lastGasCost m = memFee w.

Lemma mem_ok_new : mem_ok NewMemory.
Proof. exists 0. done. Qed.

Lemma memFee_mono a b : 0 <= a <= b -> 0 <= memFee a <= memFee b.
Proof.
  intros. unfold memFee. assert (a * a <= b * b) by nia.
  pose proof (Z.div_le_mono (a * a) (b * b) 512 ltac:(lia) ltac:(lia)).
  pose proof (Z.div_pos (a * a) 512 ltac:(nia) ltac:(lia)). lia.
Qed.
Lemma memFee_bound w : 0 <= w <= 4294967295 -> 0 <= memFee w < 2 ^ 56.
Proof.
  intros H. pose proof (memFee_mono 0 w ltac:(lia)). pose proof (memFee_mono w 4294967295 ltac:(lia)).
  change (memFee 0) with 0 in *. assert (memFee 4294967295 < 2 ^ 56) by done. lia.
Qed.

Lemma memoryGasCost_eq m w w' :
  0 <= w <= 4294967295 -> Memory_Len m = 32 * w -> lastGasCost m = memFee w ->
  0 <= w' -> 32 * w' < 2 ^ 64 ->
  memoryGasCost m (32 * w') =
    if 4294967295 <? w' then (GasErr ErrGasUintOverflow, m)
    else if w <? w' then (GasOk (memFee w' - memFee w), mkMemory (store m) (memFee w'))
    else (GasOk 0, m).
Proof.
  intros Hw Hl Hp Hw' H64. unfold memoryGasCost.
  destruct (Z.eqb_spec (32 * w') 0).
  { destruct (Z.ltb_spec 4294967295 w'); [lia|]. destruct (Z.ltb_spec w w'); [lia|done]. }
  replace (0x1FFFFFFFE0 <? 32 * w') with (4294967295 <? w')
    by (destruct (Z.ltb_spec 4294967295 w'), (Z.ltb_spec 0x1FFFFFFFE0 (32 * w')); lia).
  destruct (Z.ltb_spec 4294967295 w'); [done|].
  rewrite toWordSize_spec by (unfold is_u64; lia).
  replace ((32 * w' + 31) / 32) with w' by zmod.
  rewrite Hl, (u64_id (w' * 32)) by (unfold is_u64; lia).
  replace (32 * w <? w' * 32) with (w <? w') by (destruct (Z.ltb_spec w w'), (Z.ltb_spec (32 * w) (w' * 32)); lia).
  destruct (Z.ltb_spec w w'); [|done].
  pose proof (memFee_bound w' ltac:(lia)). pose proof (memFee_mono w w' ltac:(lia)).
  rewrite (u64_id (w' * w')), (u64_id (w' * MemoryGas)) by (unfold is_u64, MemoryGas; nia).
  replace (w' * MemoryGas + w' * w' / QuadCoeffDiv) with (memFee w') by (unfold memFee, MemoryGas, QuadCoeffDiv; lia).
  rewrite Hp, (u64_id (memFee w')), u64_id by (unfold is_u64; lia). done.
Qed.

(** Charging for a size and resizing to it. *)
Lemma memoryGasCost_resize m w' :
  mem_ok m -> 0 <= w' -> 32 * w' < 2 ^ 64 ->
  exists w, Memory_Len m = 32 * w /\
    let '(r, m') := memoryGasCost m (32 * w') in
    match r with
    | GasErr e => e = ErrGasUintOverflow /\ 4294967295 < w' /\ m' = m
    | GasOk fee => w' <= 4294967295 /\ fee = memFee (Z.max w w') - memFee w /\ 0 <= fee < 2 ^ 56 /\
        store m' = store m /\ mem_ok (Memory_Resize m' (32 * w')) /\
        Memory_Len (Memory_Resize m' (32 * w')) = 32 * Z.max w w'
    end.
Proof.
  intros (w & Hw & Hl & Hp) Hw' H64. exists w. split; [done|].
  rewrite (memoryGasCost_eq m w w') by done.
  destruct (Z.ltb_spec 4294967295 w'); [done|].
  pose proof (memFee_bound w' ltac:(lia)).
  destruct (Z.ltb_spec w w').
  - rewrite Z.max_r by lia. pose proof (memFee_mono w w' ltac:(lia)).
    assert (Memory_Len (Memory_Resize (mkMemory (store m) (memFee w')) (32 * w')) = 32 * w') as HL.
    { rewrite Memory_Resize_len. unfold Memory_Len in *. simpl. lia. }
    split_and!; try done; try lia. exists w'. split_and!; try done; try lia.
    unfold Memory_Resize. by destruct (_ <? _).
  - rewrite Z.max_l by lia.
    assert (Memory_Resize m (32 * w') = m) as HR.
    { unfold Memory_Resize. rewrite Hl. by destruct (Z.ltb_spec (32 * w) (32 * w')); [lia|]. }
    rewrite HR. split_and!; try done; try lia. by exists w.
Qed.

(** C6: expanding a memory to [w'] words costs exactly the difference of the
    quadratic prices [memFee], whatever its history; a request that fits costs
    nothing, one beyond [0x1FFFFFFFE0] bytes is an overflow error; no arithmetic
    wraps, and after the resize the memory again has whole words whose price is
    recorded. *)
Theorem memoryGasCost_quadratic m w' :
  mem_ok m -> 0 <= w' -> 32 * w' < 2 ^ 64 ->
  exists w, Memory_Len m = 32 * w /\
    match memoryGasCost m (32 * w') with
    | (GasErr e, m') => e = ErrGasUintOverflow /\ 4294967295 < w' /\ m' = m
    | (GasOk fee, m') => fee = memFee (Z.max w w') - memFee w /\ store m' = store m /\
        mem_ok (Memory_Resize m' (32 * w')) /\
        Memory_Len (Memory_Resize m' (32 * w')) = 32 * Z.max w w'
    end.
Proof.
  intros Hm H0 H1. destruct (memoryGasCost_resize m w' Hm H0 H1) as (w & Hl & Hr).
  exists w. split; [done|]. destruct (memoryGasCost m (32 * w')) as [[fee|e] m']; [|done].
  by destruct Hr as (_ & ? & _ & ? & ? & ?).
Qed.

Lemma memoryGasCost_quadratic_witness :
  memoryGasCost NewMemory (32 * 1024) = (GasOk 5120, mkMemory [] 5120) /\
  exists w, Memory_Len NewMemory = 32 * w /\
    match memoryGasCost NewMemory (32 * 1024) with
    | (GasErr e, m') => e = ErrGasUintOverflow /\ 4294967295 < 1024 /\ m' = NewMemory
    | (GasOk fee, m') => fee = memFee (Z.max w 1024) - memFee w /\ store m' = store NewMemory /\
        mem_ok (Memory_Resize m' (32 * 1024)) /\
        Memory_Len (Memory_Resize m' (32 * 1024)) = 32 * Z.max w 1024
    end.
Proof.
  split; [reflexivity|].
  exact (memoryGasCost_quadratic NewMemory 1024 mem_ok_new ltac:(lia) ltac:(lia)).
Defined.

(** ** The logic of gas computations *)
Section GasLogic.
Lemma wp_gbind {A B} (m : ST vstate (A + vmerror)) (f : A -> ST vstate (B + vmerror)) Q v :
  wp m (fun r v' => match r with inl a => wp (f a) Q v' | inr e => Q (inr e) v' end) v ->
  wp (gbind m f) Q v.
Proof.
  intros Hm. unfold gbind. apply wp_bind. eapply wp_mono; [exact Hm|]. by intros [a|e] v'.
Qed.
Lemma wp_glift {A} (m : VM A) Q v : wp m (fun a v' => Q (inl a) v') v -> wp (glift m) Q v.
Proof. intros Hm. unfold glift. by apply wp_bind. Qed.
Lemma wp_grun (m : ST vstate (Z + vmerror)) Q v :
  wp m (fun r v' => Q (match r with inl g => GasOk g | inr e => GasErr e end) v') v -> wp (grun m) Q v.
Proof. intros Hm. unfold grun. by apply wp_bind. Qed.
Lemma wp_guard r (Q : Z + vmerror -> vstate -> Prop) v :
  (snd r = false -> Q (inl (fst r)) v) -> Q (inr ErrGasUintOverflow) v -> wp (guard r) Q v.
Proof. destruct r as [x []]; intros H1 H2; unfold guard, gerr, gret, wp; cbn; auto. Qed.
Lemma wp_sback n Q v :
  wf_stack (stack_of v) -> (forall x, is_u256 x -> stack_of v !! n = Some x -> Q x v) -> wp (sback n) Q v.
Proof.
  intros W HQ. unfold wp, sback. destruct (stack_of v !! n) as [x|] eqn:E; [|done].
  apply HQ; [by eapply Forall_lookup_1|done].
Qed.
Lemma wp_speek Q v :
  wf_stack (stack_of v) -> (forall x, is_u256 x -> stack_of v !! 0%nat = Some x -> Q x v) -> wp speek Q v.
Proof.
  intros W HQ. unfold wp, speek. destruct (stack_of v) as [|x st] eqn:E; [done|].
  apply HQ; [by inversion_clear W|done].
Qed.
Lemma wp_vUseGas g Q v :
  (gas_of v < g -> Q false v) ->
  (g <= gas_of v -> Q true (mkV (evm v) (set_contract (fr v) (set_Gas (f_contract (fr v)) (gas_of v - g))))) ->
  wp (vUseGas g) Q v.
Proof.
  unfold wp, vUseGas, UseGas. destruct (Z.ltb_spec (gas_of v) g); intros; [|auto].
  replace (mkV (evm v) _) with v; [auto|]. by destruct v as [? []].
Qed.

(** A size in whole words. *)
Definition size_ok (size : Z) : Prop := exists w, size = 32 * w /\ 0 <= w /\ 32 * w < 2 ^ 64.

Lemma wp_vMemoryGasCost size Q v :
  mem_ok (mem_of v) -> size_ok size ->
  (forall r m', memoryGasCost (mem_of v) size = (r, m') ->
     match r with GasOk fee => 0 <= fee < 2 ^ 56 | GasErr _ => True end ->
     Q r (mkV (evm v) (set_mem (fr v) m'))) ->
  wp (vMemoryGasCost size) Q v.
Proof.
  intros Hm (w' & -> & H0 & H1) HQ. unfold vMemoryGasCost. apply wp_bind, wp_gets.
  destruct (memoryGasCost_resize _ w' Hm H0 H1) as (w & _ & Hr).
  destruct (memoryGasCost (mem_of v) (32 * w')) as [r m'] eqn:Er.
  apply wp_bind, wp_modify. apply wp_ret, HQ; [done|].
  destruct r; [|done]. by destruct Hr as (_ & _ & ? & _).
Qed.

Lemma wp_gMemory size Q v :
  mem_ok (mem_of v) -> size_ok size ->
  (forall fee m', memoryGasCost (mem_of v) size = (GasOk fee, m') -> 0 <= fee < 2 ^ 56 ->
     Q (inl fee) (mkV (evm v) (set_mem (fr v) m'))) ->
  (forall e m', Q (inr e) (mkV (evm v) (set_mem (fr v) m'))) ->
  wp (gMemory size) Q v.
Proof.
  intros Hm Hs H1 H2. unfold gMemory. apply wp_bind, wp_vMemoryGasCost; [done|done|].
  intros [fee|e] m' Em Hf; [by apply wp_ret, H1|by apply wp_ret, H2].
Qed.

(** The memory [m'] is [m] with the price of [size] bytes recorded. *)
Definition mem_paid (m : Memory) (size : Z) (m' : Memory) : Prop :=
  exists fee, memoryGasCost m size = (GasOk fee, m').

(** What holds after a gas function that was asked for [size] bytes. *)
Definition gpost (v : vstate) (size : Z) (lo : Z -> vstate -> Prop) (r : gasRes) (v' : vstate) : Prop :=
  match r with
  | GasErr _ => 0 <= gas_of v' <= gas_of v
  | GasOk g => 0 <= g /\ gas_of v' = gas_of v /\ stack_of v' = stack_of v /\
      mem_paid (mem_of v) size (mem_of v') /\ lo g v'
  end.
End GasLogic.

Ltac wp_side := try solve [done | eauto with nofuel | lia].
Ltac wp_step :=
  lazymatch goal with
  | |- wp (mbind _ _) _ _ => apply wp_bind
  | |- wp (mret _) _ _ => apply wp_ret
  | |- wp (gret _) _ _ => apply wp_ret
  | |- wp (gerr _) _ _ => apply wp_ret
  | |- wp (gbind _ _) _ _ => apply wp_gbind
  | |- wp (glift _) _ _ => apply wp_glift
  | |- wp (grun _) _ _ => apply wp_grun
  | |- wp (guard _) _ _ => apply wp_guard; [intros ?|]
  | |- wp (gMemory _) _ _ => apply wp_gMemory; [wp_side|wp_side|intros ? ? ? ?|intros ? ?]
  | |- wp (sback _) _ _ => apply wp_sback; [wp_side|intros ? ? ?]
  | |- wp speek _ _ => apply wp_speek; [wp_side|intros ? ? ?]
  | |- wp (vsdb _) _ _ => apply wp_vsdb; [wp_side|intros ? ?]
  | |- wp (st_gets _) _ _ => apply wp_gets
  | |- wp (st_lift _) _ _ => apply wp_lift; [wp_side|intros ? ?]
  | |- wp (upd_evm _) _ _ => apply wp_modify
  | |- wp (upd_frame _) _ _ => apply wp_modify
  | |- wp (addGas _) _ _ => apply wp_modify
  | |- wp (put_contract _) _ _ => apply wp_modify
  | |- wp (put_mem _) _ _ => apply wp_modify
  | |- wp (put_returnData _) _ _ => apply wp_modify
  | |- wp get_readOnly _ _ => apply wp_gets
  | |- wp get_callGasTemp _ _ => apply wp_gets
  | |- wp get_contract _ _ => apply wp_gets
  | |- wp get_mem _ _ => apply wp_gets
  | |- wp contractAddress _ _ => unfold contractAddress
  | |- wp st_panic _ _ => apply wp_panic
  | |- wp (vUseGas _) _ _ => apply wp_vUseGas; intros ?
  | |- wp (if negb ?b then _ else _) _ _ => destruct b eqn:?
  | |- wp (if ?b then _ else _) _ _ => destruct b eqn:?
  | |- wp (match ?x with _ => _ end) _ _ => destruct x eqn:?
  end; cbn [fr evm f_stack f_mem f_contract set_mem set_contract set_stack snd fst negb].

Section GasFunctions.
Context {U : Uint256} {UL : Uint256Laws} {H : Host}.
Variable rules : Rules.

Lemma SafeAdd_range x y : is_u64 (fst (SafeAdd x y)).
Proof. unfold SafeAdd, Add64. apply u64_range. Qed.
Lemma SafeMul_range x y : is_u64 (fst (SafeMul x y)).
Proof. unfold SafeMul, Mul64. simpl. apply u64_range. Qed.
Lemma SafeAdd_val x y : is_u64 x -> is_u64 y -> snd (SafeAdd x y) = false -> fst (SafeAdd x y) = x + y.
Proof.
  intros Hx Hy. destruct (SafeAdd x y) as [s b] eqn:E. simpl. intros ->.
  by destruct (SafeAdd_false x y s Hx Hy E).
Qed.

Definition anyLo : Z -> vstate -> Prop := fun _ _ => True.

Ltac gsimp :=
  unfold gpost; cbn [evm fr f_stack f_mem f_contract set_mem set_contract set_stack snd fst Gas set_Gas
    set_StateDB StateDB].
Ltac gfinish :=
  try solve [
    lazymatch goal with
    | |- gpost _ _ _ (GasErr _) _ => simpl; lia
    | E : memoryGasCost _ _ = _ |- gpost _ _ _ (GasOk (fst (SafeAdd ?x ?y))) _ =>
        gsimp; pose proof (SafeAdd_range x y); unfold is_u64 in *; split_and!; (done || lia || (eexists; exact E))
    | E : memoryGasCost _ _ = _ |- gpost _ _ _ (GasOk _) _ =>
        gsimp; split_and!; (done || lia || (eexists; exact E))
    end].

Section Simple.
Variables (v : vstate) (size : Z).
Hypothesis W : wf_stack (stack_of v).
Hypothesis M : mem_ok (mem_of v).
Hypothesis S : size_ok size.
Hypothesis G : 0 <= gas_of v.

Lemma memoryCopierGas_spec pos : wp (memoryCopierGas pos size) (gpost v size anyLo) v.
Proof. unfold memoryCopierGas, gBack64. repeat wp_step; gfinish. Qed.
Lemma gasKeccak256_spec : wp (gasKeccak256 size) (gpost v size anyLo) v.
Proof. unfold gasKeccak256, gBack64. repeat wp_step; gfinish. Qed.
Lemma gasCreate2_spec : wp (gasCreate2 size) (gpost v size anyLo) v.
Proof. unfold gasCreate2, gBack64. repeat wp_step; gfinish. Qed.
Lemma gasCreateEip3860_spec : wp (gasCreateEip3860 size) (gpost v size anyLo) v.
Proof. unfold gasCreateEip3860, gInitCodeSize, gBack64. repeat wp_step; gfinish. Qed.
Lemma gasCreate2Eip3860_spec : wp (gasCreate2Eip3860 size) (gpost v size anyLo) v.
Proof. unfold gasCreate2Eip3860, gInitCodeSize, gBack64. repeat wp_step; gfinish. Qed.
Lemma pureMemoryGascost_spec : wp (pureMemoryGascost size) (gpost v size anyLo) v.
Proof.
  unfold pureMemoryGascost. apply wp_vMemoryGasCost; [done|done|]. intros [fee|e] m' Em Hf; gfinish.
Qed.
Lemma gasExtCodeCopyEIP2929_spec : wp (gasExtCodeCopyEIP2929 size) (gpost v size anyLo) v.
Proof.
  unfold gasExtCodeCopyEIP2929. apply wp_bind. eapply wp_mono; [apply (memoryCopierGas_spec 3)|].
  intros [g|e] v'; [|by intros; apply wp_ret].
  intros (H0 & Hg & Hst & Hm & _). rewrite <- Hst in W.
  repeat wp_step; gsimp; rewrite ?Hg, ?Hst, ?Hm; unfold anyLo.
  all: try pose proof (SafeAdd_range g (ColdAccountAccessCostEIP2929 - WarmStorageReadCostEIP2929)).
  all: unfold is_u64 in *; split_and!; done || lia.
Qed.

(** Logs charge for being logs. *)
Definition positive : Z -> vstate -> Prop := fun g _ => 1 <= g.

Lemma makeGasLog_spec n : 0 <= n <= 4 -> wp (makeGasLog n size) (gpost v size positive) v.
Proof.
  intros Hn. unfold makeGasLog, gBack64. repeat wp_step; try (simpl; lia).
  gsimp.
  unfold LogGas, LogTopicGas, LogDataGas in *.
  rewrite (u64_id (n * 375)) in * by (unfold is_u64; lia).
  pose proof (SafeMul_range (fst (u_Uint64WithOverflow x)) 8).
  pose proof (SafeAdd_val fee 375 ltac:(unfold is_u64; lia) ltac:(done) ltac:(done)) as E1. rewrite E1 in *.
  pose proof (SafeAdd_val (fee + 375) (n * 375) ltac:(unfold is_u64; lia) ltac:(unfold is_u64; lia) ltac:(done)) as E2.
  rewrite E2 in *.
  rewrite SafeAdd_val by (done || unfold is_u64; lia). unfold positive, is_u64 in *.
  split_and!; (done || lia || (eexists; eassumption)).
Qed.
End Simple.

(** *** Functions without memory *)
Section NoMemory.
Variables (v : vstate).
Hypothesis W : wf_stack (stack_of v).
Hypothesis G : 0 <= gas_of v.

Lemma gpost_plain g lo v' :
  0 <= g -> fr v' = fr v -> lo g v' -> gpost v 0 lo (GasOk g) v'.
Proof. intros H0 Hf Hl. simpl. rewrite Hf. split_and!; try done. by exists 0. Qed.

Lemma BitLen_range x : is_u256 x -> 0 <= u_BitLen x <= 256.
Proof.
  intros Hx. rewrite law_BitLen by done. destruct (Z.eqb_spec x 0); [lia|]. unfold is_u256 in Hx.
  pose proof (Z.log2_nonneg x). pose proof (Z.log2_lt_pow2 x 256 ltac:(lia)). lia.
Qed.

Lemma exp_price x perByte : is_u256 x -> 0 <= perByte <= 50 ->
  let r := SafeAdd (u64 ((u_BitLen x + 7) / 8 * perByte)) ExpGas in
  snd r = false /\ fst r = (u_BitLen x + 7) / 8 * perByte + 10.
Proof.
  intros Hx Hp r. pose proof (BitLen_range x Hx). unfold r.
  assert (0 <= (u_BitLen x + 7) / 8 <= 32) by zmod.
  rewrite u64_id by (unfold is_u64; nia).
  rewrite SafeAdd_spec by (unfold is_u64, ExpGas; nia). unfold ExpGas.
  destruct (Z.ltb_spec ((u_BitLen x + 7) / 8 * perByte + 10) (2 ^ 64)); simpl; [done|nia].
Qed.
Lemma gasExpFrontier_spec : wp (gasExpFrontier 0) (gpost v 0 positive) v.
Proof.
  unfold gasExpFrontier. repeat wp_step; try (simpl; lia).
  destruct (exp_price x ExpByteFrontier ltac:(done) ltac:(unfold ExpByteFrontier; lia)) as [_ ->].
  pose proof (BitLen_range x ltac:(done)). assert (0 <= (u_BitLen x + 7) / 8) by zmod.
  apply gpost_plain; unfold positive, ExpByteFrontier; (done || lia).
Qed.
Lemma gasExpEIP158_spec : wp (gasExpEIP158 0) (gpost v 0 positive) v.
Proof.
  unfold gasExpEIP158. repeat wp_step; try (simpl; lia).
  destruct (exp_price x ExpByteEIP158 ltac:(done) ltac:(unfold ExpByteEIP158; lia)) as [_ ->].
  pose proof (BitLen_range x ltac:(done)). assert (0 <= (u_BitLen x + 7) / 8) by zmod.
  apply gpost_plain; unfold positive, ExpByteEIP158; (done || lia).
Qed.

(** Close a goal whose price is a constant. *)
Ltac gconst :=
  lazymatch goal with
  | |- gpost _ _ _ (GasErr _) _ => simpl; lia
  | |- gpost _ _ _ (GasOk _) _ =>
      apply gpost_plain; [|done|unfold positive, anyLo]; repeat case_match; first [done | lia | by vm_compute]
  end.

Lemma wp_dirtyRefunds a b c d e f Q v' :
  (forall s, Q tt (mkV (set_StateDB (evm v') s) (fr v'))) -> wp (dirtyRefunds a b c d e f) Q v'.
Proof.
  intros HQ.
  assert (mkV (set_StateDB (evm v') (StateDB (evm v'))) (fr v') = v') as Hid by (by destruct v' as [[] []]).
  assert (Q tt v') as HQ' by (rewrite <- Hid; apply HQ).
  unfold dirtyRefunds. repeat wp_step;
    repeat match goal with x : () |- _ => destruct x end; try apply HQ; done.
Qed.
Ltac dirty := repeat (wp_step || (apply wp_dirtyRefunds; intros)).

Lemma gasSStore_spec : wp (gasSStore rules 0) (gpost v 0 positive) v.
Proof. unfold gasSStore. dirty; gconst. Qed.
Lemma gasSStoreEIP2200_spec : wp (gasSStoreEIP2200 0) (gpost v 0 positive) v.
Proof. unfold gasSStoreEIP2200. dirty; gconst. Qed.
Lemma makeGasSStoreFunc_spec c : wp (makeGasSStoreFunc c 0) (gpost v 0 positive) v.
Proof. unfold makeGasSStoreFunc. dirty; gconst. Qed.
Lemma gasSLoadEIP2929_spec : wp (gasSLoadEIP2929 0) (gpost v 0 positive) v.
Proof. unfold gasSLoadEIP2929. dirty; gconst. Qed.
Lemma gasEip2929AccountCheck_spec : wp (gasEip2929AccountCheck 0) (gpost v 0 anyLo) v.
Proof. unfold gasEip2929AccountCheck. dirty; gconst. Qed.
Lemma gasSelfdestruct_spec : wp (gasSelfdestruct rules 0) (gpost v 0 anyLo) v.
Proof. unfold gasSelfdestruct. dirty; gconst. Qed.
Lemma makeSelfdestructGasFn_spec b : wp (makeSelfdestructGasFn b 0) (gpost v 0 anyLo) v.
Proof. unfold makeSelfdestructGasFn. dirty; gconst. Qed.
End NoMemory.

(** *** Calls *)

(** C10: the gas a caller passes on under EIP-150 is what the callee asks for, but
    at most all but one 64th of what is left after [base].  Where [base] is
    within the gas of the caller the charge ([base] and the gas passed on) fits
    64 bits and can be paid.  Where it is not, what is left wraps around; the
    charge then overflows or is above the gas of the caller, so that the
    operation still fails for want of gas. *)
Theorem callGas_eip150 avail base cost :
  is_u64 avail -> is_u64 base -> is_u256 cost ->
  let rest := if base <=? avail then avail - base else 2 ^ 64 + avail - base in
  exists temp, callGas true avail base cost = GasOk temp /\ temp = Z.min cost (rest - rest / 64) /\
    if base <=? avail then SafeAdd base temp = (base + temp, false) /\ base + temp <= avail
    else snd (SafeAdd base temp) = true \/ avail < fst (SafeAdd base temp).
Proof.
  intros Ha Hb Hc rest. exists (Z.min cost (rest - rest / 64)).
  assert (u64 (avail - base) = rest /\ is_u64 rest) as [Er Hr].
  { unfold rest, u64, is_u64 in *. destruct (Z.leb_spec base avail).
    - split; [apply Z.mod_small|]; lia.
    - rewrite <- (Z.mod_add _ 1) by lia. split; [rewrite Z.mod_small|]; lia. }
  assert (0 <= rest - rest / 64 <= rest) by (unfold is_u64 in *; zmod).
  assert (is_u64 (Z.min cost (rest - rest / 64))) as Ht by (unfold is_u64, is_u256 in *; lia).
  split_and!; [|done|].
  - unfold callGas. rewrite Er. destruct (u_IsUint64 cost) eqn:Eu; simpl.
    + apply u_IsUint64_true in Eu as [Hu ->]; [|done].
      destruct (Z.ltb_spec (rest - rest / 64) cost); f_equal; lia.
    + rewrite law_IsUint64 in Eu by done. apply Z.ltb_ge in Eu. unfold is_u64 in *. f_equal. lia.
  - rewrite (SafeAdd_spec base) by done. unfold rest, is_u64 in *. destruct (Z.leb_spec base avail).
    + destruct (Z.ltb_spec (base + Z.min cost (avail - base - (avail - base) / 64)) (2 ^ 64)); (split; [done || lia|lia]).
    + destruct (_ <? 2 ^ 64); [right; simpl; lia|by left].
Qed.

Lemma callGas_bounds eip150 avail base cost temp :
  is_u64 avail -> 0 <= base < 2 ^ 57 -> is_u256 cost ->
  callGas eip150 avail base cost = GasOk temp ->
  is_u64 temp /\ (eip150 = true -> base + temp <= avail \/ base + temp < 2 ^ 64 - 2 ^ 20).
Proof.
  intros Ha Hb Hc Hcall. unfold callGas in Hcall. pose proof (u_Uint64_range cost Hc) as Hu.
  destruct eip150.
  - pose proof (u64_range (avail - base)) as HA. set (A := u64 (avail - base)) in *.
    assert (temp <= A - A / 64 /\ 0 <= temp) as [H1 H2].
    { destruct (Z.ltb_spec (A - A / 64) (u_Uint64 cost)); rewrite ?orb_true_r in Hcall; simplify_eq.
      - unfold is_u64 in *. zmod.
      - destruct (u_IsUint64 cost); simplify_eq/=; unfold is_u64 in *; zmod. }
    assert (A = avail - base \/ (A = 2 ^ 64 + avail - base /\ avail < base)) as HAv.
    { unfold A, u64, is_u64 in *. destruct (Z.le_gt_cases base avail); [left; apply Z.mod_small; lia|right].
      split; [|done]. rewrite <- (Z.mod_add _ 1) by lia. rewrite Z.mod_small; lia. }
    unfold is_u64 in *. split; [zmod|]. intros _. destruct HAv as [HAv|[HAv ?]]; [left|right]; zmod.
  - split; [|done]. destruct (u_IsUint64 cost); simplify_eq/=. done.
Qed.

(** What the gas functions of the CALL family guarantee: [callGasTemp] is set,
    the price covers it, and covers the stipend when value is transferred. *)
Definition callLo (withValue : bool) (v : vstate) (g : Z) (v' : vstate) : Prop :=
  let temp := callGasTemp (evm v') in
  0 <= temp <= g /\ g < 2 ^ 64 /\
  (r_IsEIP150 rules = true -> g <= gas_of v \/ g < 2 ^ 64 - 2 ^ 20) /\
  (withValue = true -> forall x, stack_of v !! 2%nat = Some x -> u_IsZero x = false ->
     temp + CallValueTransferGas <= g).

Definition vgas_ok (v : vstate) : Prop := is_u64 (gas_of v).

Lemma finishCallGas_spec v v1 size fee m' withValue gas :
  wf_stack (stack_of v) -> vgas_ok v ->
  memoryGasCost (mem_of v) size = (GasOk fee, m') ->
  fr v1 = set_mem (fr v) m' -> 0 <= gas < 2 ^ 57 ->
  (withValue = true -> forall x, stack_of v !! 2%nat = Some x -> u_IsZero x = false ->
     CallValueTransferGas <= gas) ->
  wp (finishCallGas rules gas) (fun r v' =>
    gpost v size (callLo withValue v) (match r with inl g => GasOk g | inr e => GasErr e end) v') v1.
Proof.
  intros W [G0 G1] Em Ef Hg Hv. unfold finishCallGas.
  assert (gas_of v1 = gas_of v) as Eg by (by rewrite Ef).
  assert (stack_of v1 = stack_of v) as Es by (by rewrite Ef). rewrite <- Es in W.
  repeat wp_step; try (simpl; rewrite Ef; simpl; lia).
  rewrite Eg in *. match goal with Ec : callGas _ _ _ _ = GasOk ?t |- _ =>
    apply callGas_bounds in Ec as [Ht Hb]; [|unfold is_u64; lia|lia|done]; rename t into temp end.
  assert (is_u64 gas) by (unfold is_u64; lia).
  match goal with Eo : snd (SafeAdd _ _) = false |- _ => rename Eo into Ho end.
  pose proof (SafeAdd_range gas temp) as Hr.
  rewrite (SafeAdd_val gas temp) in * by done. unfold gpost, callLo.
  change (evm (mkV ?a ?b)) with a. change (callGasTemp (set_callGasTemp ?a ?b)) with b.
  simpl fr. rewrite Ef. unfold is_u64 in *. cbn [set_mem f_mem f_stack f_contract].
  split_and!; try done; try lia.
  - by exists fee.
  - intros Hw y Hy Hz. specialize (Hv Hw y Hy Hz). lia.
Qed.

Section CallFunctions.
Variables (v : vstate) (size : Z).
Hypothesis W : wf_stack (stack_of v).
Hypothesis M : mem_ok (mem_of v).
Hypothesis S : size_ok size.
Hypothesis G : vgas_ok v.

Lemma gasDelegateCall_spec : wp (gasDelegateCall rules size) (gpost v size (callLo false v)) v.
Proof.
  unfold gasDelegateCall. repeat wp_step; [|unfold vgas_ok, is_u64 in G; simpl; lia].
  eapply finishCallGas_spec; eauto; lia || done.
Qed.
Lemma gasStaticCall_spec : wp (gasStaticCall rules size) (gpost v size (callLo false v)) v.
Proof. exact gasDelegateCall_spec. Qed.

(** [gas, overflow = SafeAdd(base, memoryGas)] before the callee's share. *)
Lemma finish_base base fee m' v1 :
  memoryGasCost (mem_of v) size = (GasOk fee, m') -> 0 <= fee < 2 ^ 56 ->
  fr v1 = set_mem (fr v) m' -> 0 <= base < 2 ^ 20 ->
  (forall x, stack_of v !! 2%nat = Some x -> u_IsZero x = false -> CallValueTransferGas <= base) ->
  snd (SafeAdd base fee) = false ->
  wp (finishCallGas rules (fst (SafeAdd base fee))) (fun r v' =>
    gpost v size (callLo true v) (match r with inl g => GasOk g | inr e => GasErr e end) v') v1.
Proof.
  intros Em Hf Ef Hb Hv Ho. rewrite SafeAdd_val by (done || unfold is_u64; lia).
  eapply finishCallGas_spec; eauto; [lia|]. intros _ x Hx Hz. specialize (Hv x Hx Hz). lia.
Qed.

Lemma gasCallCode_spec : wp (gasCallCode rules size) (gpost v size (callLo true v)) v.
Proof.
  pose proof G as [G0 G1].
  unfold gasCallCode. repeat wp_step; try (simpl; lia).
  match goal with Es : _ !! 2%nat = Some ?x |- _ => simpl in Es; rewrite (Sign_IsZero x) in * by done end.
  eapply finish_base; eauto.
  - unfold CallValueTransferGas. case_match; lia.
  - intros y Hy Hz. simplify_eq. rewrite Hz. done.
Qed.
Lemma gasCall_spec : wp (gasCall rules size) (gpost v size (callLo true v)) v.
Proof.
  pose proof G as [G0 G1]. unfold gasCall. repeat wp_step; try (simpl; lia).
  all: (eapply finish_base; [eassumption|done|done| | |eassumption];
    [repeat case_match; vm_compute; done|]; intros y Hy Hz; simplify_eq; try congruence;
    rewrite ?Hz; simpl; repeat case_match; by vm_compute).
Qed.
End CallFunctions.

(** *** The access-list variants *)
Definition call_spec (F : gasFunc) (withValue : bool) : Prop := forall v size,
  wf_stack (stack_of v) -> mem_ok (mem_of v) -> size_ok size -> vgas_ok v ->
  wp (F size) (gpost v size (callLo withValue v)) v.

Lemma set_Gas_id c : set_Gas c (Gas c) = c.
Proof. by destruct c. Qed.

Definition finalLo (withValue : bool) (v : vstate) (g : Z) (v' : vstate) : Prop :=
  let temp := callGasTemp (evm v') in
  0 <= temp <= g /\
  (withValue = true -> forall x, stack_of v !! 2%nat = Some x -> u_IsZero x = false ->
     temp + CallValueTransferGas <= g).
Lemma finalLo_of withValue v v1 v2 g g' v3 :
  callLo withValue v1 g v2 -> stack_of v1 = stack_of v -> evm v3 = evm v2 -> g <= g' ->
  finalLo withValue v g' v3.
Proof.
  intros (H1 & H2 & H3 & H4) Es Ee Hg. unfold finalLo. rewrite Ee. split; [lia|].
  rewrite Es in H4. intros Hw x Hx Hz. specialize (H4 Hw x Hx Hz). lia.
Qed.

(** [v1] is [v] after [total] gas was charged, up to the database. *)
Record charged (total : Z) (v v1 : vstate) : Prop := {
  ch_total : 0 <= total <= 6000;
  ch_gas : gas_of v1 = gas_of v - total;
  ch_left : 0 <= gas_of v1;
  ch_stack : stack_of v1 = stack_of v;
  ch_mem : mem_of v1 = mem_of v
}.

Section Variants.
Variables (F : gasFunc) (withValue : bool) (v : vstate) (size : Z).
Hypothesis HF : call_spec F withValue.
Hypothesis W : wf_stack (stack_of v).
Hypothesis M : mem_ok (mem_of v).
Hypothesis Sz : size_ok size.
Hypothesis G : vgas_ok v.

Lemma F_charged total v1 :
  charged total v v1 ->
  wp (F size) (fun r v2 => match r with
    | GasErr _ => 0 <= gas_of v2 <= gas_of v
    | GasOk g => 0 <= g /\ gas_of v2 = gas_of v - total /\ stack_of v2 = stack_of v /\
        mem_paid (mem_of v) size (mem_of v2) /\ callLo withValue v1 g v2
    end) v1.
Proof.
  intros [Ht Hg Hl Hs Hm]. destruct G as [G0 G1]. eapply wp_mono.
  - apply HF; rewrite ?Hs, ?Hm; try done. split; lia.
  - intros [g|e] v2; unfold gpost; [|lia]. rewrite Hs, Hm, Hg. done.
Qed.

Lemma restore_2929 v1 :
  r_IsEIP150 rules = true -> charged 2500 v v1 ->
  wp (F size) (fun r v2 => wp (match r with
    | GasErr e => mret (GasErr e)
    | GasOk gas => _ ← addGas 2500; mret (GasOk (u64 (gas + 2500)))
    end) (gpost v size (finalLo withValue v)) v2) v1.
Proof.
  intros H150 C. destruct G as [G0 G1]. eapply wp_mono; [by apply F_charged|].
  intros [g|e] v2; [|by intros; apply wp_ret]. intros (H0 & Hg & Hs & Hm & Hlo).
  pose proof Hlo as (_ & _ & Hb & _). specialize (Hb H150). destruct C.
  do 3 wp_step. rewrite (u64_id (g + 2500)) by (unfold is_u64; lia).
  unfold gpost. simpl. rewrite Hg, u64_id by (unfold is_u64; lia).
  split_and!; try done; try lia. eapply finalLo_of; eauto. lia.
Qed.

Lemma restore_7702 total v1 :
  charged total v v1 ->
  wp (F size) (fun r v2 => wp (match r with
    | GasErr e => mret (GasErr e)
    | GasOk old => _ ← addGas total; grun (guard (SafeAdd old total))
    end) (gpost v size (finalLo withValue v)) v2) v1.
Proof.
  intros C. destruct G as [G0 G1]. eapply wp_mono; [by apply F_charged|].
  intros [g|e] v2; [|by intros; apply wp_ret]. intros (H0 & Hg & Hs & Hm & Hlo).
  pose proof Hlo as (Ht & Hg' & _ & _). destruct C.
  repeat wp_step; gsimp; rewrite Hg, (u64_id (_ - _ + _)) by (unfold is_u64; lia); [|lia].
  rewrite SafeAdd_val by (done || unfold is_u64; lia).
  split_and!; try done; try lia. eapply finalLo_of; eauto. lia.
Qed.

Lemma eip2929_spec : r_IsEIP150 rules = true ->
  wp (makeCallVariantGasCallEIP2929 F size) (gpost v size (finalLo withValue v)) v.
Proof.
  intros H150. pose proof G as [G0 G1]. unfold makeCallVariantGasCallEIP2929.
  change (ColdAccountAccessCostEIP2929 - WarmStorageReadCostEIP2929) with 2500.
  repeat wp_step; try (simpl; lia); try done.
  - eapply wp_mono; [apply (F_charged 0); split; simpl in *; done || lia|].
    intros [g|e] v2; [|by intros; apply wp_ret]. intros (H0' & Hg & Hs & Hm & Hlo). apply wp_ret.
    split_and!; try done; try lia. by eapply finalLo_of.
  - apply restore_2929; [done|]. split; simpl in *; done || lia.
Qed.

Lemma eip7702_spec : wp (makeCallVariantGasCallEIP7702 F size) (gpost v size (finalLo withValue v)) v.
Proof.
  pose proof G as [G0 G1]. unfold makeCallVariantGasCallEIP7702.
  change (ColdAccountAccessCostEIP2929 - WarmStorageReadCostEIP2929) with 2500.
  change ColdAccountAccessCostEIP2929 with 2600. change WarmStorageReadCostEIP2929 with 100.
  repeat wp_step; try (simpl in *; lia); apply restore_7702; split; simpl in *; done || lia.
Qed.
End Variants.
End GasFunctions.

(** ** The names of the tables *)
Inductive gasKind := KAny | KPositive | KCall (withValue : bool).

Definition gas_kind (g : gasName) : gasKind :=
  match g with
  | G_gasExpFrontier | G_gasExpEIP158 | G_gasSStore | G_gasSStoreEIP2200 | G_gasSStoreEIP2929
  | G_gasSStoreEIP3529 | G_gasSLoadEIP2929 | G_makeGasLog _ => KPositive
  | G_gasCall | G_gasCallCode | G_gasCallEIP2929 | G_gasCallCodeEIP2929 | G_gasCallEIP7702
  | G_gasCallCodeEIP7702 => KCall true
  | G_gasDelegateCall | G_gasStaticCall | G_gasDelegateCallEIP2929 | G_gasStaticCallEIP2929
  | G_gasDelegateCallEIP7702 | G_gasStaticCallEIP7702 => KCall false
  | _ => KAny
  end.

(** The functions that charge for memory. *)
Definition uses_mem (g : gasName) : bool :=
  match g with
  | G_gasExpFrontier | G_gasExpEIP158 | G_gasSStore | G_gasSStoreEIP2200 | G_gasSStoreEIP2929
  | G_gasSStoreEIP3529 | G_gasSLoadEIP2929 | G_gasEip2929AccountCheck | G_gasSelfdestruct
  | G_gasSelfdestructEIP2929 | G_gasSelfdestructEIP3529 => false
  | _ => true
  end.

(** The EIP-2929 call variants presuppose EIP-150. *)
Definition gas_ok (eip150 : bool) (g : gasName) : bool :=
  match g with
  | G_gasCallEIP2929 | G_gasCallCodeEIP2929 | G_gasDelegateCallEIP2929 | G_gasStaticCallEIP2929 => eip150
  | G_makeGasLog n => (0 <=? n) && (n <=? 4)
  | _ => true
  end.

Section Table.
Context {U : Uint256} {UL : Uint256Laws} {H : Host}.
Variable E : evmE.

Definition gas_lo (g : gasName) (v : vstate) : Z -> vstate -> Prop :=
  match gas_kind g with
  | KAny => anyLo
  | KPositive => positive
  | KCall withValue => finalLo withValue v
  end.

Lemma callLo_final F withValue v size :
  call_spec (chainRules E) F withValue ->
  wf_stack (stack_of v) -> mem_ok (mem_of v) -> size_ok size -> vgas_ok v ->
  wp (F size) (gpost v size (finalLo withValue v)) v.
Proof.
  intros HF W M S G. eapply wp_mono; [by apply HF|]. intros [g|e] v'; [|done].
  intros (? & ? & ? & ? & Hlo). split_and!; try done. by eapply finalLo_of.
Qed.

Lemma dynamicGas_sem_spec g v size :
  gas_ok (r_IsEIP150 (chainRules E)) g = true ->
  (uses_mem g = true \/ size = 0) ->
  wf_stack (stack_of v) -> mem_ok (mem_of v) -> size_ok size -> vgas_ok v ->
  wp (dynamicGas_sem E g size) (gpost v size (gas_lo g v)) v.
Proof.
  intros Hok Hmem W M Sz G. pose proof G as [G0 G1]. set (rules := chainRules E) in *.
  assert (call_spec rules (gasCall rules) true) by (intros ? ? ? ? ? ?; by apply gasCall_spec).
  assert (call_spec rules (gasCallCode rules) true) by (intros ? ? ? ? ? ?; by apply gasCallCode_spec).
  assert (call_spec rules (gasDelegateCall rules) false) by (intros ? ? ? ? ? ?; by apply gasDelegateCall_spec).
  assert (call_spec rules (gasStaticCall rules) false) by (intros ? ? ? ? ? ?; by apply gasStaticCall_spec).
  destruct g; unfold gas_lo; cbn [dynamicGas_sem gas_kind uses_mem gas_ok] in *; fold rules;
    try (destruct Hmem as [Hmem| ->]; [discriminate Hmem|]).
  - by apply gasExpFrontier_spec.
  - by apply gasExpEIP158_spec.
  - by apply gasKeccak256_spec.
  - by apply memoryCopierGas_spec.
  - by apply memoryCopierGas_spec.
  - by apply memoryCopierGas_spec.
  - by apply memoryCopierGas_spec.
  - by apply memoryCopierGas_spec.
  - by apply gasSStore_spec.
  - by apply gasSStoreEIP2200_spec.
  - by apply pureMemoryGascost_spec.
  - by apply pureMemoryGascost_spec.
  - by apply pureMemoryGascost_spec.
  - by apply pureMemoryGascost_spec.
  - by apply pureMemoryGascost_spec.
  - by apply pureMemoryGascost_spec.
  - by apply gasCreate2_spec.
  - by apply callLo_final.
  - by apply callLo_final.
  - by apply callLo_final.
  - by apply callLo_final.
  - by apply gasSelfdestruct_spec.
  - by apply gasCreateEip3860_spec.
  - by apply gasCreate2Eip3860_spec.
  - by apply gasSLoadEIP2929_spec.
  - by apply gasExtCodeCopyEIP2929_spec.
  - by apply gasEip2929AccountCheck_spec.
  - by apply eip2929_spec with (rules := rules).
  - by apply eip2929_spec with (rules := rules).
  - by apply eip2929_spec with (rules := rules).
  - by apply eip2929_spec with (rules := rules).
  - by apply makeSelfdestructGasFn_spec.
  - by apply makeSelfdestructGasFn_spec.
  - by apply makeGasSStoreFunc_spec.
  - by apply makeGasSStoreFunc_spec.
  - by apply eip7702_spec with (rules := rules).
  - by apply eip7702_spec with (rules := rules).
  - by apply eip7702_spec with (rules := rules).
  - by apply eip7702_spec with (rules := rules).
  - apply andb_true_iff in Hok as [? ?]. apply makeGasLog_spec; try done. lia.
Qed.
End Table.

Lemma callGas_eip150_witness :
  (exists temp, @callGas uint256_Z true 6500 100 (2 ^ 255) = GasOk temp /\ temp = 6300 /\
     SafeAdd 100 temp = (100 + temp, false) /\ 100 + temp <= 6500) /\
  exists temp, @callGas uint256_Z true 6500 7000 5 = GasOk temp /\ temp = 5 /\
     (snd (SafeAdd 7000 temp) = true \/ 6500 < fst (SafeAdd 7000 temp)).
Proof.
  split.
  - refine (@callGas_eip150 uint256_Z uint256_Z_laws 6500 100 (2 ^ 255) _ _ _); unfold is_u64, is_u256; lia.
  - refine (@callGas_eip150 uint256_Z uint256_Z_laws 6500 7000 5 _ _ _); unfold is_u64, is_u256; lia.
Defined.
