(* ===== verification/EvmProofs.v ===== *)
(** Gas bounds the machine: every operation of a jump table of the code either
    halts the frame or costs gas, and a nested frame starts with less gas than
    its caller had, so that [gas + 1] units of fuel are enough and no execution
    returns more gas than it was given. *)
From Stdlib Require Import ZArith Lia.
From stdpp Require Import base numbers list gmap.
From S2P Require Import Prelude U256 Math Params OpCodes Host AccessList State StateDB Stack Memory.
From S2P Require Import Contract VmErrors Precompiles Vm Gas Instr JumpTable Evm Demo VmLogic.
From S2P Require Import InstrProofs GasProofs.
Local Open Scope Z_scope.

(** ** Well-formed operations *)
Definition halting (x : executeName) : bool :=
  match x with
  | X_opUndefined | X_opStop | X_opReturn | X_opRevert | X_opSelfdestruct | X_opSelfdestruct6780 => true
  | _ => false
  end.

Definition kind_of (o : operation) : gasKind :=
  match dynamicGas o with Some g => gas_kind g | None => KAny end.

(** The operation has a price that the theorems below need. *)
Definition op_priced (o : operation) : bool :=
  match execute o with
  | X_opCall | X_opCallCode => (1 <=? constantGas o) && match kind_of o with KCall true => true | _ => false end
  | X_opDelegateCall | X_opStaticCall =>
      (1 <=? constantGas o) && match kind_of o with KCall _ => true | _ => false end
  | X_opCreate | X_opCreate2 => 1 <=? constantGas o
  | x => halting x || (1 <=? constantGas o) || match kind_of o with KPositive => true | _ => false end
  end.

Definition op_ok (eip150 : bool) (o : operation) : bool :=
  (0 <=? constantGas o) &&
  match dynamicGas o with
  | None => match memorySize o with None => true | Some _ => false end
  | Some g => gas_ok eip150 g && (uses_mem g || match memorySize o with None => true | Some _ => false end)
  end &&
  op_priced o.

Definition jt_ok (eip150 : bool) (jt : JumpTable) : Prop := forall o, o ∈ jt -> op_ok eip150 o = true.

Lemma jt_ok_forallb eip150 jt : forallb (op_ok eip150) jt = true -> jt_ok eip150 jt.
Proof. intros Hf o Ho. by apply (proj1 (forallb_forall _ _) Hf), list_elem_of_In. Qed.

Lemma op_ok_mono b o : op_ok false o = true -> op_ok b o = true.
Proof.
  unfold op_ok. destruct (dynamicGas o) as [g|]; [|done]. destruct b; [|done].
  assert (gas_ok false g = true -> gas_ok true g = true) as Hg by (by destruct g).
  intros [[Hc [Hok Hm]%andb_true_iff]%andb_true_iff Hp]%andb_true_iff. by rewrite Hc, Hp, Hm, (Hg Hok).
Qed.

(** ** The tables of the forks

    The gas functions of EIP-2929 come with Berlin. *)
Definition has2929 (f : fork) : bool :=
  match f with
  | F_berlin | F_london | F_merge | F_shanghai | F_cancun | F_prague | F_osaka => true
  | _ => false
  end.

Record table_ok (eip150 : bool) (jt : JumpTable) : Prop := {
  table_length : length jt = 256%nat;
  table_priced : jt_ok eip150 jt;
  table_ef : jt !! 239%nat = Some undefinedOp
}.
Definition tables_ok (T : Tables) : Prop := forall f, table_ok (has2929 f) (T f).

Lemma newInstructionSet_ok f jt : newInstructionSet f = Ok jt -> table_ok (has2929 f) jt.
Proof.
  assert (forall b (m : result JumpTable),
    match m with Ok j => ((length j =? 256)%nat && forallb (op_ok b) j, j !! 239%nat) = (true, Some undefinedOp)
    | _ => True end -> m = Ok jt -> table_ok b jt) as Hm.
  { intros b m Hc ->. injection Hc as [Hl Hf]%andb_true_iff He.
    split; [by apply Nat.eqb_eq|by apply jt_ok_forallb|done]. }
  apply Hm. destruct f; vm_compute; reflexivity.
Qed.

Lemma set_table_eq T f jt : set_table T f jt f = jt.
Proof. unfold set_table. by rewrite decide_True. Qed.
Lemma tables_ok_set T f jt : tables_ok T -> table_ok (has2929 f) jt -> tables_ok (set_table T f jt).
Proof. intros HT Hj g. unfold set_table. case_decide; [by subst|apply HT]. Qed.

Lemma initialTables_ok T : initialTables = Ok T -> tables_ok T.
Proof.
  assert (forall l T0, init_tables l T0 = Ok T ->
    forall f, f ∈ l \/ table_ok (has2929 f) (T0 f) -> table_ok (has2929 f) (T f)) as Hi.
  { induction l as [|g l IH]; intros T0; cbn [init_tables].
    - intros [= ->] f [Hf|Hf]; [by apply not_elem_of_nil in Hf|done].
    - destruct (newInstructionSet g) as [jt| |] eqn:Eg; try done. cbn [mbind result_bind].
      intros Hl f Hf. apply (IH _ Hl). apply newInstructionSet_ok in Eg. unfold set_table.
      destruct (decide (f = g)) as [->|]; [by right|]. destruct Hf as [Hf|]; [left|by right].
      by apply elem_of_cons in Hf as [?|?]. }
  unfold initialTables. intros HT f. apply (Hi forks (fun _ => []) HT). left. destruct f; apply list_elem_of_In; simpl; tauto.
Qed.

Lemma index_elem {A} (l : list A) i x : index l i = Ok x -> x ∈ l.
Proof.
  unfold index. destruct (_ && _); [|done]. destruct (l !! _) as [y|] eqn:Ey; [|done].
  intros [= <-]. by eapply list_elem_of_lookup_2.
Qed.

Lemma set_index_inv {A} (l : list A) i x l' : set_index l i x = Ok l' -> 0 <= i < zlen l /\ l' = <[Z.to_nat i := x]> l.
Proof.
  unfold set_index. destruct (Z.leb_spec 0 i), (Z.ltb_spec i (zlen l)); cbn [andb]; intros [= <-]; try done.
Qed.
Lemma table_ok_write b jt i o jt' : table_ok b jt -> op_ok b o = true -> (i = 239 -> o = undefinedOp) ->
  set_index jt i o = Ok jt' -> table_ok b jt'.
Proof.
  intros [Hl Hp He] Ho H239 [Hi ->]%set_index_inv. split.
  - etransitivity; [apply length_insert|done].
  - intros x [j Hj]%list_elem_of_lookup. apply list_lookup_insert_Some in Hj as [(_ & <- & _)|[_ Hj]]; [done|].
    apply Hp. by eapply list_elem_of_lookup_2.
  - destruct (decide (Z.to_nat i = 239%nat)) as [E|E].
    + rewrite H239 by lia. rewrite E. apply (list_lookup_insert_eq (jt : list operation)). rewrite Hl. lia.
    + etransitivity; [by apply (list_lookup_insert_ne (jt : list operation))|done].
Qed.
Lemma disableOpcodes_ok b ops jt jt' : table_ok b jt -> disableOpcodes ops jt = Ok jt' -> table_ok b jt'.
Proof.
  revert jt. induction ops as [|op ops IH]; intros jt Hj; cbn [disableOpcodes]; [by intros [= <-]|].
  destruct (set_index jt op undefinedOp) as [jt1| |] eqn:Es; try done. cbn [mbind result_bind]. apply IH.
  apply (table_ok_write b jt op undefinedOp); [exact Hj| |done|exact Es]. by destruct b.
Qed.

(** An interpreter leaves good tables behind and has, when no extra EIPs are
    configured, a good table. *)
Lemma NewEVMInterpreter_ok T r disabled eips T' jt rest :
  tables_ok T -> NewEVMInterpreter T r disabled eips = Ok (T', (jt, rest)) ->
  tables_ok T' /\ (eips = [] -> table_ok (has2929 (selectInstructionSet r)) jt /\ T' (selectInstructionSet r) = jt /\ rest = []).
Proof.
  intros HT. unfold NewEVMInterpreter. set (f := selectInstructionSet r).
  assert (forall T1, (if r_IsShanghai r && negb (r_IsMerge r) then
      difficulty ← jt_get (T F_frontier) DIFFICULTY; jt ← set_index (T f) RANDOM difficulty; Ok (set_table T f jt)
    else Ok T) = Ok T1 -> tables_ok T1) as H1.
  { intros T1. destruct (_ && _); [|by intros [= <-]].
    destruct (jt_get (T F_frontier) DIFFICULTY) as [d| |] eqn:Ed; try done. cbn [mbind result_bind].
    destruct (set_index (T f) RANDOM d) as [j| |] eqn:Es; try done. cbn [mbind result_bind]. intros [= <-].
    apply tables_ok_set; [done|]. apply (table_ok_write _ (T f) RANDOM d); [apply HT| |done|exact Es].
    apply op_ok_mono, (table_priced _ _ (HT F_frontier)). exact (index_elem _ _ _ Ed). }
  destruct (if r_IsShanghai r && _ then _ else _) as [T1| |]; try done. specialize (H1 T1 eq_refl).
  cbn [mbind result_bind]. destruct (disableOpcodes disabled (T1 f)) as [jt1| |] eqn:Ed; try done.
  apply (disableOpcodes_ok (has2929 f)) in Ed; [|apply H1]. cbn [mbind result_bind].
  destruct (extraEips _ _ _ _ _) as [cfg| |] eqn:Ee; try done. cbn [mbind result_bind]. intros [= <- ->].
  split; [by apply tables_ok_set|]. intros ->. injection Ee as <- <-. by rewrite set_table_eq.
Qed.

Lemma reachable_tables_ok T : reachable_tables T -> tables_ok T.
Proof.
  induction 1 as [T HT|T r disabled eips T' [jt rest] _ IH Hn]; [by apply initialTables_ok|].
  by apply (NewEVMInterpreter_ok _ _ _ _ _ _ _ IH) in Hn as [? _].
Qed.

(** Rules under which the table of EIP-2929 is used bring EIP-150 as well. *)
Definition eip150_before_berlin (r : Rules) : Prop :=
  has2929 (selectInstructionSet r) = true -> r_IsEIP150 r = true.

Lemma interpreter_table T r disabled T' jt :
  reachable_tables T -> NewEVMInterpreter T r disabled [] = Ok (T', (jt, [])) ->
  table_ok (has2929 (selectInstructionSet r)) jt /\ (eip150_before_berlin r -> jt_ok (r_IsEIP150 r) jt).
Proof.
  intros HT%reachable_tables_ok Hn. apply (NewEVMInterpreter_ok _ _ _ _ _ _ _ HT) in Hn as [_ Hj].
  destruct (Hj eq_refl) as ([Hl Hp He] & _ & _). split; [done|]. intros Hb o Ho. specialize (Hp o Ho).
  unfold eip150_before_berlin in Hb. destruct (has2929 _); [by rewrite Hb|by apply op_ok_mono].
Qed.

Section Steps.
Context {U : Uint256} {UL : Uint256Laws} {H : Host} {C : Crypto}.
Variable E : evmE.

(** ** Frames *)
Record frame_ok (v : vstate) : Prop := {
  fo_stack : wf_stack (stack_of v);
  fo_mem : mem_ok (mem_of v);
  fo_gas : vgas_ok v
}.

Lemma mem_ok_keeps v v' : keeps v v' -> mem_ok (mem_of v) -> mem_ok (mem_of v').
Proof. intros [_ Hl Hp] (w & Hw & El & Ep). exists w. by rewrite Hl, Hp. Qed.

Lemma wp_spop Q v :
  (forall x st, stack_of v = x :: st -> Q x (mkV (evm v) (set_stack (fr v) st))) -> wp spop Q v.
Proof. intros HQ. unfold wp, spop. destruct (stack_of v) as [|x st]; [done|]. by apply HQ. Qed.

Lemma wp_halting K x v :
  halting x = true -> wp (execute_sem E K x) (fun r _ => snd r <> None) v.
Proof.
  destruct x; intros Hx; try discriminate Hx; cbn [execute_sem];
    unfold opStop, opReturn, opRevert, opUndefined, opSelfdestruct, opSelfdestruct6780, memArgs, fail,
      get_readOnly, get_frame, put_returnData;
    repeat (wp_step || (apply wp_spop; intros)); done.
Qed.

(** ** Charging *)
Lemma SafeMul_size x size : is_u64 x -> SafeMul (toWordSize x) 32 = (size, false) -> size_ok size.
Proof.
  intros Hx Hm. rewrite toWordSize_spec in Hm by done. unfold is_u64 in *.
  apply SafeMul_false in Hm as [-> ?]; [|unfold is_u64; zmod..].
  exists ((x + 31) / 32). split; [lia|]. split; [zmod|lia].
Qed.

Definition is_size (r : result (Z * bool)) : Prop :=
  match r with Ok (x, _) => is_u64 x | Panic => True | OutOfFuel => False end.

Lemma calcMemSize64WithUint_size off n : is_u256 off -> is_u64 n -> is_u64 (fst (calcMemSize64WithUint off n)).
Proof.
  intros Ho Hn. unfold calcMemSize64WithUint. destruct (n =? 0); [done|].
  destruct (u_Uint64WithOverflow off) as [o b]. destruct b; [done|]. apply u64_range.
Qed.
Lemma calcMemSize64_size off n : is_u256 off -> is_u256 n -> is_u64 (fst (calcMemSize64 off n)).
Proof.
  intros Ho Hn. unfold calcMemSize64. destruct (negb _); [done|].
  apply calcMemSize64WithUint_size; [done|by apply u_Uint64_range].
Qed.
Lemma calcBack_size st a b : wf_stack st -> is_size (calcBack st a b).
Proof.
  intros W. unfold calcBack, Back, mbind, result_bind.
  destruct (st !! a) as [x|] eqn:Ea; [|done]. destruct (st !! b) as [y|] eqn:Eb; [|done]. simpl.
  eapply Forall_lookup_1 in Ea, Eb; try done.
  pose proof (calcMemSize64_size x y Ea Eb). by destruct (calcMemSize64 x y).
Qed.
Lemma maxBack_size st a b c d : wf_stack st -> is_size (maxBack st a b c d).
Proof.
  intros W. unfold maxBack, mbind, result_bind.
  pose proof (calcBack_size st a b W) as H1. destruct (calcBack st a b) as [[x []]| |]; try done.
  pose proof (calcBack_size st c d W) as H2. destruct (calcBack st c d) as [[y []]| |]; try done.
  by destruct (y <? x).
Qed.
Lemma memorySize_sem_size m st : wf_stack st -> is_size (memorySize_sem m st).
Proof.
  intros W.
  assert (forall n, is_u64 n -> is_size (o ← Back st 0; Ok (calcMemSize64WithUint o n))) as H1.
  { intros n Hn. unfold Back, mbind, result_bind. destruct (st !! 0%nat) as [x|] eqn:Ex; [|done]. simpl.
    eapply Forall_lookup_1 in Ex; [|done].
    pose proof (calcMemSize64WithUint_size x n Ex Hn). by destruct (calcMemSize64WithUint x n). }
  destruct m; cbn [memorySize_sem]; try (by apply calcBack_size); try (by apply maxBack_size); try (by apply H1).
  unfold memoryMcopy, Back, mbind, result_bind.
  destruct (st !! 0%nat) as [x|] eqn:Ex; [|done]. destruct (st !! 1%nat) as [y|] eqn:Ey; [|done].
  destruct (st !! 2%nat) as [z|] eqn:Ez; [|done]. simpl. eapply Forall_lookup_1 in Ex, Ey, Ez; try done.
  pose proof (calcMemSize64_size (if u_Gt y x then y else x) z) as Hs.
  destruct (calcMemSize64 _ _). apply Hs; [by destruct (u_Gt y x)|done].
Qed.

Lemma mem_paid_resize m size m' :
  mem_ok m -> size_ok size -> mem_paid m size m' ->
  mem_ok (if 0 <? size then Memory_Resize m' size else m').
Proof.
  intros Hm (w & -> & H0 & H1) [fee Ef].
  destruct (memoryGasCost_resize m w Hm H0 H1) as (w0 & _ & Hr). rewrite Ef in Hr.
  destruct (Z.ltb_spec 0 (32 * w)); [by destruct Hr as (_ & _ & _ & _ & ? & _)|].
  assert (w = 0) as -> by lia. cbn in Ef. injection Ef as _ <-. exact Hm.
Qed.

(** What holds once the dynamic price of [o] has been paid. *)
Definition paid (o : operation) (v v' : vstate) : Prop :=
  frame_ok v' /\ stack_of v' = stack_of v /\
  exists g, 0 <= g /\ gas_of v' = gas_of v - g /\
    match dynamicGas o with Some gn => gas_lo gn v g v' | None => True end.

Lemma chargeDynamic_spec o v :
  op_ok (r_IsEIP150 (chainRules E)) o = true -> frame_ok v ->
  wp (chargeDynamic E o) (fun r v' => 0 <= gas_of v' <= gas_of v /\ (r = None -> paid o v v')) v.
Proof.
  intros Hok [W M [G0 G1]]. unfold chargeDynamic, op_ok in *.
  apply andb_true_iff in Hok as [Hok _]. apply andb_true_iff in Hok as [Hc Hd].
  unfold paid. destruct (dynamicGas o) as [g|].
  2: { apply wp_ret. split; [lia|]. intros _. split_and!; [by split|done|]. exists 0. split_and!; (done || lia). }
  apply andb_true_iff in Hd as [Hg Hm]. apply wp_bind, wp_gets, wp_bind.
  (* the size asked for *)
  apply wp_mono with (Q := fun size v' => v' = v /\
    match size with Some n => size_ok n /\ (uses_mem g = true \/ n = 0) | None => True end).
  { destruct (memorySize o) as [m|].
    - rewrite orb_false_r in Hm. pose proof (memorySize_sem_size m (stack_of v) W) as Hs.
      apply wp_bind. apply wp_lift; [by intros Hf; rewrite Hf in Hs|]. intros [x over] Hx.
      rewrite Hx in Hs. simpl in Hs. destruct over; [by apply wp_ret|].
      destruct (SafeMul _ _) as [n []] eqn:En; apply wp_ret; [done|]. eauto using SafeMul_size.
    - apply wp_ret. split_and!; [done| |by right]. exists 0. lia. }
  intros [size|] v1 [-> Hsize]; [|apply wp_ret; split; [lia|done]]. destruct Hsize as [Hsz Hum].
  apply wp_bind. eapply wp_mono; [apply dynamicGas_sem_spec; try done; by split|].
  intros [cost|e] v1; unfold gpost; [|by intros; apply wp_ret; split].
  intros (H0 & Hgas & Hst & Hmem & Hlo). apply wp_bind, wp_vUseGas; intros Hle; cbn [negb].
  { apply wp_ret. split; [lia|done]. }
  pose proof (mem_paid_resize _ _ _ M Hsz Hmem) as Hm'.
  apply wp_bind.
  apply wp_mono with (Q := fun _ v' => evm v' = evm v1 /\ stack_of v' = stack_of v /\
    gas_of v' = gas_of v - cost /\ mem_ok (mem_of v')).
  { destruct (0 <? size); simpl in *; repeat wp_step; rewrite ?Hgas, ?Hst; done. }
  intros _ v2 (He & Hs2 & Hg2 & Hm2). apply wp_ret. split; [lia|]. intros _.
  split_and!; [split; [by rewrite Hs2|done|split; lia]|done|].
  exists cost. split_and!; [done|done|]. unfold gas_lo, finalLo in *.
  destruct (gas_kind g); rewrite ?He; done.
Qed.

(** ** The CALL and CREATE handlers *)
Definition left_ok (gas : Z) (r : callRes) : Prop := 0 <= snd (fst r) <= gas.

(** Calls given less than [n] gas return, with no more than they were given. *)
Record calls_ok (K : Calls) (n : Z) : Prop := {
  ok_Call c a i g x e : 0 <= g < n -> wp (do_Call K c a i g x) (fun r _ => left_ok g r) e;
  ok_CallCode c a i g x e : 0 <= g < n -> wp (do_CallCode K c a i g x) (fun r _ => left_ok g r) e;
  ok_DelegateCall c a i g e : 0 <= g < n -> wp (do_DelegateCall K c a i g) (fun r _ => left_ok g r) e;
  ok_StaticCall c a i g e : 0 <= g < n -> wp (do_StaticCall K c a i g) (fun r _ => left_ok g r) e;
  ok_Create c i g x e : 0 <= g < n -> wp (do_Create K c i g x) (fun r _ => left_ok g (fst r)) e;
  ok_Create2 c i g x y e : 0 <= g < n -> wp (do_Create2 K c i g x y) (fun r _ => left_ok g (fst r)) e
}.

Lemma wp_safe {A} (m : VM A) P Q v :
  safe m P -> wf_stack (stack_of v) ->
  (forall a v', P a -> wf_stack (stack_of v') -> keeps v v' -> Q a v') -> wp m Q v.
Proof. intros Hm W HQ. eapply wp_mono; [by apply Hm|]. intros a v' (? & ? & ?). by apply HQ. Qed.

(** After a handler that may have got up to [b] gas back. *)
Definition back (b : Z) (v v' : vstate) : Prop :=
  0 <= gas_of v' <= gas_of v + b /\ wf_stack (stack_of v') /\ mem_ok (mem_of v').

Lemma refundGas_spec b g (v : vstate) Q :
  0 <= g <= b -> 0 <= gas_of v -> gas_of v + b < 2 ^ 64 ->
  (forall v', gas_of v' = gas_of v + g -> stack_of v' = stack_of v -> mem_of v' = mem_of v -> Q tt v') ->
  wp (refundGas g) Q v.
Proof.
  intros Hg H0 H1 HQ. unfold refundGas. do 3 wp_step. apply HQ; try done.
  simpl. apply u64_id. unfold is_u64. lia.
Qed.

Lemma finishCall_spec ro rs r b v :
  left_ok b r -> 0 <= gas_of v -> gas_of v + b < 2 ^ 64 -> wf_stack (stack_of v) -> mem_ok (mem_of v) ->
  wp (finishCall ro rs r) (fun _ v' => back b v v') v.
Proof.
  destruct r as [[ret g] err]. unfold left_ok. simpl. intros Hl H0 H1 W M.
  apply wp_bind. eapply wp_safe; [apply safe_spush; destruct err; eauto with word|done|].
  intros _ v1 _ W1 K1. apply wp_bind.
  eapply wp_safe with (P := fun _ => True); [destruct (keepsReturn err); [apply safe_memSet|by apply safe_ret]|done|].
  intros _ v2 _ W2 K2. assert (K := transitivity K1 K2). pose proof (mem_ok_keeps _ _ K M).
  destruct K as [Kg _ _].
  apply wp_bind. eapply refundGas_spec; [exact Hl|lia|lia|]. intros v3 Hg3 Hs3 Hm3.
  repeat wp_step. unfold back. simpl. rewrite Hg3, Hs3, Hm3. split_and!; (done || lia).
Qed.

Lemma finishCreate_spec x r b v :
  is_u256 x -> left_ok b r -> 0 <= gas_of v -> gas_of v + b < 2 ^ 64 -> wf_stack (stack_of v) ->
  mem_ok (mem_of v) -> wp (finishCreate x r) (fun _ v' => back b v v') v.
Proof.
  destruct r as [[ret g] err]. unfold left_ok. simpl. intros Hx Hl H0 H1 W M.
  apply wp_bind. eapply wp_safe; [by apply safe_spush|done|].
  intros _ v1 _ W1 K1. pose proof (mem_ok_keeps _ _ K1 M). destruct K1 as [Kg _ _].
  apply wp_bind. eapply refundGas_spec; [exact Hl|lia|lia|]. intros v3 Hg3 Hs3 Hm3.
  assert (forall v', fr v' = fr v3 -> back b v v') as HB.
  { intros v' E'. unfold back. rewrite E', Hg3, Hs3, Hm3. split_and!; (done || lia). }
  destruct err as [[]|]; repeat wp_step; by apply HB.
Qed.

Ltac pops :=
  repeat (apply wp_bind; apply wp_spop; cbn [fr evm f_stack set_stack]; intros ? ? ?; try (apply wp_bind, wp_gets; cbn [fr evm])).

(** The arguments of a call leave the frame alone. *)
Lemma wp_memArgs a b Q v : (forall d, Q d v) -> wp (memArgs a b) Q v.
Proof.
  intros HQ. unfold memArgs. wp_step. wp_step. apply wp_lift; [apply rnofuel_GetPtr|]. intros d _. apply HQ.
Qed.

Section CallHandlers.
Variables (K : Calls) (n b : Z) (v : vstate).
Hypothesis HK : calls_ok K n.
Hypothesis W : wf_stack (stack_of v).
Hypothesis M : mem_ok (mem_of v).
Hypothesis G : 0 <= gas_of v.
Hypothesis T : 0 <= callGasTemp (evm v) <= b.
Hypothesis B : b < n /\ gas_of v + b < 2 ^ 64.

(** [b] also pays for the stipend of a call with value. *)
Hypothesis V : forall x, stack_of v !! 2%nat = Some x -> u_IsZero x = false ->
  callGasTemp (evm v) + CallStipend <= b.

Lemma stipend x : stack_of v !! 2%nat = Some x ->
  let gas := callGasTemp (evm v) in
  let '(gas, bigVal) := if negb (u_IsZero x) then (u64 (gas + CallStipend), u_ToBig x) else (gas, 0) in
  0 <= gas <= b.
Proof.
  intros Hx. specialize (V x Hx). destruct (u_IsZero x); simpl; [lia|].
  specialize (V eq_refl). unfold CallStipend in *. rewrite u64_id; [lia|]. unfold is_u64. lia.
Qed.

Lemma call_tail m ro rs v1 :
  (forall e, wp m (fun r _ => left_ok b r) e) ->
  gas_of v1 = gas_of v -> mem_of v1 = mem_of v -> wf_stack (stack_of v1) ->
  wp (r ← on_evm m; finishCall ro rs r) (fun _ v' => back b v v') v1.
Proof.
  intros Hm Eg Em W1. apply wp_bind, wp_on_evm. eapply wp_mono; [apply Hm|]. intros r e Hr.
  eapply wp_mono; [apply (finishCall_spec _ _ _ b)|]; simpl; rewrite ?Eg, ?Em; try done; try lia.
  intros _ v'. unfold back. simpl. by rewrite Eg.
Qed.

Lemma left_ok_mono g r : left_ok g r -> g <= b -> left_ok b r.
Proof. unfold left_ok. lia. Qed.

Ltac tail_wf := simpl; subst;
  match goal with Hs : stack_of v = _ |- _ => rewrite Hs in W end;
  repeat (apply Forall_cons in W as [_ W]); done.

Lemma opCall_spec : wp (opCall K) (fun _ v' => back b v v') v.
Proof.
  unfold opCall. pops. apply wp_bind, wp_memArgs. intros args. apply wp_bind, wp_gets.
  assert (stack_of v !! 2%nat = Some x1) as Hx by (subst; match goal with Hs : stack_of v = _ |- _ => by rewrite Hs end).
  destruct (_ && _).
  - apply wp_ret. unfold back. simpl. split_and!; try done; try lia. tail_wf.
  - pose proof (stipend _ Hx) as Hg. cbv zeta in Hg. destruct (if negb _ then _ else _) as [gas bigVal].
    apply wp_bind, wp_gets. apply call_tail; try done; [|tail_wf].
    intros e. eapply wp_mono; [apply (ok_Call _ _ HK); lia|]. intros r e' Hl. eapply left_ok_mono; [exact Hl|lia].
Qed.
Lemma opCallCode_spec : wp (opCallCode K) (fun _ v' => back b v v') v.
Proof.
  unfold opCallCode. pops. apply wp_bind, wp_memArgs. intros args.
  assert (stack_of v !! 2%nat = Some x1) as Hx by (subst; match goal with Hs : stack_of v = _ |- _ => by rewrite Hs end).
  pose proof (stipend _ Hx) as Hg. cbv zeta in Hg. destruct (if negb _ then _ else _) as [gas bigVal].
  apply wp_bind, wp_gets. apply call_tail; try done; [|tail_wf].
  intros e. eapply wp_mono; [apply (ok_CallCode _ _ HK); lia|]. intros r e' Hl. eapply left_ok_mono; [exact Hl|lia].
Qed.
Lemma opDelegateCall_spec : wp (opDelegateCall K) (fun _ v' => back b v v') v.
Proof.
  unfold opDelegateCall. pops. apply wp_bind, wp_memArgs. intros args.
  apply wp_bind, wp_gets. apply call_tail; try done; [|tail_wf].
  intros e. eapply wp_mono; [apply (ok_DelegateCall _ _ HK); lia|]. intros r e' Hl. eapply left_ok_mono; [exact Hl|lia].
Qed.
Lemma opStaticCall_spec : wp (opStaticCall K) (fun _ v' => back b v v') v.
Proof.
  unfold opStaticCall. pops. apply wp_bind, wp_memArgs. intros args.
  apply wp_bind, wp_gets. apply call_tail; try done; [|tail_wf].
  intros e. eapply wp_mono; [apply (ok_StaticCall _ _ HK); lia|]. intros r e' Hl. eapply left_ok_mono; [exact Hl|lia].
Qed.
End CallHandlers.

Section CreateHandlers.
Variables (K : Calls) (n : Z) (v : vstate).
Hypothesis HK : calls_ok K n.
Hypothesis W : wf_stack (stack_of v).
Hypothesis M : mem_ok (mem_of v).
Hypothesis G : 0 <= gas_of v < n.
Hypothesis B : gas_of v < 2 ^ 64.

(** The creation gets [gas], of which at most all comes back. *)
Lemma create_tail gas (m : Contract -> EVM (callRes * Z)) (value : callRes * Z -> Z) v1 :
  0 <= gas <= gas_of v ->
  (forall c e, wp (m c) (fun r _ => left_ok gas (fst r)) e) -> (forall r, is_u256 (value r)) ->
  gas_of v1 = gas_of v -> mem_of v1 = mem_of v -> wf_stack (stack_of v1) ->
  wp (_ ← vUseGas gas; c ← get_contract;
      '(r, addr) ← on_evm (m c); finishCreate (value (r, addr)) r)
    (fun _ v' => back 0 v v') v1.
Proof.
  intros Hg Hm Hv Eg Em W1. apply wp_bind, wp_vUseGas; [lia|]. intros _. apply wp_bind, wp_gets.
  apply wp_bind, wp_on_evm. eapply wp_mono; [apply Hm|]. intros [r addr] e Hr.
  eapply wp_mono; [apply (finishCreate_spec _ _ gas)|]; simpl; rewrite ?Eg, ?Em; try done; try lia.
  intros _ v'. unfold back. simpl. rewrite ?Eg. intros (? & ? & ?). split_and!; (done || lia).
Qed.

Lemma opCreate_spec : wp (opCreate E K) (fun _ v' => back 0 v v') v.
Proof.
  unfold opCreate. apply wp_bind, wp_gets. destruct (readOnly _).
  { apply wp_ret. split_and!; (done || lia). }
  pops. apply wp_bind, wp_lift; [apply rnofuel_GetCopy|]. intros input _. apply wp_bind, wp_gets.
  cbn [fr f_contract set_stack].
  set (gas := if r_IsEIP150 _ then _ else _).
  assert (0 <= gas <= gas_of v) by (unfold gas; destruct (r_IsEIP150 _); zmod).
  apply (create_tail gas (fun c => do_Create K (as_ref c) input gas (if negb (u_IsZero x) then u_ToBig x else 0))
    (fun r => match snd (fst r) with
      | Some ErrCodeStoreOutOfGas => if r_IsHomestead (chainRules E) then 0 else u_SetBytes (Address_Bytes (snd r))
      | Some _ => 0 | None => u_SetBytes (Address_Bytes (snd r)) end)); try done.
  - intros c e. apply (ok_Create _ _ HK). lia.
  - intros [[? [[]|]] ?]; simpl; repeat case_match; eauto with word.
  - simpl. subst. match goal with Hs : stack_of v = _ |- _ => rewrite Hs in W end.
    repeat (apply Forall_cons in W as [_ W]); done.
Qed.
Lemma opCreate2_spec : wp (opCreate2 K) (fun _ v' => back 0 v v') v.
Proof.
  unfold opCreate2. apply wp_bind, wp_gets. destruct (readOnly _).
  { apply wp_ret. split_and!; (done || lia). }
  pops. apply wp_bind, wp_lift; [apply rnofuel_GetCopy|]. intros input _. apply wp_bind, wp_gets.
  cbn [fr f_contract set_stack].
  assert (0 <= gas_of v - gas_of v / 64 <= gas_of v) by zmod.
  apply (create_tail (gas_of v - gas_of v / 64)
    (fun c => do_Create2 K (as_ref c) input (gas_of v - gas_of v / 64)
       (if negb (u_IsZero x) then u_ToBig x else 0) x2)
    (fun r => match snd (fst r) with Some _ => 0 | None => u_SetBytes (Address_Bytes (snd r)) end)); try done.
  - intros c e. apply (ok_Create2 _ _ HK). lia.
  - intros [[? [|]] ?]; simpl; eauto with word.
  - simpl. subst. match goal with Hs : stack_of v = _ |- _ => rewrite Hs in W end.
    repeat (apply Forall_cons in W as [_ W]); done.
Qed.
End CreateHandlers.

(** ** One iteration *)
Lemma wp_and {S A} (m : ST S A) (Q R : A -> S -> Prop) s :
  wp m Q s -> wp m R s -> wp m (fun a s' => Q a s' /\ R a s') s.
Proof. unfold wp. by destruct (m s) as [[a s']| |]. Qed.

(** An operation that does not halt costs gas; the frame stays well formed. *)
Lemma execute_spec K o v1 v2 n :
  op_ok (r_IsEIP150 (chainRules E)) o = true -> frame_ok v1 -> paid o v1 v2 ->
  gas_of v1 + constantGas o = n -> calls_ok K n ->
  wp (execute_sem E K (execute o)) (fun r v3 => 0 <= gas_of v3 <= n /\
    (snd r = None -> gas_of v3 < n /\ wf_stack (stack_of v3) /\ mem_ok (mem_of v3))) v2.
Proof.
  intros Hok [W1 M1 [G0 G1]] ([W2 M2 [G2 G3]] & Hst & g & Hg0 & Hg & Hlo) Hn HK.
  unfold op_ok, op_priced in Hok. apply andb_true_iff in Hok as [Hok Hp].
  apply andb_true_iff in Hok as [Hc _]. apply Z.leb_le in Hc.
  assert (forall b (r : execRes) v3, back b v2 v3 -> b <= g -> 1 <= constantGas o -> 0 <= gas_of v3 <= n /\
    (snd r = None -> gas_of v3 < n /\ wf_stack (stack_of v3) /\ mem_ok (mem_of v3)))
    as Hback by (intros b r v3 (? & ? & ?) ?; split; [lia|]; intros _; split_and!; (done || lia)).
  assert (is_call (execute o) = false ->
    (halting (execute o) || (1 <=? constantGas o) || match kind_of o with KPositive => true | _ => false end) = true ->
    wp (execute_sem E K (execute o)) (fun r v3 => 0 <= gas_of v3 <= n /\
      (snd r = None -> gas_of v3 < n /\ wf_stack (stack_of v3) /\ mem_ok (mem_of v3))) v2) as Hsafe.
  { intros Hnc Hpr. pose proof (safe_execute E K (execute o) Hnc v2 W2) as Hs.
    destruct (halting (execute o)) eqn:Hh.
    - eapply wp_mono; [exact (wp_and _ _ _ _ Hs (wp_halting K _ v2 Hh))|].
      intros r v3 [(_ & _ & [Kg _ _]) Hr]. split; [lia|done].
    - eapply wp_mono; [exact Hs|]. intros r v3 (_ & W3 & K3). pose proof (mem_ok_keeps _ _ K3 M2).
      destruct K3 as [Kg _ _]. split; [lia|]. intros _. split_and!; try done.
      apply orb_true_iff in Hpr as [Hpr%Z.leb_le|Hpr]; [lia|].
      unfold kind_of, gas_lo in *. destruct (dynamicGas o) as [gn|]; [|done].
      destruct (gas_kind gn); try done. unfold positive in Hlo. lia. }
  assert (forall withValue, kind_of o = KCall withValue -> 1 <= constantGas o ->
    (0 <= callGasTemp (evm v2) <= g) /\ (g < n /\ gas_of v2 + g < 2 ^ 64) /\
    (withValue = true -> forall x, stack_of v2 !! 2%nat = Some x -> u_IsZero x = false ->
       callGasTemp (evm v2) + CallStipend <= g)) as Hcall.
  { intros withValue Hk H1. unfold kind_of, gas_lo in *. destruct (dynamicGas o) as [gn|]; [|done].
    rewrite Hk in Hlo. destruct Hlo as [Ht Hv]. split_and!; try lia.
    intros Hw x Hx Hz. rewrite Hst in Hx. specialize (Hv Hw x Hx Hz).
    unfold CallValueTransferGas, CallStipend in *. lia. }
  destruct (execute o) eqn:Ex; try (by apply Hsafe); clear Hsafe; cbn [execute_sem].
  - apply Z.leb_le in Hp. eapply wp_mono; [apply (opCreate_spec K n); try done; lia|]. intros r v3 Hb; (eapply Hback; [exact Hb|lia|lia]).
  - apply andb_true_iff in Hp as [Hp%Z.leb_le Hk]. destruct (kind_of o) as [| |[]]; try done.
    destruct (Hcall true eq_refl Hp) as (? & ? & Hv). eapply wp_mono; [by apply (opCall_spec K n g); eauto|].
    intros r v3 Hb; (eapply Hback; [exact Hb|lia|lia]).
  - apply andb_true_iff in Hp as [Hp%Z.leb_le Hk]. destruct (kind_of o) as [| |[]]; try done.
    destruct (Hcall true eq_refl Hp) as (? & ? & Hv). eapply wp_mono; [by apply (opCallCode_spec K n g); eauto|].
    intros r v3 Hb; (eapply Hback; [exact Hb|lia|lia]).
  - apply andb_true_iff in Hp as [Hp%Z.leb_le Hk]. destruct (kind_of o) as [| |b] eqn:Ek; try done.
    destruct (Hcall b eq_refl Hp) as (? & ? & _). eapply wp_mono; [by apply (opDelegateCall_spec K n g)|].
    intros r v3 Hb; (eapply Hback; [exact Hb|lia|lia]).
  - apply andb_true_iff in Hp as [Hp%Z.leb_le Hk]. destruct (kind_of o) as [| |b] eqn:Ek; try done.
    destruct (Hcall b eq_refl Hp) as (? & ? & _). eapply wp_mono; [by apply (opStaticCall_spec K n g)|].
    intros r v3 Hb; (eapply Hback; [exact Hb|lia|lia]).
  - apply Z.leb_le in Hp. eapply wp_mono; [apply (opCreate2_spec K n); try done; lia|]. intros r v3 Hb; (eapply Hback; [exact Hb|lia|lia]).
Qed.

Lemma step_spec jt K v :
  jt_ok (r_IsEIP150 (chainRules E)) jt -> frame_ok v -> calls_ok K (gas_of v) ->
  wp (step E jt K) (fun r v' => 0 <= gas_of v' <= gas_of v /\
    (r = None -> gas_of v' < gas_of v /\ frame_ok v')) v.
Proof.
  intros Hjt Hv HK. pose proof Hv as [W M [G0 G1]]. unfold step. apply wp_bind, wp_gets, wp_bind.
  apply wp_lift; [apply rnofuel_index|]. intros o Ho.
  assert (op_ok (r_IsEIP150 (chainRules E)) o = true) as Hok.
  { apply Hjt. exact (index_elem _ _ _ Ho). }
  destruct (_ <? _); [apply wp_ret; split; [lia|done]|].
  destruct (_ <? _); [apply wp_ret; split; [lia|done]|].
  assert (0 <= constantGas o) as Hc.
  { unfold op_ok in Hok. apply andb_true_iff in Hok as [Hok _]. apply andb_true_iff in Hok as [Hok _]. lia. }
  apply wp_bind, wp_vUseGas; intros Hpay; cbn [negb]; [apply wp_ret; split; [lia|done]|].
  set (v1 := mkV _ _). assert (frame_ok v1) as Hv1 by (split; [done|done|split; simpl; lia]).
  apply wp_bind. eapply wp_mono; [by apply (chargeDynamic_spec o v1)|]. intros r v2 [Hg2 Hpaid].
  assert (gas_of v1 = gas_of v - constantGas o) as Eg1 by done.
  destruct r as [e|]; [apply wp_ret; split; [lia|done]|]. specialize (Hpaid eq_refl).
  apply wp_bind. eapply wp_mono; [apply (execute_spec K o v1 v2 (gas_of v)); try done; lia|].
  intros [res [e|]] v3 [Hg3 Hnext]; [apply wp_ret; split; [lia|done]|].
  destruct (Hnext eq_refl) as (Hlt & W3 & M3). repeat wp_step. split; [simpl; lia|]. intros _.
  split; [simpl; lia|]. split; [done|done|split; simpl; lia].
Qed.

(** ** The entry points *)
Lemma rnofuel_AsDelegate c : rnofuel (AsDelegate c).
Proof. unfold AsDelegate. by destruct (caller c). Qed.
Lemma rnofuel_RequiredGas p i : rnofuel (RequiredGas p i).
Proof.
  destruct p; cbn [RequiredGas]; try done; unfold bigModExp_RequiredGas, modexpHeader, multiExpGas; nofuel_solve.
Qed.
Lemma max2_nonneg a b : 0 <= a -> 0 <= max [a; b].
Proof. intros. simpl. destruct (Z.ltb_spec a b); lia. Qed.
Lemma RequiredGas_nonneg p i g : RequiredGas p i = Ok g -> 0 <= g.
Proof.
  assert (forall z, 0 <= u64 z) as Hu by (intros z; apply u64_range).
  destruct p; cbn [RequiredGas]; unfold wordsGas, blake2F_RequiredGas;
    try (intros [= <-]; repeat case_match; first [apply Hu | zmod | by vm_compute]).
  - unfold bigModExp_RequiredGas, mbind, result_bind.
    destruct (modexpHeader i) as [[[[? ?] ?] ?]| |]; try done.
    destruct (if _ <=? _ then _ else _); try done. intros [= <-].
    repeat match goal with |- context [if ?b then MaxUint64 else _] => destruct b; [done|] end.
    destruct eip2565; [destruct (64 <? _); [done|apply max2_nonneg; by destruct eip7883]|].
    destruct (64 <? _); [done|apply Hu].
  - unfold multiExpGas, mbind, result_bind. destruct (_ =? 0); [by intros [= <-]|].
    destruct (index _ _); try done. intros [= <-]. apply Z.div_pos; [apply Hu|lia].
  - unfold multiExpGas, mbind, result_bind. destruct (_ =? 0); [by intros [= <-]|].
    destruct (index _ _); try done. intros [= <-]. apply Z.div_pos; [apply Hu|lia].
Qed.
Lemma rnofuel_precompile_Run p i : rnofuel (precompile_Run p i).
Proof. destruct p; cbn [precompile_Run]; try done. unfold bigModExp_Run, modexpHeader. nofuel_solve. Qed.
Lemma RunPrecompiledContract_spec p i gas (e : evmS) : 0 <= gas ->
  wp (st_lift (RunPrecompiledContract p i gas)) (fun r _ => left_ok gas r) e.
Proof.
  intros Hg. unfold RunPrecompiledContract. apply wp_lift.
  - apply rnofuel_bind; [apply rnofuel_RequiredGas|]. intros g _. destruct (_ <? _); [done|].
    apply rnofuel_bind; [apply rnofuel_precompile_Run|]. by intros [out err] _.
  - intros r. unfold mbind, result_bind. destruct (RequiredGas p i) as [g| |] eqn:Eg; try done.
    apply RequiredGas_nonneg in Eg. destruct (Z.ltb_spec gas g).
    + intros [= <-]. unfold left_ok. simpl. lia.
    + destruct (precompile_Run p i) as [[out err]| |]; try done. intros [= <-]. unfold left_ok. simpl. lia.
Qed.

Definition run_ok (run : Contract -> bytes -> bool -> EVM (execRes * Contract)) (n : Z) : Prop :=
  forall c i ro e, 0 <= Gas c < n -> wp (run c i ro) (fun r _ => 0 <= Gas (snd r) <= Gas c) e.

Ltac ewp_step :=
  lazymatch goal with
  | |- wp (mbind _ _) _ _ => apply wp_bind
  | |- wp (mret _) _ _ => apply wp_ret
  | |- wp (sdb _) _ _ => apply wp_sdb; [solve [eauto with nofuel]|intros ? ?]
  | |- wp get_depth _ _ => apply wp_gets
  | |- wp (st_gets _) _ _ => apply wp_gets
  | |- wp (st_modify _) _ _ => apply wp_modify
  | |- wp (if ?b then _ else _) _ _ => destruct b eqn:?
  end.

Section EntryPoints.
Variables (run : Contract -> bytes -> bool -> EVM (execRes * Contract)) (n : Z).
Hypothesis R : run_ok run n.

Lemma nofuel_resolveCode a : nofuel (resolveCode E a).
Proof. unfold resolveCode. nofuel_solve. Qed.
Lemma nofuel_resolveCodeHash a : nofuel (resolveCodeHash E a).
Proof. unfold resolveCodeHash. nofuel_solve. Qed.
Lemma nofuel_defaultCanTransfer a x : nofuel (defaultCanTransfer a x).
Proof. unfold defaultCanTransfer. nofuel_solve. Qed.
Lemma nofuel_defaultTransfer a b x : nofuel (defaultTransfer a b x).
Proof. unfold defaultTransfer. nofuel_solve. Qed.
Lemma nofuel_Snapshot : nofuel Snapshot.
Proof. done. Qed.
Hint Resolve nofuel_resolveCode nofuel_resolveCodeHash nofuel_defaultCanTransfer nofuel_defaultTransfer
  nofuel_Snapshot : nofuel.

Lemma settle_spec snap gas r e : left_ok gas r -> wp (settle snap r) (fun r' _ => left_ok gas r') e.
Proof.
  destruct r as [[ret g] [err|]]; unfold settle; intros Hl; repeat ewp_step; [|done].
  unfold left_ok in *. simpl in *. case_bool_decide; lia.
Qed.
Lemma wp_newContract c o x gas Q e :
  (forall k e', Gas k = gas -> Q k e') -> wp (newContract c o x gas) Q e.
Proof. intros HQ. unfold newContract, NewContract. destruct c; repeat ewp_step; by apply HQ. Qed.
Lemma runContract_spec c i ro e : 0 <= Gas c < n ->
  wp (runContract run c i ro) (fun r _ => left_ok (Gas c) r) e.
Proof.
  intros Hg. unfold runContract. apply wp_bind. eapply wp_mono; [by apply R|].
  intros [[ret err] c'] e' Hc. by apply wp_ret.
Qed.

(** The execution of a callee with [g] gas, then [settle]. *)
Lemma wp_settle m snap g e :
  wp m (fun r _ => left_ok g r) e ->
  wp m (fun r e' => wp (settle snap r) (fun r' _ => left_ok g r') e') e.
Proof. intros Hm. eapply wp_mono; [exact Hm|]. intros r e' Hr. by apply settle_spec. Qed.

Lemma left_all g ret err : 0 <= g -> left_ok g (ret, g, err).
Proof. unfold left_ok. simpl. lia. Qed.

Lemma Call_spec c a i g x e : 0 <= g < n -> wp (Call E run c a i g x) (fun r _ => left_ok g r) e.
Proof.
  intros Hg. unfold Call. repeat ewp_step; try (apply left_all; lia).
  all: apply wp_settle; destruct (precompile _ _); [apply RunPrecompiledContract_spec; lia|].
  all: repeat ewp_step; try (apply left_all; lia).
  all: apply wp_newContract; intros k e' Hk; repeat ewp_step.
  all: rewrite <- Hk; apply (runContract_spec (SetCallCode k _ _ _)); simpl; lia.
Qed.
Lemma CallCode_spec c a i g x e : 0 <= g < n -> wp (CallCode E run c a i g x) (fun r _ => left_ok g r) e.
Proof.
  intros Hg. unfold CallCode. repeat ewp_step; try (apply left_all; lia).
  apply wp_settle. destruct (precompile _ _); [apply RunPrecompiledContract_spec; lia|].
  repeat ewp_step. apply wp_newContract. intros k e' Hk. repeat ewp_step.
  rewrite <- Hk. apply (runContract_spec (SetCallCode k _ _ _)). simpl. lia.
Qed.
Lemma DelegateCall_spec c a i g e : 0 <= g < n -> wp (DelegateCall E run c a i g) (fun r _ => left_ok g r) e.
Proof.
  intros Hg. unfold DelegateCall. repeat ewp_step; try (apply left_all; lia).
  apply wp_settle. destruct (precompile _ _); [apply RunPrecompiledContract_spec; lia|].
  repeat ewp_step. apply wp_newContract. intros k e' Hk. ewp_step.
  apply wp_lift; [apply rnofuel_AsDelegate|]. intros k' Ek. repeat ewp_step.
  assert (Gas k' = g) as <- by (unfold AsDelegate in Ek; destruct (caller k); by simplify_eq/=).
  apply (runContract_spec (SetCallCode k' _ _ _)). simpl. lia.
Qed.
Lemma StaticCall_spec c a i g e : 0 <= g < n -> wp (StaticCall E run c a i g) (fun r _ => left_ok g r) e.
Proof.
  intros Hg. unfold StaticCall. repeat ewp_step; try (apply left_all; lia).
  apply wp_settle. destruct (precompile _ _); [apply RunPrecompiledContract_spec; lia|].
  repeat ewp_step. apply wp_newContract. intros k e' Hk. repeat ewp_step.
  rewrite <- Hk. apply (runContract_spec (SetCallCode k _ _ _)). simpl. lia.
Qed.

Lemma UseGas_spec c g b c' : UseGas c g = (b, c') -> 0 <= g -> 0 <= Gas c -> 0 <= Gas c' <= Gas c.
Proof. unfold UseGas. destruct (Z.ltb_spec (Gas c) g); intros [= <- <-] ? ?; simpl; lia. Qed.

Lemma endCreate_spec snap a g ret err c e :
  0 <= Gas c <= g -> wp (endCreate E snap a ((ret, err), c)) (fun r _ => left_ok g (fst r)) e.
Proof.
  intros Hc. unfold endCreate. apply wp_bind.
  apply wp_mono with (Q := fun r _ => 0 <= Gas (snd r) <= g).
  { destruct (checkCode E ret err); [apply wp_ret; simpl; lia|].
    destruct (UseGas c _) as [b c'] eqn:Eu. apply UseGas_spec in Eu; [|apply u64_range|lia].
    destruct b; repeat ewp_step; simpl; lia. }
  intros [[er|] c'] e' Hc'; simpl in Hc'; repeat ewp_step; unfold left_ok; simpl; try lia.
  destruct (bool_decide (er = ErrExecutionReverted)); [lia|]. destruct (UseGas c' (Gas c')) as [b c2] eqn:Eu.
  apply UseGas_spec in Eu; simpl; lia.
Qed.
Lemma create_spec c k g x a e : 0 <= g < n -> wp (create E run c k g x a) (fun r _ => left_ok g (fst r)) e.
Proof.
  intros Hg. unfold create. repeat ewp_step; try (apply left_all; lia); try (unfold left_ok; simpl; lia).
  all: apply wp_newContract; intros kt e' Hk; ewp_step.
  all: eapply wp_mono; [apply R; simpl; lia|]; intros [[ret err] c1] e1 Hc1; simpl in Hc1.
  all: apply endCreate_spec; lia.
Qed.

Lemma rnofuel_CreateAddress a k : rnofuel (CreateAddress a k).
Proof.
  assert (forall heads s dst p q, rnofuel (Rlp.copyTo_loop heads s dst p q)) as Hl.
  { induction heads as [|hd heads IH]; intros; simpl; nofuel_solve; apply IH. }
  unfold CreateAddress, Rlp.EncodeAddressNonce, Rlp.enc_listEnd, Rlp.makeBytes. nofuel_solve.
Qed.

Lemma calls_spec : calls_ok (calls E run) n.
Proof.
  split; simpl; intros.
  - by apply Call_spec.
  - by apply CallCode_spec.
  - by apply DelegateCall_spec.
  - by apply StaticCall_spec.
  - unfold Create. ewp_step. ewp_step. ewp_step. apply wp_lift; [apply rnofuel_CreateAddress|].
    intros. by apply create_spec.
  - by apply create_spec.
Qed.
End EntryPoints.

(** ** The loop *)
Variable jt : JumpTable.
Hypothesis J : jt_ok (r_IsEIP150 (chainRules E)) jt.

Lemma in_frame_spec body n c e :
  n <= 2 ^ 64 -> 0 <= Gas c < n ->
  (forall v, frame_ok v -> gas_of v < n -> wp body (fun _ v' => 0 <= gas_of v' <= gas_of v) v) ->
  wp (in_frame body c) (fun r _ => 0 <= Gas (snd r) <= Gas c) e.
Proof.
  intros Hn Hg Hb. set (v := mkV e (mkFrame 0 newstack NewMemory c)).
  assert (frame_ok v) as Hv by (split; [constructor|apply mem_ok_new|split; simpl; lia]).
  specialize (Hb v Hv (proj2 Hg)). unfold wp, in_frame in *. fold v. by destruct (body v) as [[r v']| |].
Qed.

Lemma run_with_spec body n :
  n <= 2 ^ 64 ->
  (forall v, frame_ok v -> gas_of v < n -> wp body (fun _ v' => 0 <= gas_of v' <= gas_of v) v) ->
  run_ok (run_with body) n.
Proof.
  intros Hn Hb c i ro e Hg. unfold run_with. repeat ewp_step; try (simpl; lia).
  all: eapply wp_mono; [apply (in_frame_spec body n); done|]; intros r e' Hr; by repeat ewp_step.
Qed.

Lemma loop_spec fuel v :
  frame_ok v -> gas_of v < Z.of_nat fuel ->
  wp (loop E jt fuel) (fun _ v' => 0 <= gas_of v' <= gas_of v) v.
Proof.
  revert v. induction fuel as [|fuel IH]; intros v Hv Hf; [destruct Hv as [_ _ [? _]]; lia|].
  cbn [loop]. apply wp_bind. pose proof Hv as [_ _ [G0 G1]].
  eapply wp_mono; [apply step_spec; [done|done|]|].
  - apply calls_spec, run_with_spec; [lia|]. intros v' Hv' Hg. apply IH; [done|lia].
  - intros [r|] v' [Hg Hnext]; [by apply wp_ret|]. destruct (Hnext eq_refl) as [Hlt Hv'].
    eapply wp_mono; [apply IH; [done|lia]|]. intros r v2 Hr. simpl in Hr. lia.
Qed.

Lemma Run_spec fuel : run_ok (Run E jt fuel) (Z.min (Z.of_nat fuel) (2 ^ 64)).
Proof. apply run_with_spec; [lia|]. intros v Hv Hg. apply loop_spec; [done|lia]. Qed.

(** *** What is left of the gas when a call fails *)
Definition gas_on_error (gas : Z) (r : callRes) : Prop :=
  match r with
  | (_, _, None) | (_, _, Some ErrExecutionReverted) => True
  | (_, left_, Some ErrDepth) | (_, left_, Some ErrInsufficientBalance) => left_ = gas \/ left_ = 0
  | (_, left_, Some _) => left_ = 0
  end.

Definition returns {S A} (P : A -> Prop) (m : ST S A) : Prop := forall s a s', m s = Ok (a, s') -> P a.
Lemma returns_bind {S A B} (m : ST S A) (f : A -> ST S B) P : (forall a, returns P (f a)) -> returns P (m ≫= f).
Proof.
  intros Hf s b s'. unfold mbind, ST_bind. destruct (m s) as [[a s1]| |]; try done. apply Hf.
Qed.
Lemma returns_ret {S A} (a : A) P : P a -> returns P (mret a : ST S A).
Proof. by intros Ha s b s' [= <- <-]. Qed.
Lemma settle_returns gas snap r : returns (gas_on_error gas) (settle snap r).
Proof.
  destruct r as [[ret g] [e|]]; unfold settle; [|by apply returns_ret].
  apply returns_bind. intros _. apply returns_ret. destruct e; simpl; auto.
Qed.
Ltac returns_solve :=
  repeat first [ apply returns_bind; intros ? | apply settle_returns
               | (apply returns_ret; simpl; auto) | case_match ].
Lemma Call_returns run c a i g x : returns (gas_on_error g) (Call E run c a i g x).
Proof. unfold Call. returns_solve. Qed.
Lemma StaticCall_returns run c a i g : returns (gas_on_error g) (StaticCall E run c a i g).
Proof. unfold StaticCall. returns_solve. Qed.
End Steps.

(** ** The theorems *)
Section Theorems.
Context {U : Uint256} {UL : Uint256Laws} {H : Host} {C : Crypto}.

(** C1: a message call terminates: with fuel above its gas it returns or panics and
    never runs out of fuel, whatever the code, the state, the tables left by earlier interpreters
    and the disabled opcodes, under any fork rules that do not have Berlin
    without EIP-150 and without extra EIPs; it returns no more gas than it was
    given, and none when it fails other than by REVERT or before it started. *)
Theorem EVM_Call_terminates E T disabled T' jt fuel caller addr input gas value e :
  reachable_tables T -> NewEVMInterpreter T (chainRules E) disabled [] = Ok (T', (jt, [])) ->
  eip150_before_berlin (chainRules E) ->
  0 <= gas < 2 ^ 64 -> gas < Z.of_nat fuel ->
  match EVM_Call E jt fuel caller addr input gas value e with
  | Ok ((ret, left_, err), _) => 0 <= left_ <= gas /\ gas_on_error gas (ret, left_, err)
  | Panic => True
  | OutOfFuel => False
  end.
Proof.
  intros HT Hn Hb Hg Hf. destruct (interpreter_table _ _ _ _ _ HT Hn) as [_ Hj]. specialize (Hj Hb).
  pose proof (Call_spec E (Run E jt fuel) (Z.min (Z.of_nat fuel) (2 ^ 64))
    (Run_spec E jt Hj fuel) caller addr input gas value e ltac:(lia)) as Hw.
  pose proof (Call_returns E (Run E jt fuel) caller addr input gas value e) as Hr.
  unfold wp, EVM_Call in *. destruct (Call _ _ _ _ _ _ _ _) as [[[[ret g] err] e']| |]; try done.
  split; [exact Hw|by eapply Hr].
Qed.

(** C5: a contract creation terminates in the same way, under any fork rules that
    do not have Berlin without EIP-150 and without extra EIPs, and returns no
    more gas than it was given. *)
Theorem EVM_Create_terminates E T disabled T' jt fuel caller code gas value e :
  reachable_tables T -> NewEVMInterpreter T (chainRules E) disabled [] = Ok (T', (jt, [])) ->
  eip150_before_berlin (chainRules E) ->
  0 <= gas < 2 ^ 64 -> gas < Z.of_nat fuel ->
  match EVM_Create E jt fuel caller code gas value e with
  | Ok ((_, left_, _), _, _) => 0 <= left_ <= gas
  | Panic => True
  | OutOfFuel => False
  end.
Proof.
  intros HT Hn Hb Hg Hf. destruct (interpreter_table _ _ _ _ _ HT Hn) as [_ Hj]. specialize (Hj Hb).
  pose proof (ok_Create _ _ (calls_spec E (Run E jt fuel) (Z.min (Z.of_nat fuel) (2 ^ 64))
    (Run_spec E jt Hj fuel)) caller code gas value e ltac:(lia)) as Hw.
  unfold wp, EVM_Create in *. simpl in Hw.
  by destruct (Create _ _ _ _ _ _ _) as [[[[[ret g] err] a] e']| |].
Qed.
End Theorems.

Lemma demo_reachable : reachable_tables demo_tables.
Proof.
  apply reachable_init. unfold demo_tables. destruct initialTables as [T| |] eqn:E; [done|exfalso..].
  all: assert (match initialTables with Ok _ => true | _ => false end = true) as Hc by (vm_compute; reflexivity).
  all: by rewrite E in Hc.
Qed.
(** The tables after the demonstration's interpreter has been built. *)
Definition demo_tables' : Tables :=
  match NewEVMInterpreter demo_tables demo_rules [] [] with Ok (T, _) => T | _ => fun _ => [] end.
Lemma demo_table_eq : NewEVMInterpreter demo_tables demo_rules [] [] = Ok (demo_tables', (demo_table, [])).
Proof.
  unfold demo_tables', demo_table.
  assert (match NewEVMInterpreter demo_tables demo_rules [] [] with Ok (_, (_, [])) => true | _ => false end = true)
    as Hc by (vm_compute; reflexivity).
  by destruct (NewEVMInterpreter demo_tables demo_rules [] []) as [[T [jt [|]]]| |].
Qed.

(** An infinite loop, cut off by gas. *)
Lemma EVM_Call_terminates_witness :
  match @EVM_Call uint256_Z host_demo crypto_demo demo_env demo_table 101 (AccountRef 1) 77 [] 100 0
          (demo_evm [JUMPDEST; PUSH1; 0; JUMP]) with
  | Ok ((ret, left_, err), _) => 0 <= left_ <= 100 /\ gas_on_error 100 (ret, left_, err)
  | Panic => True
  | OutOfFuel => False
  end.
Proof.
  apply (@EVM_Call_terminates uint256_Z uint256_Z_laws host_demo crypto_demo demo_env demo_tables [] demo_tables').
  - exact demo_reachable.
  - exact demo_table_eq.
  - intros _. reflexivity.
  - lia.
  - lia.
Defined.

Lemma EVM_Create_terminates_witness :
  match @EVM_Create uint256_Z host_demo crypto_demo demo_env demo_table 1001 (AccountRef 1)
          [PUSH1; 1; PUSH1; 0; RETURN] 1000 0 (demo_evm []) with
  | Ok ((_, left_, _), _, _) => 0 <= left_ <= 1000
  | Panic => True
  | OutOfFuel => False
  end.
Proof.
  apply (@EVM_Create_terminates uint256_Z uint256_Z_laws host_demo crypto_demo demo_env demo_tables [] demo_tables').
  - exact demo_reachable.
  - exact demo_table_eq.
  - intros _. reflexivity.
  - lia.
  - lia.
Defined.
