(* ===== verification/Atomicity.v ===== *)
(** Failed calls leave no trace.

    Everything the machine does to the state goes through the journalled
    operations of the database, so an execution extends the state ([ext] of
    StateProofs.v), and a call that returns an error is reverted to what it
    found ([cached]: nothing but caches differs).  The depth and the read-only
    mode of the interpreter are restored on every path. *)
From Stdlib Require Import ZArith Lia.
From stdpp Require Import base numbers list gmap.
From S2P Require Import Prelude U256 Math Params OpCodes Host AccessList State StateDB StateProofs.
From S2P Require Import Stack Memory Contract VmErrors Precompiles Vm Gas Instr JumpTable Evm Demo.
Local Open Scope Z_scope.

(** ** Relations on machines *)
Section Relations.
Context {H : Host}.

Definition cached (s s' : stateDB) : Prop :=
  wf_db s -> wf_db s' /\ journal s' = journal s /\ s ⊑ s'.
#[export] Instance cached_preorder : PreOrder cached.
Proof.
  split; [by intros s W|]. intros s1 s2 s3 H12 H23 W.
  destruct (H12 W) as (W2 & J2 & L2). destruct (H23 W2) as (W3 & J3 & L3).
  split_and!; [done|congruence|by etransitivity].
Qed.
Lemma cached_ext s s' : cached s s' -> ext s s'.
Proof. intros Hc W. destruct (Hc W) as (W' & J & L). by apply ext_cache. Qed.

(** The machine around a relation on databases. *)
Record lifted (R : stateDB -> stateDB -> Prop) (e e' : evmS) : Prop := {
  l_db : R (StateDB e) (StateDB e');
  l_depth : depth e' = depth e;
  l_ro : readOnly e' = readOnly e
}.
#[export] Instance lifted_preorder R : PreOrder R -> PreOrder (lifted R).
Proof.
  intros HR. split; [by intros e; split|].
  intros e1 e2 e3 [] []. split; [by etransitivity|congruence|congruence].
Qed.
Lemma lifted_mono (R S : stateDB -> stateDB -> Prop) e e' :
  (forall s s', R s s' -> S s s') -> lifted R e e' -> lifted S e e'.
Proof. intros Hi []. split; auto. Qed.

Abbreviation eext := (lifted ext).
Definition vext (v v' : vstate) : Prop := eext (evm v) (evm v').
#[export] Instance vext_preorder : PreOrder vext.
Proof. split; [intros v; unfold vext; reflexivity|]. intros v1 v2 v3 ? ?. unfold vext in *. by etransitivity. Qed.

Lemma rel_sdb {A} R (m : SDB A) : st_rel R m -> st_rel (lifted R) (sdb m).
Proof.
  intros Hm e a e'. unfold sdb. destruct (m (StateDB e)) as [[b s]| |] eqn:Em; try done.
  intros [= <- <-]. split; [by eapply Hm|done|done].
Qed.
Lemma rel_on_evm {A} (m : EVM A) : st_rel eext m -> st_rel vext (on_evm m).
Proof.
  intros Hm v a v'. unfold on_evm. destruct (m (evm v)) as [[b e]| |] eqn:Em; try done.
  intros [= <- <-]. by apply (Hm _ _ _ Em).
Qed.
Lemma rel_vsdb {A} (m : SDB A) : st_rel ext m -> st_rel vext (vsdb m).
Proof. intros Hm. by apply rel_on_evm, rel_sdb. Qed.

(** Computations that do not touch the machine. *)
Definition evm_same (v v' : vstate) : Prop := evm v' = evm v.
Lemma rel_same {A} (m : VM A) : st_rel evm_same m -> st_rel vext m.
Proof. intros Hm v a v' Hv. unfold vext. rewrite (Hm _ _ _ Hv). reflexivity. Qed.
Lemma rel_frame f : st_rel vext (upd_frame f).
Proof. apply rel_same. by intros v a v' [= <- <-]. Qed.
Lemma rel_spop : st_rel vext spop.
Proof. apply rel_same. intros v a v'. unfold spop. destruct (f_stack _); [done|]. by intros [= <- <-]. Qed.
Lemma rel_speek : st_rel vext speek.
Proof. apply rel_same. intros v a v'. unfold speek. destruct (f_stack _); [done|]. by intros [= <- <-]. Qed.
Lemma rel_sset x : st_rel vext (sset x).
Proof. apply rel_same. intros v a v'. unfold sset. destruct (f_stack _); [done|]. by intros [= <- <-]. Qed.
Lemma rel_sback n : st_rel vext (sback n).
Proof. apply rel_same. intros v a v'. unfold sback. destruct (f_stack _ !! n); [|done]. by intros [= <- <-]. Qed.
Lemma rel_vUseGas g : st_rel vext (vUseGas g).
Proof. apply rel_same. intros v a v'. unfold vUseGas. destruct (UseGas _ _). by intros [= <- <-]. Qed.
Lemma rel_upd_evm f : (forall e, eext e (f e)) -> st_rel vext (upd_evm f).
Proof. intros Hf v a v' [= <- <-]. apply Hf. Qed.
Lemma eext_same e e' : StateDB e' = StateDB e -> depth e' = depth e -> readOnly e' = readOnly e -> eext e e'.
Proof. intros E1 E2 E3. split; [rewrite E1; reflexivity|done|done]. Qed.
End Relations.
Abbreviation eext := (lifted ext).
#[export] Hint Resolve rel_vsdb rel_frame rel_spop rel_speek rel_sset rel_sback rel_vUseGas : strel.

Ltac vrel_step :=
  lazymatch goal with
  | |- st_rel vext (mbind _ _) => apply st_rel_bind; [tc_solve| |intros ?]
  | |- st_rel vext (mret _) => apply st_rel_ret; tc_solve
  | |- st_rel vext ok_nil => apply st_rel_ret; tc_solve
  | |- st_rel vext (fail _) => apply st_rel_ret; tc_solve
  | |- st_rel vext (st_gets _) => apply st_rel_gets; tc_solve
  | |- st_rel vext get_mem => apply st_rel_gets; tc_solve
  | |- st_rel vext get_contract => apply st_rel_gets; tc_solve
  | |- st_rel vext get_frame => apply st_rel_gets; tc_solve
  | |- st_rel vext get_readOnly => apply st_rel_gets; tc_solve
  | |- st_rel vext get_returnData => apply st_rel_gets; tc_solve
  | |- st_rel vext get_callGasTemp => apply st_rel_gets; tc_solve
  | |- st_rel vext (st_lift _) => apply st_rel_lift; tc_solve
  | |- st_rel vext st_panic => apply st_rel_panic
  | |- st_rel vext (upd_evm _) => apply rel_upd_evm; intros ?; by apply eext_same
  | |- st_rel vext (upd_frame _) => apply rel_frame
  | |- st_rel vext (spush _) => apply rel_frame
  | |- st_rel vext (put_pc _) => apply rel_frame
  | |- st_rel vext (put_mem _) => apply rel_frame
  | |- st_rel vext (put_contract _) => apply rel_frame
  | |- st_rel vext (addGas _) => apply rel_frame
  | |- st_rel vext (if _ then _ else _) => apply st_rel_if
  | |- st_rel vext (match ?x with _ => _ end) => destruct x
  | |- st_rel vext (vsdb _) => apply rel_vsdb; solve [eauto with strel]
  | |- st_rel vext ?m => solve [eauto with strel]
  end.
Ltac vrel := repeat vrel_step.
Ltac unfold_head t := lazymatch t with ?f _ => unfold_head f | ?f => unfold f end.
Ltac unfold_handler := match goal with |- st_rel _ ?m => unfold_head m end.

Section Handlers.
Context {U : Uint256} {H : Host}.
Variable E : evmE.

Lemma rel_modMem f : st_rel vext (modMem f).
Proof. unfold modMem. vrel. Qed.
Lemma rel_memSet a b d : st_rel vext (memSet a b d).
Proof. apply rel_modMem. Qed.
Lemma rel_memArgs a b : st_rel vext (memArgs a b).
Proof. unfold memArgs. vrel. Qed.
Lemma rel_onStack f : st_rel vext (onStack f).
Proof. unfold onStack. vrel. Qed.
Lemma rel_load_abort : st_rel vext (load_abort E).
Proof. unfold load_abort. vrel. Qed.
Lemma rel_vValidJumpdest x : st_rel vext (vValidJumpdest x).
Proof. unfold vValidJumpdest. vrel. Qed.
Lemma rel_pushBig o : st_rel vext (pushBig o).
Proof. unfold pushBig. vrel. Qed.
Lemma rel_popTopics n : st_rel vext (popTopics n).
Proof. induction n; simpl; vrel. Qed.
Lemma rel_binary f : st_rel vext (binary f).
Proof. unfold binary. vrel. Qed.
Lemma rel_put_returnData d : st_rel vext (put_returnData d).
Proof. unfold put_returnData. vrel. Qed.
Lemma ext_AddLog {A} (l : A) : st_rel ext (AddLog l).
Proof. apply st_rel_ret. tc_solve. Qed.
Hint Resolve rel_modMem rel_memSet rel_memArgs rel_onStack rel_load_abort rel_vValidJumpdest rel_pushBig
  rel_popTopics rel_binary rel_put_returnData ext_AddLog : strel.

Lemma rel_refundGas g : st_rel vext (refundGas g).
Proof. unfold refundGas. vrel. Qed.
Hint Resolve rel_refundGas : strel.
Lemma rel_finishCall a b r : st_rel vext (finishCall a b r).
Proof. unfold finishCall. vrel. Qed.
Lemma rel_finishCreate x r : st_rel vext (finishCreate x r).
Proof. unfold finishCreate. vrel. Qed.
Hint Resolve rel_finishCall rel_finishCreate : strel.

(** The calls a handler makes extend the state. *)
Record calls_ext (K : Calls) : Prop := {
  ext_Call c a i g x : st_rel eext (do_Call K c a i g x);
  ext_CallCode c a i g x : st_rel eext (do_CallCode K c a i g x);
  ext_DelegateCall c a i g : st_rel eext (do_DelegateCall K c a i g);
  ext_StaticCall c a i g : st_rel eext (do_StaticCall K c a i g);
  ext_Create c i g x : st_rel eext (do_Create K c i g x);
  ext_Create2 c i g x y : st_rel eext (do_Create2 K c i g x y)
}.

Lemma rel_execute K x : calls_ext K -> st_rel vext (execute_sem E K x).
Proof.
  intros [H1 H2 H3 H4 H5 H6].
  pose proof (fun c a i g x => rel_on_evm _ (H1 c a i g x)).
  pose proof (fun c a i g x => rel_on_evm _ (H2 c a i g x)).
  pose proof (fun c a i g => rel_on_evm _ (H3 c a i g)).
  pose proof (fun c a i g => rel_on_evm _ (H4 c a i g)).
  pose proof (fun c i g x => rel_on_evm _ (H5 c i g x)).
  pose proof (fun c i g x y => rel_on_evm _ (H6 c i g x y)).
  destruct x; cbn [execute_sem]; unfold_handler; try apply rel_binary; vrel.
Qed.
End Handlers.

Section GasFunctions.
Context {U : Uint256} {H : Host}.
Variable E : evmE.

Lemma rel_gbind {A B} (m : ST vstate (A + vmerror)) (f : A -> ST vstate (B + vmerror)) :
  st_rel vext m -> (forall a, st_rel vext (f a)) -> st_rel vext (gbind m f).
Proof. intros Hm Hf. unfold gbind. apply st_rel_bind; [tc_solve|done|]. intros [a|e]; [apply Hf|]. vrel. Qed.
Lemma rel_glift {A} (m : VM A) : st_rel vext m -> st_rel vext (glift m).
Proof. intros Hm. unfold glift. apply st_rel_bind; [tc_solve|done|]. intros a. vrel. Qed.
Lemma rel_grun m : st_rel vext m -> st_rel vext (grun m).
Proof. intros Hm. unfold grun. apply st_rel_bind; [tc_solve|done|]. intros a. vrel. Qed.
Lemma rel_guard r : st_rel vext (guard r).
Proof. destruct r as [x []]; unfold guard, gerr, gret; vrel. Qed.
Lemma rel_vMemoryGasCost n : st_rel vext (vMemoryGasCost n).
Proof. unfold vMemoryGasCost. apply st_rel_bind; [tc_solve|vrel|]. intros m. destruct (memoryGasCost m n). vrel. Qed.
Lemma rel_gMemory n : st_rel vext (gMemory n).
Proof. unfold gMemory. apply st_rel_bind; [tc_solve|apply rel_vMemoryGasCost|]. intros []; unfold gret, gerr; vrel. Qed.
Lemma rel_gBack64 n : st_rel vext (gBack64 n).
Proof. unfold gBack64. apply rel_gbind; [apply rel_glift; vrel|intros; apply rel_guard]. Qed.
Lemma rel_dirtyRefunds a b c d e f : st_rel vext (dirtyRefunds a b c d e f).
Proof. unfold dirtyRefunds. vrel. Qed.
Lemma rel_contractAddress : st_rel vext contractAddress.
Proof. unfold contractAddress. vrel. Qed.
Hint Resolve rel_vMemoryGasCost rel_gMemory rel_gBack64 rel_dirtyRefunds rel_contractAddress rel_guard : strel.

Ltac grel_step :=
  lazymatch goal with
  | |- st_rel vext (gbind _ _) => apply rel_gbind; [|intros ?]
  | |- st_rel vext (glift _) => apply rel_glift
  | |- st_rel vext (grun _) => apply rel_grun
  | |- st_rel vext (gret _) => apply st_rel_ret; tc_solve
  | |- st_rel vext (gerr _) => apply st_rel_ret; tc_solve
  | _ => vrel_step
  end.
Ltac grel := repeat grel_step.

Lemma rel_memoryCopierGas p n : st_rel vext (memoryCopierGas p n).
Proof. unfold memoryCopierGas. grel. Qed.
Lemma rel_finishCallGas r g : st_rel vext (finishCallGas r g).
Proof. unfold finishCallGas. grel. Qed.
Hint Resolve rel_finishCallGas : strel.
Lemma rel_calls r n : st_rel vext (gasCall r n) /\ st_rel vext (gasCallCode r n) /\
  st_rel vext (gasDelegateCall r n) /\ st_rel vext (gasStaticCall r n).
Proof. unfold gasCall, gasCallCode, gasDelegateCall, gasStaticCall. split_and!; grel. Qed.
Lemma rel_2929 F n : (forall n, st_rel vext (F n)) -> st_rel vext (makeCallVariantGasCallEIP2929 F n).
Proof. intros HF. unfold makeCallVariantGasCallEIP2929. grel. Qed.
Lemma rel_7702 F n : (forall n, st_rel vext (F n)) -> st_rel vext (makeCallVariantGasCallEIP7702 F n).
Proof. intros HF. unfold makeCallVariantGasCallEIP7702. grel. Qed.

Lemma rel_dynamicGas g n : st_rel vext (dynamicGas_sem E g n).
Proof.
  pose proof (fun n => proj1 (rel_calls (chainRules E) n)).
  pose proof (fun n => proj1 (proj2 (rel_calls (chainRules E) n))).
  pose proof (fun n => proj1 (proj2 (proj2 (rel_calls (chainRules E) n)))).
  pose proof (fun n => proj2 (proj2 (proj2 (rel_calls (chainRules E) n)))).
  destruct g; cbn [dynamicGas_sem]; unfold_handler;
    try apply rel_memoryCopierGas; try (apply rel_2929; intros; grel); try (apply rel_7702; intros; grel).
  all: unfold makeGasSStoreFunc, makeSelfdestructGasFn, pureMemoryGascost, gInitCodeSize.
  all: try solve [grel].
  apply st_rel_bind; [tc_solve|apply rel_memoryCopierGas|]. intros ?. grel.
Qed.
End GasFunctions.

(** ** The entry points *)
Section EntryPoints.
Context {U : Uint256} {H : Host} {C : Crypto}.
Variable E : evmE.

(** Partial correctness from one state. *)
Definition wlp {S A} (m : ST S A) (Q : A -> S -> Prop) (s : S) : Prop :=
  forall a s', m s = Ok (a, s') -> Q a s'.
Lemma wlp_ret {S A} (a : A) Q (s : S) : Q a s -> wlp (mret a) Q s.
Proof. by intros HQ b s' [= <- <-]. Qed.
Lemma wlp_bind {S A B} (m : ST S A) (f : A -> ST S B) Q s :
  wlp m (fun a s' => wlp (f a) Q s') s -> wlp (m ≫= f) Q s.
Proof.
  intros Hm b s'. unfold mbind, ST_bind. destruct (m s) as [[a s1]| |] eqn:Em; try done. by apply Hm.
Qed.
Lemma wlp_rel {S A} R (m : ST S A) Q (s : S) :
  st_rel R m -> (forall a s', R s s' -> Q a s') -> wlp m Q s.
Proof. intros Hm HQ a s' Es. eapply HQ, Hm, Es. Qed.
Lemma wlp_mono {S A} (m : ST S A) (Q R : A -> S -> Prop) s :
  wlp m Q s -> (forall a s', Q a s' -> R a s') -> wlp m R s.
Proof. intros Hm HQ a s' Es. eapply HQ, Hm, Es. Qed.

Abbreviation ecached := (lifted cached).
Lemma ecached_eext e e' : ecached e e' -> eext e e'.
Proof. apply lifted_mono, cached_ext. Qed.

Lemma cached_read {A} a (f : Z -> stateObject -> A * stateObject) : caches f -> st_rel cached (read_obj a f).
Proof.
  intros Hf s x s' (-> & ->)%read_obj_inv W. pose proof (Hf (chainid s) (obj s a)) as Ho.
  split_and!; [|done|by apply sle_set_r].
  apply wf_set; [done|]. rewrite <- (oeq_address _ _ _ Ho). by apply obj_address.
Qed.
Lemma cached_GetBalance a : st_rel cached (GetBalance a).
Proof. apply cached_read. intros c o. pose proof (caches_loadAccount c o). by destruct (loadAccount c o). Qed.
Lemma cached_GetNonce a : st_rel cached (GetNonce a).
Proof. apply cached_read, caches_getNonce. Qed.
Lemma cached_CanTransfer a x : st_rel cached (defaultCanTransfer a x).
Proof.
  unfold defaultCanTransfer. apply st_rel_bind; [tc_solve| |intros ?; apply st_rel_ret; tc_solve].
  apply cached_GetBalance.
Qed.
Lemma ext_defaultTransfer a b x : st_rel ext (defaultTransfer a b x).
Proof. unfold defaultTransfer. repeat strel_step. Qed.
Lemma ext_resolveCode a : st_rel ext (resolveCode E a).
Proof. unfold resolveCode. repeat strel_step. Qed.
Lemma ext_resolveCodeHash a : st_rel ext (resolveCodeHash E a).
Proof. unfold resolveCodeHash. repeat strel_step. Qed.
Lemma eext_newContract c o x g : st_rel eext (newContract c o x g).
Proof.
  unfold newContract, NewContract. destruct c; apply st_rel_bind; try tc_solve; intros; try (apply st_rel_ret; tc_solve).
  apply st_rel_modify. intros e. by apply eext_same.
Qed.
Hint Resolve ext_defaultTransfer ext_resolveCode ext_resolveCodeHash eext_newContract : strel.

(** What a call promises: an error leaves what was there, a success extends it. *)
Definition call_post (e : evmS) (err : option vmerror) (e' : evmS) : Prop :=
  match err with Some _ => ecached e e' | None => eext e e' end.

Lemma revert_cached e1 e2 :
  eext e1 e2 ->
  wlp (sdb (RevertToSnapshot (zlen (journal (StateDB e1))))) (fun _ e3 => ecached e1 e3) e2.
Proof.
  intros [X Ed Er] u e3 Es. unfold sdb in Es.
  destruct (RevertToSnapshot _ _) as [[u' s3]| |] eqn:Eq; try done. simplify_eq/=.
  split; [|done|done]. intros W. destruct (RevertToSnapshot_ext _ _ W X) as (s3' & Eq' & L & J & W3).
  simpl in *. rewrite Eq in Eq'. by simplify_eq.
Qed.

Lemma settle_post e1 r e2 :
  eext e1 e2 ->
  wlp (settle (zlen (journal (StateDB e1))) r) (fun r' e3 => call_post e1 (snd r') e3) e2.
Proof.
  intros X. destruct r as [[ret g] [err|]]; unfold settle; [|by apply wlp_ret].
  apply wlp_bind. eapply wlp_mono; [by apply revert_cached|]. intros u e3 H3. by apply wlp_ret.
Qed.

Lemma call_post_trans e e1 err e' : ecached e e1 -> call_post e1 err e' -> call_post e err e'.
Proof.
  unfold call_post. destruct err; intros H1 H2; [by etransitivity|].
  etransitivity; [by apply ecached_eext|done].
Qed.
Lemma call_post_refl e err : call_post e err e.
Proof. unfold call_post. destruct err; reflexivity. Qed.

Lemma wlp_eext {A B} e1 (m : EVM A) (f : A -> EVM B) Q e2 :
  st_rel eext m -> eext e1 e2 -> (forall a e', eext e1 e' -> wlp (f a) Q e') -> wlp (m ≫= f) Q e2.
Proof. intros Hm H1 Hf. apply wlp_bind. eapply wlp_rel; [exact Hm|]. intros a e' H2. apply Hf. by etransitivity. Qed.
Lemma wlp_snapshot {B} (f : Z -> EVM B) Q e :
  wlp (f (zlen (journal (StateDB e)))) Q e -> wlp (snap ← sdb Snapshot; f snap) Q e.
Proof. intros Hf. apply wlp_bind. intros n e' En. unfold sdb in En. simpl in En. simplify_eq. by destruct e. Qed.

Variable run : Contract -> bytes -> bool -> EVM (execRes * Contract).
Hypothesis R : forall c i ro, st_rel eext (run c i ro).

Lemma eext_runContract c i ro : st_rel eext (runContract run c i ro).
Proof.
  unfold runContract. apply st_rel_bind; [tc_solve|apply R|]. intros [[ret err] k]. apply st_rel_ret. tc_solve.
Qed.
Hint Resolve eext_runContract : strel.

Ltac erel_step :=
  lazymatch goal with
  | |- st_rel eext (mbind _ _) => apply st_rel_bind; [tc_solve| |intros ?]
  | |- st_rel eext (mret _) => apply st_rel_ret; tc_solve
  | |- st_rel eext (st_gets _) => apply st_rel_gets; tc_solve
  | |- st_rel eext get_depth => apply st_rel_gets; tc_solve
  | |- st_rel eext (st_lift _) => apply st_rel_lift; tc_solve
  | |- st_rel eext (if _ then _ else _) => apply st_rel_if
  | |- st_rel eext (match ?x with _ => _ end) => destruct x
  | |- st_rel eext (sdb _) => apply rel_sdb; solve [eauto with strel]
  | |- st_rel eext _ => solve [eauto with strel]
  end.
Ltac erel := repeat erel_step.

(** The part between the snapshot and [settle]. *)
Ltac settle_tail e1 :=
  repeat (apply (wlp_eext e1); [erel|done || reflexivity|intros ? ? ?]); by apply settle_post.

Lemma Call_post c a i g x e : wlp (Call E run c a i g x) (fun r e' => call_post e (snd r) e') e.
Proof.
  unfold Call. apply wlp_bind. intros d e0 [= <- <-].
  destruct (_ <? _); [apply wlp_ret, call_post_refl|]. apply wlp_bind.
  apply wlp_rel with (R := ecached).
  { apply st_rel_if; [apply rel_sdb, cached_CanTransfer|apply st_rel_ret; tc_solve]. }
  intros b e1 H1. destruct (negb b); [apply wlp_ret; by eapply call_post_trans, call_post_refl|].
  eapply wlp_mono; [|intros r e' Hp; eapply call_post_trans; [exact H1|exact Hp]].
  apply wlp_snapshot. apply (wlp_eext e1); [erel|reflexivity|]. intros ex e2 H2.
  destruct (_ && _); [by apply wlp_ret|]. settle_tail e1.
Qed.
Lemma CallCode_post c a i g x e : wlp (CallCode E run c a i g x) (fun r e' => call_post e (snd r) e') e.
Proof.
  unfold CallCode. apply wlp_bind. intros d e0 [= <- <-].
  destruct (_ <? _); [apply wlp_ret, call_post_refl|]. apply wlp_bind.
  apply wlp_rel with (R := ecached); [apply rel_sdb, cached_CanTransfer|].
  intros b e1 H1. destruct (negb b); [apply wlp_ret; by eapply call_post_trans, call_post_refl|].
  eapply wlp_mono; [|intros r e' Hp; eapply call_post_trans; [exact H1|exact Hp]].
  apply wlp_snapshot. settle_tail e1.
Qed.
Lemma DelegateCall_post c a i g e : wlp (DelegateCall E run c a i g) (fun r e' => call_post e (snd r) e') e.
Proof.
  unfold DelegateCall. apply wlp_bind. intros d e0 [= <- <-].
  destruct (_ <? _); [apply wlp_ret, call_post_refl|]. apply wlp_snapshot. settle_tail e.
Qed.
Lemma StaticCall_post c a i g e : wlp (StaticCall E run c a i g) (fun r e' => call_post e (snd r) e') e.
Proof.
  unfold StaticCall. apply wlp_bind. intros d e0 [= <- <-].
  destruct (_ <? _); [apply wlp_ret, call_post_refl|]. apply wlp_snapshot. settle_tail e.
Qed.

(** A creation that fails after its snapshot goes back to it, unless it could
    not pay for its code before Homestead. *)
Lemma endCreate_post e1 a r e2 :
  eext e1 e2 ->
  wlp (endCreate E (zlen (journal (StateDB e1))) a r) (fun r' e3 =>
    eext e1 e3 /\ (r_IsHomestead (chainRules E) = true -> call_post e1 (snd (fst r')) e3)) e2.
Proof.
  intros X. destruct r as [[ret err] c]. unfold endCreate. apply (wlp_eext e1); [|done|].
  { destruct (checkCode _ _ _); [erel|]. destruct (UseGas _ _) as [[] c']; erel. }
  intros [[er|] c'] e3 H3; [|by apply wlp_ret].
  destruct (_ || _) eqn:Eo.
  - apply wlp_bind. eapply wlp_mono; [by apply revert_cached|]. intros u e4 H4. apply wlp_ret.
    split; [by apply ecached_eext|]. by intros _.
  - apply orb_false_iff in Eo as [Eh _]. apply wlp_ret. rewrite Eh. done.
Qed.

Lemma wlp_later {A} e es (m : EVM A) e2 :
  eext e es -> wlp m (fun _ e' => eext es e') e2 -> wlp m (fun _ e' => eext e e') e2.
Proof. intros H1 Hm. eapply wlp_mono; [exact Hm|]. intros a e' H2. by etransitivity. Qed.

Lemma create_post c k g x a e : wlp (create E run c k g x a) (fun _ e' => eext e e') e.
Proof.
  unfold create. apply wlp_bind. intros d e0 [= <- <-]. destruct (_ <? _); [apply wlp_ret; reflexivity|].
  apply (wlp_eext e); [|reflexivity|].
  { intros s b s' Es. apply ecached_eext. revert Es. apply rel_sdb, cached_CanTransfer. }
  intros b e1 H1. destruct (negb b); [by apply wlp_ret|].
  do 5 (apply (wlp_eext e); [erel|done|intros ? ? ?]). destruct (_ || _); [by apply wlp_ret|].
  apply wlp_snapshot.
  match goal with Hx : eext e ?e2 |- wlp _ _ ?e2 => rename e2 into es; apply (wlp_later e es); [done|] end.
  repeat (apply (wlp_eext es); [erel|done || reflexivity|intros ? ? ?]).
  eapply wlp_mono; [by apply (endCreate_post es)|]. by intros r' e3 [Hx _].
Qed.

Lemma call_post_eext e err e' : call_post e err e' -> eext e e'.
Proof. destruct err; [apply ecached_eext|done]. Qed.

Lemma calls_extend : calls_ext (calls E run).
Proof.
  split; simpl; intros.
  - intros e r e' Hr. apply Call_post in Hr. by eapply call_post_eext.
  - intros e r e' Hr. apply CallCode_post in Hr. by eapply call_post_eext.
  - intros e r e' Hr. apply DelegateCall_post in Hr. by eapply call_post_eext.
  - intros e r e' Hr. apply StaticCall_post in Hr. by eapply call_post_eext.
  - unfold Create. erel. intros e r e' Hr. by apply create_post in Hr.
  - intros e r e' Hr. by apply create_post in Hr.
Qed.
End EntryPoints.

Section Machine.
Context {U : Uint256} {H : Host} {C : Crypto}.
Variables (E : evmE) (jt : JumpTable).

Lemma rel_chargeDynamic o : st_rel vext (chargeDynamic E o).
Proof. pose proof (rel_dynamicGas E). unfold chargeDynamic. vrel. Qed.
Hint Resolve rel_chargeDynamic : strel.
Lemma rel_step K : calls_ext K -> st_rel vext (step E jt K).
Proof. intros HK. pose proof (rel_execute E K) as HX. unfold step. vrel. Qed.

Lemma eext_in_frame body c : st_rel vext body -> st_rel eext (in_frame body c).
Proof.
  intros Hb e r e'. unfold in_frame. destruct (body _) as [[r1 v]| |] eqn:Eb; try done.
  intros [= <- <-]. by apply Hb in Eb.
Qed.

(** [Run] restores depth and read-only mode. *)
Lemma eext_run_with body c i ro : st_rel vext body -> st_rel eext (run_with body c i ro).
Proof.
  intros Hb e r e'.
  assert (st_rel eext (if zlen (Code c) =? 0 then mret (([], None), c) else in_frame body (set_Input c i))) as Hi.
  { apply st_rel_if; [apply st_rel_ret; tc_solve|by apply eext_in_frame]. }
  unfold run_with. set (inner := if _ =? 0 then _ else _) in *.
  unfold mbind, ST_bind, st_modify, st_gets, mret, ST_ret. simpl.
  destruct (ro && negb (readOnly e)) eqn:Ero; simpl;
    match goal with |- context [inner ?x] => destruct (inner x) as [[r1 e1]| |] eqn:Ei end; try done;
    intros [= <- <-]; apply Hi in Ei; destruct Ei as [X Ed Er]; simpl in *; (split; simpl; [exact X|lia|]).
  - apply andb_true_iff in Ero as [_ Hn]. by destruct (readOnly e).
  - done.
Qed.

Lemma rel_loop fuel : st_rel vext (loop E jt fuel).
Proof.
  induction fuel as [|fuel IH]; [done|]. cbn [loop].
  apply st_rel_bind; [tc_solve| |].
  - apply rel_step, calls_extend. intros. by apply eext_run_with.
  - intros [r|]; [apply st_rel_ret; tc_solve|done].
Qed.
Lemma eext_Run fuel c i ro : st_rel eext (Run E jt fuel c i ro).
Proof. apply eext_run_with, rel_loop. Qed.

(** The journal, the bookkeeping of the interpreter and the reads of the state
    are those of [e]: of the read methods [sdb_read] leaves out only the hash of
    the code, and existence, of accounts of [e] for which these depend on
    whether the account has been loaded. *)
Definition untouched (e e' : evmS) : Prop :=
  journal (StateDB e') = journal (StateDB e) /\ depth e' = depth e /\ readOnly e' = readOnly e /\
  forall A (m : SDB A), sdb_read (StateDB e) m -> answer m (StateDB e') = answer m (StateDB e).

Lemma cached_untouched e e' : wf_db (StateDB e) -> lifted cached e e' -> untouched e e'.
Proof.
  intros W [Hc Hd Hr]. destruct (Hc W) as (_ & J & L). split_and!; try done.
  intros A m Hm. symmetry. by apply sdb_read_sle.
Qed.

(** C2: a message call that returns an error leaves the state as it found it:
    whatever the callee and its nested calls did, every balance, nonce, code,
    code size, storage slot, transient slot, refund, self-destruct mark and
    access-list entry reads as before the call, and so do the code hash and the
    tests of existence of every account for which these did not depend on what
    was loaded ([hash_settled], [empty_settled]); the journal is the one before
    the call, and depth and read-only mode are restored. *)
Theorem EVM_Call_atomic fuel caller addr input gas value e ret left_ err e' :
  wf_db (StateDB e) ->
  EVM_Call E jt fuel caller addr input gas value e = Ok ((ret, left_, Some err), e') ->
  untouched e e'.
Proof.
  intros W Hc. apply (Call_post E (Run E jt fuel) (eext_Run fuel)) in Hc. by apply cached_untouched.
Qed.

(** C9: so does a static call that returns an error: the journal, the depth, the
    read-only mode and the same reads of the state are those before the call. *)
Theorem EVM_StaticCall_atomic fuel caller addr input gas e ret left_ err e' :
  wf_db (StateDB e) ->
  EVM_StaticCall E jt fuel caller addr input gas e = Ok ((ret, left_, Some err), e') ->
  untouched e e'.
Proof.
  intros W Hc. apply (StaticCall_post E (Run E jt fuel) (eext_Run fuel)) in Hc. by apply cached_untouched.
Qed.
End Machine.

Lemma wf_demo code : wf_db (StateDB (demo_evm code)).
Proof.
  pose proof (write_obj_eq 77 (fun o => setCode (H := host_demo) o code) (NewStateDB 1)) as Es.
  pose proof (ext_SetCode (H := host_demo) 77 code _ _ _ Es (wf_NewStateDB 1)) as [W _].
  unfold demo_evm, demo_db, SetCode. cbn [StateDB]. rewrite Es. exact W.
Qed.

(** The callee stores to its storage, then executes an invalid opcode. *)
Lemma EVM_Call_atomic_witness :
  exists e', @untouched host_demo (demo_evm [PUSH1; 1; PUSH1; 2; TSTORE; 0xfe]) e'.
Proof.
  eexists.
  refine (@EVM_Call_atomic uint256_Z host_demo crypto_demo demo_env demo_table 200
    (AccountRef 1) 77 [] 5000 0 (demo_evm [PUSH1; 1; PUSH1; 2; TSTORE; 0xfe]) _ _ _ _ (wf_demo _) _).
  vm_compute. reflexivity.
Defined.

(** The callee of a static call tries to store. *)
Lemma EVM_StaticCall_atomic_witness :
  exists e', @untouched host_demo (demo_evm [PUSH1; 1; PUSH1; 2; TSTORE; STOP]) e'.
Proof.
  eexists.
  refine (@EVM_StaticCall_atomic uint256_Z host_demo crypto_demo demo_env demo_table 200
    (AccountRef 1) 77 [] 5000 (demo_evm [PUSH1; 1; PUSH1; 2; TSTORE; STOP]) _ _ _ _ (wf_demo _) _).
  vm_compute. reflexivity.
Defined.
