(* ===== verification/Transition.v ===== *)
(** Applying a message: [api/gaspool.go] and [api/state_transition.go].

    [StateTransition] keeps the block's gas pool, the gas of the message and
    the EVM; the message, the chain configuration and the interpreter's jump
    table do not change.  The public-key recovery of
    [github.com/btcsuite/btcd/btcec] is a parameter. *)
From Stdlib Require Import ZArith Lia.
From stdpp Require Import base numbers list gmap.
From S2P Require Import Prelude U256 Math Params Rlp Host AccessList State StateDB Stack Memory.
From S2P Require Import Contract VmErrors Precompiles Vm Gas Instr JumpTable Evm.
Local Open Scope Z_scope.

(** ** The errors of [api/error.go] that reject a message *)
Module TxErrors.
Inductive txerror :=
| ErrNonceTooLow
| ErrNonceTooHigh
| ErrGasLimitReached
| ErrInsufficientFundsForTransfer
| ErrMaxInitCodeSizeExceeded
| ErrInsufficientFunds
| ErrGasUintOverflow
| ErrIntrinsicGas
| ErrFloorDataGas
| ErrTipAboveFeeCap
| ErrTipVeryHigh
| ErrFeeCapVeryHigh
| ErrFeeCapTooLow.

(** The errors that make an authorization be skipped. *)
Inductive autherror :=
| ErrAuthorizationWrongChainID
| ErrInvalidSig
| ErrRecover
| ErrInvalidPublicKey
| ErrAuthorizationDestinationHasCode
| ErrAuthorizationNonceMismatch.
End TxErrors.
Import TxErrors (txerror, autherror).

(** ** [api/gaspool.go] *)
Definition GasPool : Type := Z.

Definition AddGas (gp : GasPool) (amount : Z) : result GasPool :=
  if MaxUint64 - amount <? gp then Panic else Ok (u64 (gp + amount)).
Definition SubGas (gp : GasPool) (amount : Z) : GasPool + txerror :=
  if gp <? amount then inr TxErrors.ErrGasLimitReached else inl (gp - amount).
Definition GasPool_Gas (gp : GasPool) : Z := gp.

(** ** Authorizations: [types/tx_setcode.go] *)
Record Authorization := {
  auth_ChainID : Z;
  auth_Address : Z;
  auth_Nonce : Z;
  auth_V : Z;
  auth_R : Z;
  auth_S : Z
}.

(** [RecoverCompact] of btcec, followed by [SerializeUncompressed]. *)
Class Secp256k1 : Type := {
  RecoverCompact : bytes -> bytes -> option bytes
}.

Definition secp256k1N : Z := 0xfffffffffffffffffffffffffffffffebaaedce6af48a03bbfd25e8cd0364141.
Definition secp256k1halfN : Z := secp256k1N / 2.

Definition ValidateSignatureValues (v r s : Z) (homestead : bool) : bool :=
  if (r <? 1) || (s <? 1) then false
  else if homestead && (secp256k1halfN <? s) then false
  else (r <? secp256k1N) && (s <? secp256k1N) && ((v =? 0) || (v =? 1)).

Section Authority.
Context {H : Host} {P : Secp256k1}.

Definition SignatureLength : Z := 65.
Definition RecoveryIDOffset : Z := 64.

Definition sigToPub (hash sig : bytes) : result (option bytes) :=
  if negb (zlen sig =? SignatureLength) then Ok None
  else
    v ← index sig RecoveryIDOffset;
    Ok (RecoverCompact (((v + 27) mod 256) :: take 64 sig) hash).

Definition Ecrecover (hash sig : bytes) : result (option bytes) := sigToPub hash sig.

(** [prefixedRlpHash(0x05, []any{a.ChainID, a.Address, a.Nonce})] *)
Definition sigHash (a : Authorization) : result Z :=
  let '(buf, lh) := enc_list getEncBuffer in
  let buf := writeUint256 buf (auth_ChainID a) in
  let buf := writeByteArray buf (Address_Bytes (auth_Address a)) in
  let buf := writeUint64 buf (auth_Nonce a) in
  buf ← enc_listEnd buf lh;
  enc ← makeBytes buf;
  Ok (Keccak256Hash [[0x05]; enc]).

Definition Authority (a : Authorization) : result (Z + autherror) :=
  sighash ← sigHash a;
  if negb (ValidateSignatureValues (auth_V a) (auth_R a) (auth_S a) true)
  then Ok (inr TxErrors.ErrInvalidSig)
  else
    let sig := be_bytes 32 (auth_R a) ++ be_bytes 32 (auth_S a) ++ [auth_V a] in
    pub ← Ecrecover (Hash_Bytes sighash) sig;
    match pub with
    | None => Ok (inr TxErrors.ErrRecover)
    | Some [] => Ok (inr TxErrors.ErrInvalidPublicKey)
    | Some (b :: pub) =>
      if negb (b =? 4) then Ok (inr TxErrors.ErrInvalidPublicKey)
      else Ok (inl (BytesToAddress (drop 12 (Keccak256 [pub]))))
    end.
End Authority.

(** ** The price of a message before it runs *)

(** [AccessList.StorageKeys] of [types/access_list_tx.go]. *)
Definition StorageKeys (al : list AccessTuple) : Z :=
  foldl (fun sum '(_, keys) => sum + zlen (keys : list Z)) 0 al.

Definition api_toWordSize (size : Z) : Z :=
  if MaxUint64 - 31 <? size then MaxUint64 / 32 + 1 else (size + 31) / 32.

(** The bytes of [data] that are not zero, as the loops of [IntrinsicGas] and
    [bytes.Count] count them. *)
Definition nonZero (data : bytes) : Z := foldl (fun nz b => if negb (b =? 0) then nz + 1 else nz) 0 data.

Definition IntrinsicGas (data : bytes) (accessList : list AccessTuple) (authList : list Authorization)
    (isContractCreation isHomestead isEIP2028 isEIP3860 : bool) : Z + txerror :=
  let gas := if isContractCreation && isHomestead then TxGasContractCreation else TxGas in
  let dataLen := zlen data in
  let dataGas :=
    if 0 <? dataLen then
      let nz := nonZero data in
      let nonZeroGas := if isEIP2028 then TxDataNonZeroGasEIP2028 else TxDataNonZeroGasFrontier in
      if (MaxUint64 - gas) / nonZeroGas <? nz then inr TxErrors.ErrGasUintOverflow
      else
        let gas := u64 (gas + u64 (nz * nonZeroGas)) in
        let z := dataLen - nz in
        if (MaxUint64 - gas) / TxDataZeroGas <? z then inr TxErrors.ErrGasUintOverflow
        else
          let gas := u64 (gas + u64 (z * TxDataZeroGas)) in
          if isContractCreation && isEIP3860 then
            let lenWords := api_toWordSize dataLen in
            if (MaxUint64 - gas) / InitCodeWordGas <? lenWords then inr TxErrors.ErrGasUintOverflow
            else inl (u64 (gas + u64 (lenWords * InitCodeWordGas)))
          else inl gas
    else inl gas in
  match dataGas with
  | inr e => inr e
  | inl gas =>
    let gas := u64 (gas + u64 (zlen accessList * TxAccessListAddressGas)) in
    let gas := u64 (gas + u64 (StorageKeys accessList * TxAccessListStorageKeyGas)) in
    inl (u64 (gas + u64 (zlen authList * CallNewAccountGas)))
  end.

Definition FloorDataGas (data : bytes) : Z + txerror :=
  let z := zlen data - nonZero data in
  let nz := u64 (zlen data - z) in
  let tokens := u64 (nz * TxTokenPerNonZeroByte + z) in
  if (MaxUint64 - TxGas) / TxCostFloorPerToken <? tokens then inr TxErrors.ErrGasUintOverflow
  else inl (u64 (TxGas + tokens * TxCostFloorPerToken)).

(** ** The message and the transition *)

(** What the methods of the [Message] interface return.  [GasPrice] and
    [Value] are not nil. *)
Record Message := {
  m_From : Z;
  m_To : option Z;
  m_GasPrice : Z;
  m_GasFeeCap : option Z;
  m_GasTipCap : option Z;
  m_Gas : Z;
  m_Value : Z;
  m_Nonce : Z;
  m_CheckNonce : bool;
  m_Data : bytes;
  m_AccessList : list AccessTuple;
  m_AuthList : list Authorization
}.

Record ExecutionResult := {
  UsedGas : Z;
  er_Err : option vmerror;
  ReturnData : bytes
}.

Definition Failed (r : ExecutionResult) : bool := bool_decide (er_Err r <> None).
Definition Return (r : ExecutionResult) : bytes :=
  match er_Err r with Some _ => [] | None => ReturnData r end.
Definition Revert (r : ExecutionResult) : bytes :=
  if bool_decide (er_Err r = Some ErrExecutionReverted) then ReturnData r else [].

(** The fields of [StateTransition] that change; [state] is [evm.StateDB]. *)
Record StateTransition := mkTransition {
  gp : GasPool;
  gas : Z;
  initialGas : Z;
  st_evm : evmS
}.
Definition set_gp (s : StateTransition) (x : GasPool) := mkTransition x (gas s) (initialGas s) (st_evm s).
Definition set_gas (s : StateTransition) (x : Z) := mkTransition (gp s) x (initialGas s) (st_evm s).
Definition set_initialGas (s : StateTransition) (x : Z) := mkTransition (gp s) (gas s) x (st_evm s).
Definition set_st_evm (s : StateTransition) (x : evmS) := mkTransition (gp s) (gas s) (initialGas s) x.

Definition NewStateTransition (e : evmS) (pool : GasPool) : StateTransition := mkTransition pool 0 0 e.

(** Computations that may reject the message. *)
Abbreviation TM A := (ST StateTransition (A + txerror)).
Definition tret {A : Type} (a : A) : TM A := mret (inl a).
Definition tfail {A : Type} (e : txerror) : TM A := mret (inr e).
Definition tbind {A B : Type} (m : TM A) (f : A -> TM B) : TM B :=
  r ← m; match r with inl a => f a | inr e => mret (inr e) end.
Definition tlift {A : Type} (m : ST StateTransition A) : TM A := a ← m; mret (inl a).

Definition on_st {A} (m : EVM A) : ST StateTransition A := fun s =>
  match m (st_evm s) with
  | Ok (a, e) => Ok (a, set_st_evm s e)
  | Panic => Panic
  | OutOfFuel => OutOfFuel
  end.
Definition tsdb {A} (m : SDB A) : ST StateTransition A := on_st (sdb m).

Section Transition.
Context {U : Uint256} {H : Host} {C : Crypto} {P : Secp256k1}.
(** [evm.chainConfig], the EVM's environment, [Config.NoBaseFee] and the jump table. *)
Variables (config : ChainConfig) (E : evmE) (NoBaseFee : bool) (jt : JumpTable).
(** What lies between the length and the capacity of the slice [GetCode]
    returns: slicing may reach into it. *)
Variable spare : Z -> bytes -> bytes.
Variable msg : Message.

Definition blockNumber : option Z := Some (BlockNumber (Context_ E)).
Definition txRules : Rules :=
  ChainConfig_Rules config blockNumber (bool_decide (bc_Random (Context_ E) <> None)) (Some (bc_Time (Context_ E))).

(** [st.to()] *)
Definition to : Z := default 0 (m_To msg).

Definition buyGas : TM unit :=
  let mgval := m_Gas msg * m_GasPrice msg in
  let balanceCheck := match m_GasFeeCap msg with Some cap => m_Gas msg * cap | None => mgval end in
  have ← tsdb (GetBalance (m_From msg));
  if have <? balanceCheck then tfail TxErrors.ErrInsufficientFunds
  else
    pool ← st_gets gp;
    match SubGas pool (m_Gas msg) with
    | inr e => tfail e
    | inl pool =>
      _ ← st_modify (fun s => set_gp s pool);
      _ ← st_modify (fun s => set_gas s (u64 (gas s + m_Gas msg)));
      _ ← st_modify (fun s => set_initialGas s (m_Gas msg));
      tlift (tsdb (SubBalance (m_From msg) mgval))
    end.

(** [cap.BitLen()]: a nil cap is dereferenced. *)
Definition capBitLen (cap : option Z) : result Z :=
  cap ← from_option_panic cap; Ok (big_BitLen cap).

(** The EIP-1559 checks, in order: the conditions short-circuit. *)
Definition checkFees (baseFee : Z) : result (option txerror) :=
  enforced ← (if negb NoBaseFee then Ok true
              else
                l ← capBitLen (m_GasFeeCap msg);
                if 0 <? l then Ok true
                else l ← capBitLen (m_GasTipCap msg); Ok (0 <? l));
  if negb enforced then Ok None
  else
    l ← capBitLen (m_GasFeeCap msg);
    if 256 <? l then Ok (Some TxErrors.ErrFeeCapVeryHigh)
    else
      l ← capBitLen (m_GasTipCap msg);
      if 256 <? l then Ok (Some TxErrors.ErrTipVeryHigh)
      else
        feeCap ← from_option_panic (m_GasFeeCap msg);
        tipCap ← from_option_panic (m_GasTipCap msg);
        if feeCap <? tipCap then Ok (Some TxErrors.ErrTipAboveFeeCap)
        else if feeCap <? baseFee then Ok (Some TxErrors.ErrFeeCapTooLow)
        else Ok None.

Definition preCheck : TM unit :=
  tbind (if m_CheckNonce msg then
           stNonce ← tsdb (GetNonce (m_From msg));
           if stNonce <? m_Nonce msg then tfail TxErrors.ErrNonceTooHigh
           else if m_Nonce msg <? stNonce then tfail TxErrors.ErrNonceTooLow
           else tret tt
         else tret tt) (fun _ =>
  tbind (match bc_BaseFee (Context_ E) with
         | Some baseFee =>
           if IsLondon config blockNumber then
             err ← st_lift (checkFees baseFee);
             match err with Some e => tfail e | None => tret tt end
           else tret tt
         | None => tret tt
         end) (fun _ => buyGas)).

Definition gasUsed : ST StateTransition Z := st_gets (fun s => u64 (initialGas s - gas s)).

Definition calcRefund : ST StateTransition Z :=
  let refundQuotient := if negb (IsLondon config blockNumber) then RefundQuotient else RefundQuotientEIP3529 in
  used ← gasUsed;
  counter ← tsdb GetRefund;
  let refund := used / refundQuotient in
  mret (if counter <? refund then counter else refund).

(** [code[:3]] *)
Definition code_prefix (authority : Z) (code : bytes) : result bytes :=
  let all := code ++ spare authority code in
  if 3 <=? zlen all then Ok (take 3 all) else Panic.

Definition applyAuthorization (auth : Authorization) : EVM (option autherror) :=
  wrongChain ← (if auth_ChainID auth =? 0 then mret false
                else st_lift (chainID ← from_option_panic (cc_ChainID config);
                              Ok (negb (auth_ChainID auth =? chainID))));
  if wrongChain : bool then mret (Some TxErrors.ErrAuthorizationWrongChainID)
  else
    a ← st_lift (Authority auth);
    match a with
    | inr err => mret (Some err)
    | inl authority =>
      _ ← sdb (AddAddressToAccessList authority);
      code ← sdb (GetCode authority);
      hasCode ← (if zlen code =? 0 then mret false
                 else st_lift (prefix ← code_prefix authority code;
                               Ok (negb (bool_decide (prefix = DelegationPrefix)))));
      if hasCode : bool then mret (Some TxErrors.ErrAuthorizationDestinationHasCode)
      else
        nonce ← sdb (GetNonce authority);
        if negb (nonce =? auth_Nonce auth) then mret (Some TxErrors.ErrAuthorizationNonceMismatch)
        else
          exists_ ← sdb (Exist authority);
          _ ← (if exists_ : bool then sdb (AddRefund (25000 - 12500)) else mret tt);
          _ ← (if auth_Address auth =? 0 then sdb (SetCode authority [])
               else sdb (SetCode authority (DelegationPrefix ++ Address_Bytes (auth_Address auth))));
          _ ← sdb (SetNonce authority (u64 (auth_Nonce auth + 1)));
          mret None
    end.

(** The loop over the authorizations: errors are logged and ignored. *)
Fixpoint applyAuthorizations (l : list Authorization) : EVM unit :=
  match l with
  | [] => mret tt
  | auth :: l' => _ ← applyAuthorization auth; applyAuthorizations l'
  end.

(** [TransitionDb] up to the point where nothing can reject the message any
    more: the floor price of its data is returned. *)
Definition acceptMsg : TM Z :=
  let contractCreation := bool_decide (m_To msg = None) in
  let shanghai := IsShanghai config (Some (bc_Time (Context_ E))) blockNumber in
  tbind preCheck (fun _ =>
  match IntrinsicGas (m_Data msg) (m_AccessList msg) (m_AuthList msg) contractCreation
          (IsHomestead config blockNumber) (IsIstanbul config blockNumber) shanghai with
  | inr e => tfail e
  | inl intrinsic =>
    have ← st_gets gas;
    if have <? intrinsic then tfail TxErrors.ErrIntrinsicGas
    else
      tbind (if r_IsPrague txRules then
               match FloorDataGas (m_Data msg) with
               | inr e => tfail e
               | inl floor => if m_Gas msg <? floor then tfail TxErrors.ErrFloorDataGas else tret floor
               end
             else tret 0) (fun floorDataGas =>
      _ ← st_modify (fun s => set_gas s (u64 (gas s - intrinsic)));
      canTransfer ← (if 0 <? Z.sgn (m_Value msg)
                     then tsdb (defaultCanTransfer (m_From msg) (m_Value msg)) else mret true);
      if negb canTransfer then tfail TxErrors.ErrInsufficientFundsForTransfer
      else if shanghai && contractCreation && (MaxInitCodeSize <? zlen (m_Data msg))
      then tfail TxErrors.ErrMaxInitCodeSizeExceeded
      else tret floorDataGas)
  end).

(** The execution of the message: returned bytes and error. *)
Definition executeMsg (fuel : nat) : ST StateTransition (bytes * option vmerror) :=
  _ ← (if r_IsBerlin txRules then
         tsdb (PrepareAccessList txRules (m_From msg) (Coinbase (Context_ E)) (m_To msg)
                 (ActivePrecompiles txRules) (m_AccessList msg))
       else mret tt);
  match m_To msg with
  | None =>
    g ← st_gets gas;
    '((ret, left_, vmerr), _) ← on_st (EVM_Create E jt fuel (AccountRef (m_From msg)) (m_Data msg) g (m_Value msg));
    _ ← st_modify (fun s => set_gas s left_);
    mret (ret, vmerr)
  | Some dst =>
    nonce ← tsdb (GetNonce (m_From msg));
    _ ← tsdb (SetNonce (m_From msg) (u64 (nonce + 1)));
    _ ← on_st (applyAuthorizations (m_AuthList msg));
    code ← tsdb (GetCode dst);
    _ ← match ParseDelegation code with
        | Some addr => tsdb (AddAddressToAccessList addr)
        | None => mret tt
        end;
    g ← st_gets gas;
    '(ret, left_, vmerr) ← on_st (EVM_Call E jt fuel (AccountRef (m_From msg)) to (m_Data msg) g (m_Value msg));
    _ ← st_modify (fun s => set_gas s left_);
    mret (ret, vmerr)
  end.

(** [cmath.BigMin] *)
Definition BigMin (x y : Z) : Z := if y <? x then y else x.

(** What the coinbase gets per unit of gas. *)
Definition effectiveTip : result Z :=
  match bc_BaseFee (Context_ E) with
  | Some baseFee =>
    if IsLondon config blockNumber then
      match m_GasFeeCap msg, m_GasTipCap msg with
      | Some feeCap, Some tipCap => Ok (BigMin tipCap (feeCap - baseFee))
      | _, _ => Panic
      end
    else Ok (m_GasPrice msg)
  | None => Ok (m_GasPrice msg)
  end.

(** After the execution: refunds, the floor price, and the payments. *)
Definition settleGas (floorDataGas : Z) : ST StateTransition Z :=
  gasRefund ← calcRefund;
  _ ← st_modify (fun s => set_gas s (u64 (gas s + gasRefund)));
  used ← gasUsed;
  _ ← (if used <? floorDataGas
       then st_modify (fun s => set_gas s (u64 (initialGas s - floorDataGas))) else mret tt);
  g ← st_gets gas;
  _ ← tsdb (AddBalance (m_From msg) (g * m_GasPrice msg));
  pool ← st_gets gp;
  pool ← st_lift (AddGas pool g);
  _ ← st_modify (fun s => set_gp s pool);
  tip ← st_lift effectiveTip;
  used ← gasUsed;
  _ ← tsdb (AddBalance (Coinbase (Context_ E)) (used * tip));
  gasUsed.

Definition TransitionDb (fuel : nat) : TM ExecutionResult :=
  tbind acceptMsg (fun floorDataGas =>
  '(ret, vmerr) ← executeMsg fuel;
  used ← settleGas floorDataGas;
  tret {| UsedGas := used; er_Err := vmerr; ReturnData := ret |}).

Definition ApplyMessage (fuel : nat) (e : evmS) (pool : GasPool)
    : result ((ExecutionResult + txerror) * StateTransition) :=
  TransitionDb fuel (NewStateTransition e pool).
End Transition.
