(* ===== verification/TransitionProofs.v ===== *)
(** Applying a message accounts for its gas.

    The gas a message buys comes out of the block's pool, and what is left of
    it goes back; the gas used is what the execution consumed less a capped
    refund, and never less than the floor price of the data.  The intrinsic and
    the floor price are the sums of the EIPs as long as these fit 64 bits, and a
    message rejected by [preCheck] leaves no trace. *)
From Stdlib Require Import ZArith Lia.
From stdpp Require Import base numbers list gmap.
From S2P Require Import Prelude U256 Math Params Rlp Host AccessList State StateDB StateProofs Stack.
From S2P Require Import Memory Contract VmErrors Precompiles Vm Gas Instr JumpTable Evm Demo VmLogic.
From S2P Require Import InstrProofs GasProofs EvmProofs Atomicity Transition.
Import TxErrors (txerror, autherror).
Local Open Scope Z_scope.

(** ** Prices *)
Lemma nonZero_acc data n :
  foldl (fun (nz b : Z) => if negb (b =? 0) then nz + 1 else nz) n data = n + nonZero data.
Proof.
  unfold nonZero. revert n. induction data as [|b data IH]; intros n; simpl; [lia|].
  rewrite IH, (IH (if negb (b =? 0) then 0 + 1 else 0)). destruct (negb (b =? 0)); lia.
Qed.
Lemma nonZero_cons b data : nonZero (b :: data) = (if b =? 0 then 0 else 1) + nonZero data.
Proof. unfold nonZero at 1. simpl. rewrite nonZero_acc. by destruct (b =? 0). Qed.
Lemma nonZero_range data : 0 <= nonZero data <= zlen data.
Proof.
  induction data as [|b data IH]; [done|]. rewrite nonZero_cons, zlen_cons. destruct (b =? 0); lia.
Qed.
Lemma StorageKeys_acc al n :
  foldl (fun sum '(_, keys) => sum + zlen (keys : list Z)) n (al : list AccessTuple) = n + StorageKeys al.
Proof.
  unfold StorageKeys. revert n. induction al as [|[a ks] al IH]; intros n; simpl; [lia|].
  rewrite IH, (IH (0 + zlen ks)). lia.
Qed.
Lemma StorageKeys_nonneg al : 0 <= StorageKeys al.
Proof.
  induction al as [|[a ks] al IH]; [done|]. unfold StorageKeys. simpl. rewrite StorageKeys_acc.
  pose proof (zlen_nonneg ks). lia.
Qed.

(** The intrinsic price as the EIPs write it: a base, EIP-2028 for the data,
    EIP-3860 for init code, EIP-2930 for the access list, EIP-7702 for the
    authorizations. *)
Definition intrinsic (data : bytes) (al : list AccessTuple) (auths : list Authorization)
    (creation homestead eip2028 eip3860 : bool) : Z :=
  (if creation && homestead then 53000 else 21000) +
  (if eip2028 then 16 else 68) * nonZero data + 4 * (zlen data - nonZero data) +
  (if creation && eip3860 then 2 * ((zlen data + 31) / 32) else 0) +
  2400 * zlen al + 1900 * StorageKeys al + 25000 * zlen auths.

Lemma guard_mul g k n : 0 <= g -> 0 < k -> 0 <= n -> g + k * n < 2 ^ 64 ->
  ((MaxUint64 - g) / k <? n) = false.
Proof.
  intros Hg Hk Hn Hs. apply Z.ltb_ge. apply Z.div_le_lower_bound; unfold MaxUint64; lia.
Qed.
Lemma u64_sum g k n : 0 <= g -> 0 <= k -> 0 <= n -> g + k * n < 2 ^ 64 -> u64 (g + u64 (n * k)) = g + k * n.
Proof.
  intros. assert (0 <= k * n) by nia. rewrite (u64_id (n * k)) by (unfold is_u64; lia).
  rewrite u64_id by (unfold is_u64; lia). lia.
Qed.

(** C15: the intrinsic gas of a message is exactly the sum of the prices of its
    parts whenever that sum fits 64 bits: no guard of the code misfires and no
    addition wraps. *)
Theorem IntrinsicGas_exact data al auths creation homestead eip2028 eip3860 :
  intrinsic data al auths creation homestead eip2028 eip3860 < 2 ^ 64 ->
  IntrinsicGas data al auths creation homestead eip2028 eip3860 =
    inl (intrinsic data al auths creation homestead eip2028 eip3860).
Proof.
  unfold intrinsic, IntrinsicGas. intros Hs.
  pose proof (nonZero_range data). pose proof (StorageKeys_nonneg al).
  pose proof (zlen_nonneg al). pose proof (zlen_nonneg auths).
  assert (0 <= (zlen data + 31) / 32) by (apply Z.div_pos; lia).
  set (base := if creation && homestead then 53000 else 21000) in *.
  change (if creation && homestead then TxGasContractCreation else TxGas) with base.
  assert (0 < base) by (unfold base; destruct (creation && homestead); lia).
  set (c := if eip2028 then 16 else 68) in *.
  change (if eip2028 then TxDataNonZeroGasEIP2028 else TxDataNonZeroGasFrontier) with c.
  assert (4 <= c) by (unfold c; destruct eip2028; lia).
  set (w := (zlen data + 31) / 32) in *. set (nz := nonZero data) in *. set (sk := StorageKeys al) in *.
  assert (4 * nz <= c * nz) by nia.
  unfold TxDataZeroGas, InitCodeWordGas, TxAccessListAddressGas, TxAccessListStorageKeyGas, CallNewAccountGas.
  destruct (creation && eip3860), (Z.ltb_spec 0 (zlen data)).
  1,3: rewrite (guard_mul base c nz), (u64_sum base c nz), (guard_mul _ 4), (u64_sum _ 4) by lia.
  1: unfold api_toWordSize; destruct (Z.ltb_spec (MaxUint64 - 31) (zlen data)); [unfold MaxUint64 in *; lia|].
  1: fold w; rewrite (guard_mul _ 2 w), (u64_sum _ 2 w) by lia.
  3,4: assert (nz = 0 /\ zlen data = 0) as [Ez E0] by lia; assert (w = 0) by (unfold w; by rewrite E0).
  all: rewrite (u64_sum _ 2400), (u64_sum _ 1900), (u64_sum _ 25000) by nia; f_equal; nia.
Qed.

Lemma IntrinsicGas_exact_witness :
  IntrinsicGas [1; 0; 2] [(5, [1; 2])] [] true true true true =
    inl (intrinsic [1; 0; 2] [(5, [1; 2])] [] true true true true).
Proof. apply IntrinsicGas_exact. vm_compute. reflexivity. Defined.

(** C16: the floor price of EIP-7623 is 21000 plus ten per token, four tokens for
    a non-zero byte and one for a zero byte; the code reports an overflow
    exactly when that sum does not fit 64 bits. *)
Theorem FloorDataGas_exact data : zlen data < 2 ^ 60 ->
  FloorDataGas data =
    (let floor := 21000 + 10 * (4 * nonZero data + (zlen data - nonZero data)) in
     if floor <? 2 ^ 64 then inl floor else inr TxErrors.ErrGasUintOverflow).
Proof.
  intros Hd. pose proof (nonZero_range data). unfold FloorDataGas. cbv zeta.
  unfold TxTokenPerNonZeroByte, TxCostFloorPerToken, TxGas.
  rewrite (u64_id (zlen data - _)) by (unfold is_u64; lia).
  set (t := 4 * nonZero data + (zlen data - nonZero data)).
  replace ((zlen data - (zlen data - nonZero data)) * 4 + (zlen data - nonZero data)) with t by lia.
  rewrite (u64_id t) by (unfold is_u64; lia).
  destruct (Z.ltb_spec (21000 + 10 * t) (2 ^ 64)).
  - rewrite guard_mul by lia. rewrite u64_id by (unfold is_u64; lia). f_equal; lia.
  - assert ((MaxUint64 - 21000) / 10 < t) as Hlt; [|apply Z.ltb_lt in Hlt; by rewrite Hlt].
    apply Z.div_lt_upper_bound; unfold MaxUint64; lia.
Qed.

Lemma FloorDataGas_exact_witness : FloorDataGas [0; 7; 0] = inl 21060.
Proof. exact (FloorDataGas_exact [0; 7; 0] eq_refl). Defined.

(** ** The gas pool *)

(** C31: gas taken from the pool can be put back: the pool is as before, and the
    check of [AddGas] does not panic; too large a request leaves the pool alone
    and is reported. *)
Theorem GasPool_roundtrip pool amount :
  is_u64 pool -> 0 <= amount ->
  match SubGas pool amount with
  | inl pool' => is_u64 pool' /\ AddGas pool' amount = Ok pool
  | inr e => e = TxErrors.ErrGasLimitReached /\ pool < amount
  end.
Proof.
  unfold is_u64, SubGas, AddGas. intros Hp Ha. destruct (Z.ltb_spec pool amount); [done|]. split; [lia|].
  destruct (Z.ltb_spec (MaxUint64 - amount) (pool - amount)); [unfold MaxUint64 in *; lia|].
  f_equal. replace (pool - amount + amount) with pool by lia. by apply u64_id.
Qed.
Lemma GasPool_roundtrip_witness :
  match SubGas 100 30 with
  | inl pool' => is_u64 pool' /\ AddGas pool' 30 = Ok 100
  | inr e => e = TxErrors.ErrGasLimitReached /\ 100 < 30
  end.
Proof. apply (GasPool_roundtrip 100 30); unfold is_u64; lia. Defined.

(** ** Reasoning about transitions *)
Abbreviation db s := (StateDB (st_evm s)).

Section Logic.
Context {H : Host}.

Lemma wp_on_st {A} (m : EVM A) Q s :
  wp m (fun a e => Q a (set_st_evm s e)) (st_evm s) -> wp (on_st m) Q s.
Proof. unfold wp, on_st. by destruct (m _) as [[a e]| |]. Qed.

Lemma wp_wlp {S A} (m : ST S A) (Q R : A -> S -> Prop) s :
  wp m Q s -> wlp m R s -> wp m (fun a s' => Q a s' /\ R a s') s.
Proof. unfold wp, wlp. destruct (m s) as [[a s']| |] eqn:E; [|done|done]. intros. split; [done|]. auto. Qed.

(** A call of the database: the rest of the transition stays, and the database
    stays well formed. *)
Lemma wp_tsdb {A} (m : SDB A) Q s :
  nofuel m -> st_rel ext m -> wf_db (db s) ->
  (forall a e, m (db s) = Ok (a, StateDB e) -> wf_db (StateDB e) -> Q a (set_st_evm s e)) -> wp (tsdb m) Q s.
Proof.
  intros Hn Hm W HQ. apply wp_on_st. unfold wp, sdb. specialize (Hn (db s)).
  destruct (m (db s)) as [[a d]| |] eqn:E; try done. apply HQ; [by simpl|].
  destruct (Hm _ _ _ E W) as [W' _]. exact W'.
Qed.

Lemma wp_tbind {A B} (m : TM A) (f : A -> TM B) Q s :
  wp m (fun r s' => match r with inl a => wp (f a) Q s' | inr e => Q (inr e) s' end) s -> wp (tbind m f) Q s.
Proof. intros Hm. apply wp_bind. eapply wp_mono; [exact Hm|]. by intros [a|e] s'. Qed.
End Logic.

(** Computations that return. *)
Definition tot {S A} (m : ST S A) (Q : A -> S -> Prop) (s : S) : Prop := exists a s', m s = Ok (a, s') /\ Q a s'.
Section Total.
Context {S : Type}.
Lemma tot_bind {A B} (m : ST S A) (f : A -> ST S B) Q s : tot m (fun a s' => tot (f a) Q s') s -> tot (m ≫= f) Q s.
Proof. intros (a & s1 & E & b & s2 & E2 & HQ). exists b, s2. unfold mbind, ST_bind. by rewrite E. Qed.
Lemma tot_mono {A} (m : ST S A) (Q R : A -> S -> Prop) s : tot m Q s -> (forall a s', Q a s' -> R a s') -> tot m R s.
Proof. intros (a & s1 & E & HQ) HR. exists a, s1. auto. Qed.
Lemma tot_ret {A} (a : A) Q (s : S) : Q a s -> tot (mret a) Q s.
Proof. by exists a, s. Qed.
Lemma tot_gets {A} (f : S -> A) Q s : Q (f s) s -> tot (st_gets f) Q s.
Proof. by exists (f s), s. Qed.
Lemma tot_modify (f : S -> S) Q s : Q tt (f s) -> tot (st_modify f) Q s.
Proof. by exists tt, (f s). Qed.
Lemma tot_lift {A} (r : result A) a Q (s : S) : r = Ok a -> Q a s -> tot (st_lift r) Q s.
Proof. intros -> HQ. by exists a, s. Qed.
End Total.
Lemma tot_tsdb {A} (m : SDB A) a d Q s :
  m (db s) = Ok (a, d) -> Q a (set_st_evm s (set_StateDB (st_evm s) d)) -> tot (tsdb m) Q s.
Proof. intros E HQ. exists a. eexists. split; [|exact HQ]. unfold tsdb, on_st, sdb. by rewrite E. Qed.
Ltac tot_step :=
  lazymatch goal with
  | |- tot (mbind _ _) _ _ => apply tot_bind
  | |- tot (mret _) _ _ => apply tot_ret
  | |- tot (st_gets _) _ _ => apply tot_gets
  | |- tot gasUsed _ _ => apply tot_gets
  | |- tot (st_modify _) _ _ => apply tot_modify
  end.

Ltac twp_step :=
  lazymatch goal with
  | |- wp (tbind _ _) _ _ => apply wp_tbind
  | |- wp (mbind _ _) _ _ => apply wp_bind
  | |- wp (mret _) _ _ => apply wp_ret
  | |- wp (tret _) _ _ => apply wp_ret
  | |- wp (tfail _) _ _ => apply wp_ret
  | |- wp (tlift _) _ _ => apply wp_bind
  | |- wp (st_gets _) _ _ => apply wp_gets
  | |- wp gasUsed _ _ => apply wp_gets
  | |- wp (st_modify _) _ _ => apply wp_modify
  | |- wp (tsdb _) _ _ =>
      apply wp_tsdb; [solve [eauto with nofuel]|solve [eauto with strel]|assumption || (simpl; assumption)|intros ? ? ? ?]
  | |- wp (if ?b then _ else _) _ _ => destruct b eqn:?
  | |- wp (match ?x with _ => _ end) _ _ => destruct x eqn:?
  end.

Section Transition.
Context {U : Uint256} {UL : Uint256Laws} {H : Host} {C : Crypto} {P : Secp256k1}.
Variables (config : ChainConfig) (E : evmE) (NoBaseFee : bool) (jt : JumpTable).
Variable spare : Z -> bytes -> bytes.
Variable msg : Message.
Hypothesis Hgas : is_u64 (m_Gas msg).

(** What [preCheck] establishes, or leaves alone. *)
Definition bought (s s' : StateTransition) : Prop :=
  gp s' = gp s - m_Gas msg /\ 0 <= gp s' /\ gas s' = m_Gas msg /\ initialGas s' = m_Gas msg.

Lemma buyGas_spec s : wf_db (db s) -> gas s = 0 ->
  wp (buyGas msg) (fun r s' => wf_db (db s') /\
    match r with inl _ => bought s s' | inr _ => gp s' = gp s /\ gas s' = 0 end) s.
Proof.
  intros W G. unfold buyGas, SubGas. twp_step. twp_step. twp_step; [by twp_step|].
  twp_step. twp_step. destruct (Z.ltb_spec (gp (set_st_evm s e)) (m_Gas msg)); [by twp_step|].
  repeat twp_step. split; [done|]. unfold bought. simpl in *. rewrite G, Z.add_0_l, u64_id by done.
  split_and!; lia || done.
Qed.

Lemma rnofuel_checkFees b : rnofuel (checkFees NoBaseFee msg b).
Proof. unfold checkFees, capBitLen. nofuel_solve. Qed.

Lemma preCheck_spec s : wf_db (db s) -> gas s = 0 ->
  wp (preCheck config E NoBaseFee msg) (fun r s' => wf_db (db s') /\
    match r with inl _ => bought s s' | inr _ => gp s' = gp s /\ gas s' = 0 end) s.
Proof.
  intros W G. unfold preCheck. twp_step.
  apply wp_mono with (Q := fun r s' => wf_db (db s') /\ gp s' = gp s /\ gas s' = 0).
  { repeat twp_step; done. }
  intros [_|e] s1 (W1 & E1 & G1); [|done]. twp_step.
  apply wp_mono with (Q := fun r s' => wf_db (db s') /\ gp s' = gp s /\ gas s' = 0).
  { repeat (twp_step || (apply wp_lift; [apply rnofuel_checkFees|intros ? ?])); done. }
  intros [_|e] s2 (W2 & E2 & G2); [|done]. eapply wp_mono; [by apply buyGas_spec|].
  intros [_|e] s3 (W3 & H3); (split; [done|]); unfold bought in *; rewrite ?E2 in *; try done. 
Qed.

(** A message that is accepted has bought its gas and paid its intrinsic price;
    the floor price is within its gas. *)
Definition accepted (s s' : StateTransition) (floor : Z) : Prop :=
  gp s' = gp s - m_Gas msg /\ 0 <= gp s' /\ 0 <= gas s' <= m_Gas msg /\ initialGas s' = m_Gas msg /\
  floor <= m_Gas msg /\
  (r_IsPrague (txRules config E) = true -> FloorDataGas (m_Data msg) = inl floor) /\
  (r_IsPrague (txRules config E) = false -> floor = 0).

Lemma u64_nonneg z : 0 <= u64 z.
Proof. apply u64_range. Qed.
Lemma IntrinsicGas_nonneg data al auths a b c d g : IntrinsicGas data al auths a b c d = inl g -> 0 <= g.
Proof. unfold IntrinsicGas. cbv zeta. case_match; [|done]. intros [= <-]. apply u64_nonneg. Qed.
Lemma FloorDataGas_nonneg data g : FloorDataGas data = inl g -> 0 <= g.
Proof. unfold FloorDataGas. cbv zeta. case_match; [done|]. intros [= <-]. apply u64_nonneg. Qed.

Lemma acceptMsg_spec s : wf_db (db s) -> gas s = 0 ->
  wp (acceptMsg config E NoBaseFee msg) (fun r s' => wf_db (db s') /\
    match r with
    | inl floor => accepted s s' floor
    | inr _ => gp s' = gp s \/ gp s' = gp s - m_Gas msg
    end) s.
Proof.
  intros W G. unfold acceptMsg. twp_step. eapply wp_mono; [by apply preCheck_spec|].
  intros [_|e] s1 [W1 H1]; [|split; [done|left; apply H1]]. destruct H1 as (Ep & Hp & Eg & Ei).
  destruct (IntrinsicGas _ _ _ _ _ _ _) as [ig|e] eqn:Hig; [|twp_step; auto].
  apply IntrinsicGas_nonneg in Hig. twp_step. twp_step. rewrite Eg.
  destruct (Z.ltb_spec (m_Gas msg) ig); [twp_step; auto|]. twp_step.
  apply wp_mono with (Q := fun r s' => s' = s1 /\ match r with
    | inl floor => floor <= m_Gas msg /\
        (r_IsPrague (txRules config E) = true -> FloorDataGas (m_Data msg) = inl floor) /\
        (r_IsPrague (txRules config E) = false -> floor = 0)
    | inr _ => True end).
  { destruct (r_IsPrague (txRules config E)).
    - destruct (FloorDataGas (m_Data msg)) as [fl|e]; [|by twp_step].
      destruct (Z.ltb_spec (m_Gas msg) fl); twp_step; split_and!; done.
    - twp_step. split_and!; try done. apply Hgas. }
  intros [fl|e] s2 [-> Hfl]; [|auto].
  assert (forall e', accepted s (set_st_evm (set_gas s1 (u64 (gas s1 - ig))) e') fl) as HA.
  { intros e'. unfold accepted. simpl. rewrite Ep, Eg, Ei. unfold is_u64 in *.
    rewrite u64_id by (unfold is_u64; lia). rewrite Ep in Hp. split_and!; try done; try lia; apply Hfl. }
  do 2 twp_step. twp_step.
  apply wp_mono with (Q := fun _ s' => wf_db (db s') /\ exists e', s' = set_st_evm (set_gas s1 (u64 (gas s1 - ig))) e').
  { destruct (0 <? Z.sgn (m_Value msg)).
    - apply wp_tsdb; [apply nofuel_defaultCanTransfer| |done|].
      + unfold defaultCanTransfer. repeat strel_step; eauto with strel.
      + intros a e' _ We. eauto.
    - twp_step. split; [done|]. by exists (st_evm s1). }
  intros b s3 (W3 & e' & ->). specialize (HA e').
  repeat twp_step; (split; [done|]); try exact HA; right; exact Ep.
Qed.

Lemma rnofuel_Authority a : rnofuel (Authority a).
Proof.
  assert (forall heads s dst p q, rnofuel (copyTo_loop heads s dst p q)) as Hl.
  { induction heads as [|hd heads IH]; intros; simpl; nofuel_solve; apply IH. }
  unfold Authority, sigHash, enc_listEnd, makeBytes, Ecrecover, sigToPub. nofuel_solve.
Qed.

(** Well-formedness and the fuel of computations on the machine. *)
Definition runs {A} (m : EVM A) : Prop := forall e,
  wf_db (StateDB e) -> wp m (fun _ e' => wf_db (StateDB e')) e.
Lemma runs_ret {A} (a : A) : runs (mret a).
Proof. intros e W. by apply wp_ret. Qed.
Lemma runs_bind {A B} (m : EVM A) (f : A -> EVM B) : runs m -> (forall a, runs (f a)) -> runs (m ≫= f).
Proof.
  intros Hm Hf e W. apply wp_bind. eapply wp_mono; [by apply Hm|]. intros a e' W'. by apply Hf.
Qed.
Lemma runs_lift {A} (r : result A) : rnofuel r -> runs (st_lift r).
Proof. intros Hr e W. by apply wp_lift. Qed.
Lemma runs_sdb {A} (m : SDB A) : nofuel m -> st_rel ext m -> runs (sdb m).
Proof.
  intros Hn Hm e W. unfold wp, sdb. specialize (Hn (StateDB e)). destruct (m _) as [[a d]| |] eqn:Em; try done.
  by destruct (Hm _ _ _ Em W) as [W' _].
Qed.
Ltac runs_solve :=
  repeat lazymatch goal with
  | |- runs (mbind _ _) => apply runs_bind; [|intros ?]
  | |- runs (mret _) => apply runs_ret
  | |- runs (sdb _) => apply runs_sdb; [solve [eauto with nofuel]|solve [eauto with strel]]
  | |- runs (if ?b then _ else _) => destruct b
  | |- runs (match ?x with _ => _ end) => destruct x
  end.

Lemma runs_applyAuthorization a : runs (applyAuthorization config spare a).
Proof.
  unfold applyAuthorization. runs_solve; apply runs_lift; try apply rnofuel_Authority;
    unfold code_prefix; nofuel_solve.
Qed.
Lemma runs_applyAuthorizations l : runs (applyAuthorizations config spare l).
Proof.
  induction l as [|a l IH]; cbn [applyAuthorizations]; runs_solve; [apply runs_applyAuthorization|apply IH].
Qed.

Lemma nofuel_forM_ {A} (l : list A) (body : A -> SDB unit) : (forall x, nofuel (body x)) -> nofuel (forM_ l body).
Proof. intros Hb. induction l; cbn [forM_]; nofuel_solve; auto. Qed.
Lemma nofuel_PrepareAccessList r s c d p l : nofuel (PrepareAccessList r s c d p l).
Proof.
  unfold PrepareAccessList. nofuel_solve; apply nofuel_forM_; try (intros; solve [eauto with nofuel]).
  all: intros [? ?]; nofuel_solve; apply nofuel_forM_; eauto with nofuel.
Qed.
Hint Resolve nofuel_PrepareAccessList : nofuel.

Section Execution.
Variable fuel : nat.
Hypothesis J : jt_ok (r_IsEIP150 (chainRules E)) jt.
Hypothesis F : m_Gas msg < Z.of_nat fuel.

(** The machine keeps the database well formed and returns what is left. *)
Lemma wp_EVM_Call c a i g x e : wf_db (StateDB e) -> 0 <= g <= m_Gas msg ->
  wp (EVM_Call E jt fuel c a i g x) (fun r e' => left_ok g r /\ wf_db (StateDB e')) e.
Proof.
  intros W Hg. unfold is_u64 in Hgas. eapply wp_mono.
  - apply wp_wlp; [apply (Call_spec E _ _ (Run_spec E jt J fuel)); lia
                  |apply (Call_post E (Run E jt fuel) (eext_Run E jt fuel))].
  - intros r e' [Hl Hp]. split; [done|]. apply call_post_eext in Hp. by destruct (l_db _ _ _ Hp W).
Qed.
Lemma wp_EVM_Create c i g x e : wf_db (StateDB e) -> 0 <= g <= m_Gas msg ->
  wp (EVM_Create E jt fuel c i g x) (fun r e' => left_ok g (fst r) /\ wf_db (StateDB e')) e.
Proof.
  intros W Hg. unfold is_u64 in Hgas. eapply wp_mono.
  - apply wp_wlp; [apply (ok_Create _ _ (calls_spec E _ _ (Run_spec E jt J fuel))); lia
                  |intros r e'; apply (ext_Create _ (calls_extend E (Run E jt fuel) (eext_Run E jt fuel)))].
  - intros r e' [Hl Hp]. split; [done|]. by destruct (l_db _ _ _ Hp W).
Qed.

Lemma executeMsg_spec s : wf_db (db s) -> 0 <= gas s <= m_Gas msg ->
  wp (executeMsg config E jt spare msg fuel) (fun _ s' => wf_db (db s') /\ gp s' = gp s /\
    initialGas s' = initialGas s /\ 0 <= gas s' <= gas s) s.
Proof.
  intros W Hg. unfold executeMsg. twp_step.
  apply wp_mono with (Q := fun _ s' => wf_db (db s') /\ exists e, s' = set_st_evm s e).
  { repeat twp_step; (split; [done|]); eauto. by exists (st_evm s); destruct s. }
  intros _ s1 (W1 & e1 & ->). destruct (m_To msg) as [dst|].
  - repeat lazymatch goal with
    | |- wp (on_st (applyAuthorizations _ _ _)) _ _ => fail
    | |- _ => twp_step end.
    apply wp_on_st. eapply wp_mono; [apply runs_applyAuthorizations; simpl; assumption|]. intros ? e4 W4. cbv beta in W4.
    twp_step. twp_step. twp_step.
    apply wp_mono with (Q := fun _ s' => wf_db (db s') /\ exists e, s' = set_st_evm s e).
    { repeat twp_step; (split; [done|]); eexists; reflexivity. }
    intros _ s5 (W5 & e5 & ->). do 2 twp_step. twp_step. apply wp_on_st.
    eapply wp_mono; [by apply wp_EVM_Call|]. intros [[ret lft] err] e6 [Hl W6].
    repeat twp_step. unfold left_ok in Hl. simpl in *. done.
  - do 2 twp_step. twp_step. apply wp_on_st.
    eapply wp_mono; [by apply wp_EVM_Create|]. intros [[[ret lft] err] addr] e6 [Hl W6].
    repeat twp_step. unfold left_ok in Hl. simpl in *. done.
Qed.
End Execution.

(** The gas used by an execution that leaves [left_], with [counter] in the
    refund counter. *)
Definition finalUsed (left_ counter floor : Z) : Z :=
  let used := m_Gas msg - left_ in
  let quotient := if IsLondon config (blockNumber E) then 5 else 2 in
  Z.max floor (used - Z.min (used / quotient) counter).

Lemma settleGas_spec floor s pool : wf_db (db s) -> 0 <= gas s <= m_Gas msg -> initialGas s = m_Gas msg ->
  0 <= floor <= m_Gas msg -> is_u64 pool -> gp s = pool - m_Gas msg -> 0 <= gp s ->
  wp (settleGas config E msg floor) (fun used s' =>
    used = finalUsed (gas s) (refund (db s)) floor /\ 0 <= used <= m_Gas msg /\
    gas s' = m_Gas msg - used /\ gp s' = pool - used /\ wf_db (db s')) s.
Proof.
  intros W Hg Hi Hf Hp Ep Hp0. unfold is_u64 in *. unfold settleGas, calcRefund, finalUsed.
  set (u := m_Gas msg - gas s).
  set (q := if negb _ then _ else _). cbv zeta. 
  assert (q = if IsLondon config (blockNumber E) then 5 else 2) as <- by (unfold q; by destruct (IsLondon _ _)).
  assert (0 <= u / q <= u).
  { unfold q. destruct (negb _); unfold RefundQuotient, RefundQuotientEIP3529; (split; [apply Z.div_pos; lia|apply Z.div_le_upper_bound; lia]). }
  pose proof (wf_refund _ W) as Hr. unfold is_u64 in Hr.
  twp_step. twp_step. twp_step. rewrite Hi. fold u. rewrite (u64_id u) by (unfold is_u64; lia).
  twp_step. twp_step. match goal with Hx : GetRefund _ = _ |- _ => injection Hx as <- Ee end.
  twp_step.
  set (rf := if _ <? _ then _ else _).
  assert (rf = Z.min (u / q) (refund (db s))) as Erf by (unfold rf; destruct (Z.ltb_spec (refund (db s)) (u / q)); lia).
  rewrite <- Erf. do 2 twp_step. do 2 twp_step. simpl. rewrite Hi.
  rewrite (u64_id (gas s + rf)) by (unfold is_u64; lia).
  replace (m_Gas msg - (gas s + rf)) with (u - rf) by lia. rewrite (u64_id (u - rf)) by (unfold is_u64; lia).
  twp_step.
  apply wp_mono with (Q := fun _ s' => gas s' = m_Gas msg - Z.max floor (u - rf) /\ gp s' = gp s /\
    initialGas s' = m_Gas msg /\ wf_db (db s')).
  { destruct (Z.ltb_spec (u - rf) floor); twp_step; simpl; rewrite ?Hi; split_and!; try done; [|lia].
    rewrite u64_id by (unfold is_u64; lia). lia. }
  intros _ s2 (Eg2 & Ep2 & Ei2 & W2). set (used := Z.max floor (u - rf)) in *.
  assert (0 <= used <= m_Gas msg) by lia.
  do 4 twp_step. twp_step. twp_step. simpl. rewrite Eg2, Ep2, Ep.
  twp_step. unfold AddGas. destruct (Z.ltb_spec (MaxUint64 - (m_Gas msg - used)) (pool - m_Gas msg)); [done|].
  rewrite u64_id by (unfold is_u64; lia). apply wp_lift; [done|]. intros pool2 [= <-].
  do 2 twp_step. twp_step. apply wp_lift; [unfold effectiveTip; by repeat case_match|]. intros tip _.
  repeat twp_step. simpl. rewrite Eg2, Ei2. rewrite u64_id by (unfold is_u64; lia). split_and!; (done || lia).
Qed.
Lemma tot_calcRefund q s Q :
  q = (if IsLondon config (blockNumber E) then 5 else 2) -> is_u64 (initialGas s - gas s) ->
  0 <= (initialGas s - gas s) / q ->
  Q (Z.min ((initialGas s - gas s) / q) (refund (db s))) s -> tot (calcRefund config E) Q s.
Proof.
  intros Hq Hu H0 HQ. unfold calcRefund. do 2 tot_step. rewrite u64_id by done.
  apply tot_bind, (tot_tsdb _ (refund (db s)) (db s)); [done|]. tot_step.
  replace (set_st_evm s _) with s by (by destruct s as [? ? ? []]).
  replace (if negb _ then RefundQuotient else _) with q by (rewrite Hq; by destruct (IsLondon _ _)).
  destruct (Z.ltb_spec (refund (db s)) ((initialGas s - gas s) / q)); [rewrite Z.min_r in HQ by lia|rewrite Z.min_l in HQ by lia]; done.
Qed.

(** The same with the payments, for a message whose tip is defined. *)
Lemma settleGas_eq floor s pool tip :
  wf_db (db s) -> 0 <= gas s <= m_Gas msg -> initialGas s = m_Gas msg ->
  0 <= floor <= m_Gas msg -> is_u64 pool -> gp s = pool - m_Gas msg -> 0 <= gp s ->
  effectiveTip config E msg = Ok tip ->
  let used := finalUsed (gas s) (refund (db s)) floor in
  exists d s', settleGas config E msg floor s = Ok (used, s') /\
    0 <= used <= m_Gas msg /\ gas s' = m_Gas msg - used /\ gp s' = pool - used /\
    AddBalance (m_From msg) ((m_Gas msg - used) * m_GasPrice msg) (db s) = Ok (tt, d) /\
    AddBalance (Coinbase (Context_ E)) (used * tip) d = Ok (tt, db s').
Proof.
  intros W Hg Hi Hf Hp Ep Hp0 Et used. set (q := if IsLondon config (blockNumber E) then 5 else 2).
  set (u := m_Gas msg - gas s). unfold is_u64 in *.
  pose proof (wf_refund _ W) as Hr. unfold is_u64 in Hr.
  assert (0 <= u / q <= u) as Hq.
  { unfold q. destruct (IsLondon _ _); (split; [apply Z.div_pos; lia|apply Z.div_le_upper_bound; lia]). }
  assert (used = Z.max floor (u - Z.min (u / q) (refund (db s)))) as Hused by done. clearbody used.
  assert (0 <= used <= m_Gas msg) as Hu by lia.
  destruct (AddBalance_reads (m_From msg) ((m_Gas msg - used) * m_GasPrice msg) (db s)) as (d & Ed & _).
  destruct (AddBalance_reads (Coinbase (Context_ E)) (used * tip) d) as (d2 & Ed2 & _).
  assert (tot (settleGas config E msg floor) (fun r s' => r = used /\ gas s' = m_Gas msg - used /\ gp s' = pool - used /\
    db s' = d2) s) as (r & s' & Es & -> & Hg' & Hp' & Ed').
  2: { exists d, s'. rewrite Ed'. split_and!; done || lia. }
  unfold settleGas. apply tot_bind. apply (tot_calcRefund q); [done|rewrite Hi; unfold is_u64; lia|rewrite Hi; fold u; lia|].
  rewrite Hi. fold u. set (rf := Z.min (u / q) (refund (db s))) in *.
  do 2 tot_step. rewrite (u64_id (gas s + rf)) by (unfold is_u64; lia). do 2 tot_step. cbn [gas initialGas set_gas].
  rewrite Hi, (u64_id (m_Gas msg - _)) by (unfold is_u64; lia).
  apply tot_bind, tot_mono with (Q := fun _ s' => s' = mkTransition (gp s) (m_Gas msg - used) (m_Gas msg) (st_evm s)).
  { destruct (Z.ltb_spec (m_Gas msg - (gas s + rf)) floor); tot_step; unfold set_gas; cbn [gas initialGas gp st_evm];
      rewrite Hi; [rewrite u64_id by (unfold is_u64; lia)|]; f_equal; lia. }
  intros _ ? ->. do 2 tot_step. cbn [gas]. apply tot_bind. eapply tot_tsdb; [exact Ed|].
  do 2 tot_step. cbn [gp set_st_evm]. rewrite Ep. apply tot_bind, (tot_lift _ (pool - used)).
  { unfold AddGas. destruct (Z.ltb_spec (MaxUint64 - (m_Gas msg - used)) (pool - m_Gas msg)); [unfold MaxUint64 in *; lia|].
    rewrite u64_id by (unfold is_u64; lia). f_equal. lia. }
  do 2 tot_step. apply tot_bind, (tot_lift _ tip); [done|]. do 2 tot_step.
  cbn [gas initialGas set_gp set_st_evm]. rewrite (u64_id (_ - _)) by (unfold is_u64; lia).
  replace (m_Gas msg - (m_Gas msg - used)) with used by lia.
  apply tot_bind. eapply tot_tsdb; [exact Ed2|]. tot_step. cbn. rewrite u64_id by (unfold is_u64; lia).
  split_and!; try done; lia.
Qed.
End Transition.

(** ** Rejected messages *)
Section Rejected.
Context {H : Host} {C : Crypto} {P : Secp256k1}.
Variables (config : ChainConfig) (E : evmE) (NoBaseFee : bool).
Variable msg : Message.

(** Only caches of the database differ. *)
Record kept (s s' : StateTransition) : Prop := {
  k_gp : gp s' = gp s;
  k_gas : gas s' = gas s;
  k_initial : initialGas s' = initialGas s;
  k_evm : lifted cached (st_evm s) (st_evm s')
}.
#[export] Instance kept_preorder : PreOrder kept.
Proof.
  split; [intros s; by split|]. intros ? ? ? [] []. split; try congruence. by etransitivity.
Qed.
Lemma kept_tsdb {A} (m : SDB A) : st_rel cached m -> st_rel kept (tsdb m).
Proof.
  intros Hm s a s'. unfold tsdb, on_st. destruct (sdb m (st_evm s)) as [[b e]| |] eqn:Em; try done.
  intros [= <- <-]. split; try done. by apply (rel_sdb _ _ Hm _ _ _ Em).
Qed.

Definition if_rejected {A} (s : StateTransition) (r : A + txerror) (s' : StateTransition) : Prop :=
  match r with inl _ => True | inr _ => kept s s' end.

Lemma wlp_tbind {A B} (m : TM A) (f : A -> TM B) s :
  st_rel kept m -> (forall a s', wlp (f a) (if_rejected s') s') -> wlp (tbind m f) (if_rejected s) s.
Proof.
  intros Hm Hf. apply wlp_bind. eapply wlp_rel; [exact Hm|]. intros [a|e] s' K; [|by apply wlp_ret].
  eapply wlp_mono; [apply Hf|]. intros [b|e] s2; [done|]. intros K2. exact (transitivity K K2).
Qed.

Lemma buyGas_rejected s : wlp (buyGas msg) (if_rejected s) s.
Proof.
  unfold buyGas. apply wlp_bind. eapply wlp_rel; [apply kept_tsdb, cached_GetBalance|].
  intros b s1 K1. destruct (_ <? _); [by apply wlp_ret|].
  apply wlp_bind. intros pool s2 [= <- <-]. destruct (SubGas _ _); [|by apply wlp_ret].
  repeat (apply wlp_bind; intros ? ? _). by apply wlp_ret.
Qed.

(** C14: a message that [preCheck] rejects (a wrong nonce, fee caps out of order
    or too low, too little balance, no room in the block) leaves everything as
    it was: the gas pool, the gas of the transition, the journal, and the reads
    of the state listed in [untouched]: all but the code hash and the existence
    tests of accounts for which these depend on whether the account was loaded
    ([hash_settled], [empty_settled]). *)
Theorem preCheck_rejects s err s' :
  wf_db (db s) -> preCheck config E NoBaseFee msg s = Ok (inr err, s') ->
  gp s' = gp s /\ gas s' = gas s /\ initialGas s' = initialGas s /\ untouched (st_evm s) (st_evm s').
Proof.
  intros W Hs. assert (kept s s') as [? ? ? K]; [|split_and!; try done; by apply cached_untouched].
  revert Hs. change (if_rejected s (inr err : unit + txerror) s') with (kept s s').
  apply (wlp_tbind _ _ s).
  - repeat first [apply kept_tsdb, cached_GetNonce | apply st_rel_ret; tc_solve | progress strel_step].
  - intros _ s1. apply wlp_tbind; [|intros _ s2; apply buyGas_rejected].
    repeat first [apply st_rel_ret; tc_solve | progress strel_step].
Qed.
End Rejected.

(** ** The whole transition *)
Section Theorems.
Context {U : Uint256} {UL : Uint256Laws} {H : Host} {C : Crypto} {P : Secp256k1}.

Lemma NewEVM_inv T block tx config abort T' E jt :
  NewEVM T block tx config [] abort = Ok (T', (E, jt)) ->
  chainRules E = txRules config E /\
  exists rest, NewEVMInterpreter T (chainRules E) (DisableOpcodes config) [] = Ok (T', (jt, rest)).
Proof.
  unfold NewEVM. set (r := ChainConfig_Rules _ _ _ _).
  destruct (NewEVMInterpreter T r (DisableOpcodes config) []) as [[T1 [jt1 rest]]| |] eqn:Hj; try done.
  cbn. intros [= <- <- <-]. split; [|by exists rest]. unfold txRules, blockNumber. simpl.
  replace (bool_decide (bc_Random block <> None)) with (match bc_Random block with Some _ => true | None => false end); [done|].
  destruct (bc_Random block); symmetry; [by apply bool_decide_eq_true|by apply bool_decide_eq_false; intros []].
Qed.

Lemma NewEVM_table T block tx config abort T' E jt :
  reachable_tables T -> NewEVM T block tx config [] abort = Ok (T', (E, jt)) ->
  r_IsEIP150 (chainRules E) = true -> jt_ok (r_IsEIP150 (chainRules E)) jt.
Proof.
  intros HT HE H150. destruct (NewEVM_inv _ _ _ _ _ _ _ _ HE) as (_ & rest & Hn).
  apply (NewEVMInterpreter_ok _ _ _ _ _ _ _ (reachable_tables_ok _ HT)) in Hn as [_ Hj].
  destruct (Hj eq_refl) as ([_ Hp _] & _). rewrite H150. intros o Ho. specialize (Hp o Ho).
  destruct (has2929 _); [done|by apply op_ok_mono].
Qed.

(** C3: applying a message on any EVM that [NewEVM] builds (with EIP-150 active,
    whatever interpreters were built before) accounts for its gas: with fuel above the message's gas it never runs out
    of fuel; a message that is executed uses between the floor price of its
    data and the gas it brought, and exactly what it used leaves the block's
    pool; a message that is rejected takes nothing or, when it is rejected
    after buying gas, all it bought. *)
Theorem ApplyMessage_gas T T' block tx config abort E jt NoBaseFee spare msg fuel e pool :
  reachable_tables T -> NewEVM T block tx config [] abort = Ok (T', (E, jt)) -> IsEIP150 config (blockNumber E) = true ->
  is_u64 (m_Gas msg) -> m_Gas msg < Z.of_nat fuel -> is_u64 pool -> wf_db (StateDB e) ->
  match ApplyMessage config E NoBaseFee jt spare msg fuel e pool with
  | Ok (inl r, s) =>
      0 <= UsedGas r <= m_Gas msg /\ gp s = pool - UsedGas r /\ gas s = m_Gas msg - UsedGas r /\
      forall floor, r_IsPrague (chainRules E) = true -> FloorDataGas (m_Data msg) = inl floor -> floor <= UsedGas r
  | Ok (inr _, s) => gp s = pool \/ gp s = pool - m_Gas msg
  | Panic => True
  | OutOfFuel => False
  end.
Proof.
  intros HT HE H150 Hg Hf Hp W. destruct (NewEVM_inv _ _ _ _ _ _ _ _ HE) as [Er _].
  assert (r_IsEIP150 (chainRules E) = true) as H150' by (by rewrite Er).
  pose proof (NewEVM_table _ _ _ _ _ _ _ _ HT HE H150') as Hj.
  set (Q := fun (r : ExecutionResult + txerror) s => match r with
    | inl r => 0 <= UsedGas r <= m_Gas msg /\ gp s = pool - UsedGas r /\ gas s = m_Gas msg - UsedGas r /\
        forall floor, r_IsPrague (chainRules E) = true -> FloorDataGas (m_Data msg) = inl floor -> floor <= UsedGas r
    | inr _ => gp s = pool \/ gp s = pool - m_Gas msg end).
  assert (wp (TransitionDb config E NoBaseFee jt spare msg fuel) Q (NewStateTransition e pool)) as Hw.
  2: { unfold wp, ApplyMessage in *. by destruct (TransitionDb _ _ _ _ _ _ _ _) as [[[r|err] s]| |]. }
  unfold TransitionDb. twp_step. eapply wp_mono; [by apply acceptMsg_spec|].
  intros [floor|err] s1 [W1 H1]; [|done]. destruct H1 as (Ep & Hp0 & Hg1 & Ei & Hfl & Hpr & Hnp).
  assert (0 <= floor) as Hfl0.
  { destruct (r_IsPrague (txRules config E)); [by eapply FloorDataGas_nonneg, Hpr|]. rewrite Hnp by done. lia. }
  twp_step. eapply wp_mono; [apply executeMsg_spec; [done|done|done|done|lia]|].
  intros [ret vmerr] s2 (W2 & Ep2 & Ei2 & Hg2). twp_step.
  eapply wp_mono; [apply (settleGas_spec _ _ _ Hg _ _ pool); try done; simpl in *; lia || congruence|].
  intros used s3 (Eu & Hu & Eg3 & Ep3 & W3). twp_step. unfold Q. simpl. split_and!; try done; try lia.
  intros fl Hpra Hfloor. rewrite Er in Hpra. rewrite (Hpr Hpra) in Hfloor. injection Hfloor as <-.
  rewrite Eu. unfold finalUsed. lia.
Qed.

(** C13: once the execution is over, settling returns (where the effective tip is
    defined: in a London block with a base fee that takes both fee caps), and the
    gas used is what was consumed less the refund, which is the refund counter
    capped by a fifth of the consumption (half before London), and at least the
    floor price; the rest goes back to the pool without overflowing it and is
    repaid to the sender at the price it was bought for, and the coinbase is paid
    the tip for what was used. *)
Theorem settleGas_used config E msg floor s pool tip :
  is_u64 (m_Gas msg) -> wf_db (db s) -> 0 <= gas s <= m_Gas msg -> initialGas s = m_Gas msg ->
  0 <= floor <= m_Gas msg -> is_u64 pool -> gp s = pool - m_Gas msg -> 0 <= gp s ->
  effectiveTip config E msg = Ok tip ->
  let used := finalUsed config E msg (gas s) (refund (db s)) floor in
  exists d s', settleGas config E msg floor s = Ok (used, s') /\
    0 <= used <= m_Gas msg /\ gas s' = m_Gas msg - used /\ gp s' = pool - used /\
    AddBalance (m_From msg) ((m_Gas msg - used) * m_GasPrice msg) (db s) = Ok (tt, d) /\
    AddBalance (Coinbase (Context_ E)) (used * tip) d = Ok (tt, db s').
Proof. intros. eapply settleGas_eq; eauto. Qed.
(** C38: with [NoBaseFee], no fees and a zero price, as in [eth_call], the fee checks
    are skipped, and settling leaves the coinbase (an account that exists) with
    a balance lower by the base fee for all the gas used. *)
Theorem free_call_charges_coinbase config E msg floor s pool baseFee b :
  IsLondon config (blockNumber E) = true -> bc_BaseFee (Context_ E) = Some baseFee -> 0 <= baseFee ->
  m_GasFeeCap msg = Some 0 -> m_GasTipCap msg = Some 0 -> m_GasPrice msg = 0 ->
  is_u64 (m_Gas msg) -> wf_db (db s) -> 0 <= gas s <= m_Gas msg -> initialGas s = m_Gas msg ->
  0 <= floor <= m_Gas msg -> is_u64 pool -> gp s = pool - m_Gas msg -> 0 <= gp s ->
  account_exists (db s) (Coinbase (Context_ E)) ->
  answer (GetBalance (Coinbase (Context_ E))) (db s) = Ok b ->
  checkFees true msg baseFee = Ok None /\
  exists s', settleGas config E msg floor s = Ok (finalUsed config E msg (gas s) (refund (db s)) floor, s') /\
    answer (GetBalance (Coinbase (Context_ E))) (db s') =
      Ok (b - finalUsed config E msg (gas s) (refund (db s)) floor * baseFee).
Proof.
  intros HL Eb Hb Ef Et Epr ? ? ? ? ? ? ? ? Hex Hbal. split.
  { unfold checkFees, capBitLen. rewrite Ef, Et. reflexivity. }
  assert (effectiveTip config E msg = Ok (- baseFee)) as Htip.
  { unfold effectiveTip, BigMin. rewrite HL, Eb, Ef, Et. f_equal. destruct (Z.ltb_spec (0 - baseFee) 0); lia. }
  edestruct (settleGas_eq config E msg) as (d & s' & Es & _ & _ & _ & E1 & E2); eauto.
  exists s'. split; [exact Es|]. rewrite Epr, Z.mul_0_r in E1. injection E1 as <-.
  edestruct AddBalance_reads as (d2 & Ed & Hr). rewrite E2 in Ed. injection Ed as <-. rewrite Hr, decide_True by done.
  rewrite GetBalance_held in Hbal. injection Hbal as <-. destruct Hex as [-> [acc ->]]. f_equal. lia.
Qed.
End Theorems.

(** ** The tip *)
Section Tip.
Variables (config : ChainConfig) (E : evmE) (NoBaseFee : bool) (msg : Message).

(** C17: the fees of a message that passes the EIP-1559 checks are in order: the
    coinbase gets at least nothing and at most the tip the sender allows, and
    base fee and tip together are within the fee cap. *)
Theorem effectiveTip_bounds baseFee feeCap tipCap tip :
  IsLondon config (blockNumber E) = true -> bc_BaseFee (Context_ E) = Some baseFee ->
  m_GasFeeCap msg = Some feeCap -> m_GasTipCap msg = Some tipCap -> 0 <= tipCap -> 0 < feeCap ->
  checkFees NoBaseFee msg baseFee = Ok None -> effectiveTip config E msg = Ok tip ->
  0 <= tip <= tipCap /\ baseFee + tip <= feeCap.
Proof.
  intros HL Eb Ef Et Ht Hf. unfold checkFees, capBitLen, effectiveTip, BigMin. rewrite HL, Eb, Ef, Et.
  cbn [from_option_panic mbind result_bind].
  assert ((0 <? big_BitLen feeCap) = true) as ->.
  { apply Z.ltb_lt. unfold big_BitLen. destruct (Z.eqb_spec feeCap 0); [lia|].
    pose proof (Z.log2_nonneg (Z.abs feeCap)). lia. }
  assert ((if negb NoBaseFee then Ok true else Ok true) = Ok true :> result bool) as -> by (by destruct NoBaseFee).
  cbn [negb]. destruct (256 <? _); [done|]. destruct (256 <? _); [done|].
  destruct (Z.ltb_spec feeCap tipCap); [done|]. destruct (Z.ltb_spec feeCap baseFee); [done|].
  intros _ [= <-]. destruct (Z.ltb_spec (feeCap - baseFee) tipCap); lia.
Qed.

End Tip.

(** ** Witnesses *)
Definition secp_demo : Secp256k1 := {| RecoverCompact _ _ := Some (4 :: zeros 64) |}.
(** A call of account 77 in the way of [eth_call]. *)
Definition demo_msg (fee : Z) : Message := {|
  m_From := 1; m_To := Some 77; m_GasPrice := fee; m_GasFeeCap := Some fee; m_GasTipCap := Some fee;
  m_Gas := 200000; m_Value := 0; m_Nonce := 0; m_CheckNonce := true; m_Data := [1; 0]; m_AccessList := [(77, [1])];
  m_AuthList := [{| auth_ChainID := 0; auth_Address := 5; auth_Nonce := 0; auth_V := 1; auth_R := 1; auth_S := 1 |}]
|}.
Definition demo_code : bytes := [0x60; 1; 0x60; 0; 0x55; 0x60; 0; 0x60; 0; 0x55].

Lemma ApplyMessage_gas_witness :
  match @ApplyMessage uint256_Z host_demo crypto_demo secp_demo demo_config demo_env true demo_table (fun _ _ => [])
          (demo_msg 0) (Z.to_nat 200001) (demo_evm demo_code) 30000000 with
  | Ok (inl r, s) =>
      0 <= UsedGas r <= 200000 /\ gp s = 30000000 - UsedGas r /\ gas s = 200000 - UsedGas r /\
      forall floor, r_IsPrague demo_rules = true -> FloorDataGas [1; 0] = inl floor -> floor <= UsedGas r
  | Ok (inr _, s) => gp s = 30000000 \/ gp s = 30000000 - 200000
  | Panic => True
  | OutOfFuel => False
  end.
Proof.
  apply (@ApplyMessage_gas uint256_Z uint256_Z_laws host_demo crypto_demo secp_demo demo_tables demo_tables' demo_block
    demo_tx demo_config (fun _ => false)).
  - exact demo_reachable.
  - unfold NewEVM. change (ChainConfig_Rules _ _ _ _) with demo_rules. change (DisableOpcodes demo_config) with (@nil Z).
    rewrite demo_table_eq. reflexivity.
  - reflexivity.
  - unfold is_u64, demo_msg, m_Gas. lia.
  - unfold demo_msg, m_Gas. rewrite Z2Nat.id; lia.
  - unfold is_u64. lia.
  - apply wf_demo.
Defined.

(** The call stores and clears a slot: 72532 gas less a refund capped at a fifth. *)
Example demo_run : exists s r,
  @ApplyMessage uint256_Z host_demo crypto_demo secp_demo demo_config demo_env true demo_table (fun _ _ => [])
    (demo_msg 0) 200 (demo_evm demo_code) 30000000 = Ok (inl r, s) /\ UsedGas r = 58026 /\ er_Err r = None.
Proof. eexists _, _. split; [vm_compute; reflexivity|]. vm_compute. split; reflexivity. Qed.

(** Account 1 cannot pay for the gas. *)
Lemma preCheck_rejects_witness :
  exists err s', let s := NewStateTransition (demo_evm []) 30000000 in
    @preCheck host_demo demo_config demo_env true (demo_msg 7) s = Ok (inr err, s') /\
    gp s' = gp s /\ gas s' = gas s /\ initialGas s' = initialGas s /\ @untouched host_demo (st_evm s) (st_evm s').
Proof.
  eexists _, _. split; [vm_compute; reflexivity|].
  refine (@preCheck_rejects host_demo demo_config demo_env true (demo_msg 7)
    (NewStateTransition (demo_evm []) 30000000) _ _ (wf_demo []) _).
  vm_compute. reflexivity.
Defined.

(** Half of 200000 gas is left, with a floor price of 60000. *)
Lemma settleGas_used_witness :
  let s := mkTransition 0 150000 200000 (demo_evm []) in
  let used := finalUsed demo_config demo_env (demo_msg 0) 150000 0 60000 in
  used = 60000 /\ exists d s', settleGas demo_config demo_env (demo_msg 0) 60000 s = Ok (used, s') /\
    0 <= used <= 200000 /\ gas s' = 200000 - used /\ gp s' = 200000 - used /\
    AddBalance 1 ((200000 - used) * 0) (db s) = Ok (tt, d) /\ AddBalance 0 (used * -7) d = Ok (tt, db s').
Proof.
  split; [vm_compute; reflexivity|].
  refine (@settleGas_used host_demo demo_config demo_env (demo_msg 0) 60000
    (mkTransition 0 150000 200000 (demo_evm [])) 200000 (-7) _ (wf_demo []) _ _ _ _ _ _ _);
    try (unfold is_u64, demo_msg, m_Gas, gas, gp; lia); reflexivity.
Defined.

(** The coinbase, account 0, is created first; its balance reads as 0. *)
Definition coinbase_db : stateDB :=
  match CreateAccount (H := host_demo) 0 (NewStateDB 1) with Ok (_, s) => s | _ => NewStateDB 1 end.
Lemma wf_coinbase : wf_db coinbase_db.
Proof.
  unfold coinbase_db. destruct (CreateAccount (H := host_demo) 0 (NewStateDB 1)) as [[u s]| |] eqn:Ec; try apply wf_NewStateDB.
  by destruct (ext_CreateAccount (H := host_demo) 0 _ _ _ Ec (wf_NewStateDB 1)) as [W _].
Qed.
Lemma free_call_charges_coinbase_witness :
  let s := mkTransition 0 150000 200000 (mkEvm coinbase_db 0 0 false [] ∅ 0) in
  checkFees true (demo_msg 0) 7 = Ok None /\
  exists s', settleGas demo_config demo_env (demo_msg 0) 60000 s = Ok (60000, s') /\
    answer (GetBalance (H := host_demo) 0) (db s') = Ok (0 - 60000 * 7).
Proof.
  refine (@free_call_charges_coinbase host_demo demo_config demo_env (demo_msg 0) 60000
    (mkTransition 0 150000 200000 (mkEvm coinbase_db 0 0 false [] ∅ 0)) 200000 7 0
    eq_refl eq_refl _ eq_refl eq_refl eq_refl _ wf_coinbase _ eq_refl _ _ _ _ _ _);
    try (unfold is_u64, demo_msg, m_Gas, gas, gp; lia).
  - vm_compute. split; [reflexivity|]. eexists. reflexivity.
  - vm_compute. reflexivity.
Defined.

Lemma effectiveTip_bounds_witness : 0 <= 3 <= 10 /\ 7 + 3 <= 10.
Proof.
  refine (effectiveTip_bounds demo_config demo_env false (demo_msg 10) 7 10 10 3 eq_refl eq_refl eq_refl eq_refl _ _ _ _);
    try lia; vm_compute; reflexivity.
Defined.
