(* ===== verification/StateProps.v ===== *)
(** What writes to the database do to later reads, where the two agree and
    where they do not. *)
From Stdlib Require Import ZArith Lia.
From stdpp Require Import base numbers list gmap.
From S2P Require Import Prelude U256 Math Params OpCodes Rlp Host AccessList State StateDB.
From S2P Require Import StateProofs Analysis Contract Precompiles Vm JumpTable Evm Demo.
Local Open Scope Z_scope.

Section Reads.
Context {H : Host}.

(** [m] then [n], reading the answer of [n]. *)
Definition answer_after {A B} (m : SDB A) (n : SDB B) (s : stateDB) : result B :=
  answer (_ ← m; n) s.

Lemma answer_after_write {B} a f (n : SDB B) s :
  answer_after (write_obj a f) n s =
    (let '(o, e) := f (obj s a) in
     answer n (set_journal (set_state s (<[a := o]> (state s))) (journal s ++ [e]))).
Proof.
  unfold answer_after, answer, mbind, ST_bind. rewrite write_obj_eq. by destruct (f (obj s a)).
Qed.

Lemma obj_write s a o j b : obj (set_journal (set_state s (<[a := o]> (state s))) j) b = if decide (a = b) then o else obj s b.
Proof. apply obj_set. Qed.

(** C24: a storage slot reads back what was last stored in it, and storing
    changes no other slot of any account (two slots are the same when their
    hashed keys are). *)
Theorem SetState_GetState a k v b k' s :
  answer_after (SetState a k v) (GetState b k') s =
    if decide (a = b /\ slotKey k = slotKey k') then Ok v else answer (GetState b k') s.
Proof.
  unfold SetState. rewrite answer_after_write. unfold setState.
  set (o := set_dirty (obj s a) (<[slotKey k := v]> (dirty (obj s a)))).
  assert (forall e, answer (GetState b k') (set_journal (set_state s (<[a := o]> (state s))) e) =
    if decide (a = b /\ slotKey k = slotKey k') then Ok v else answer (GetState b k') s) as He.
  { intros e. rewrite !GetState_held, obj_write. simpl. destruct (decide (a = b)) as [<-|Hab].
    - simpl. case_decide as Hk; [destruct Hk as [_ <-]; by rewrite lookup_insert_eq|].
      rewrite lookup_insert_ne by naive_solver. done.
    - rewrite decide_False by naive_solver. done. }
  destruct (dirty (obj s a) !! slotKey k); apply He.
Qed.

(** C25: a nonce reads back what was last set, and no other nonce changes. *)
Theorem SetNonce_GetNonce a n b s :
  answer_after (SetNonce a n) (GetNonce b) s = if decide (a = b) then Ok n else answer (GetNonce b) s.
Proof.
  unfold SetNonce. rewrite answer_after_write. simpl. rewrite !GetNonce_held, obj_write.
  by case_decide; [subst|].
Qed.

(** C26: crediting an account that exists adds to its balance and changes no
    other; crediting an account that is in neither the cache nor the storage is
    lost to reads: its balance still reads as zero. *)
Theorem AddBalance_GetBalance a n b s : n <> 0 ->
  answer_after (AddBalance a n) (GetBalance b) s =
    if decide (a = b)
    then Ok (match (if deleted (obj s a) then None else eff_account (chainid s) (obj s a)) with
             | Some _ => held_balance (chainid s) (obj s a) + n
             | None => 0
             end)
    else answer (GetBalance b) s.
Proof.
  intros _. destruct (AddBalance_reads a n s) as (s' & Es & Hr).
  unfold answer_after, mbind, ST_bind. rewrite <- Hr. unfold answer. by rewrite Es.
Qed.

(** C34: code that is stored reads back, but the hash of an account that is
    already loaded does not follow: it stays the hash of the loaded account. *)
Theorem SetCode_GetCodeHash a c s acc :
  account (obj s a) = Some acc -> deleted (obj s a) = false ->
  answer_after (SetCode a c) (GetCode a) s = Ok c /\
  answer_after (SetCode a c) (GetCodeHash a) s = Ok (bytesToHash (Rlp.CodeHash acc)).
Proof.
  intros Ha Hd. unfold SetCode. rewrite !answer_after_write. simpl. split.
  - rewrite GetCode_held, obj_write, decide_True by done. unfold held_code, eff_code. simpl. by rewrite Hd, hashed_code.
  - unfold GetCodeHash. rewrite answer_read, obj_write, decide_True by done. unfold getCodeHash. simpl. by rewrite Ha.
Qed.

Lemma read_obj_eq {A} a (f : Z -> stateObject -> A * stateObject) s :
  read_obj a f s = Ok (fst (f (chainid s) (obj s a)),
    set_state s (<[a := snd (f (chainid s) (obj s a))]> (state s))).
Proof.
  destruct (read_obj a f s) as [[x s']| |] eqn:E.
  - by apply read_obj_inv in E as [-> ->].
  - pose proof (answer_read a f s) as Ha. unfold answer in Ha. by rewrite E in Ha.
  - pose proof (answer_read a f s) as Ha. unfold answer in Ha. by rewrite E in Ha.
Qed.

(** C39: reads do not all survive a revert: for an account in storage that is not
    loaded, the hash of new code answers until anything loads the account; that
    is not undone, so a snapshot, a read of the balance and a revert change the
    answer to the hash in storage. *)
Theorem GetCodeHash_not_restored a code acc s s1 :
  wf_db s -> account (obj s a) = None -> deleted (obj s a) = false -> storedAccount (chainid s) a = Some acc ->
  SetCode a code s = Ok (tt, s1) ->
  answer (GetCodeHash a) s1 = Ok (Keccak256Hash [code]) /\
  exists s2, (snap ← Snapshot; _ ← GetBalance a; RevertToSnapshot snap) s1 = Ok (tt, s2) /\
    journal s2 = journal s1 /\ answer (GetCodeHash a) s2 = Ok (bytesToHash (Rlp.CodeHash acc)).
Proof.
  intros W Ha Hd Hs. unfold SetCode. rewrite write_obj_eq. intros [= <-]. split.
  - unfold GetCodeHash. rewrite answer_read, getCodeHash_held, obj_write, decide_True by done.
    unfold held_hash, eff_code, setCode. simpl. rewrite Ha, Hd. simpl. unfold hashed, codeEntry_getHash. simpl.
    by destruct (Z.eqb_spec (Keccak256Hash [code]) 0).
  - set (s1 := set_journal _ _). assert (obj s1 a = set_code (obj s a) (Some (mkCode code (Keccak256Hash [code])))) as Eo.
    { unfold s1. by rewrite obj_write, decide_True. }
    assert (eff_account (chainid s1) (obj s1 a) = Some acc) as Ee.
    { rewrite Eo. unfold eff_account. simpl. by rewrite Hd, Ha, (obj_address s a W). }
    unfold mbind, ST_bind, Snapshot, st_gets. unfold GetBalance. rewrite read_obj_eq, loadAccount_cases.
    rewrite Ee, Eo. cbn [deleted set_code]. rewrite Hd. cbn [fst snd]. unfold RevertToSnapshot.
    cbn [journal set_state]. pose proof (zlen_nonneg (journal s1)).
    assert ((0 <=? zlen (journal s1)) && (zlen (journal s1) <=? zlen (journal s1)) = true) as -> by lia.
    unfold zlen. rewrite Nat2Z.id, drop_all. cbn [undo mbind result_bind]. rewrite firstn_all.
    eexists. split_and!; [reflexivity|done|]. unfold GetCodeHash. rewrite answer_read, getCodeHash_held.
    change (obj (set_journal ?x ?y) a) with (obj x a). rewrite obj_set, decide_True by done. reflexivity.
Qed.
End Reads.

Lemma AddBalance_GetBalance_witness :
  answer_after (@AddBalance 5 7) (@GetBalance host_demo 5) (NewStateDB 1) = Ok 0.
Proof. refine (@AddBalance_GetBalance host_demo 5 7 5 (NewStateDB 1) _). discriminate. Defined.

(** A database in which account 5 has just been created. *)
Definition created_db : stateDB :=
  match CreateAccount (H := host_demo) 5 (NewStateDB 1) with Ok (_, s) => s | _ => NewStateDB 1 end.
Lemma SetCode_GetCodeHash_witness :
  answer_after (@SetCode host_demo 5 [1; 2]) (@GetCode host_demo 5) created_db = Ok [1; 2] /\
  answer_after (@SetCode host_demo 5 [1; 2]) (@GetCodeHash host_demo 5) created_db = Ok 0.
Proof. apply (@SetCode_GetCodeHash host_demo 5 [1; 2] created_db Account_zero); vm_compute; reflexivity. Defined.

(** ** A stale hash and the shared jump analysis

    Two accounts in storage without code get code (as [StateOverride.Apply]
    gives it).  Both keep the empty code's hash, under which the analysis of the
    first is found when the second, longer one jumps. *)
Definition host_hash : Host := {|
  keccak b := u256 (be_val b + 1);
  tx_get _ := None;
  bytesToHash b := u256 (be_val b)
|}.
Definition host_accounts : Host := {|
  keccak := @keccak host_hash;
  tx_get k :=
    if bool_decide (k = @AccountData host_hash 1 (Address_Bytes 77) \/ k = @AccountData host_hash 1 (Address_Bytes 78)) then
      match EncodeAccount (mkAccount 1 (Some 5) (be_bytes 32 7) (be_bytes 32 1)) with
      | Ok (Val b) => Some b
      | _ => None
      end
    else None;
  bytesToHash b := u256 (be_val b)
|}.
(** Jump over nothing, then CALL 78 with 65535 gas. *)
Definition caller_code : bytes :=
  [PUSH1; 3; JUMP; JUMPDEST; PUSH1; 0; PUSH1; 0; PUSH1; 0; PUSH1; 0; PUSH1; 0; PUSH1; 78; PUSH2; 255; 255; CALL].
(** Jump to a JUMPDEST at 100. *)
Definition callee_code : bytes := [PUSH1; 100; JUMP] ++ zeros 97 ++ [JUMPDEST].

Definition overridden : evmS :=
  match (_ ← @SetCode host_accounts 77 caller_code; @SetCode host_accounts 78 callee_code) (NewStateDB 1) with
  | Ok (_, s) => mkEvm s 0 0 false [] ∅ 0
  | _ => demo_evm []
  end.

(** C35: a contract whose code hash already has an analysis checks its jumps in
    that analysis, whatever code it runs: with the analysis of [other] code
    under its hash, a JUMPDEST of its own within the length of the other code is
    accepted exactly where an instruction of the other code starts, and one
    beyond the other bitmap is an index out of range. *)
Theorem shared_analysis {U : Uint256} {UL : Uint256Laws} c jd other bits dest :
  wf_bytes other -> codeBitmap other = Ok bits ->
  analysis c = None -> Contract.CodeHash c <> 0 -> jd !! Contract.CodeHash c = Some bits ->
  0 <= dest < zlen (Code c) -> zlen (Code c) < 2 ^ 63 -> Code c !! Z.to_nat dest = Some JUMPDEST ->
  (dest < zlen other -> exists b c', validJumpdest c jd dest = Ok (b, c', jd) /\ (b = true <-> instr_start other dest)) /\
  (8 * zlen bits <= dest -> validJumpdest c jd dest = Panic).
Proof.
  intros Hw Hb Ha Hh Hj Hd Hl Hop. destruct (codeBitmap_ok other Hw) as (bits' & Hb' & Hz & Hbit).
  rewrite Hb in Hb'. injection Hb' as <-.
  assert (validJumpdest c jd dest =
    (b ← codeSegment bits dest; Ok (b, Contract.set_analysis c (Some bits), jd))) as Hv.
  { unfold validJumpdest. rewrite law_Uint64WithOverflow by (unfold is_u256; lia).
    destruct (Z.ltb_spec dest (2 ^ 64)); [|lia]. rewrite u64_id by (unfold is_u64; lia). cbn [negb orb].
    destruct (Z.leb_spec (zlen (Code c)) dest); [lia|].
    destruct (index_ok (Code c) dest) as (op & -> & Ho); [lia|]. rewrite Hop in Ho. injection Ho as <-.
    cbn [mbind result_bind]. rewrite Z.eqb_refl. cbn [negb]. unfold isCode. rewrite Ha.
    destruct (Z.eqb_spec (Contract.CodeHash c) 0); [done|]. cbn [negb]. by rewrite Hj. }
  rewrite Hv. split; intros Hdest.
  - rewrite codeSegment_ok by lia. do 2 eexists. split; [reflexivity|]. rewrite negb_true_iff. apply Hbit. lia.
  - unfold codeSegment, index. destruct (Z.ltb_spec (dest / 8) (zlen bits)); [zmod|]. by rewrite andb_false_r.
Qed.

(** The two programs below, under one hash. *)
Lemma shared_analysis_witness :
  let c := SetCallCode (demo_contract callee_code 0) None 1 callee_code in
  exists bits, codeBitmap caller_code = Ok bits /\
    (100 < zlen caller_code -> exists b c', validJumpdest c {[ 1 := bits ]} 100 = Ok (b, c', {[ 1 := bits ]}) /\
       (b = true <-> instr_start caller_code 100)) /\
    (8 * zlen bits <= 100 -> validJumpdest c {[ 1 := bits ]} 100 = Panic).
Proof.
  eexists. split; [vm_compute; reflexivity|].
  refine (@shared_analysis uint256_Z uint256_Z_laws (SetCallCode (demo_contract callee_code 0) None 1 callee_code)
    _ caller_code _ 100 _ _ _ _ _ _ _ _).
  - unfold caller_code. repeat (apply Forall_cons; split; [vm_compute; split; [discriminate|reflexivity]|]). apply Forall_nil. done.
  - vm_compute. reflexivity.
  - reflexivity.
  - discriminate.
  - reflexivity.
  - vm_compute. split; [discriminate|reflexivity].
  - reflexivity.
  - reflexivity.
Defined.

(** The hash of stored code, before and after the account is loaded. *)
Lemma GetCodeHash_not_restored_witness :
  exists s1, @SetCode host_accounts 77 [1; 2] (NewStateDB 1) = Ok (tt, s1) /\
    answer (@GetCodeHash host_accounts 77) s1 = Ok 259 /\
    exists s2, (snap ← Snapshot; _ ← @GetBalance host_accounts 77; RevertToSnapshot snap) s1 = Ok (tt, s2) /\
      journal s2 = journal s1 /\ answer (@GetCodeHash host_accounts 77) s2 = Ok 1.
Proof.
  eexists. split; [vm_compute; reflexivity|].
  refine (@GetCodeHash_not_restored host_accounts 77 [1; 2] (mkAccount 1 (Some 5) (be_bytes 32 7) (be_bytes 32 1))
    (NewStateDB 1) _ (wf_NewStateDB 1) _ _ _ _); vm_compute; reflexivity.
Defined.

(** With the two programs put over two stored accounts that had no code, both
    are looked up under the hash in storage: a call from the first to the
    second panics, though each of them runs on its own. *)
Example shared_analysis_run :
  let run addr := @EVM_Call uint256_Z host_accounts crypto_demo demo_env demo_table 200 (AccountRef 1) addr [] 100000 0
                    overridden in
  run 77 = Panic /\ exists left_ e, run 78 = Ok (([], left_, None), e).
Proof. split; [vm_compute; reflexivity|]. eexists _, _. vm_compute. reflexivity. Qed.
