(* ===== verification/MachineProps.v ===== *)
(** Further theorems on the machine: the tables of the interpreter, the checks
    on created code, the extra EIPs of a configuration, and static calls of
    delegated accounts. *)
From Stdlib Require Import ZArith Lia.
From stdpp Require Import base numbers list gmap.
From S2P Require Import Prelude U256 Math Params OpCodes Host AccessList State StateDB StateProofs.
From S2P Require Import Stack Memory Contract VmErrors Precompiles Vm Gas Instr JumpTable Evm Demo.
From S2P Require Import VmLogic InstrProofs GasProofs EvmProofs Atomicity.
Local Open Scope Z_scope.

(** ** The instruction tables *)

Section Charges.
Context {U : Uint256} {UL : Uint256Laws} {H : Host} {C : Crypto}.

Lemma run_ok_le run n m : run_ok run n -> m <= n -> run_ok run m.
Proof. intros Hr Hm c i ro e Hg. apply Hr. lia. Qed.

(** C11: in the tables an interpreter gets (256 entries, whatever opcodes are
    disabled, under any fork rules that do not have Berlin without EIP-150, and
    without extra EIPs), one iteration of the loop either ends the frame or
    costs gas: what is left is strictly less, the stack is still one of 256-bit
    words, and the memory has whole words whose quadratic price has been paid.
    Nested calls are included, with fuel for the gas of the frame. *)
Theorem step_charges_gas E T disabled T' jt fuel v :
  reachable_tables T -> NewEVMInterpreter T (chainRules E) disabled [] = Ok (T', (jt, [])) ->
  eip150_before_berlin (chainRules E) ->
  wf_stack (f_stack (fr v)) -> mem_ok (f_mem (fr v)) ->
  is_u64 (Gas (f_contract (fr v))) -> Gas (f_contract (fr v)) <= Z.of_nat fuel ->
  length jt = 256%nat /\
  match step E jt (calls E (Run E jt fuel)) v with
  | Ok (next, v') =>
      0 <= Gas (f_contract (fr v')) <= Gas (f_contract (fr v)) /\
      (next = None -> Gas (f_contract (fr v')) < Gas (f_contract (fr v)) /\
         wf_stack (f_stack (fr v')) /\ mem_ok (f_mem (fr v')))
  | Panic => True
  | OutOfFuel => False
  end.
Proof.
  intros HT Hn Hb W M G Hf. destruct (interpreter_table _ _ _ _ _ HT Hn) as [[Hl _ _] Hj].
  split; [exact Hl|]. specialize (Hj Hb).
  assert (frame_ok v) as Hv by (split; [exact W|exact M|exact G]).
  assert (calls_ok (calls E (Run E jt fuel)) (gas_of v)) as HK.
  { apply calls_spec. eapply run_ok_le; [apply Run_spec, Hj|]. unfold is_u64 in G. lia. }
  pose proof (step_spec E jt _ v Hj Hv HK) as Hs. unfold wp in Hs.
  destruct (step E jt _ v) as [[next v']| |]; try done. destruct Hs as [Hg Hnext]. split; [exact Hg|].
  intros Hx. destruct (Hnext Hx) as [Hlt [W' M' _]]. done.
Qed.
End Charges.

Definition charge_frame : frame :=
  mkFrame 0 [2; 3] NewMemory (SetCallCode (fst (NewContract (AccountRef 1) (AccountRef 2) None 10)) None 0 [ADD]).
(** An addition. *)
Lemma step_charges_gas_witness :
  length demo_table = 256%nat /\
  match @step uint256_Z host_demo demo_env demo_table
          (@calls uint256_Z host_demo crypto_demo demo_env (@Run uint256_Z host_demo crypto_demo demo_env demo_table 10))
          (mkV (demo_evm []) charge_frame) with
  | Ok (next, v') =>
      0 <= Gas (f_contract (fr v')) <= 10 /\
      (next = None -> Gas (f_contract (fr v')) < 10 /\ wf_stack (f_stack (fr v')) /\ mem_ok (f_mem (fr v')))
  | Panic => True
  | OutOfFuel => False
  end.
Proof.
  apply (@step_charges_gas uint256_Z uint256_Z_laws host_demo crypto_demo demo_env demo_tables [] demo_tables' demo_table 10
    (mkV (demo_evm []) charge_frame)).
  - exact demo_reachable.
  - exact demo_table_eq.
  - intros _. reflexivity.
  - repeat constructor; unfold is_u256; lia.
  - exact mem_ok_new.
  - unfold is_u64. simpl. lia.
  - simpl. lia.
Defined.

(** ** The shared tables *)

Lemma disableOpcodes_total ops jt :
  length (jt : list operation) = 256%nat -> Forall (fun op => 0 <= op < 256) ops ->
  exists jt', disableOpcodes ops jt = Ok jt' /\ length (jt' : list operation) = 256%nat.
Proof.
  revert jt. induction ops as [|op ops IH]; intros jt Hl Hops; cbn [disableOpcodes]; [by exists jt|].
  apply Forall_cons in Hops as [Hop Hops]. cbv beta in Hop. unfold set_index.
  assert (zlen jt = 256) as Hz by (unfold zlen; by rewrite Hl).
  assert ((0 <=? op) && (op <? zlen jt) = true) as -> by (apply andb_true_iff; lia).
  cbn [mbind result_bind]. apply IH; [|done]. etransitivity; [apply length_insert|done].
Qed.

Lemma disableOpcodes_kept ops (jt jt' : list operation) (i : nat) :
  disableOpcodes ops jt = Ok jt' ->
  (In (Z.of_nat i) ops -> jt' !! i = Some undefinedOp) /\
  (jt !! i = Some undefinedOp -> jt' !! i = Some undefinedOp).
Proof.
  revert jt. induction ops as [|op ops IH]; intros jt; cbn [disableOpcodes]; [by intros [= <-]|].
  destruct (set_index jt op undefinedOp) as [jt1| |] eqn:Es; try done. cbn [mbind result_bind]. intros Hd.
  apply set_index_inv in Es as [Hop ->]. destruct (IH _ Hd) as [H1 H2].
  assert (Z.to_nat op = i -> jt' !! i = Some undefinedOp) as Hi.
  { intros <-. apply H2. apply (list_lookup_insert_eq jt). unfold zlen in Hop. lia. }
  split.
  - intros [->|Hin]; [|by apply H1]. apply Hi. by rewrite Nat2Z.id.
  - intros Hu. destruct (decide (Z.to_nat op = i)) as [E|E]; [by apply Hi|]. apply H2.
    by rewrite (list_lookup_insert_ne jt).
Qed.

Lemma set_table_ne T f g jt : g <> f -> set_table T f jt g = T g.
Proof. intros Hg. unfold set_table. by rewrite decide_False. Qed.

Lemma NewEVMInterpreter_inv T r disabled eips T' cfg :
  NewEVMInterpreter T r disabled eips = Ok (T', cfg) ->
  exists jt0, disableOpcodes disabled jt0 = Ok (T' (selectInstructionSet r)) /\
    (forall f, f <> selectInstructionSet r -> T' f = T f) /\
    (forall i, Z.of_nat i <> RANDOM -> (jt0 : list operation) !! i = (T (selectInstructionSet r) : list operation) !! i).
Proof.
  unfold NewEVMInterpreter. set (f := selectInstructionSet r). destruct (r_IsShanghai r && negb (r_IsMerge r)).
  - destruct (jt_get (T F_frontier) DIFFICULTY) as [d| |]; try done. cbn [mbind result_bind].
    destruct (set_index (T f) RANDOM d) as [j| |] eqn:Es; try done. cbn [mbind result_bind]. rewrite set_table_eq.
    destruct (disableOpcodes disabled j) as [jt1| |] eqn:Ed; try done. cbn [mbind result_bind].
    destruct (extraEips _ _ _ _ _); try done. cbn [mbind result_bind]. intros [= <- _]. exists j.
    rewrite set_table_eq. split_and!; [done|by intros g Hg; rewrite !set_table_ne|].
    intros i Hi. apply set_index_inv in Es as [_ ->]. apply (list_lookup_insert_ne (T f : list operation)). unfold RANDOM in *. lia.
  - cbn [mbind result_bind]. destruct (disableOpcodes disabled (T f)) as [jt1| |] eqn:Ed; try done.
    cbn [mbind result_bind]. destruct (extraEips _ _ _ _ _); try done. cbn [mbind result_bind]. intros [= <- _].
    exists (T f). rewrite set_table_eq. split_and!; [done|by intros g Hg; rewrite set_table_ne|done].
Qed.

(** The entry of [op] in the table [f] has been overwritten. *)
Definition disabled_in (f : fork) (op : Z) (T : Tables) : Prop :=
  0 <= op < 256 /\ (T f : list operation) !! Z.to_nat op = Some undefinedOp.

Lemma disableOpcodes_range ops jt jt' op :
  disableOpcodes ops jt = Ok jt' -> In op ops -> 0 <= op.
Proof.
  revert jt. induction ops as [|x l IH]; intros jt Ed Hin; [done|]. cbn [disableOpcodes] in Ed.
  destruct (set_index jt x undefinedOp) as [j1| |] eqn:Es; try done.
  cbn [mbind result_bind] in Ed. apply set_index_inv in Es as [? _]. destruct Hin as [->|Hin]; [lia|by eapply IH].
Qed.

Lemma NewEVMInterpreter_disables T r disabled eips T' cfg op :
  reachable_tables T -> NewEVMInterpreter T r disabled eips = Ok (T', cfg) -> In op disabled ->
  disabled_in (selectInstructionSet r) op T'.
Proof.
  intros HT Hn Hin. assert (reachable_tables T') as HT'%reachable_tables_ok by (by eapply reachable_new).
  apply NewEVMInterpreter_inv in Hn as (jt0 & Hd & _). pose proof (disableOpcodes_range _ _ _ _ Hd Hin) as H0.
  destruct (disableOpcodes_kept _ _ _ (Z.to_nat op) Hd) as [Hk _]. rewrite Z2Nat.id in Hk by done.
  specialize (Hk Hin). split; [|done]. apply lookup_lt_Some in Hk. rewrite (table_length _ _ (HT' _)) in Hk. lia.
Qed.

Lemma NewEVMInterpreter_keeps T r disabled eips T' cfg f op :
  NewEVMInterpreter T r disabled eips = Ok (T', cfg) -> op <> RANDOM -> disabled_in f op T -> disabled_in f op T'.
Proof.
  intros (jt0 & Hd & Ho & Hr)%NewEVMInterpreter_inv Hop [H0 Hu]. split; [done|].
  destruct (decide (f = selectInstructionSet r)) as [->|Hf]; [|by rewrite Ho].
  apply (proj2 (disableOpcodes_kept _ _ _ (Z.to_nat op) Hd)). rewrite Hr; [exact Hu|]. rewrite Z2Nat.id; [done|lia].
Qed.

(** The interpreters built between two states of the tables. *)
Definition built (T T' : Tables) : Prop :=
  exists r disabled eips cfg, NewEVMInterpreter T r disabled eips = Ok (T', cfg).

Lemma NewEVMInterpreter_total T r disabled :
  reachable_tables T -> Forall (fun op => 0 <= op < 256) disabled ->
  exists T' jt, NewEVMInterpreter T r disabled [] = Ok (T', (jt, [])) /\ T' (selectInstructionSet r) = jt.
Proof.
  intros HT%reachable_tables_ok Hd. unfold NewEVMInterpreter. set (f := selectInstructionSet r).
  assert (forall T1, length (T1 f : list operation) = 256%nat ->
    exists T' jt, (jt ← disableOpcodes disabled (T1 f);
      cfg ← extraEips (length (@nil Z)) 0 [] (zlen (@nil Z)) jt; Ok (set_table T1 f jt, cfg))
      = Ok (T', (jt, [])) /\ T' f = jt) as Htail.
  { intros T1 Hl. destruct (disableOpcodes_total disabled (T1 f) Hl Hd) as (jt & -> & _).
    cbn [mbind result_bind extraEips length]. do 2 eexists. split; [reflexivity|]. apply set_table_eq. }
  pose proof (fun g => table_length _ _ (HT g)) as Hlen. destruct (r_IsShanghai r && negb (r_IsMerge r)).
  - destruct (index_ok (T F_frontier : list operation) DIFFICULTY) as (d & Ed & _).
    { unfold zlen. by rewrite Hlen. }
    unfold jt_get. rewrite Ed. cbn [mbind result_bind]. rewrite (set_index_ok (T f : list operation)).
    2: { unfold zlen. by rewrite Hlen. }
    cbn [mbind result_bind]. apply (Htail (set_table T f _)). rewrite set_table_eq.
    etransitivity; [apply length_insert|apply Hlen].
  - apply (Htail T), Hlen.
Qed.

(** C40: an opcode that one configuration disables stays disabled: after any
    further interpreters have been built, the next one (without extra EIPs, and
    disabling any opcodes in range) for rules with the same table has it
    undefined, because the entry was overwritten in the shared table of the
    fork.  (RANDOM may be written again.) *)
Theorem disabled_opcode_leaks T r disabled eips T1 cfg T2 r2 disabled2 op :
  reachable_tables T -> NewEVMInterpreter T r disabled eips = Ok (T1, cfg) -> In op disabled -> op <> RANDOM ->
  rtc built T1 T2 -> selectInstructionSet r2 = selectInstructionSet r ->
  Forall (fun o => 0 <= o < 256) disabled2 ->
  exists T3 jt, NewEVMInterpreter T2 r2 disabled2 [] = Ok (T3, (jt, [])) /\ jt_get jt op = Ok undefinedOp.
Proof.
  intros HT Hn Hin Hop Hb Hsel Hd2. pose proof (NewEVMInterpreter_disables _ _ _ _ _ _ _ HT Hn Hin) as Hdis.
  assert (reachable_tables T1) as HT1 by (by eapply reachable_new). clear HT Hn Hin.
  assert (reachable_tables T2 /\ disabled_in (selectInstructionSet r) op T2) as [HT2 Hdis2].
  { induction Hb as [|T1 Ta T2 (rb & db & eb & cb & Hn) _ IH]; [done|].
    apply IH; [by eapply NewEVMInterpreter_keeps|by eapply reachable_new]. }
  destruct (NewEVMInterpreter_total T2 r2 disabled2 HT2 Hd2) as (T3 & jt & Hn & <-).
  exists T3, (T3 (selectInstructionSet r2)). split; [done|].
  destruct (NewEVMInterpreter_keeps _ _ _ _ _ _ _ _ Hn Hop Hdis2) as [Hr Hu]. rewrite Hsel. unfold jt_get, index.
  apply lookup_lt_Some in Hu as Hl.
  assert ((0 <=? op) && (op <? zlen (T3 (selectInstructionSet r) : list operation)) = true) as ->
    by (apply andb_true_iff; unfold zlen; lia).
  change (from_option_panic ((T3 (selectInstructionSet r) : list operation) !! Z.to_nat op) = Ok undefinedOp).
  by rewrite Hu.
Qed.

(** PUSH0 is disabled for one chain, and missing for the next. *)
Definition leak_tables : Tables :=
  match NewEVMInterpreter demo_tables demo_rules [PUSH0] [] with Ok (T, _) => T | _ => fun _ => [] end.
Definition leak_cfg : JumpTable * list Z :=
  match NewEVMInterpreter demo_tables demo_rules [PUSH0] [] with Ok (_, cfg) => cfg | _ => ([], []) end.
Lemma leak_eq : NewEVMInterpreter demo_tables demo_rules [PUSH0] [] = Ok (leak_tables, leak_cfg).
Proof.
  unfold leak_tables, leak_cfg.
  assert (match NewEVMInterpreter demo_tables demo_rules [PUSH0] [] with Ok _ => true | _ => false end = true)
    as Hc by (vm_compute; reflexivity).
  by destruct (NewEVMInterpreter demo_tables demo_rules [PUSH0] []) as [[T cfg]| |].
Qed.
Lemma disabled_opcode_leaks_witness :
  exists T3 jt, NewEVMInterpreter leak_tables demo_rules [ADD] [] = Ok (T3, (jt, [])) /\ jt_get jt PUSH0 = Ok undefinedOp.
Proof.
  apply (disabled_opcode_leaks demo_tables demo_rules [PUSH0] [] leak_tables leak_cfg leak_tables demo_rules [ADD] PUSH0).
  - exact demo_reachable.
  - exact leak_eq.
  - left. reflexivity.
  - discriminate.
  - apply rtc_refl.
  - reflexivity.
  - apply Forall_singleton. unfold ADD. lia.
Defined.

(** ** The checks on created code *)

(** C32: the code a creation returned is accepted exactly when it has at most
    24576 bytes (once EIP-158 is active) and does not start with 0xEF (once
    London is): the larger limit of PIP-30 never applies. *)
Theorem checkCode_accepts E ret :
  checkCode E ret None = None <->
  (r_IsEIP158 (chainRules E) = true -> zlen ret <= 24576) /\
  (r_IsLondon (chainRules E) = true -> head ret <> Some 0xEF).
Proof.
  unfold checkCode. cbv zeta. set (err := if r_IsEIP158 _ then _ else _).
  assert (err = None <-> (r_IsEIP158 (chainRules E) = true -> zlen ret <= 24576)) as Hs.
  { unfold err, MaxCodeSizePIP30, MaxCodeSize. destruct (r_IsEIP158 _); [|by split].
    destruct (Z.ltb_spec 32768 (zlen ret)), (Z.ltb_spec 24576 (zlen ret)), (r_IsPip30 _); cbn [andb];
      (split; [intros Hx; try done; intros _; lia|intros Hx; specialize (Hx eq_refl); try done; lia]). }
  assert ((1 <=? zlen ret) && bool_decide (head ret = Some 0xEF) = bool_decide (head ret = Some 0xEF)) as Hh.
  { destruct ret as [|b l]; [done|]. rewrite zlen_cons. pose proof (zlen_nonneg l).
    by destruct (Z.leb_spec 1 (zlen l + 1)); [|lia]. }
  destruct err as [e|]; [split; [done|intros [Hx _]; by apply Hs in Hx]|].
  rewrite Hh. destruct (r_IsLondon _); rewrite ?andb_true_r, ?andb_false_r.
  - case_bool_decide as Hd; (split; [intros Hx|intros [_ Hx]]); try done.
    + by destruct (Hx eq_refl).
    + split; [by apply Hs|done].
  - split; [|done]. intros _. split; [by apply Hs|done].
Qed.

(** ** Extra EIPs *)

Definition enable (jt : JumpTable) (eip : Z) : JumpTable := fst (EnableEIP eip jt).
Lemma EnableEIP_known eip jt : ValidEip eip = true -> EnableEIP eip jt = (enable jt eip, true).
Proof. unfold enable, EnableEIP, ValidEip. by destruct (activator eip). Qed.
Lemma EnableEIP_unknown eip jt : ValidEip eip = false -> EnableEIP eip jt = (jt, false).
Proof. unfold EnableEIP, ValidEip. by destruct (activator eip). Qed.

(** The loop over known EIPs [todo] that stand at their place in the array. *)
Lemma extraEips_run n done todo rest len jt :
  Forall (fun eip => ValidEip eip = true) todo ->
  extraEips (length todo + n) (zlen done) (done ++ todo ++ rest) len jt =
    extraEips n (zlen (done ++ todo)) (done ++ todo ++ rest) len (fold_left enable todo jt).
Proof.
  revert done jt. induction todo as [|eip todo IH]; intros done jt Hv; [by rewrite app_nil_r|].
  apply Forall_cons in Hv as [Hk Hv]. cbn [length Nat.add extraEips fold_left].
  destruct (index_ok (done ++ (eip :: todo) ++ rest) (zlen done)) as (x & -> & Hl).
  { rewrite zlen_app. cbn [app]. rewrite zlen_cons. pose proof (zlen_nonneg (todo ++ rest)). pose proof (zlen_nonneg done). lia. }
  assert (x = eip) as ->.
  { unfold zlen in Hl. rewrite Nat2Z.id in Hl. cbn [app] in Hl. rewrite list_lookup_middle in Hl by done. by injection Hl. }
  cbn [mbind result_bind]. rewrite EnableEIP_known by done.
  replace (zlen done + 1) with (zlen (done ++ [eip])) by (by rewrite zlen_app).
  replace (done ++ (eip :: todo) ++ rest) with ((done ++ [eip]) ++ todo ++ rest) by (by rewrite <- app_assoc).
  rewrite IH by done. by rewrite <- app_assoc.
Qed.

(** The unknown EIP at the head of what is left of the slice is cut out: the
    rest of the slice moves down by one, over the array. *)
Lemma extraEips_cut n done u todo jt :
  ValidEip u = false ->
  extraEips (S n) (zlen done) (done ++ u :: todo) (zlen (done ++ u :: todo)) jt =
    extraEips n (zlen done + 1) (done ++ todo ++ [List.last todo u]) (zlen (done ++ todo)) jt.
Proof.
  intros Hu. pose proof (zlen_nonneg done). pose proof (zlen_nonneg todo). cbn [extraEips].
  destruct (index_ok (done ++ u :: todo) (zlen done)) as (x & -> & Hl).
  { rewrite zlen_app, zlen_cons. lia. }
  assert (x = u) as ->.
  { unfold zlen in Hl. rewrite Nat2Z.id, list_lookup_middle in Hl by done. by injection Hl. }
  cbn [mbind result_bind]. rewrite EnableEIP_unknown by done.
  rewrite (firstn_all2 (done ++ u :: todo)) by (unfold zlen; lia). unfold slice.
  assert ((0 <=? zlen done + 1) && (zlen done + 1 <=? zlen (done ++ u :: todo)) &&
    (zlen (done ++ u :: todo) <=? zlen (done ++ u :: todo)) = true) as ->.
  { rewrite zlen_app, zlen_cons. lia. }
  cbn [mbind result_bind].
  assert (take (Z.to_nat (zlen (done ++ u :: todo) - (zlen done + 1))) (drop (Z.to_nat (zlen done + 1)) (done ++ u :: todo)) = todo) as ->.
  { replace (Z.to_nat (zlen done + 1)) with (length (done ++ [u])) by (rewrite length_app; unfold zlen; simpl; lia).
    change (done ++ u :: todo) with (done ++ [u] ++ todo). rewrite (app_assoc done [u] todo), drop_app_length.
    apply firstn_all2. rewrite !zlen_app. unfold zlen. simpl. lia. }
  f_equal.
  - unfold copy_at, zlen. rewrite Nat2Z.id, take_app_length. f_equal.
    assert (Nat.min (length (done ++ u :: todo) - length done) (length todo) = length todo) as ->.
    { rewrite length_app. simpl. lia. }
    rewrite firstn_all. f_equal. rewrite skipn_app. rewrite (skipn_all2 done) by lia. cbn [app].
    replace (length done + length todo - length done)%nat with (length todo) by lia. clear.
    revert u. induction todo as [|y todo IH]; intros u; [done|]. cbn [length drop].
    change (drop (length todo) (y :: todo) = [List.last (y :: todo) u]). rewrite IH.
    destruct todo as [|z todo]; [done|]. f_equal. change (List.last (y :: z :: todo) u) with (List.last (z :: todo) u).
    clear. revert z. induction todo as [|w todo IH]; intros z; [done|]. apply IH.
  - rewrite !zlen_app, zlen_cons. lia.
Qed.

(** Positions in lists. *)
Lemma zlen_snoc {A} (l : list A) x : zlen (l ++ [x]) = zlen l + 1.
Proof. by rewrite zlen_app. Qed.
Lemma index_middle {A} (l : list A) x l' : index (l ++ x :: l') (zlen l) = Ok x.
Proof.
  destruct (index_ok (l ++ x :: l') (zlen l)) as (y & Hy & Ly).
  { rewrite zlen_app, zlen_cons. pose proof (zlen_nonneg l). pose proof (zlen_nonneg l'). lia. }
  rewrite Hy. unfold zlen in Ly. rewrite Nat2Z.id, list_lookup_middle in Ly by done. by injection Ly as ->.
Qed.

Lemma extraEips_step u n i eips len jt :
  index eips i = Ok u -> ValidEip u = false ->
  extraEips (S n) i eips len jt =
    (tail ← slice (take (Z.to_nat len) eips) (i + 1) len; extraEips n (i + 1) (copy_at eips i tail) (len - 1) jt).
Proof. intros Hi Hu. cbn [extraEips]. rewrite Hi. cbn [mbind result_bind]. by rewrite EnableEIP_unknown. Qed.

(** An unknown EIP found beyond the slice cannot be cut out. *)
Lemma extraEips_late u n i eips len jt :
  index eips i = Ok u -> ValidEip u = false -> len <= i -> extraEips (S n) i eips len jt = Panic.
Proof.
  intros Hi Hu Hl. rewrite (extraEips_step u) by done.
  unfold slice. assert ((0 <=? i + 1) && (i + 1 <=? len) = false) as ->; [|done].
  apply andb_false_iff. right. lia.
Qed.
Lemma extraEips_last_two u D jt :
  ValidEip u = false -> extraEips 2 (zlen D) (D ++ [u; u]) (zlen (D ++ [u])) jt = Panic.
Proof.
  intros Hu. pose proof (zlen_nonneg D). rewrite zlen_snoc.
  rewrite (extraEips_step u) by (done || apply index_middle). assert (take (Z.to_nat (zlen D + 1)) (D ++ [u; u]) = D ++ [u]) as ->.
  { change (D ++ [u; u]) with (D ++ [u] ++ [u]). rewrite app_assoc.
    replace (Z.to_nat (zlen D + 1)) with (length (D ++ [u])) by (rewrite length_app; unfold zlen; simpl; lia).
    apply take_app_length. }
  assert (slice (D ++ [u]) (zlen D + 1) (zlen D + 1) = Ok []) as ->.
  { unfold slice. rewrite zlen_snoc.
    assert ((0 <=? zlen D + 1) && (zlen D + 1 <=? zlen D + 1) && (zlen D + 1 <=? zlen D + 1) = true) as -> by lia.
    by replace (zlen D + 1 - (zlen D + 1)) with 0 by lia. }
  cbn [mbind result_bind]. apply (extraEips_late u); [|done|lia].
  unfold copy_at. cbn [length]. rewrite Nat.min_0_r, Nat.add_0_r. cbn [take app].
  rewrite take_drop.
  rewrite <- zlen_snoc with (x := u). change (D ++ [u; u]) with (D ++ [u] ++ [u]). rewrite app_assoc. apply index_middle.
Qed.

(** C36: the extra EIPs of a configuration that are all known are all enabled, in
    order, and all kept. *)
Theorem extraEips_known eips jt :
  Forall (fun eip => ValidEip eip = true) eips ->
  extraEips (length eips) 0 eips (zlen eips) jt =
    Ok (fold_left (fun jt eip => fst (EnableEIP eip jt)) eips jt, eips).
Proof.
  intros Hv. pose proof (extraEips_run 0 [] eips [] (zlen eips) jt Hv) as Hx.
  rewrite Nat.add_0_r, !app_nil_r in Hx. cbn [app] in Hx. change (zlen []) with 0 in Hx. rewrite Hx. cbn [extraEips].
  unfold zlen. by rewrite Nat2Z.id, firstn_all.
Qed.
Lemma extraEips_known_witness :
  extraEips 2 0 [1344; 2200] 2 [] = Ok (fold_left (fun jt eip => fst (EnableEIP eip jt)) [1344; 2200] [], [1344; 2200]).
Proof. apply (extraEips_known [1344; 2200] []). repeat constructor. Defined.

(** C37: an unknown extra EIP is cut out of the list while the loop walks it, so
    the rest moves down by one under the loop.  Let everything before it be
    known.  Where it stands last, nothing else happens; where a known one
    follows it, that one is enabled once; where two or more follow, the first of
    them (known or not) is never enabled, though it stays listed, the known ones
    after it are enabled, and the last of them a second time.  Where a second
    unknown one stands last, the loop panics. *)
Theorem extraEips_unknown pre u rest jt :
  Forall (fun eip => ValidEip eip = true) pre -> ValidEip u = false ->
  Forall (fun eip => ValidEip eip = true) (tail rest) ->
  let eips := pre ++ u :: rest in
  (forall l, last rest = Some l -> ValidEip l = true ->
    extraEips (length eips) 0 eips (zlen eips) jt = Ok (fold_left enable (pre ++ tail rest ++ [l]) jt, pre ++ rest)) /\
  (rest = [] -> extraEips (length eips) 0 eips (zlen eips) jt = Ok (fold_left enable pre jt, pre)) /\
  (forall u2, ValidEip u2 = false ->
    extraEips (S (length eips)) 0 (eips ++ [u2]) (zlen (eips ++ [u2])) jt = Panic).
Proof.
  intros Hp Hu Ht eips.
  assert (forall extra, extraEips (length (eips ++ extra)) 0 (eips ++ extra) (zlen (eips ++ extra)) jt =
    extraEips (length (rest ++ extra)) (zlen pre + 1) (pre ++ (rest ++ extra) ++ [List.last (rest ++ extra) u])
      (zlen (pre ++ rest ++ extra)) (fold_left enable pre jt)) as Hcut.
  { intros extra. unfold eips. rewrite <- app_assoc. cbn [app].
    pose proof (extraEips_run (S (length (rest ++ extra))) [] pre (u :: rest ++ extra)
      (zlen (pre ++ u :: rest ++ extra)) jt Hp) as Hx.
    cbn [app] in Hx. change (zlen []) with 0 in Hx. rewrite <- extraEips_cut by done. rewrite <- Hx. f_equal.
    rewrite length_app. simpl. lia. }
  split_and!.
  - intros l Hl Hvl. specialize (Hcut []). rewrite !app_nil_r in Hcut. rewrite Hcut.
    destruct rest as [|e rest]; [done|]. cbn [tail length] in *.
    assert (List.last (e :: rest) u = l) as ->.
    { clear -Hl. revert e Hl. induction rest as [|x rest IH]; intros e Hl; [by injection Hl|]. by apply (IH x). }
    pose proof (extraEips_run 0 (pre ++ [e]) (rest ++ [l]) [] (zlen (pre ++ e :: rest)) (fold_left enable pre jt)) as Hx.
    rewrite Nat.add_0_r, app_nil_r, length_app, Nat.add_1_r, zlen_app in Hx. rewrite <- !app_assoc in Hx. cbn [app] in *.
    change (zlen [e]) with 1 in Hx. rewrite Hx by (by apply Forall_app; split; [|apply Forall_singleton]). 
    cbn [extraEips]. rewrite <- fold_left_app. f_equal. f_equal.
    unfold zlen. rewrite Nat2Z.id. change (e :: rest ++ [l]) with ((e :: rest) ++ [l]).
    by rewrite app_assoc, take_app_length.
  - intros ->. specialize (Hcut []). rewrite !app_nil_r in Hcut. rewrite Hcut. cbn [length extraEips app].
    unfold zlen. by rewrite Nat2Z.id, take_app_length.
  - intros u2 Hu2. specialize (Hcut [u2]). rewrite length_app, Nat.add_1_r in Hcut. rewrite Hcut.
    assert (List.last (rest ++ [u2]) u = u2) as -> by (by rewrite last_last).
    destruct rest as [|e rest]; cbn [app tail length] in *.
    + apply (extraEips_late u2); [|done|rewrite zlen_app; reflexivity].
      rewrite <- (zlen_snoc pre u2). change [u2; u2] with ([u2] ++ [u2]). rewrite app_assoc. apply index_middle.
    + pose proof (extraEips_run 2 (pre ++ [e]) rest [u2; u2] (zlen (pre ++ e :: rest ++ [u2])) (fold_left enable pre jt) Ht) as Hx.
      rewrite zlen_app in Hx. rewrite <- !app_assoc in Hx. cbn [app] in Hx.
      replace (S (length (rest ++ [u2]))) with (length rest + 2)%nat by (rewrite length_app; simpl; lia).
      replace (pre ++ e :: (rest ++ [u2]) ++ [u2]) with (pre ++ e :: rest ++ [u2; u2]) by (by rewrite <- (app_assoc rest)).
      change (zlen [e]) with 1 in Hx. rewrite Hx. set (D := pre ++ e :: rest).
      replace (pre ++ e :: rest ++ [u2; u2]) with (D ++ [u2; u2]) by (unfold D; by rewrite <- app_assoc).
      replace (pre ++ e :: rest ++ [u2]) with (D ++ [u2]) by (unfold D; by rewrite <- app_assoc).
      apply extraEips_last_two; done.
Qed.

(** 1, 2 and 3 are unknown: 2200 is passed over and 1884 enabled twice; a single
    EIP after the unknown one is enabled; two unknown ones panic. *)
Lemma extraEips_unknown_witness :
  extraEips 4 0 [1344; 1; 2200; 1884] 4 [] = Ok (fold_left enable [1344; 1884; 1884] [], [1344; 2200; 1884]) /\
  extraEips 2 0 [1; 1344] 2 [] = Ok (fold_left enable [1344] [], [1344]) /\
  extraEips 1 0 [1] 1 [] = Ok ([], []) /\
  extraEips 3 0 [1; 1344; 2] 3 [] = Panic.
Proof.
  split_and!.
  - refine (proj1 (extraEips_unknown [1344] 1 [2200; 1884] [] _ _ _) 1884 _ _); repeat constructor.
  - refine (proj1 (extraEips_unknown [] 1 [1344] [] _ _ _) 1344 _ _); repeat constructor.
  - refine (proj1 (proj2 (extraEips_unknown [] 1 [] [] _ _ _)) _); repeat constructor.
  - refine (proj2 (proj2 (extraEips_unknown [] 1 [1344] [] _ _ _)) 2 _); repeat constructor.
Defined.

(** ** Static calls of delegated accounts *)
Section Delegated.
Context {U : Uint256} {H : Host} {C : Crypto}.

(** In every table 0xEF is not an instruction. *)
Lemma jt_get_ef T r disabled T' jt :
  reachable_tables T -> NewEVMInterpreter T r disabled [] = Ok (T', (jt, [])) -> jt_get jt 0xef = Ok undefinedOp.
Proof.
  intros HT Hn. destruct (interpreter_table _ _ _ _ _ HT Hn) as [[Hl _ He] _].
  destruct (index_ok (jt : list operation) 0xef) as (x & Ex & Lx); [unfold zlen; rewrite Hl; lia|].
  unfold jt_get. rewrite Ex. f_equal. change (Z.to_nat 239) with 239%nat in Lx.
  assert (Some x = Some undefinedOp) as Hx by (rewrite <- Lx; exact He). by injection Hx.
Qed.

(** The first byte of a running designator stops the execution. *)
Lemma step_designator E jt K v t :
  jt_get jt 0xef = Ok undefinedOp -> Code (f_contract (fr v)) = AddressToDelegation t ->
  pc (fr v) = 0 -> f_stack (fr v) = [] -> 0 <= Gas (f_contract (fr v)) ->
  exists v', step E jt K v = Ok (Some ([], Some (ErrInvalidOpCode 0xef)), v') /\ evm v' = evm v.
Proof.
  destruct v as [e [p st m [ca cr se an code ch cadr inp gas val]]]. simpl. intros Hj -> -> -> Hg.
  set (D := AddressToDelegation t).
  assert (index D 0 = Ok 0xef) as Ho by done.
  exists (mkV e (mkFrame 0 [] m (mkContract ca cr se an D ch cadr inp (gas - 0) val))). split; [|reflexivity].
  unfold step, get_frame, mbind, ST_bind, st_gets. cbn -[index jt_get D]. 
  unfold GetOp. change (Z.to_nat 0) with O. cbn [Code f_contract fr].
  change (default STOP (D !! 0%nat)) with 0xef. change (0 <? zlen D) with true. cbn iota. rewrite Hj. cbn -[index D].
  change (stack_len [] <? 0) with false. change (maxStack 0 0 <? stack_len []) with false. cbn iota.
  unfold vUseGas, UseGas. cbn -[index D Z.ltb]. destruct (Z.ltb_spec gas 0); [lia|]. cbn -[index D].
  unfold opUndefined, get_frame, mbind, ST_bind, st_gets, st_lift. cbn -[index D]. rewrite Ho. reflexivity.
Qed.

Variables (E : evmE) (jt : JumpTable).
Hypothesis Hef : jt_get jt 0xef = Ok undefinedOp.

Lemma Run_designator fuel c i ro e t :
  Code c = AddressToDelegation t -> 0 <= Gas c ->
  exists e' c', Run E jt (S fuel) c i ro e = Ok (([], Some (ErrInvalidOpCode 0xef), c'), e') /\
    StateDB e' = StateDB e.
Proof.
  intros Hc Hg. unfold Run, run_with, mbind, ST_bind, st_modify, st_gets. cbn -[loop zlen].
  rewrite Hc. change (zlen (AddressToDelegation t) =? 0) with false.
  unfold in_frame. cbn [loop]. unfold mbind, ST_bind.
  destruct (ro && negb (readOnly e)); cbn -[loop step];
  match goal with |- context [step _ _ _ ?v] =>
    destruct (step_designator E jt (calls E (run_with (loop E jt fuel))) v t Hef Hc eq_refl eq_refl Hg) as (v' & -> & Ee)
  end; cbn; rewrite Ee; eexists _, _; (split; [reflexivity|done]).
Qed.

Lemma newContract_eq c o x gas e :
  exists k e', newContract c o x gas e = Ok (k, e') /\ StateDB e' = StateDB e /\ Gas k = gas.
Proof. unfold newContract, NewContract. destruct c; cbn; eexists _, _; split; try reflexivity; done. Qed.

Lemma answer_inv {A} (m : SDB A) s x : answer m s = Ok x -> exists s', m s = Ok (x, s').
Proof. unfold answer, mbind, result_bind. destruct (m s) as [[y s']| |]; intros [=]; subst; eauto. Qed.

Lemma StaticCall_designator fuel caller addr input gas e t :
  precompile (chainRules E) addr = None -> depth e <= 1024 -> 0 <= gas -> wf_db (StateDB e) ->
  answer (GetCode addr) (StateDB e) = Ok (AddressToDelegation t) ->
  exists e', EVM_StaticCall E jt (S fuel) caller addr input gas e =
    Ok (([], 0, Some (ErrInvalidOpCode 0xef)), e').
Proof.
  intros Hp Hd Hg W Hc. unfold EVM_StaticCall, StaticCall, get_depth, mbind, ST_bind, st_gets.
  change CallCreateDepth with 1024. destruct (Z.ltb_spec 1024 (depth e)); [lia|].
  assert (sdb Snapshot e = Ok (zlen (journal (StateDB e)), e)) as -> by (by destruct e).
  assert (sdb (AddBalance addr 0) e = Ok (tt, e)) as -> by (by destruct e).
  rewrite Hp. destruct (newContract_eq caller (AccountRef addr) (Some 0) gas e) as (k & e1 & -> & E1 & Hk).
  destruct (answer_inv (GetCodeHash addr) (StateDB e1) _ (answer_read _ _ _)) as [s1 Eh].
  assert (cached (StateDB e) s1) as K1.
  { rewrite <- E1. revert Eh. apply cached_read, caches_getCodeHash. }
  unfold sdb at 1. rewrite Eh. destruct (K1 W) as (W1 & J1 & L1).
  assert (answer (GetCode addr) s1 = Ok (AddressToDelegation t)) as Hc1.
  { rewrite <- Hc. symmetry. apply sdb_read_sle; [constructor|done]. }
  destruct (answer_inv _ _ _ Hc1) as [s2 Ec]. unfold sdb. cbn [StateDB set_StateDB]. rewrite Ec.
  assert (cached s1 s2) as K2 by (revert Ec; apply cached_read, caches_getCode).
  unfold runContract, mbind, ST_bind.
  match goal with |- context [Run E jt (S fuel) ?c input true ?e0] =>
    destruct (Run_designator fuel c input true e0 t eq_refl) as (e3 & c3 & -> & E3); [simpl; by rewrite Hk|] end.
  cbn in E3. cbn. unfold sdb, mbind, ST_bind. rewrite E3.
  assert (ext (StateDB e) s2) as X by (apply cached_ext; by etransitivity).
  destruct (RevertToSnapshot_ext (StateDB e) s2 W X) as (s3 & -> & _). cbn. eauto.
Qed.
End Delegated.

(** C33: a static call of an account with an EIP-7702 delegation never reaches
    the delegate: the 23 bytes of the designator are run as code, fail on their
    first byte as an invalid opcode, and all the gas is gone.  (A plain call
    runs the delegate's code.) *)
Theorem EVM_StaticCall_delegated {U : Uint256} {H : Host} {C : Crypto} E T r disabled T' jt fuel caller addr input gas e t :
  reachable_tables T -> NewEVMInterpreter T r disabled [] = Ok (T', (jt, [])) -> precompile (chainRules E) addr = None ->
  depth e <= 1024 -> 0 <= gas -> wf_db (StateDB e) ->
  answer (GetCode addr) (StateDB e) = Ok (AddressToDelegation t) ->
  exists e', EVM_StaticCall E jt (S fuel) caller addr input gas e =
    Ok (([], 0, Some (ErrInvalidOpCode 0xef)), e').
Proof. intros HT Hj. apply StaticCall_designator, (jt_get_ef _ _ _ _ _ HT Hj). Qed.

(** Account 77 delegates to account 5. *)
Lemma EVM_StaticCall_delegated_witness :
  exists e', @EVM_StaticCall uint256_Z host_demo crypto_demo demo_env demo_table 1 (AccountRef 1) 77 [] 5000
    (demo_evm (AddressToDelegation 5)) = Ok (([], 0, Some (ErrInvalidOpCode 0xef)), e').
Proof.
  apply (@EVM_StaticCall_delegated uint256_Z host_demo crypto_demo demo_env demo_tables demo_rules [] demo_tables' demo_table 0 (AccountRef 1) 77 [] 5000
    (demo_evm (AddressToDelegation 5)) 5).
  - exact demo_reachable.
  - exact demo_table_eq.
  - vm_compute. reflexivity.
  - simpl. lia.
  - lia.
  - apply wf_demo.
  - vm_compute. reflexivity.
Defined.

(** ** The handlers *)

(** C12: every instruction handler other than the calls and creations terminates,
    keeps the stack a stack of 256-bit words, and leaves the gas, the size of
    the memory and the price paid for it alone: these change only in the
    charging part of the loop. *)
Theorem execute_frame {U : Uint256} {UL : Uint256Laws} {H : Host} E K x v :
  is_call x = false -> wf_stack (f_stack (fr v)) ->
  match execute_sem E K x v with
  | Ok (_, v') =>
      wf_stack (f_stack (fr v')) /\ Gas (f_contract (fr v')) = Gas (f_contract (fr v)) /\
      Memory_Len (f_mem (fr v')) = Memory_Len (f_mem (fr v)) /\ lastGasCost (f_mem (fr v')) = lastGasCost (f_mem (fr v))
  | Panic => True
  | OutOfFuel => False
  end.
Proof.
  intros Hx W. pose proof (safe_execute E K x Hx v W) as Hs. unfold wp in Hs.
  destruct (execute_sem E K x v) as [[r v']| |]; try done. destruct Hs as (_ & W' & [Hg Hl Hp]). done.
Qed.

Definition demo_frame : frame :=
  mkFrame 0 [2 ^ 256 - 1; 5] NewMemory (SetCallCode (fst (NewContract (AccountRef 1) (AccountRef 2) None 10)) None 0 [1]).
Lemma execute_frame_witness :
  match @execute_sem uint256_Z host_demo demo_env (@calls uint256_Z host_demo crypto_demo demo_env (@Run uint256_Z host_demo crypto_demo demo_env demo_table 1)) X_opAdd
          (mkV (demo_evm []) demo_frame) with
  | Ok (_, v') => wf_stack (f_stack (fr v')) /\ Gas (f_contract (fr v')) = 10 /\
      Memory_Len (f_mem (fr v')) = 0 /\ lastGasCost (f_mem (fr v')) = 0
  | Panic => True
  | OutOfFuel => False
  end.
Proof.
  apply (@execute_frame uint256_Z uint256_Z_laws host_demo demo_env _ X_opAdd (mkV (demo_evm []) demo_frame)).
  - reflexivity.
  - repeat constructor; unfold is_u256; lia.
Defined.
